(** * Gravis UltraSound GF1 synthesizer core (src/hardware/gus.cpp)

    A shallow embedding of the voice state machine, the register file, the
    IRQ aggregator and the mix callback, followed by the properties stated
    for them.  Machine integers are [Z] with the wrap-around of their C++
    type written out; [float] and [double] are IEEE-754 binary32 and
    binary64 values computed with the operations of [SpecFloat]; undefined
    behaviour (an array read past its end, a float that does not fit the
    integer it is cast to) and a loop that never exits are [None]. *)

From Stdlib Require Import ZArith Lia Bool Floats.SpecFloat.
From stdpp Require Import base option list.

Local Open Scope Z_scope.

(** ** Machine integers *)

Module Int.

Definition u8 (z : Z) : Z := z mod 2 ^ 8.
Definition u16 (z : Z) : Z := z mod 2 ^ 16.
Definition u32 (z : Z) : Z := z mod 2 ^ 32.

Definition s8 (z : Z) : Z :=
  let r := z mod 2 ^ 8 in if r <? 2 ^ 7 then r else r - 2 ^ 8.
Definition s16 (z : Z) : Z :=
  let r := z mod 2 ^ 16 in if r <? 2 ^ 15 then r else r - 2 ^ 16.
Definition s32 (z : Z) : Z :=
  let r := z mod 2 ^ 32 in if r <? 2 ^ 31 then r else r - 2 ^ 32.

(** The C++ truth value of an integer. *)
Definition nz (z : Z) : bool := negb (z =? 0).

End Int.

Import Int.

(** ** Floating point: binary32 ([float]) and binary64 ([double]) *)

(** Conversion of a float to an integer type rounds toward zero; it is
    undefined for infinities and NaN. *)
Definition SFtrunc (x : spec_float) : option Z :=
  match x with
  | S754_zero _ => Some 0
  | S754_finite s m e =>
      let mag := if 0 <=? e then Z.pos m * 2 ^ e else Z.pos m / 2 ^ (- e) in
      Some (if s then - mag else mag)
  | S754_infinity _ | S754_nan => None
  end.

Module F32.

Definition prec : Z := 24.
Definition emax : Z := 128.

Definition of_Z (z : Z) : spec_float := binary_normalize prec emax z 0 false.
Definition add : spec_float -> spec_float -> spec_float := SFadd prec emax.
Definition sub : spec_float -> spec_float -> spec_float := SFsub prec emax.
Definition mul : spec_float -> spec_float -> spec_float := SFmul prec emax.
Definition div : spec_float -> spec_float -> spec_float := SFdiv prec emax.
Definition zero : spec_float := S754_zero false.
Definition one : spec_float := of_Z 1.

(** [std::max (a, b)] is [(a < b) ? b : a]; [std::min (a, b)] is
    [(b < a) ? b : a]. *)
Definition max (a b : spec_float) : spec_float := if SFltb a b then b else a.
Definition min (a b : spec_float) : spec_float := if SFltb b a then b else a.

(** [static_cast<int16_t>] of a float: defined only when the truncated
    value is an [int16_t]. *)
Definition to_int16 (x : spec_float) : option Z :=
  z ← SFtrunc x;
  if (- 2 ^ 15 <=? z) && (z <? 2 ^ 15) then Some z else None.

End F32.

Module F64.

Definition prec : Z := 53.
Definition emax : Z := 1024.

Definition of_Z (z : Z) : spec_float := binary_normalize prec emax z 0 false.
Definition add : spec_float -> spec_float -> spec_float := SFadd prec emax.
Definition sub : spec_float -> spec_float -> spec_float := SFsub prec emax.
Definition mul : spec_float -> spec_float -> spec_float := SFmul prec emax.
Definition div : spec_float -> spec_float -> spec_float := SFdiv prec emax.
Definition one : spec_float := of_Z 1.

(** A decimal literal [n / 10^k] whose numerator and denominator are exact
    doubles is their correctly rounded quotient. *)
Definition decimal (n : Z) (k : Z) : spec_float := div (of_Z n) (of_Z (10 ^ k)).

(** [static_cast<float>] of a double. *)
Definition to_float (x : spec_float) : spec_float :=
  match x with
  | S754_finite s m e => binary_round F32.prec F32.emax s m e
  | _ => x
  end.

(** [static_cast<uint32_t>] of a double. *)
Definition to_uint32 (x : spec_float) : option Z :=
  z ← SFtrunc x;
  if (0 <=? z) && (z <? 2 ^ 32) then Some z else None.

End F64.

(** ** Constants of gus.cpp *)

Definition WAVE_FRACT : Z := 9.
Definition WAVE_FRACT_MASK : Z := Z.shiftl 1 WAVE_FRACT - 1.
Definition WAVE_MSWMASK : Z := Z.shiftl 1 16 - 1.
Definition WAVE_LSWMASK : Z := Z.lxor 0xffffffff WAVE_MSWMASK.

Definition GUS_MIN_CHANNELS : Z := 14.
Definition GUS_MAX_CHANNELS : Z := 32.
Definition GUS_BUFFER_FRAMES : Z := 64.
Definition GUS_PAN_POSITIONS : Z := 16.
Definition GUS_VOLUME_POSITIONS : Z := 4096.
Definition GUS_VOLUME_SCALE_DIV : spec_float := F64.decimal 1002709201 9.
Definition GUS_RAM_SIZE : Z := 1048576.

Definition WCTRL_STOPPED : Z := 0x01.
Definition WCTRL_STOP : Z := 0x02.
Definition WCTRL_16BIT : Z := 0x04.
Definition WCTRL_LOOP : Z := 0x08.
Definition WCTRL_BIDIRECTIONAL : Z := 0x10.
Definition WCTRL_IRQENABLED : Z := 0x20.
Definition WCTRL_DECREASING : Z := 0x40.
Definition WCTRL_IRQPENDING : Z := 0x80.

Definition irqtable : list Z := [0; 2; 5; 3; 7; 11; 12; 15].
Definition dmatable : list Z := [0; 1; 3; 5; 6; 7; 0; 0].

(** ** Data model *)

Module Frame.
Record t : Type := mk { left : spec_float; right : spec_float }.
End Frame.

Record GusTimer : Type := {
  value : Z;
  reached : bool;
  raiseirq : bool;
  masked : bool;
  running : bool;
  delay : spec_float
}.

Record GFGus : Type := {
  gRegSelect : Z;
  gRegData : Z;
  gDramAddr : Z;
  gCurChannel : Z;
  DMAControl : Z;
  dmaAddr : Z;
  TimerControl : Z;
  SampControl : Z;
  mixControl : Z;
  ActiveChannels : Z;
  basefreq : Z;
  timers : GusTimer * GusTimer;
  rate : Z;
  peak_amplitude : Frame.t;
  portbase : Z;
  dma1 : Z;
  dma2 : Z;
  irq1 : Z;
  irq2 : Z;
  irqenabled : bool;
  ChangeIRQDMA : bool;
  IRQStatus : Z;
  ActiveMask : Z;
  IRQChan : Z;
  RampIRQ : Z;
  WaveIRQ : Z
}.

(** The two values of the member-function pointer [getSample], and of the
    counter pointer [generated_ms]. *)
Inductive get_sample_f : Type := GetSample8_f | GetSample16_f.
Inductive generated_ms_p : Type := generated_8bit_ms_p | generated_16bit_ms_p.

Record GUSChannels : Type := {
  getSample : get_sample_f;
  WaveStart : Z;
  WaveEnd : Z;
  WaveAddr : Z;
  WaveAdd : Z;
  WaveCtrl : Z;
  WaveFreq : Z;
  StartVolIndex : Z;
  EndVolIndex : Z;
  CurrentVolIndex : Z;
  IncrVolIndex : Z;
  RampRate : Z;
  RampCtrl : Z;
  PanPot : Z;
  channum : Z;
  irqmask : Z;
  generated_8bit_ms : Z;
  generated_16bit_ms : Z;
  generated_ms : generated_ms_p
}.

(** Calls made to the collaborators (interrupt controller, mixer channel,
    DMA controller), recorded newest first. *)
Inductive Effect : Type :=
| PIC_ActivateIRQ (irq : Z)
| PIC_AddEvent (val : Z) (after : spec_float)
| Mixer_SetFreq (hz : Z)
| Mixer_Enable (on : bool)
| Mixer_AddSamples_s16 (frames : list (Z * Z))
| DMA_Register_Callback (channel : Z) (installed : bool).

(** Everything with static storage duration except the voice array. *)
Record Globals : Type := {
  myGUS : GFGus;
  adlib_commandreg : Z;
  GUSRam : Z -> Z;
  effects : list Effect
}.

(** The emulated card: the globals, the array [guschan] of voices and
    [curchan], the selected voice ([None] is the null pointer). *)
Record State : Type := {
  globals : Globals;
  guschan : list GUSChannels;
  curchan : option nat
}.

(** *** Field updates *)

Definition set_value (x : _) (t : GusTimer) : GusTimer :=
  {| value := x; reached := reached t; raiseirq := raiseirq t;
     masked := masked t; running := running t; delay := delay t |}.

Definition set_reached (x : _) (t : GusTimer) : GusTimer :=
  {| value := value t; reached := x; raiseirq := raiseirq t;
     masked := masked t; running := running t; delay := delay t |}.

Definition set_raiseirq (x : _) (t : GusTimer) : GusTimer :=
  {| value := value t; reached := reached t; raiseirq := x;
     masked := masked t; running := running t; delay := delay t |}.

Definition set_masked (x : _) (t : GusTimer) : GusTimer :=
  {| value := value t; reached := reached t; raiseirq := raiseirq t;
     masked := x; running := running t; delay := delay t |}.

Definition set_running (x : _) (t : GusTimer) : GusTimer :=
  {| value := value t; reached := reached t; raiseirq := raiseirq t;
     masked := masked t; running := x; delay := delay t |}.

Definition set_delay (x : _) (t : GusTimer) : GusTimer :=
  {| value := value t; reached := reached t; raiseirq := raiseirq t;
     masked := masked t; running := running t; delay := x |}.

Definition set_gRegSelect (x : _) (g : GFGus) : GFGus :=
  {| gRegSelect := x; gRegData := gRegData g; gDramAddr := gDramAddr g;
     gCurChannel := gCurChannel g; DMAControl := DMAControl g;
     dmaAddr := dmaAddr g; TimerControl := TimerControl g;
     SampControl := SampControl g; mixControl := mixControl g;
     ActiveChannels := ActiveChannels g; basefreq := basefreq g;
     timers := timers g; rate := rate g; peak_amplitude := peak_amplitude g;
     portbase := portbase g; dma1 := dma1 g; dma2 := dma2 g; irq1 := irq1 g;
     irq2 := irq2 g; irqenabled := irqenabled g;
     ChangeIRQDMA := ChangeIRQDMA g; IRQStatus := IRQStatus g;
     ActiveMask := ActiveMask g; IRQChan := IRQChan g; RampIRQ := RampIRQ g;
     WaveIRQ := WaveIRQ g |}.

Definition set_gRegData (x : _) (g : GFGus) : GFGus :=
  {| gRegSelect := gRegSelect g; gRegData := x; gDramAddr := gDramAddr g;
     gCurChannel := gCurChannel g; DMAControl := DMAControl g;
     dmaAddr := dmaAddr g; TimerControl := TimerControl g;
     SampControl := SampControl g; mixControl := mixControl g;
     ActiveChannels := ActiveChannels g; basefreq := basefreq g;
     timers := timers g; rate := rate g; peak_amplitude := peak_amplitude g;
     portbase := portbase g; dma1 := dma1 g; dma2 := dma2 g; irq1 := irq1 g;
     irq2 := irq2 g; irqenabled := irqenabled g;
     ChangeIRQDMA := ChangeIRQDMA g; IRQStatus := IRQStatus g;
     ActiveMask := ActiveMask g; IRQChan := IRQChan g; RampIRQ := RampIRQ g;
     WaveIRQ := WaveIRQ g |}.

Definition set_gDramAddr (x : _) (g : GFGus) : GFGus :=
  {| gRegSelect := gRegSelect g; gRegData := gRegData g; gDramAddr := x;
     gCurChannel := gCurChannel g; DMAControl := DMAControl g;
     dmaAddr := dmaAddr g; TimerControl := TimerControl g;
     SampControl := SampControl g; mixControl := mixControl g;
     ActiveChannels := ActiveChannels g; basefreq := basefreq g;
     timers := timers g; rate := rate g; peak_amplitude := peak_amplitude g;
     portbase := portbase g; dma1 := dma1 g; dma2 := dma2 g; irq1 := irq1 g;
     irq2 := irq2 g; irqenabled := irqenabled g;
     ChangeIRQDMA := ChangeIRQDMA g; IRQStatus := IRQStatus g;
     ActiveMask := ActiveMask g; IRQChan := IRQChan g; RampIRQ := RampIRQ g;
     WaveIRQ := WaveIRQ g |}.

Definition set_gCurChannel (x : _) (g : GFGus) : GFGus :=
  {| gRegSelect := gRegSelect g; gRegData := gRegData g;
     gDramAddr := gDramAddr g; gCurChannel := x; DMAControl := DMAControl g;
     dmaAddr := dmaAddr g; TimerControl := TimerControl g;
     SampControl := SampControl g; mixControl := mixControl g;
     ActiveChannels := ActiveChannels g; basefreq := basefreq g;
     timers := timers g; rate := rate g; peak_amplitude := peak_amplitude g;
     portbase := portbase g; dma1 := dma1 g; dma2 := dma2 g; irq1 := irq1 g;
     irq2 := irq2 g; irqenabled := irqenabled g;
     ChangeIRQDMA := ChangeIRQDMA g; IRQStatus := IRQStatus g;
     ActiveMask := ActiveMask g; IRQChan := IRQChan g; RampIRQ := RampIRQ g;
     WaveIRQ := WaveIRQ g |}.

Definition set_DMAControl (x : _) (g : GFGus) : GFGus :=
  {| gRegSelect := gRegSelect g; gRegData := gRegData g;
     gDramAddr := gDramAddr g; gCurChannel := gCurChannel g; DMAControl := x;
     dmaAddr := dmaAddr g; TimerControl := TimerControl g;
     SampControl := SampControl g; mixControl := mixControl g;
     ActiveChannels := ActiveChannels g; basefreq := basefreq g;
     timers := timers g; rate := rate g; peak_amplitude := peak_amplitude g;
     portbase := portbase g; dma1 := dma1 g; dma2 := dma2 g; irq1 := irq1 g;
     irq2 := irq2 g; irqenabled := irqenabled g;
     ChangeIRQDMA := ChangeIRQDMA g; IRQStatus := IRQStatus g;
     ActiveMask := ActiveMask g; IRQChan := IRQChan g; RampIRQ := RampIRQ g;
     WaveIRQ := WaveIRQ g |}.

Definition set_dmaAddr (x : _) (g : GFGus) : GFGus :=
  {| gRegSelect := gRegSelect g; gRegData := gRegData g;
     gDramAddr := gDramAddr g; gCurChannel := gCurChannel g;
     DMAControl := DMAControl g; dmaAddr := x;
     TimerControl := TimerControl g; SampControl := SampControl g;
     mixControl := mixControl g; ActiveChannels := ActiveChannels g;
     basefreq := basefreq g; timers := timers g; rate := rate g;
     peak_amplitude := peak_amplitude g; portbase := portbase g;
     dma1 := dma1 g; dma2 := dma2 g; irq1 := irq1 g; irq2 := irq2 g;
     irqenabled := irqenabled g; ChangeIRQDMA := ChangeIRQDMA g;
     IRQStatus := IRQStatus g; ActiveMask := ActiveMask g;
     IRQChan := IRQChan g; RampIRQ := RampIRQ g; WaveIRQ := WaveIRQ g |}.

Definition set_TimerControl (x : _) (g : GFGus) : GFGus :=
  {| gRegSelect := gRegSelect g; gRegData := gRegData g;
     gDramAddr := gDramAddr g; gCurChannel := gCurChannel g;
     DMAControl := DMAControl g; dmaAddr := dmaAddr g; TimerControl := x;
     SampControl := SampControl g; mixControl := mixControl g;
     ActiveChannels := ActiveChannels g; basefreq := basefreq g;
     timers := timers g; rate := rate g; peak_amplitude := peak_amplitude g;
     portbase := portbase g; dma1 := dma1 g; dma2 := dma2 g; irq1 := irq1 g;
     irq2 := irq2 g; irqenabled := irqenabled g;
     ChangeIRQDMA := ChangeIRQDMA g; IRQStatus := IRQStatus g;
     ActiveMask := ActiveMask g; IRQChan := IRQChan g; RampIRQ := RampIRQ g;
     WaveIRQ := WaveIRQ g |}.

Definition set_SampControl (x : _) (g : GFGus) : GFGus :=
  {| gRegSelect := gRegSelect g; gRegData := gRegData g;
     gDramAddr := gDramAddr g; gCurChannel := gCurChannel g;
     DMAControl := DMAControl g; dmaAddr := dmaAddr g;
     TimerControl := TimerControl g; SampControl := x;
     mixControl := mixControl g; ActiveChannels := ActiveChannels g;
     basefreq := basefreq g; timers := timers g; rate := rate g;
     peak_amplitude := peak_amplitude g; portbase := portbase g;
     dma1 := dma1 g; dma2 := dma2 g; irq1 := irq1 g; irq2 := irq2 g;
     irqenabled := irqenabled g; ChangeIRQDMA := ChangeIRQDMA g;
     IRQStatus := IRQStatus g; ActiveMask := ActiveMask g;
     IRQChan := IRQChan g; RampIRQ := RampIRQ g; WaveIRQ := WaveIRQ g |}.

Definition set_mixControl (x : _) (g : GFGus) : GFGus :=
  {| gRegSelect := gRegSelect g; gRegData := gRegData g;
     gDramAddr := gDramAddr g; gCurChannel := gCurChannel g;
     DMAControl := DMAControl g; dmaAddr := dmaAddr g;
     TimerControl := TimerControl g; SampControl := SampControl g;
     mixControl := x; ActiveChannels := ActiveChannels g;
     basefreq := basefreq g; timers := timers g; rate := rate g;
     peak_amplitude := peak_amplitude g; portbase := portbase g;
     dma1 := dma1 g; dma2 := dma2 g; irq1 := irq1 g; irq2 := irq2 g;
     irqenabled := irqenabled g; ChangeIRQDMA := ChangeIRQDMA g;
     IRQStatus := IRQStatus g; ActiveMask := ActiveMask g;
     IRQChan := IRQChan g; RampIRQ := RampIRQ g; WaveIRQ := WaveIRQ g |}.

Definition set_ActiveChannels (x : _) (g : GFGus) : GFGus :=
  {| gRegSelect := gRegSelect g; gRegData := gRegData g;
     gDramAddr := gDramAddr g; gCurChannel := gCurChannel g;
     DMAControl := DMAControl g; dmaAddr := dmaAddr g;
     TimerControl := TimerControl g; SampControl := SampControl g;
     mixControl := mixControl g; ActiveChannels := x; basefreq := basefreq g;
     timers := timers g; rate := rate g; peak_amplitude := peak_amplitude g;
     portbase := portbase g; dma1 := dma1 g; dma2 := dma2 g; irq1 := irq1 g;
     irq2 := irq2 g; irqenabled := irqenabled g;
     ChangeIRQDMA := ChangeIRQDMA g; IRQStatus := IRQStatus g;
     ActiveMask := ActiveMask g; IRQChan := IRQChan g; RampIRQ := RampIRQ g;
     WaveIRQ := WaveIRQ g |}.

Definition set_basefreq (x : _) (g : GFGus) : GFGus :=
  {| gRegSelect := gRegSelect g; gRegData := gRegData g;
     gDramAddr := gDramAddr g; gCurChannel := gCurChannel g;
     DMAControl := DMAControl g; dmaAddr := dmaAddr g;
     TimerControl := TimerControl g; SampControl := SampControl g;
     mixControl := mixControl g; ActiveChannels := ActiveChannels g;
     basefreq := x; timers := timers g; rate := rate g;
     peak_amplitude := peak_amplitude g; portbase := portbase g;
     dma1 := dma1 g; dma2 := dma2 g; irq1 := irq1 g; irq2 := irq2 g;
     irqenabled := irqenabled g; ChangeIRQDMA := ChangeIRQDMA g;
     IRQStatus := IRQStatus g; ActiveMask := ActiveMask g;
     IRQChan := IRQChan g; RampIRQ := RampIRQ g; WaveIRQ := WaveIRQ g |}.

Definition set_timers (x : _) (g : GFGus) : GFGus :=
  {| gRegSelect := gRegSelect g; gRegData := gRegData g;
     gDramAddr := gDramAddr g; gCurChannel := gCurChannel g;
     DMAControl := DMAControl g; dmaAddr := dmaAddr g;
     TimerControl := TimerControl g; SampControl := SampControl g;
     mixControl := mixControl g; ActiveChannels := ActiveChannels g;
     basefreq := basefreq g; timers := x; rate := rate g;
     peak_amplitude := peak_amplitude g; portbase := portbase g;
     dma1 := dma1 g; dma2 := dma2 g; irq1 := irq1 g; irq2 := irq2 g;
     irqenabled := irqenabled g; ChangeIRQDMA := ChangeIRQDMA g;
     IRQStatus := IRQStatus g; ActiveMask := ActiveMask g;
     IRQChan := IRQChan g; RampIRQ := RampIRQ g; WaveIRQ := WaveIRQ g |}.

Definition set_peak_amplitude (x : _) (g : GFGus) : GFGus :=
  {| gRegSelect := gRegSelect g; gRegData := gRegData g;
     gDramAddr := gDramAddr g; gCurChannel := gCurChannel g;
     DMAControl := DMAControl g; dmaAddr := dmaAddr g;
     TimerControl := TimerControl g; SampControl := SampControl g;
     mixControl := mixControl g; ActiveChannels := ActiveChannels g;
     basefreq := basefreq g; timers := timers g; rate := rate g;
     peak_amplitude := x; portbase := portbase g; dma1 := dma1 g;
     dma2 := dma2 g; irq1 := irq1 g; irq2 := irq2 g;
     irqenabled := irqenabled g; ChangeIRQDMA := ChangeIRQDMA g;
     IRQStatus := IRQStatus g; ActiveMask := ActiveMask g;
     IRQChan := IRQChan g; RampIRQ := RampIRQ g; WaveIRQ := WaveIRQ g |}.

Definition set_dma1 (x : _) (g : GFGus) : GFGus :=
  {| gRegSelect := gRegSelect g; gRegData := gRegData g;
     gDramAddr := gDramAddr g; gCurChannel := gCurChannel g;
     DMAControl := DMAControl g; dmaAddr := dmaAddr g;
     TimerControl := TimerControl g; SampControl := SampControl g;
     mixControl := mixControl g; ActiveChannels := ActiveChannels g;
     basefreq := basefreq g; timers := timers g; rate := rate g;
     peak_amplitude := peak_amplitude g; portbase := portbase g; dma1 := x;
     dma2 := dma2 g; irq1 := irq1 g; irq2 := irq2 g;
     irqenabled := irqenabled g; ChangeIRQDMA := ChangeIRQDMA g;
     IRQStatus := IRQStatus g; ActiveMask := ActiveMask g;
     IRQChan := IRQChan g; RampIRQ := RampIRQ g; WaveIRQ := WaveIRQ g |}.

Definition set_irq1 (x : _) (g : GFGus) : GFGus :=
  {| gRegSelect := gRegSelect g; gRegData := gRegData g;
     gDramAddr := gDramAddr g; gCurChannel := gCurChannel g;
     DMAControl := DMAControl g; dmaAddr := dmaAddr g;
     TimerControl := TimerControl g; SampControl := SampControl g;
     mixControl := mixControl g; ActiveChannels := ActiveChannels g;
     basefreq := basefreq g; timers := timers g; rate := rate g;
     peak_amplitude := peak_amplitude g; portbase := portbase g;
     dma1 := dma1 g; dma2 := dma2 g; irq1 := x; irq2 := irq2 g;
     irqenabled := irqenabled g; ChangeIRQDMA := ChangeIRQDMA g;
     IRQStatus := IRQStatus g; ActiveMask := ActiveMask g;
     IRQChan := IRQChan g; RampIRQ := RampIRQ g; WaveIRQ := WaveIRQ g |}.

Definition set_irqenabled (x : _) (g : GFGus) : GFGus :=
  {| gRegSelect := gRegSelect g; gRegData := gRegData g;
     gDramAddr := gDramAddr g; gCurChannel := gCurChannel g;
     DMAControl := DMAControl g; dmaAddr := dmaAddr g;
     TimerControl := TimerControl g; SampControl := SampControl g;
     mixControl := mixControl g; ActiveChannels := ActiveChannels g;
     basefreq := basefreq g; timers := timers g; rate := rate g;
     peak_amplitude := peak_amplitude g; portbase := portbase g;
     dma1 := dma1 g; dma2 := dma2 g; irq1 := irq1 g; irq2 := irq2 g;
     irqenabled := x; ChangeIRQDMA := ChangeIRQDMA g;
     IRQStatus := IRQStatus g; ActiveMask := ActiveMask g;
     IRQChan := IRQChan g; RampIRQ := RampIRQ g; WaveIRQ := WaveIRQ g |}.

Definition set_ChangeIRQDMA (x : _) (g : GFGus) : GFGus :=
  {| gRegSelect := gRegSelect g; gRegData := gRegData g;
     gDramAddr := gDramAddr g; gCurChannel := gCurChannel g;
     DMAControl := DMAControl g; dmaAddr := dmaAddr g;
     TimerControl := TimerControl g; SampControl := SampControl g;
     mixControl := mixControl g; ActiveChannels := ActiveChannels g;
     basefreq := basefreq g; timers := timers g; rate := rate g;
     peak_amplitude := peak_amplitude g; portbase := portbase g;
     dma1 := dma1 g; dma2 := dma2 g; irq1 := irq1 g; irq2 := irq2 g;
     irqenabled := irqenabled g; ChangeIRQDMA := x; IRQStatus := IRQStatus g;
     ActiveMask := ActiveMask g; IRQChan := IRQChan g; RampIRQ := RampIRQ g;
     WaveIRQ := WaveIRQ g |}.

Definition set_IRQStatus (x : _) (g : GFGus) : GFGus :=
  {| gRegSelect := gRegSelect g; gRegData := gRegData g;
     gDramAddr := gDramAddr g; gCurChannel := gCurChannel g;
     DMAControl := DMAControl g; dmaAddr := dmaAddr g;
     TimerControl := TimerControl g; SampControl := SampControl g;
     mixControl := mixControl g; ActiveChannels := ActiveChannels g;
     basefreq := basefreq g; timers := timers g; rate := rate g;
     peak_amplitude := peak_amplitude g; portbase := portbase g;
     dma1 := dma1 g; dma2 := dma2 g; irq1 := irq1 g; irq2 := irq2 g;
     irqenabled := irqenabled g; ChangeIRQDMA := ChangeIRQDMA g;
     IRQStatus := x; ActiveMask := ActiveMask g; IRQChan := IRQChan g;
     RampIRQ := RampIRQ g; WaveIRQ := WaveIRQ g |}.

Definition set_ActiveMask (x : _) (g : GFGus) : GFGus :=
  {| gRegSelect := gRegSelect g; gRegData := gRegData g;
     gDramAddr := gDramAddr g; gCurChannel := gCurChannel g;
     DMAControl := DMAControl g; dmaAddr := dmaAddr g;
     TimerControl := TimerControl g; SampControl := SampControl g;
     mixControl := mixControl g; ActiveChannels := ActiveChannels g;
     basefreq := basefreq g; timers := timers g; rate := rate g;
     peak_amplitude := peak_amplitude g; portbase := portbase g;
     dma1 := dma1 g; dma2 := dma2 g; irq1 := irq1 g; irq2 := irq2 g;
     irqenabled := irqenabled g; ChangeIRQDMA := ChangeIRQDMA g;
     IRQStatus := IRQStatus g; ActiveMask := x; IRQChan := IRQChan g;
     RampIRQ := RampIRQ g; WaveIRQ := WaveIRQ g |}.

Definition set_IRQChan (x : _) (g : GFGus) : GFGus :=
  {| gRegSelect := gRegSelect g; gRegData := gRegData g;
     gDramAddr := gDramAddr g; gCurChannel := gCurChannel g;
     DMAControl := DMAControl g; dmaAddr := dmaAddr g;
     TimerControl := TimerControl g; SampControl := SampControl g;
     mixControl := mixControl g; ActiveChannels := ActiveChannels g;
     basefreq := basefreq g; timers := timers g; rate := rate g;
     peak_amplitude := peak_amplitude g; portbase := portbase g;
     dma1 := dma1 g; dma2 := dma2 g; irq1 := irq1 g; irq2 := irq2 g;
     irqenabled := irqenabled g; ChangeIRQDMA := ChangeIRQDMA g;
     IRQStatus := IRQStatus g; ActiveMask := ActiveMask g; IRQChan := x;
     RampIRQ := RampIRQ g; WaveIRQ := WaveIRQ g |}.

Definition set_RampIRQ (x : _) (g : GFGus) : GFGus :=
  {| gRegSelect := gRegSelect g; gRegData := gRegData g;
     gDramAddr := gDramAddr g; gCurChannel := gCurChannel g;
     DMAControl := DMAControl g; dmaAddr := dmaAddr g;
     TimerControl := TimerControl g; SampControl := SampControl g;
     mixControl := mixControl g; ActiveChannels := ActiveChannels g;
     basefreq := basefreq g; timers := timers g; rate := rate g;
     peak_amplitude := peak_amplitude g; portbase := portbase g;
     dma1 := dma1 g; dma2 := dma2 g; irq1 := irq1 g; irq2 := irq2 g;
     irqenabled := irqenabled g; ChangeIRQDMA := ChangeIRQDMA g;
     IRQStatus := IRQStatus g; ActiveMask := ActiveMask g;
     IRQChan := IRQChan g; RampIRQ := x; WaveIRQ := WaveIRQ g |}.

Definition set_WaveIRQ (x : _) (g : GFGus) : GFGus :=
  {| gRegSelect := gRegSelect g; gRegData := gRegData g;
     gDramAddr := gDramAddr g; gCurChannel := gCurChannel g;
     DMAControl := DMAControl g; dmaAddr := dmaAddr g;
     TimerControl := TimerControl g; SampControl := SampControl g;
     mixControl := mixControl g; ActiveChannels := ActiveChannels g;
     basefreq := basefreq g; timers := timers g; rate := rate g;
     peak_amplitude := peak_amplitude g; portbase := portbase g;
     dma1 := dma1 g; dma2 := dma2 g; irq1 := irq1 g; irq2 := irq2 g;
     irqenabled := irqenabled g; ChangeIRQDMA := ChangeIRQDMA g;
     IRQStatus := IRQStatus g; ActiveMask := ActiveMask g;
     IRQChan := IRQChan g; RampIRQ := RampIRQ g; WaveIRQ := x |}.

Definition set_getSample (x : _) (v : GUSChannels) : GUSChannels :=
  {| getSample := x; WaveStart := WaveStart v; WaveEnd := WaveEnd v;
     WaveAddr := WaveAddr v; WaveAdd := WaveAdd v; WaveCtrl := WaveCtrl v;
     WaveFreq := WaveFreq v; StartVolIndex := StartVolIndex v;
     EndVolIndex := EndVolIndex v; CurrentVolIndex := CurrentVolIndex v;
     IncrVolIndex := IncrVolIndex v; RampRate := RampRate v;
     RampCtrl := RampCtrl v; PanPot := PanPot v; channum := channum v;
     irqmask := irqmask v; generated_8bit_ms := generated_8bit_ms v;
     generated_16bit_ms := generated_16bit_ms v;
     generated_ms := generated_ms v |}.

Definition set_WaveStart (x : _) (v : GUSChannels) : GUSChannels :=
  {| getSample := getSample v; WaveStart := x; WaveEnd := WaveEnd v;
     WaveAddr := WaveAddr v; WaveAdd := WaveAdd v; WaveCtrl := WaveCtrl v;
     WaveFreq := WaveFreq v; StartVolIndex := StartVolIndex v;
     EndVolIndex := EndVolIndex v; CurrentVolIndex := CurrentVolIndex v;
     IncrVolIndex := IncrVolIndex v; RampRate := RampRate v;
     RampCtrl := RampCtrl v; PanPot := PanPot v; channum := channum v;
     irqmask := irqmask v; generated_8bit_ms := generated_8bit_ms v;
     generated_16bit_ms := generated_16bit_ms v;
     generated_ms := generated_ms v |}.

Definition set_WaveEnd (x : _) (v : GUSChannels) : GUSChannels :=
  {| getSample := getSample v; WaveStart := WaveStart v; WaveEnd := x;
     WaveAddr := WaveAddr v; WaveAdd := WaveAdd v; WaveCtrl := WaveCtrl v;
     WaveFreq := WaveFreq v; StartVolIndex := StartVolIndex v;
     EndVolIndex := EndVolIndex v; CurrentVolIndex := CurrentVolIndex v;
     IncrVolIndex := IncrVolIndex v; RampRate := RampRate v;
     RampCtrl := RampCtrl v; PanPot := PanPot v; channum := channum v;
     irqmask := irqmask v; generated_8bit_ms := generated_8bit_ms v;
     generated_16bit_ms := generated_16bit_ms v;
     generated_ms := generated_ms v |}.

Definition set_WaveAddr (x : _) (v : GUSChannels) : GUSChannels :=
  {| getSample := getSample v; WaveStart := WaveStart v;
     WaveEnd := WaveEnd v; WaveAddr := x; WaveAdd := WaveAdd v;
     WaveCtrl := WaveCtrl v; WaveFreq := WaveFreq v;
     StartVolIndex := StartVolIndex v; EndVolIndex := EndVolIndex v;
     CurrentVolIndex := CurrentVolIndex v; IncrVolIndex := IncrVolIndex v;
     RampRate := RampRate v; RampCtrl := RampCtrl v; PanPot := PanPot v;
     channum := channum v; irqmask := irqmask v;
     generated_8bit_ms := generated_8bit_ms v;
     generated_16bit_ms := generated_16bit_ms v;
     generated_ms := generated_ms v |}.

Definition set_WaveAdd (x : _) (v : GUSChannels) : GUSChannels :=
  {| getSample := getSample v; WaveStart := WaveStart v;
     WaveEnd := WaveEnd v; WaveAddr := WaveAddr v; WaveAdd := x;
     WaveCtrl := WaveCtrl v; WaveFreq := WaveFreq v;
     StartVolIndex := StartVolIndex v; EndVolIndex := EndVolIndex v;
     CurrentVolIndex := CurrentVolIndex v; IncrVolIndex := IncrVolIndex v;
     RampRate := RampRate v; RampCtrl := RampCtrl v; PanPot := PanPot v;
     channum := channum v; irqmask := irqmask v;
     generated_8bit_ms := generated_8bit_ms v;
     generated_16bit_ms := generated_16bit_ms v;
     generated_ms := generated_ms v |}.

Definition set_WaveCtrl (x : _) (v : GUSChannels) : GUSChannels :=
  {| getSample := getSample v; WaveStart := WaveStart v;
     WaveEnd := WaveEnd v; WaveAddr := WaveAddr v; WaveAdd := WaveAdd v;
     WaveCtrl := x; WaveFreq := WaveFreq v; StartVolIndex := StartVolIndex v;
     EndVolIndex := EndVolIndex v; CurrentVolIndex := CurrentVolIndex v;
     IncrVolIndex := IncrVolIndex v; RampRate := RampRate v;
     RampCtrl := RampCtrl v; PanPot := PanPot v; channum := channum v;
     irqmask := irqmask v; generated_8bit_ms := generated_8bit_ms v;
     generated_16bit_ms := generated_16bit_ms v;
     generated_ms := generated_ms v |}.

Definition set_WaveFreq (x : _) (v : GUSChannels) : GUSChannels :=
  {| getSample := getSample v; WaveStart := WaveStart v;
     WaveEnd := WaveEnd v; WaveAddr := WaveAddr v; WaveAdd := WaveAdd v;
     WaveCtrl := WaveCtrl v; WaveFreq := x; StartVolIndex := StartVolIndex v;
     EndVolIndex := EndVolIndex v; CurrentVolIndex := CurrentVolIndex v;
     IncrVolIndex := IncrVolIndex v; RampRate := RampRate v;
     RampCtrl := RampCtrl v; PanPot := PanPot v; channum := channum v;
     irqmask := irqmask v; generated_8bit_ms := generated_8bit_ms v;
     generated_16bit_ms := generated_16bit_ms v;
     generated_ms := generated_ms v |}.

Definition set_StartVolIndex (x : _) (v : GUSChannels) : GUSChannels :=
  {| getSample := getSample v; WaveStart := WaveStart v;
     WaveEnd := WaveEnd v; WaveAddr := WaveAddr v; WaveAdd := WaveAdd v;
     WaveCtrl := WaveCtrl v; WaveFreq := WaveFreq v; StartVolIndex := x;
     EndVolIndex := EndVolIndex v; CurrentVolIndex := CurrentVolIndex v;
     IncrVolIndex := IncrVolIndex v; RampRate := RampRate v;
     RampCtrl := RampCtrl v; PanPot := PanPot v; channum := channum v;
     irqmask := irqmask v; generated_8bit_ms := generated_8bit_ms v;
     generated_16bit_ms := generated_16bit_ms v;
     generated_ms := generated_ms v |}.

Definition set_EndVolIndex (x : _) (v : GUSChannels) : GUSChannels :=
  {| getSample := getSample v; WaveStart := WaveStart v;
     WaveEnd := WaveEnd v; WaveAddr := WaveAddr v; WaveAdd := WaveAdd v;
     WaveCtrl := WaveCtrl v; WaveFreq := WaveFreq v;
     StartVolIndex := StartVolIndex v; EndVolIndex := x;
     CurrentVolIndex := CurrentVolIndex v; IncrVolIndex := IncrVolIndex v;
     RampRate := RampRate v; RampCtrl := RampCtrl v; PanPot := PanPot v;
     channum := channum v; irqmask := irqmask v;
     generated_8bit_ms := generated_8bit_ms v;
     generated_16bit_ms := generated_16bit_ms v;
     generated_ms := generated_ms v |}.

Definition set_CurrentVolIndex (x : _) (v : GUSChannels) : GUSChannels :=
  {| getSample := getSample v; WaveStart := WaveStart v;
     WaveEnd := WaveEnd v; WaveAddr := WaveAddr v; WaveAdd := WaveAdd v;
     WaveCtrl := WaveCtrl v; WaveFreq := WaveFreq v;
     StartVolIndex := StartVolIndex v; EndVolIndex := EndVolIndex v;
     CurrentVolIndex := x; IncrVolIndex := IncrVolIndex v;
     RampRate := RampRate v; RampCtrl := RampCtrl v; PanPot := PanPot v;
     channum := channum v; irqmask := irqmask v;
     generated_8bit_ms := generated_8bit_ms v;
     generated_16bit_ms := generated_16bit_ms v;
     generated_ms := generated_ms v |}.

Definition set_IncrVolIndex (x : _) (v : GUSChannels) : GUSChannels :=
  {| getSample := getSample v; WaveStart := WaveStart v;
     WaveEnd := WaveEnd v; WaveAddr := WaveAddr v; WaveAdd := WaveAdd v;
     WaveCtrl := WaveCtrl v; WaveFreq := WaveFreq v;
     StartVolIndex := StartVolIndex v; EndVolIndex := EndVolIndex v;
     CurrentVolIndex := CurrentVolIndex v; IncrVolIndex := x;
     RampRate := RampRate v; RampCtrl := RampCtrl v; PanPot := PanPot v;
     channum := channum v; irqmask := irqmask v;
     generated_8bit_ms := generated_8bit_ms v;
     generated_16bit_ms := generated_16bit_ms v;
     generated_ms := generated_ms v |}.

Definition set_RampRate (x : _) (v : GUSChannels) : GUSChannels :=
  {| getSample := getSample v; WaveStart := WaveStart v;
     WaveEnd := WaveEnd v; WaveAddr := WaveAddr v; WaveAdd := WaveAdd v;
     WaveCtrl := WaveCtrl v; WaveFreq := WaveFreq v;
     StartVolIndex := StartVolIndex v; EndVolIndex := EndVolIndex v;
     CurrentVolIndex := CurrentVolIndex v; IncrVolIndex := IncrVolIndex v;
     RampRate := x; RampCtrl := RampCtrl v; PanPot := PanPot v;
     channum := channum v; irqmask := irqmask v;
     generated_8bit_ms := generated_8bit_ms v;
     generated_16bit_ms := generated_16bit_ms v;
     generated_ms := generated_ms v |}.

Definition set_RampCtrl (x : _) (v : GUSChannels) : GUSChannels :=
  {| getSample := getSample v; WaveStart := WaveStart v;
     WaveEnd := WaveEnd v; WaveAddr := WaveAddr v; WaveAdd := WaveAdd v;
     WaveCtrl := WaveCtrl v; WaveFreq := WaveFreq v;
     StartVolIndex := StartVolIndex v; EndVolIndex := EndVolIndex v;
     CurrentVolIndex := CurrentVolIndex v; IncrVolIndex := IncrVolIndex v;
     RampRate := RampRate v; RampCtrl := x; PanPot := PanPot v;
     channum := channum v; irqmask := irqmask v;
     generated_8bit_ms := generated_8bit_ms v;
     generated_16bit_ms := generated_16bit_ms v;
     generated_ms := generated_ms v |}.

Definition set_PanPot (x : _) (v : GUSChannels) : GUSChannels :=
  {| getSample := getSample v; WaveStart := WaveStart v;
     WaveEnd := WaveEnd v; WaveAddr := WaveAddr v; WaveAdd := WaveAdd v;
     WaveCtrl := WaveCtrl v; WaveFreq := WaveFreq v;
     StartVolIndex := StartVolIndex v; EndVolIndex := EndVolIndex v;
     CurrentVolIndex := CurrentVolIndex v; IncrVolIndex := IncrVolIndex v;
     RampRate := RampRate v; RampCtrl := RampCtrl v; PanPot := x;
     channum := channum v; irqmask := irqmask v;
     generated_8bit_ms := generated_8bit_ms v;
     generated_16bit_ms := generated_16bit_ms v;
     generated_ms := generated_ms v |}.

Definition set_generated_8bit_ms (x : _) (v : GUSChannels) : GUSChannels :=
  {| getSample := getSample v; WaveStart := WaveStart v;
     WaveEnd := WaveEnd v; WaveAddr := WaveAddr v; WaveAdd := WaveAdd v;
     WaveCtrl := WaveCtrl v; WaveFreq := WaveFreq v;
     StartVolIndex := StartVolIndex v; EndVolIndex := EndVolIndex v;
     CurrentVolIndex := CurrentVolIndex v; IncrVolIndex := IncrVolIndex v;
     RampRate := RampRate v; RampCtrl := RampCtrl v; PanPot := PanPot v;
     channum := channum v; irqmask := irqmask v; generated_8bit_ms := x;
     generated_16bit_ms := generated_16bit_ms v;
     generated_ms := generated_ms v |}.

Definition set_generated_16bit_ms (x : _) (v : GUSChannels) : GUSChannels :=
  {| getSample := getSample v; WaveStart := WaveStart v;
     WaveEnd := WaveEnd v; WaveAddr := WaveAddr v; WaveAdd := WaveAdd v;
     WaveCtrl := WaveCtrl v; WaveFreq := WaveFreq v;
     StartVolIndex := StartVolIndex v; EndVolIndex := EndVolIndex v;
     CurrentVolIndex := CurrentVolIndex v; IncrVolIndex := IncrVolIndex v;
     RampRate := RampRate v; RampCtrl := RampCtrl v; PanPot := PanPot v;
     channum := channum v; irqmask := irqmask v;
     generated_8bit_ms := generated_8bit_ms v; generated_16bit_ms := x;
     generated_ms := generated_ms v |}.

Definition set_generated_ms (x : _) (v : GUSChannels) : GUSChannels :=
  {| getSample := getSample v; WaveStart := WaveStart v;
     WaveEnd := WaveEnd v; WaveAddr := WaveAddr v; WaveAdd := WaveAdd v;
     WaveCtrl := WaveCtrl v; WaveFreq := WaveFreq v;
     StartVolIndex := StartVolIndex v; EndVolIndex := EndVolIndex v;
     CurrentVolIndex := CurrentVolIndex v; IncrVolIndex := IncrVolIndex v;
     RampRate := RampRate v; RampCtrl := RampCtrl v; PanPot := PanPot v;
     channum := channum v; irqmask := irqmask v;
     generated_8bit_ms := generated_8bit_ms v;
     generated_16bit_ms := generated_16bit_ms v; generated_ms := x |}.

Definition set_myGUS (x : GFGus) (G : Globals) : Globals :=
  {| myGUS := x; adlib_commandreg := adlib_commandreg G;
     GUSRam := GUSRam G; effects := effects G |}.

Definition set_adlib_commandreg (x : Z) (G : Globals) : Globals :=
  {| myGUS := myGUS G; adlib_commandreg := x;
     GUSRam := GUSRam G; effects := effects G |}.

Definition set_GUSRam (x : Z -> Z) (G : Globals) : Globals :=
  {| myGUS := myGUS G; adlib_commandreg := adlib_commandreg G;
     GUSRam := x; effects := effects G |}.

Definition emit (e : Effect) (G : Globals) : Globals :=
  {| myGUS := myGUS G; adlib_commandreg := adlib_commandreg G;
     GUSRam := GUSRam G; effects := e :: effects G |}.

(** [myGUS.field = x] *)
Definition upd (f : GFGus -> GFGus) (G : Globals) : Globals :=
  set_myGUS (f (myGUS G)) G.

(** The configuration the constructor stores in [myGUS]. *)
Definition set_portbase_new (base dma_val irq_val : Z) (g : GFGus) : GFGus :=
  {| gRegSelect := gRegSelect g; gRegData := gRegData g;
     gDramAddr := gDramAddr g; gCurChannel := gCurChannel g;
     DMAControl := DMAControl g; dmaAddr := dmaAddr g;
     TimerControl := TimerControl g; SampControl := SampControl g;
     mixControl := mixControl g; ActiveChannels := ActiveChannels g;
     basefreq := basefreq g; timers := timers g; rate := rate g;
     peak_amplitude := peak_amplitude g; portbase := base;
     dma1 := u8 dma_val; dma2 := u8 dma_val; irq1 := u8 irq_val;
     irq2 := u8 irq_val; irqenabled := irqenabled g;
     ChangeIRQDMA := ChangeIRQDMA g; IRQStatus := IRQStatus g;
     ActiveMask := ActiveMask g; IRQChan := IRQChan g; RampIRQ := RampIRQ g;
     WaveIRQ := WaveIRQ g |}.

Definition set_globals (x : Globals) (s : State) : State :=
  {| globals := x; guschan := guschan s; curchan := curchan s |}.

Definition set_guschan (x : list GUSChannels) (s : State) : State :=
  {| globals := globals s; guschan := x; curchan := curchan s |}.

Definition set_curchan (x : option nat) (s : State) : State :=
  {| globals := globals s; guschan := guschan s; curchan := x |}.

(** ** Tables *)

(** Modelled from the spec: [ceil_udivide] (include/support.h) is not among
    the sources; the spec gives its result as [ceil (x / y)] ("derived from
    a 16-bit frequency register as ceil(freq/2)", "ceil(scale / divider)").
    Both call sites pass a non-zero divisor. *)
Definition ceil_udivide (x y : Z) : Z := (x + y - 1) / y.

(** [PopulateVolScalars]: [out] after [steps] divisions; entry [i] of the
    table holds [out] after [4095 - i] of them, entry 0 is overwritten
    with zero. *)
Fixpoint vol_out (steps : nat) : spec_float :=
  match steps with
  | O => F64.one
  | S n => F64.div (vol_out n) GUS_VOLUME_SCALE_DIV
  end.

(** [vol_scalars[i]]; [std::array::operator[]] is unchecked. *)
Definition vol_scalars (i : Z) : option spec_float :=
  if i =? 0 then Some F32.zero
  else if (0 <? i) && (i <? GUS_VOLUME_POSITIONS)
  then Some (F64.to_float (vol_out (Z.to_nat (GUS_VOLUME_POSITIONS - 1 - i))))
  else None.

(** [M_PI] as a double: 0x400921FB54442D18. *)
Definition M_PI : spec_float := S754_finite false 0x1921FB54442D18 (-51).

Section Tables.

(** The C library's [cos] and [sin] on doubles. *)
Variable cos sin : spec_float -> spec_float.

(** [PopulatePanScalars]: the pair stored at position [pos]. *)
Definition pan_entry (pos : Z) : Frame.t :=
  let norm32 :=
    F32.div (F32.sub (F32.of_Z pos) (F32.of_Z 7))
            (F32.of_Z (if pos <? 7 then 7 else 8)) in
  let norm :=
    match norm32 with
    | S754_finite s m e => binary_round F64.prec F64.emax s m e
    | _ => norm32
    end in
  let angle :=
    F64.div (F64.mul (F64.add norm (F64.of_Z 1)) M_PI) (F64.of_Z 4) in
  Frame.mk (F64.to_float (cos angle)) (F64.to_float (sin angle)).

(** [pan_scalars[pos]] *)
Definition pan_scalars (pos : Z) : option Frame.t :=
  if (0 <=? pos) && (pos <? GUS_PAN_POSITIONS) then Some (pan_entry pos)
  else None.

End Tables.

(** ** IRQ aggregation *)

Definition GUS_CheckIRQ (G : Globals) : Globals :=
  if nz (IRQStatus (myGUS G)) && nz (Z.land (mixControl (myGUS G)) 0x08)
  then emit (PIC_ActivateIRQ (irq1 (myGUS G))) G
  else G.

(** The [for (;;)] of [CheckVoiceIrq], on the value of [myGUS.IRQChan].
    [1 << IRQChan] is undefined from 32 on. *)
Fixpoint irq_scan (fuel : nat) (totalmask active chan : Z) : option Z :=
  match fuel with
  | O => None
  | S n =>
      if 32 <=? chan then None
      else if nz (Z.land totalmask (u32 (Z.shiftl 1 chan))) then Some chan
      else
        let chan := u8 (chan + 1) in
        let chan := if active <=? chan then 0 else chan in
        irq_scan n totalmask active chan
  end.

(** [IRQChan] has 256 values, so a scan that has not returned after 257
    rounds never does. *)
Definition irq_scan_fuel : nat := 257.

Definition CheckVoiceIrq (G : Globals) : option Globals :=
  let G := upd (fun g => set_IRQStatus (Z.land (IRQStatus g) 0x9f) g) G in
  let totalmask :=
    Z.land (Z.lor (RampIRQ (myGUS G)) (WaveIRQ (myGUS G)))
           (ActiveMask (myGUS G)) in
  if negb (nz totalmask) then Some G
  else
    let G := if nz (RampIRQ (myGUS G))
             then upd (fun g => set_IRQStatus (Z.lor (IRQStatus g) 0x40) g) G
             else G in
    let G := if nz (WaveIRQ (myGUS G))
             then upd (fun g => set_IRQStatus (Z.lor (IRQStatus g) 0x20) g) G
             else G in
    let G := GUS_CheckIRQ G in
    chan ← irq_scan irq_scan_fuel totalmask (ActiveChannels (myGUS G))
                    (IRQChan (myGUS G));
    Some (upd (set_IRQChan chan) G).

(** ** A voice: [class GUSChannels] *)

(** [GUSChannels(num)] *)
Definition GUSChannels_new (num : Z) : GUSChannels :=
  {| getSample := GetSample8_f; WaveStart := 0; WaveEnd := 0; WaveAddr := 0;
     WaveAdd := 0; WaveCtrl := 3; WaveFreq := 0; StartVolIndex := 0;
     EndVolIndex := 0; CurrentVolIndex := 0; IncrVolIndex := 0;
     RampRate := 0; RampCtrl := 3; PanPot := 7; channum := num;
     irqmask := u32 (Z.shiftl 1 num); generated_8bit_ms := 0;
     generated_16bit_ms := 0; generated_ms := generated_8bit_ms_p |}.

Definition ClearStats (v : GUSChannels) : GUSChannels :=
  set_generated_16bit_ms 0 (set_generated_8bit_ms 0 v).

(** [GUSRam[a]] *)
Definition ram_at (G : Globals) (a : Z) : option Z :=
  if (0 <=? a) && (a <? GUS_RAM_SIZE) then Some (u8 (GUSRam G a)) else None.

(** The assertion in the two samplers is a disjunction that holds for every
    number; it is left out. *)
Definition GetSample8 (v : GUSChannels) (G : Globals) : option spec_float :=
  let useAddr := Z.shiftr (WaveAddr v) WAVE_FRACT in
  b1 ← ram_at G useAddr;
  let w1 := F32.of_Z (s8 b1) in
  w1 ← (if WaveAdd v <? Z.shiftl 1 WAVE_FRACT then
          let nextAddr := Z.land (useAddr + 1) (GUS_RAM_SIZE - 1) in
          b2 ← ram_at G nextAddr;
          let w2 := F32.of_Z (s8 b2) in
          let diff := F32.sub w2 w1 in
          let max_wave := F32.of_Z (Z.shiftl 1 WAVE_FRACT) in
          let scale :=
            F32.div (F32.of_Z (Z.land (WaveAddr v) WAVE_FRACT_MASK)) max_wave in
          Some (F32.add w1 (F32.mul diff scale))
        else Some w1);
  let to_16bit_range := Z.shiftl 1 (15 - 7) in
  Some (F32.mul w1 (F32.of_Z to_16bit_range)).

Definition GetSample16 (v : GUSChannels) (G : Globals) : option spec_float :=
  let base := Z.shiftr (WaveAddr v) WAVE_FRACT in
  let holdAddr := Z.land base 0xc0000 in
  let useAddr := Z.lor holdAddr (Z.shiftl (Z.land base 0x1ffff) 1) in
  b0 ← ram_at G useAddr;
  b1 ← ram_at G (useAddr + 1);
  let w1 := F32.of_Z (Z.lor b0 (Z.shiftl (s8 b1) 8)) in
  if WaveAdd v <? Z.shiftl 1 WAVE_FRACT then
    b2 ← ram_at G (useAddr + 2);
    b3 ← ram_at G (useAddr + 3);
    let w2 := F32.of_Z (Z.lor (s8 b2) (Z.shiftl (s8 b3) 8)) in
    let diff := F32.sub w2 w1 in
    let max_wave := F32.of_Z (Z.shiftl 1 WAVE_FRACT) in
    let scale :=
      F32.div (F32.of_Z (Z.land (WaveAddr v) WAVE_FRACT_MASK)) max_wave in
    Some (F32.add w1 (F32.mul diff scale))
  else Some w1.

Definition WriteWaveFreq (v : GUSChannels) (val : Z) : GUSChannels :=
  let v := set_WaveFreq val v in
  set_WaveAdd (ceil_udivide val 2) v.

Definition ReadWaveCtrl (v : GUSChannels) (G : Globals) : Z :=
  let ret := WaveCtrl v in
  if nz (Z.land (WaveIRQ (myGUS G)) (irqmask v)) then Z.lor ret 0x80 else ret.

Definition WriteRampRate (v : GUSChannels) (val : Z) : GUSChannels :=
  let v := set_RampRate val v in
  let scale := u8 (Z.land val 63) in
  let divider := u8 (Z.shiftl 1 (3 * Z.shiftr val 6)) in
  set_IncrVolIndex
    (if negb (nz scale) || negb (nz divider) then 0
     else ceil_udivide scale divider) v.

Definition UpdateWaveRamp (v : GUSChannels) : GUSChannels :=
  let v := WriteWaveFreq v (WaveFreq v) in
  WriteRampRate v (RampRate v).

Definition WritePanPot (v : GUSChannels) (pos : Z) : GUSChannels :=
  let max_pos := u8 (GUS_PAN_POSITIONS - 1) in
  set_PanPot (if max_pos <? pos then max_pos else pos) v.

Definition ReadPanPot (v : GUSChannels) : Z := PanPot v.

Definition WriteRampCtrl (v : GUSChannels) (val : Z) (G : Globals)
  : option (GUSChannels * Globals) :=
  let old := RampIRQ (myGUS G) in
  let v := set_RampCtrl (Z.land val 0x7f) v in
  let G :=
    if Z.land val 0xa0 =? 0xa0
    then upd (fun g => set_RampIRQ (Z.lor (RampIRQ g) (irqmask v)) g) G
    else upd (fun g =>
                set_RampIRQ (Z.land (RampIRQ g) (u32 (Z.lnot (irqmask v)))) g)
             G in
  G ← (if negb (old =? RampIRQ (myGUS G)) then CheckVoiceIrq G else Some G);
  Some (v, G).

Definition ReadRampCtrl (v : GUSChannels) (G : Globals) : Z :=
  let ret := RampCtrl v in
  if nz (Z.land (RampIRQ (myGUS G)) (irqmask v)) then Z.lor ret 0x80 else ret.

Definition WriteWaveCtrl (v : GUSChannels) (val : Z) (G : Globals)
  : option (GUSChannels * Globals) :=
  let oldirq := WaveIRQ (myGUS G) in
  let v := set_WaveCtrl (Z.land val 0x7f) v in
  let v :=
    if nz (Z.land (WaveCtrl v) WCTRL_16BIT)
    then set_generated_ms generated_16bit_ms_p (set_getSample GetSample16_f v)
    else set_generated_ms generated_8bit_ms_p (set_getSample GetSample8_f v) in
  let G :=
    if Z.land val 0xa0 =? 0xa0
    then upd (fun g => set_WaveIRQ (Z.lor (WaveIRQ g) (irqmask v)) g) G
    else upd (fun g =>
                set_WaveIRQ (Z.land (WaveIRQ g) (u32 (Z.lnot (irqmask v)))) g)
             G in
  G ← (if negb (oldirq =? WaveIRQ (myGUS G)) then CheckVoiceIrq G else Some G);
  Some (v, G).

Definition WaveUpdate (v : GUSChannels) (G : Globals) : GUSChannels * Globals :=
  if nz (Z.land (WaveCtrl v) (Z.lor WCTRL_STOP WCTRL_STOPPED)) then (v, G)
  else
    let v :=
      if nz (Z.land (WaveCtrl v) WCTRL_DECREASING)
      then set_WaveAddr (u32 (WaveAddr v - WaveAdd v)) v
      else set_WaveAddr (u32 (WaveAddr v + WaveAdd v)) v in
    let WaveLeft :=
      if nz (Z.land (WaveCtrl v) WCTRL_DECREASING)
      then s32 (WaveStart v - WaveAddr v)
      else s32 (WaveAddr v - WaveEnd v) in
    (* Not yet reaching a boundary *)
    if WaveLeft <? 0 then (v, G)
    else
      (* Generate an IRQ if needed *)
      let G :=
        if nz (Z.land (WaveCtrl v) 0x20)
        then upd (fun g => set_WaveIRQ (Z.lor (WaveIRQ g) (irqmask v)) g) G
        else G in
      (* Check for not being in PCM operation *)
      if nz (Z.land (RampCtrl v) 0x04) then (v, G)
      else if nz (Z.land (WaveCtrl v) WCTRL_LOOP) then
        (* Bi-directional looping *)
        let v :=
          if nz (Z.land (WaveCtrl v) WCTRL_BIDIRECTIONAL)
          then set_WaveCtrl (Z.lxor (WaveCtrl v) WCTRL_DECREASING) v
          else v in
        (set_WaveAddr
           (if nz (Z.land (WaveCtrl v) WCTRL_DECREASING)
            then u32 (WaveEnd v - WaveLeft)
            else u32 (WaveStart v + WaveLeft)) v, G)
      else
        (* Stop the channel *)
        let v := set_WaveCtrl (Z.lor (WaveCtrl v) 1) v in
        (set_WaveAddr
           (if nz (Z.land (WaveCtrl v) WCTRL_DECREASING)
            then WaveStart v else WaveEnd v) v, G).

Definition RampUpdate (v : GUSChannels) (G : Globals) : GUSChannels * Globals :=
  (* Check if ramping enabled *)
  if nz (Z.land (RampCtrl v) 0x3) then (v, G)
  else
    let v :=
      if nz (Z.land (RampCtrl v) 0x40)
      then set_CurrentVolIndex (u32 (CurrentVolIndex v - IncrVolIndex v)) v
      else set_CurrentVolIndex (u32 (CurrentVolIndex v + IncrVolIndex v)) v in
    let RemainingVolIndexes :=
      if nz (Z.land (RampCtrl v) 0x40)
      then s32 (StartVolIndex v - CurrentVolIndex v)
      else s32 (CurrentVolIndex v - EndVolIndex v) in
    if RemainingVolIndexes <? 0 then (v, G)
    else
      (* Generate an IRQ if needed *)
      let G :=
        if nz (Z.land (RampCtrl v) 0x20)
        then upd (fun g => set_RampIRQ (Z.lor (RampIRQ g) (irqmask v)) g) G
        else G in
      if nz (Z.land (RampCtrl v) 0x08) then
        (* Bi-directional looping *)
        let v :=
          if nz (Z.land (RampCtrl v) 0x10)
          then set_RampCtrl (Z.lxor (RampCtrl v) 0x40) v
          else v in
        (set_CurrentVolIndex
           (if nz (Z.land (RampCtrl v) 0x40)
            then u32 (EndVolIndex v - RemainingVolIndexes)
            else u32 (StartVolIndex v + RemainingVolIndexes)) v, G)
      else
        (* Stop the channel *)
        let v := set_RampCtrl (Z.lor (RampCtrl v) 1) v in
        (set_CurrentVolIndex
           (if nz (Z.land (RampCtrl v) 0x40)
            then StartVolIndex v else EndVolIndex v) v, G).

(** [(this->*getSample)()] *)
Definition call_getSample (v : GUSChannels) (G : Globals) : option spec_float :=
  match getSample v with
  | GetSample8_f => GetSample8 v G
  | GetSample16_f => GetSample16 v G
  end.

(** The increment of the counter [generated_ms] points to. *)
Definition incr_generated_ms (v : GUSChannels) : GUSChannels :=
  match generated_ms v with
  | generated_8bit_ms_p => set_generated_8bit_ms (u32 (generated_8bit_ms v + 1)) v
  | generated_16bit_ms_p =>
      set_generated_16bit_ms (u32 (generated_16bit_ms v + 1)) v
  end.

Section Voice.

Variable cos sin : spec_float -> spec_float.

(** One round of the loop of [generateSamples] on the frame [fr] the
    stream pointer is at; [peak] is [myGUS.peak_amplitude], the only
    object the function is called with. *)
Definition generate_frame (v : GUSChannels) (G : Globals) (fr : Frame.t)
  : option (GUSChannels * Globals * Frame.t) :=
  w ← call_getSample v G;
  vol ← vol_scalars (CurrentVolIndex v);
  let sample := F32.mul w vol in
  pan ← pan_scalars cos sin (PanPot v);
  let l := F32.add (Frame.left fr) (F32.mul sample (Frame.left pan)) in
  let r := F32.add (Frame.right fr) (F32.mul sample (Frame.right pan)) in
  let G :=
    upd (fun g =>
           set_peak_amplitude
             (Frame.mk (F32.max (Frame.left (peak_amplitude g)) (SFabs l))
                       (Frame.right (peak_amplitude g))) g) G in
  let G :=
    upd (fun g =>
           set_peak_amplitude
             (Frame.mk (Frame.left (peak_amplitude g))
                       (F32.max (Frame.right (peak_amplitude g)) (SFabs r))) g)
        G in
  let '(v, G) := WaveUpdate v G in
  let '(v, G) := RampUpdate v G in
  Some (v, G, Frame.mk l r).

(** [while (len-- > 0)]: the stream must hold [len] frames. *)
Fixpoint generate_loop (len : nat) (v : GUSChannels) (G : Globals)
    (stream : list Frame.t) : option (GUSChannels * Globals * list Frame.t) :=
  match len with
  | O => Some (v, G, stream)
  | S n =>
      match stream with
      | [] => None
      | fr :: rest =>
          '(v, G, fr) ← generate_frame v G fr;
          '(v, G, rest) ← generate_loop n v G rest;
          Some (v, G, fr :: rest)
      end
  end.

Definition generateSamples (v : GUSChannels) (G : Globals)
    (stream : list Frame.t) (len : Z)
  : option (GUSChannels * Globals * list Frame.t) :=
  if nz (Z.land (Z.land (RampCtrl v) (WaveCtrl v)) 3) then Some (v, G, stream)
  else
    '(v, G, stream) ← generate_loop (Z.to_nat len) v G stream;
    Some (incr_generated_ms v, G, stream).

End Voice.

(** ** The register file *)

(** A C++ [switch] on [x]: the first case whose label equals [x], or the
    default. *)
Fixpoint switch {A : Type} (x : Z) (cases : list (Z * A)) (default : A) : A :=
  match cases with
  | [] => default
  | (k, a) :: rest => if x =? k then a else switch x rest default
  end.

(** [if (curchan) curchan->...], for a member that also touches globals. *)
Definition with_curchan (s : State)
    (f : GUSChannels -> Globals -> option (GUSChannels * Globals))
  : option State :=
  match curchan s with
  | None => Some s
  | Some i =>
      v ← guschan s !! i;
      '(v, G) ← f v (globals s);
      Some (set_guschan (<[i := v]> (guschan s)) (set_globals G s))
  end.

(** [if (curchan) return f (curchan); else return otherwise;] *)
Definition read_curchan (s : State) (f : GUSChannels -> Z) (otherwise : Z)
  : option Z :=
  match curchan s with
  | None => Some otherwise
  | Some i => v ← guschan s !! i; Some (f v)
  end.

Definition reset_timer (after : spec_float) (t : GusTimer) : GusTimer :=
  set_delay after
    (set_value 0xff (set_running false (set_reached false (set_raiseirq false t)))).

(** The loop of [GUSReset] over all voices. *)
Fixpoint reset_channels (vs : list GUSChannels) (G : Globals)
  : option (list GUSChannels * Globals) :=
  match vs with
  | [] => Some ([], G)
  | channel :: rest =>
      let channel := set_CurrentVolIndex 0 channel in
      '(channel, G) ← WriteWaveCtrl channel 0x1 G;
      '(channel, G) ← WriteRampCtrl channel 0x1 G;
      let channel := WritePanPot channel 0x7 in
      let channel := ClearStats channel in
      '(rest, G) ← reset_channels rest G;
      Some (channel :: rest, G)
  end.

(** The call of [PrintStats] that opens a reset is not part of this
    function: [PrintStats] changes nothing of the card, it reads the
    statistics of the voices, the peaks and the volume of the mixer channel
    (which is not among the sources) and writes to the log.  What
    [GUSReset] returns is the state the reset leaves; whether the
    conversion to [uint16_t] that ends [PrintStats] is in range is not
    decided here. *)
Definition GUSReset (s : State) : option State :=
  s ← (if Z.land (gRegData (myGUS (globals s))) 0x1 =? 0x1 then
         let G := set_adlib_commandreg 85 (globals s) in
         let G := upd (set_IRQStatus 0) G in
         let G :=
           upd (fun g =>
                  set_timers
                    (reset_timer (F32.div (F32.of_Z 80) (F32.of_Z 1000))
                                 (fst (timers g)),
                     reset_timer (F32.div (F32.of_Z 320) (F32.of_Z 1000))
                                 (snd (timers g))) g) G in
         let G := upd (set_ChangeIRQDMA false) G in
         let G := upd (set_mixControl 0x0b) G in
         '(vs, G) ← reset_channels (guschan s) G;
         let G := upd (set_IRQChan 0) G in
         let G := upd (set_peak_amplitude (Frame.mk F32.one F32.one)) G in
         Some (set_guschan vs (set_globals G s))
       else Some s);
  Some (set_globals
          (upd (set_irqenabled
                  (negb (Z.land (gRegData (myGUS (globals s))) 0x4 =? 0)))
               (globals s)) s).

(** The value [ExecuteReadRegister] returns and the state it leaves. *)
Definition ExecuteReadRegister (s : State) : option (Z * State) :=
  let G := globals s in
  let g := myGUS G in
  switch (gRegSelect g)
    [ (0x41, (* Dma control register - read acknowledges DMA IRQ *)
        let tmpreg := u8 (Z.land (DMAControl g) 0xbf) in
        let tmpreg := u8 (Z.lor tmpreg (Z.shiftr (Z.land (IRQStatus g) 0x80) 1)) in
        let G := upd (set_IRQStatus (Z.land (IRQStatus g) 0x7f)) G in
        Some (u16 (Z.shiftl tmpreg 8), set_globals G s));
      (0x42, Some (dmaAddr g, s));
      (0x45, Some (u16 (Z.shiftl (TimerControl g) 8), s));
      (0x49,
        let tmpreg := u8 (Z.land (DMAControl g) 0xbf) in
        let tmpreg := u8 (Z.lor tmpreg (Z.shiftr (Z.land (IRQStatus g) 0x80) 1)) in
        Some (u16 (Z.shiftl tmpreg 8), s));
      (0x80,
        r ← read_curchan s (fun v => u16 (Z.shiftl (ReadWaveCtrl v G) 8)) 0x0300;
        Some (r, s));
      (0x82,
        r ← read_curchan s (fun v => u16 (Z.shiftr (WaveStart v) 16)) 0x0000;
        Some (r, s));
      (0x83,
        r ← read_curchan s (fun v => u16 (WaveStart v)) 0x0000;
        Some (r, s));
      (0x89,
        r ← read_curchan s (fun v => u16 (Z.shiftl (CurrentVolIndex v) 4)) 0x0000;
        Some (r, s));
      (0x8a,
        r ← read_curchan s (fun v => u16 (Z.shiftr (WaveAddr v) 16)) 0x0000;
        Some (r, s));
      (0x8b,
        r ← read_curchan s (fun v => u16 (WaveAddr v)) 0x0000;
        Some (r, s));
      (0x8d,
        r ← read_curchan s (fun v => u16 (Z.shiftl (ReadRampCtrl v G) 8)) 0x0300;
        Some (r, s));
      (0x8f, (* General channel IRQ status register *)
        let tmpreg := u8 (Z.lor (IRQChan g) 0x20) in
        let mask := u32 (Z.shiftl 1 (IRQChan g)) in
        let tmpreg :=
          if negb (nz (Z.land (RampIRQ g) mask)) then u8 (Z.lor tmpreg 0x40)
          else tmpreg in
        let tmpreg :=
          if negb (nz (Z.land (WaveIRQ g) mask)) then u8 (Z.lor tmpreg 0x80)
          else tmpreg in
        let G :=
          upd (fun g => set_RampIRQ (Z.land (RampIRQ g) (u32 (Z.lnot mask))) g)
              G in
        let G :=
          upd (fun g => set_WaveIRQ (Z.land (WaveIRQ g) (u32 (Z.lnot mask))) g)
              G in
        G ← CheckVoiceIrq G;
        Some (u16 (Z.shiftl tmpreg 8), set_globals G s)) ]
    (Some (gRegData g, s)).

(** [for (i = 0; i < n; i++) guschan[i]->UpdateWaveRamp ();] *)
Definition update_active (n : Z) (vs : list GUSChannels)
  : option (list GUSChannels) :=
  if Z.of_nat (length vs) <? n then None
  else Some ((UpdateWaveRamp <$> take (Z.to_nat n) vs) ++ drop (Z.to_nat n) vs).

(** [clamp (x, lo, hi)] *)
Definition clamp (x lo hi : Z) : Z := if x <? lo then lo else if hi <? x then hi else x.

(** [static_cast<uint32_t> (0.5 + 1000000.0 / (1.619695497 * voices))] *)
Definition base_frequency (voices : Z) : option Z :=
  F64.to_uint32
    (F64.add (F64.div (F64.of_Z 1) (F64.of_Z 2))
       (F64.div (F64.of_Z 1000000)
          (F64.mul (F64.decimal 1619695497 9) (F64.of_Z voices)))).

(** Case 0xE of [ExecuteGlobRegister]; the message to the log is left out. *)
Definition set_active_channels (s : State) : option State :=
  let G := globals s in
  let G := upd (fun g => set_gRegSelect (u8 (Z.shiftr (gRegData g) 8)) g) G in
  let requested := 1 + Z.land (Z.shiftr (gRegData (myGUS G)) 8) 63 in
  let requested := clamp requested GUS_MIN_CHANNELS GUS_MAX_CHANNELS in
  G ← (if negb (requested =? ActiveChannels (myGUS G)) then
         let G := upd (set_ActiveChannels (u8 requested)) G in
         let G :=
           upd (fun g =>
                  set_ActiveMask
                    (Z.shiftr 0xffffffff (32 - ActiveChannels g)) g) G in
         hz ← base_frequency (ActiveChannels (myGUS G));
         let G := upd (set_basefreq hz) G in
         Some (emit (Mixer_SetFreq (basefreq (myGUS G))) G)
       else Some G);
  (* Always re-apply the ramp as it can change elsewhere *)
  vs ← update_active (ActiveChannels (myGUS G)) (guschan s);
  Some (set_guschan vs (set_globals (emit (Mixer_Enable true) G) s)).

(** [curchan->field = x] under [if (curchan)] *)
Definition curchan_set (s : State) (f : GUSChannels -> GUSChannels)
  : option State :=
  with_curchan s (fun v G => Some (f v, G)).

Definition ExecuteGlobRegister (s : State) : option State :=
  let G := globals s in
  let g := myGUS G in
  let data := gRegData g in
  switch (gRegSelect g)
    [ (0x0, with_curchan s (fun v G => WriteWaveCtrl v (u8 (Z.shiftr data 8)) G));
      (0x1, curchan_set s (fun v => WriteWaveFreq v data));
      (0x2, curchan_set s (fun v =>
              let tmpaddr := u32 (Z.shiftl (Z.land data 0x1fff) 16) in
              set_WaveStart (Z.lor (Z.land (WaveStart v) WAVE_MSWMASK) tmpaddr) v));
      (0x3, curchan_set s (fun v =>
              let tmpaddr := u32 data in
              set_WaveStart (Z.lor (Z.land (WaveStart v) WAVE_LSWMASK) tmpaddr) v));
      (0x4, curchan_set s (fun v =>
              let tmpaddr := u32 (Z.shiftl (u32 (Z.land data 0x1fff)) 16) in
              set_WaveEnd (Z.lor (Z.land (WaveEnd v) WAVE_MSWMASK) tmpaddr) v));
      (0x5, curchan_set s (fun v =>
              let tmpaddr := u32 data in
              set_WaveEnd (Z.lor (Z.land (WaveEnd v) WAVE_LSWMASK) tmpaddr) v));
      (0x6, curchan_set s (fun v => WriteRampRate v (u8 (Z.shiftr data 8))));
      (0x7, curchan_set s (fun v =>
              let tmpdata := u8 (Z.shiftr data 8) in
              set_StartVolIndex (Z.shiftl tmpdata 4) v));
      (0x8, curchan_set s (fun v =>
              let tmpdata := u8 (Z.shiftr data 8) in
              set_EndVolIndex (Z.shiftl tmpdata 4) v));
      (0x9, curchan_set s (fun v =>
              let tmpdata := u16 (Z.shiftr data 4) in
              set_CurrentVolIndex tmpdata v));
      (0xA, curchan_set s (fun v =>
              let tmpaddr := u32 (Z.shiftl (u32 (Z.land data 0x1fff)) 16) in
              set_WaveAddr (Z.lor (Z.land (WaveAddr v) WAVE_MSWMASK) tmpaddr) v));
      (0xB, curchan_set s (fun v =>
              let tmpaddr := u32 data in
              set_WaveAddr (Z.lor (Z.land (WaveAddr v) WAVE_LSWMASK) tmpaddr) v));
      (0xC, curchan_set s (fun v => WritePanPot v (u8 (Z.shiftr data 8))));
      (0xD, with_curchan s (fun v G => WriteRampCtrl v (u8 (Z.shiftr data 8)) G));
      (0xE, set_active_channels s);
      (0x10, Some s);
      (0x41,
        let G := upd (set_DMAControl (u8 (Z.shiftr data 8))) G in
        Some (set_globals
                (emit (DMA_Register_Callback (dma1 g)
                         (nz (Z.land (DMAControl (myGUS G)) 0x1))) G) s));
      (0x42, Some (set_globals (upd (set_dmaAddr data) G) s));
      (0x43, Some (set_globals
                     (upd (set_gDramAddr
                             (Z.lor (Z.land 0xff0000 (gDramAddr g)) (u32 data))) G)
                     s));
      (0x44, Some (set_globals
                     (upd (set_gDramAddr
                             (Z.lor (Z.land 0xffff (gDramAddr g))
                                    (u32 (Z.shiftl (u32 (Z.shiftr data 8)) 16))))
                          G) s));
      (0x45,
        let G := upd (set_TimerControl (u8 (Z.shiftr data 8))) G in
        let G :=
          upd (fun g =>
                 set_timers
                   (set_raiseirq (0 <? Z.land (TimerControl g) 0x04)
                                 (fst (timers g)), snd (timers g)) g) G in
        let G :=
          if negb (raiseirq (fst (timers (myGUS G))))
          then upd (fun g => set_IRQStatus (Z.land (IRQStatus g) (u8 (Z.lnot 0x04))) g) G
          else G in
        let G :=
          upd (fun g =>
                 set_timers
                   (fst (timers g),
                    set_raiseirq (0 <? Z.land (TimerControl g) 0x08)
                                 (snd (timers g))) g) G in
        let G :=
          if negb (raiseirq (snd (timers (myGUS G))))
          then upd (fun g => set_IRQStatus (Z.land (IRQStatus g) (u8 (Z.lnot 0x08))) g) G
          else G in
        Some (set_globals G s));
      (0x46,
        let G :=
          upd (fun g =>
                 set_timers
                   (set_value (u8 (Z.shiftr data 8)) (fst (timers g)),
                    snd (timers g)) g) G in
        let G :=
          upd (fun g =>
                 set_timers
                   (set_delay
                      (F32.mul (F32.of_Z (0x100 - value (fst (timers g))))
                               (F32.div (F32.of_Z 80) (F32.of_Z 1000)))
                      (fst (timers g)), snd (timers g)) g) G in
        Some (set_globals G s));
      (0x47,
        let G :=
          upd (fun g =>
                 set_timers
                   (fst (timers g),
                    set_value (u8 (Z.shiftr data 8)) (snd (timers g))) g) G in
        let G :=
          upd (fun g =>
                 set_timers
                   (fst (timers g),
                    set_delay
                      (F32.mul (F32.of_Z (0x100 - value (snd (timers g))))
                               (F32.div (F32.of_Z 320) (F32.of_Z 1000)))
                      (snd (timers g))) g) G in
        Some (set_globals G s));
      (0x49,
        let G := upd (set_SampControl (u8 (Z.shiftr data 8))) G in
        Some (set_globals
                (emit (DMA_Register_Callback (dma1 g)
                         (nz (Z.land (SampControl (myGUS G)) 0x1))) G) s));
      (0x4c, GUSReset s) ]
    (Some s).

(** ** Port handlers *)

(** [timers[val]] *)
Definition timer_at (g : GFGus) (val : Z) : option GusTimer :=
  if val =? 0 then Some (fst (timers g))
  else if val =? 1 then Some (snd (timers g))
  else None.

Definition set_timer_at (val : Z) (t : GusTimer) (g : GFGus) : GFGus :=
  if val =? 0 then set_timers (t, snd (timers g)) g
  else set_timers (fst (timers g), t) g.

(** The value [read_gus] returns and the state it leaves. *)
Definition read_gus (s : State) (port iolen : Z) : option (Z * State) :=
  let G := globals s in
  let g := myGUS G in
  switch (port - portbase g)
    [ (0x206, Some (IRQStatus g, s));
      (0x208,
        let tmptime := 0 in
        let tmptime :=
          if reached (fst (timers g)) then Z.lor tmptime (Z.shiftl 1 6)
          else tmptime in
        let tmptime :=
          if reached (snd (timers g)) then Z.lor tmptime (Z.shiftl 1 5)
          else tmptime in
        let tmptime :=
          if nz (Z.land tmptime 0x60) then Z.lor tmptime (Z.shiftl 1 7)
          else tmptime in
        let tmptime :=
          if nz (Z.land (IRQStatus g) 0x04) then Z.lor tmptime (Z.shiftl 1 2)
          else tmptime in
        let tmptime :=
          if nz (Z.land (IRQStatus g) 0x08) then Z.lor tmptime (Z.shiftl 1 1)
          else tmptime in
        Some (tmptime, s));
      (0x20a, Some (adlib_commandreg G, s));
      (0x302, Some (u8 (gCurChannel g), s));
      (0x303, Some (gRegSelect g, s));
      (0x304,
        '(r, s) ← ExecuteReadRegister s;
        if iolen =? 2 then Some (Z.land r 0xffff, s) else Some (Z.land r 0xff, s));
      (0x305,
        '(r, s) ← ExecuteReadRegister s;
        Some (Z.shiftr r 8, s));
      (0x307,
        if gDramAddr g <? GUS_RAM_SIZE
        then r ← ram_at G (gDramAddr g); Some (r, s)
        else Some (0, s)) ]
    (Some (0xff, s)).

(** Starting or stopping timer [val] at a write to port 0x209. *)
Definition timer_command (val : Z) (start : bool) (G : Globals) : option Globals :=
  t ← timer_at (myGUS G) val;
  if start then
    if negb (running t) then
      let G := emit (PIC_AddEvent val (delay t)) G in
      Some (upd (set_timer_at val (set_running true t)) G)
    else Some G
  else Some (upd (set_timer_at val (set_running false t)) G).

Definition write_gus (s : State) (port val iolen : Z) : option State :=
  let G := globals s in
  let g := myGUS G in
  switch (port - portbase g)
    [ (0x200,
        let G := upd (set_mixControl (u8 val)) G in
        Some (set_globals (upd (set_ChangeIRQDMA true) G) s));
      (0x208, Some (set_globals (set_adlib_commandreg (u8 val) G) s));
      (0x209,
        if nz (Z.land val 0x80) then
          Some (set_globals
                  (upd (fun g =>
                          set_timers (set_reached false (fst (timers g)),
                                      set_reached false (snd (timers g))) g) G)
                  s)
        else
          let G :=
            upd (fun g =>
                   set_timers
                     (set_masked (0 <? Z.land val 0x40) (fst (timers g)),
                      set_masked (0 <? Z.land val 0x20) (snd (timers g))) g) G in
          G ← timer_command 0 (nz (Z.land val 0x1)) G;
          G ← timer_command 1 (nz (Z.land val 0x2)) G;
          Some (set_globals G s));
      (0x20b,
        if negb (ChangeIRQDMA g) then Some s
        else
          let G := upd (set_ChangeIRQDMA false) G in
          if nz (Z.land (mixControl g) 0x40) then
            (* IRQ configuration, only use low bits for irq 1 *)
            irq ← irqtable !! Z.to_nat (Z.land val 0x7);
            Some (set_globals (if nz irq then upd (set_irq1 irq) G else G) s)
          else
            (* DMA configuration, only use low bits for dma 1 *)
            dma ← dmatable !! Z.to_nat (Z.land val 0x7);
            Some (set_globals (if nz dma then upd (set_dma1 dma) G else G) s));
      (0x302,
        let G := upd (set_gCurChannel (u16 (Z.land val 31))) G in
        let i := Z.to_nat (gCurChannel (myGUS G)) in
        _ ← guschan s !! i;
        Some (set_curchan (Some i) (set_globals G s)));
      (0x303,
        let G := upd (set_gRegSelect (u8 val)) G in
        Some (set_globals (upd (set_gRegData 0) G) s));
      (0x304,
        if iolen =? 2 then
          ExecuteGlobRegister (set_globals (upd (set_gRegData (u16 val)) G) s)
        else Some (set_globals (upd (set_gRegData (u16 val)) G) s));
      (0x305,
        ExecuteGlobRegister
          (set_globals
             (upd (set_gRegData
                     (u16 (Z.lor (Z.land 0x00ff (gRegData g)) (Z.shiftl val 8))))
                  G) s));
      (0x307,
        if gDramAddr g <? GUS_RAM_SIZE then
          Some (set_globals
                  (set_GUSRam
                     (fun a => if a =? gDramAddr g then u8 val else GUSRam G a)
                     G) s)
        else Some s) ]
    (Some s).

Definition GUS_TimerEvent (G : Globals) (val : Z) : option Globals :=
  t ← timer_at (myGUS G) val;
  let G :=
    if negb (masked t) then upd (set_timer_at val (set_reached true t)) G
    else G in
  let G :=
    if raiseirq t then
      GUS_CheckIRQ
        (upd (fun g =>
                set_IRQStatus (u8 (Z.lor (IRQStatus g) (Z.shiftl 0x4 val))) g) G)
    else G in
  Some (if running t then emit (PIC_AddEvent val (delay t)) G else G).

(** ** DMA *)

(** Modelled from the spec: [DmaChannel] (dma.cpp) is not among the
    sources.  The spec gives the channel a current count, a 16-bit flag
    and [read (count, dst_buffer)] "copying from host memory to card
    memory"; [host k] is byte [k] of what the host side delivers, and a
    request for [count] units transfers them all.  [chan_number] is the
    number of the channel, under which [register_callback] is logged. *)
Record DmaChannel : Type := {
  chan_number : Z;
  currcnt : Z;
  DMA16 : bool;
  host : Z -> Z
}.

Definition GUS_DMA_Callback (G : Globals) (chan : DmaChannel) (unmasked : bool)
  : option Globals :=
  if negb unmasked then Some G
  else
    let g := myGUS G in
    let dmaaddr :=
      if nz (Z.land (DMAControl g) 0x4)
      then Z.shiftl (Z.lor (Z.shiftl (Z.land (dmaAddr g) 0x1fff) 1)
                           (Z.land (dmaAddr g) 0xc000)) 4
      else Z.shiftl (dmaAddr g) 4 in
    let count := currcnt chan + 1 in
    let bytes := count * (if DMA16 chan then 2 else 1) in
    if GUS_RAM_SIZE <? dmaaddr + bytes then None
    else
      let G :=
        if Z.land (DMAControl g) 0x2 =? 0 then
          (* Reading from dma *)
          let G :=
            set_GUSRam
              (fun a => if (dmaaddr <=? a) && (a <? dmaaddr + bytes)
                        then u8 (host chan (a - dmaaddr)) else GUSRam G a) G in
          let read := count * (if DMA16 chan then 2 else 1) in
          if negb (Z.land (DMAControl g) 0x80 =? 0) then
            (* Invert the MSB to convert twos compliment form *)
            let dma_end := dmaaddr + read in
            if Z.land (DMAControl g) 0x40 =? 0 then
              set_GUSRam
                (fun a => if (dmaaddr <=? a) && (a <? dma_end)
                          then Z.lxor (GUSRam G a) 0x80 else GUSRam G a) G
            else
              set_GUSRam
                (fun a => if (dmaaddr + 1 <=? a) && (a <? dma_end)
                             && Z.even (a - (dmaaddr + 1))
                          then Z.lxor (GUSRam G a) 0x80 else GUSRam G a) G
          else G
        else G in
      (* Raise the TC irq if needed *)
      let G :=
        if negb (Z.land (DMAControl g) 0x20 =? 0)
        then GUS_CheckIRQ
               (upd (fun g => set_IRQStatus (Z.lor (IRQStatus g) 0x80) g) G)
        else G in
      Some (emit (DMA_Register_Callback (chan_number chan) false) G).

(** ** The soft limiter and the mix callback *)

(** [std::numeric_limits<int16_t>::max () - 1] as a float *)
Definition max_allowed : spec_float := F32.of_Z (32767 - 1).

Definition release_amount : spec_float :=
  F32.mul max_allowed (F32.sub (F64.to_float GUS_VOLUME_SCALE_DIV) F32.one).

(** What [SoftLimit] leaves in [out]: nothing when it returns [false]. *)
Inductive SoftLimit_result : Type :=
| not_limited
| limited (out : list (Z * Z)).

Definition SoftLimit (G : Globals) (inp : list Frame.t) (len : Z)
  : option (SoftLimit_result * Globals) :=
  let peak := peak_amplitude (myGUS G) in
  (* If our peaks are under the max, then there's no need to limit *)
  if SFltb (Frame.left peak) max_allowed && SFltb (Frame.right peak) max_allowed
  then Some (not_limited, G)
  else
    let ratio :=
      Frame.mk (F32.min F32.one (F32.div max_allowed (Frame.left peak)))
               (F32.min F32.one (F32.div max_allowed (Frame.right peak))) in
    out ← mapM (fun fr : Frame.t =>
                  l ← F32.to_int16 (F32.mul (Frame.left fr) (Frame.left ratio));
                  r ← F32.to_int16 (F32.mul (Frame.right fr) (Frame.right ratio));
                  Some (l, r))
               (take (Z.to_nat len) inp);
    (* Release the limit incrementally using our existing volume scale. *)
    let G :=
      if SFltb max_allowed (Frame.left (peak_amplitude (myGUS G)))
      then upd (fun g =>
                  set_peak_amplitude
                    (Frame.mk (F32.sub (Frame.left (peak_amplitude g)) release_amount)
                              (Frame.right (peak_amplitude g))) g) G
      else G in
    let G :=
      if SFltb max_allowed (Frame.right (peak_amplitude (myGUS G)))
      then upd (fun g =>
                  set_peak_amplitude
                    (Frame.mk (Frame.left (peak_amplitude g))
                              (F32.sub (Frame.right (peak_amplitude g)) release_amount))
                    g) G
      else G in
    Some (limited out, G).

(** The plain conversion of the first [len] frames of the accumulator. *)
Definition truncate_frames (accumulator : list Frame.t) (len : Z)
  : option (list (Z * Z)) :=
  mapM (fun fr : Frame.t =>
          l ← F32.to_int16 (Frame.left fr);
          r ← F32.to_int16 (Frame.right fr);
          Some (l, r))
       (take (Z.to_nat len) accumulator).

(** [scaled] after the limiter stage of [GUS_CallBack]. *)
Definition scale_accumulator (G : Globals) (accumulator : list Frame.t) (len : Z)
  : option (list (Z * Z) * Globals) :=
  '(r, G) ← SoftLimit G accumulator len;
  match r with
  | limited scaled => Some (scaled, G)
  | not_limited => scaled ← truncate_frames accumulator len; Some (scaled, G)
  end.

Section Engine.

Variable cos sin : spec_float -> spec_float.

(** The loop of [GUS_CallBack] over the active voices. *)
Fixpoint generate_voices (vs : list GUSChannels) (G : Globals)
    (accumulator : list Frame.t) (len : Z)
  : option (list GUSChannels * Globals * list Frame.t) :=
  match vs with
  | [] => Some ([], G, accumulator)
  | v :: rest =>
      '(v, G, accumulator) ← generateSamples cos sin v G accumulator len;
      '(rest, G, accumulator) ← generate_voices rest G accumulator len;
      Some (v :: rest, G, accumulator)
  end.

(** The accumulator after the voices have run, with the state they leave. *)
Definition accumulate (s : State) (len : Z) : option (State * list Frame.t) :=
  let n := ActiveChannels (myGUS (globals s)) in
  if Z.of_nat (length (guschan s)) <? n then None
  else
    let accumulator :=
      replicate (Z.to_nat GUS_BUFFER_FRAMES) (Frame.mk F32.zero F32.zero) in
    '(vs, G, accumulator) ←
      generate_voices (take (Z.to_nat n) (guschan s)) (globals s) accumulator len;
    Some (set_guschan (vs ++ drop (Z.to_nat n) (guschan s)) (set_globals G s),
          accumulator).

Definition GUS_CallBack (s : State) (len : Z) : option State :=
  if GUS_BUFFER_FRAMES <? len then None
  else
    '(s, accumulator) ← accumulate s len;
    '(scaled, G) ← scale_accumulator (globals s) accumulator len;
    let G := emit (Mixer_AddSamples_s16 scaled) G in
    G ← CheckVoiceIrq G;
    Some (set_globals G s).

(** ** Construction and the transitions of the card *)

Definition GFGus_new : GFGus :=
  let timer :=
    {| value := 0; reached := false; raiseirq := false; masked := false;
       running := false; delay := F32.zero |} in
  {| gRegSelect := 0; gRegData := 0; gDramAddr := 0; gCurChannel := 0;
     DMAControl := 0; dmaAddr := 0; TimerControl := 0; SampControl := 0;
     mixControl := 0; ActiveChannels := 0; basefreq := 0;
     timers := (timer, timer); rate := 0;
     peak_amplitude := Frame.mk F32.one F32.one; portbase := 0; dma1 := 0;
     dma2 := 0; irq1 := 0; irq2 := 0; irqenabled := false;
     ChangeIRQDMA := false; IRQStatus := 0; ActiveMask := 0; IRQChan := 0;
     RampIRQ := 0; WaveIRQ := 0 |}.

(** The members of an enabled card as the constructor of [class GUS]
    initialises them from the settings [gusbase], [gusdma] and [gusirq],
    with the 32 voices allocated. *)
Definition GUS_members (gusbase gusdma gusirq : Z) : State :=
  let dma_val := if (gusdma <? 0) || (255 <? gusdma) then 3 else gusdma in
  let irq_val := if (gusirq <? 0) || (255 <? gusirq) then 5 else gusirq in
  let g := set_portbase_new (gusbase - 0x200) dma_val irq_val GFGus_new in
  {| globals :=
       {| myGUS := g; adlib_commandreg := 0; GUSRam := fun _ => 0;
          effects := [] |};
     guschan := GUSChannels_new <$> seqZ 0 GUS_MAX_CHANNELS;
     curchan := None |}.

(** The rest of the constructor: a reset through [gRegData]. *)
Definition GUS_new (gusbase gusdma gusirq : Z) : option State :=
  let s := GUS_members gusbase gusdma gusirq in
  s ← GUSReset (set_globals (upd (set_gRegData 0x1) (globals s)) s);
  Some (set_globals (upd (set_gRegData 0x0) (globals s)) s).

(** What reaches the card: port accesses by the guest, the mixer asking
    for frames, a timer event scheduled with [PIC_AddEvent], an event on
    the DMA channel. *)
Inductive Input : Type :=
| IO_Write (port val iolen : Z)
| IO_Read (port iolen : Z)
| Mixer_CallBack (len : Z)
| PIC_Event (val : Z)
| DMA_Event (chan : DmaChannel) (unmasked : bool).

Definition step (s : State) (i : Input) : option State :=
  match i with
  | IO_Write port val iolen => write_gus s port val iolen
  | IO_Read port iolen => snd <$> read_gus s port iolen
  | Mixer_CallBack len => GUS_CallBack s len
  | PIC_Event val =>
      G ← GUS_TimerEvent (globals s) val; Some (set_globals G s)
  | DMA_Event chan unmasked =>
      G ← GUS_DMA_Callback (globals s) chan unmasked; Some (set_globals G s)
  end.

(** [run s inputs]: the state after the inputs, oldest first. *)
Fixpoint run (s : State) (inputs : list Input) : option State :=
  match inputs with
  | [] => Some s
  | i :: rest => s ← step s i; run s rest
  end.

Inductive reachable : State -> Prop :=
| reachable_new gusbase gusdma gusirq s :
    GUS_new gusbase gusdma gusirq = Some s -> reachable s
| reachable_step s i s' :
    reachable s -> step s i = Some s' -> reachable s'.

End Engine.

(** ** Invariants of the card *)

(** The two control bytes of a voice fit in seven bits. *)
Definition ctrl_ok (v : GUSChannels) : Prop :=
  0 <= WaveCtrl v < 128 /\ 0 <= RampCtrl v < 128.

(** [v'] is a later state of voice [v]. *)
Definition keeps (v v' : GUSChannels) : Prop :=
  channum v' = channum v /\ irqmask v' = irqmask v /\ (ctrl_ok v -> ctrl_ok v').

Definition active_ok (g : GFGus) : Prop :=
  (ActiveChannels g = 0 /\ ActiveMask g = 0) \/
  (14 <= ActiveChannels g <= 32 /\ ActiveMask g = 2 ^ ActiveChannels g - 1).

Definition g_ok (g : GFGus) : Prop := active_ok g /\ 0 <= IRQChan g < 32.

Definition G_step (G G' : Globals) : Prop := g_ok (myGUS G) -> g_ok (myGUS G').

Definition voices_ok (vs : list GUSChannels) : Prop :=
  length vs = 32%nat /\
  forall i v, vs !! i = Some v ->
    ctrl_ok v /\ channum v = Z.of_nat i /\ irqmask v = 2 ^ Z.of_nat i.

Definition curchan_ok (s : State) : Prop :=
  forall i, curchan s = Some i -> (i < length (guschan s))%nat.

Definition card_ok (s : State) : Prop :=
  voices_ok (guschan s) /\ g_ok (myGUS (globals s)) /\ curchan_ok s.

Definition S_step (s s' : State) : Prop :=
  Forall2 keeps (guschan s) (guschan s') /\
  G_step (globals s) (globals s') /\
  (curchan_ok s -> curchan_ok s').

(** ** Draining the voice interrupts *)

(** The voices the aggregator reports: [totalmask] of [CheckVoiceIrq]. *)
Definition pending (g : GFGus) : Z :=
  Z.land (Z.lor (RampIRQ g) (WaveIRQ g)) (ActiveMask g).

(** The number of bits set among the lowest [n]. *)
Fixpoint popcount (n : nat) (t : Z) : nat :=
  match n with
  | O => O
  | S k => ((if Z.testbit t (Z.of_nat k) then 1 else 0) + popcount k t)%nat
  end.

(** [n] reads of the data port's high byte in a row. *)
Fixpoint drain (n : nat) (s : State) : option State :=
  match n with
  | O => Some s
  | S k =>
      '(_, s) ← read_gus s (portbase (myGUS (globals s)) + 0x305) 1;
      drain k s
  end.

(** Clearing bit [c]: [t'] is [t] without it. *)
Definition cleared (c t t' : Z) : Prop :=
  forall i, 0 <= i < 32 -> Z.testbit t' i = Z.testbit t i && negb (i =? c).


(** ** The 8-bit sampler as the specification words it

    "let base = wave_addr >> 9; let s0 = signed_i8 (memory[base mod 2^20]);
    if wave_add < 2^9, let s1 = signed_i8 (memory[(base+1) mod 2^20]) and
    return (s0 + (s1 - s0) · frac/2^9) · 2^8, where frac = wave_addr mod
    2^9; otherwise return s0 · 2^8", in binary32 arithmetic. *)
Definition GetSample8_spec (v : GUSChannels) (G : Globals) : spec_float :=
  let base := Z.shiftr (WaveAddr v) 9 in
  let s0 := F32.of_Z (s8 (GUSRam G (base mod 2 ^ 20))) in
  if WaveAdd v <? 2 ^ 9 then
    let s1 := F32.of_Z (s8 (GUSRam G ((base + 1) mod 2 ^ 20))) in
    let frac := F32.of_Z (WaveAddr v mod 2 ^ 9) in
    F32.mul
      (F32.add s0 (F32.mul (F32.sub s1 s0) (F32.div frac (F32.of_Z (2 ^ 9)))))
      (F32.of_Z (2 ^ 8))
  else F32.mul s0 (F32.of_Z (2 ^ 8)).

(** ** A reference C library and example runs

    [cos] and [sin] are parameters of the development.  The closed examples
    instantiate them with Taylor polynomials evaluated in binary64; at the
    angle 0 of pan position 0 these return exactly 1 and +0, as the C
    library does.  At other angles they need not agree with the C library
    in the last bits of the double (at pi/2, pan position 15, the
    polynomial gives +0 where the library gives about 6.1e-17): no closed
    example reads pan position 15, and the theorems hold for every [cos]
    and [sin]. *)

(** [1 - x2/(a(a+1)) (1 - x2/((a+2)(a+3)) (1 - ...))] *)
Fixpoint taylor (terms : nat) (a : Z) (x2 : spec_float) : spec_float :=
  match terms with
  | O => F64.one
  | S n =>
      F64.sub F64.one
        (F64.mul (F64.div x2 (F64.of_Z (a * (a + 1)))) (taylor n (a + 2) x2))
  end.

Definition cos_ref (x : spec_float) : spec_float := taylor 12 1 (F64.mul x x).
Definition sin_ref (x : spec_float) : spec_float :=
  F64.mul x (taylor 12 2 (F64.mul x x)).

(** A card configured at port 0x240; [outb] and [outw] are byte and word
    writes by the guest to the port at the given offset. *)
Definition outb (offset val : Z) : Input := IO_Write (0x240 - 0x200 + offset) val 1.
Definition outw (offset val : Z) : Input := IO_Write (0x240 - 0x200 + offset) val 2.

(** The card after construction and the inputs [prog]. *)
Definition after (prog : list Input) : option State :=
  s ← GUS_new 0x240 3 5; run cos_ref sin_ref s prog.

(** 14 active voices; voice 0 plays the 16-bit sample 0x7FFF stored at
    address 0, at full volume, panned hard left. *)
Definition loud_prog : list Input :=
  [ outb 0x303 0x0E; outb 0x305 0x0D;
    outb 0x302 0;
    outb 0x303 0x43; outw 0x304 0; outb 0x307 0xFF;
    outb 0x303 0x43; outw 0x304 1; outb 0x307 0x7F;
    outb 0x303 0x09; outw 0x304 0xFFF0;
    outb 0x303 0x0C; outb 0x305 0;
    outb 0x303 0x00; outb 0x305 0x04 ].

(** 14 active voices; voice 0 steps backwards from address 0 by 50 with
    the rollover bit (bit 2 of the ramp control) set, for one frame. *)
Definition overrun_prog : list Input :=
  [ outb 0x303 0x0E; outb 0x305 0x0D;
    outb 0x302 0;
    outb 0x303 0x01; outw 0x304 100;
    outb 0x303 0x0D; outb 0x305 0x07;
    outb 0x303 0x00; outb 0x305 0x40;
    Mixer_CallBack 1 ].

(** 14 active voices; voices 2 and 9 raise their wave interrupt by hand;
    register 0x8F is selected. *)
Definition irq_prog : list Input :=
  [ outb 0x303 0x0E; outb 0x305 0x0D;
    outb 0x302 2; outb 0x303 0x00; outb 0x305 0xA3;
    outb 0x302 9; outb 0x303 0x00; outb 0x305 0xA3;
    outb 0x303 0x8F ].

(** The end-to-end scenarios of the specification on a four-byte sample:
    14 active voices, memory[0..3] = -128 .. -125, voice 0 from address 0
    to address 3, one byte per frame, at full volume, panned to the
    centre; four frames are mixed. *)
Definition sample_prog (wave_ctrl : Z) : list Input :=
  [ outb 0x303 0x0E; outb 0x305 0x0D;
    outb 0x303 0x43; outw 0x304 0; outb 0x307 0x80;
    outb 0x303 0x43; outw 0x304 1; outb 0x307 0x81;
    outb 0x303 0x43; outw 0x304 2; outb 0x307 0x82;
    outb 0x303 0x43; outw 0x304 3; outb 0x307 0x83;
    outb 0x302 0;
    outb 0x303 0x04; outw 0x304 0;
    outb 0x303 0x05; outw 0x304 0x600;
    outb 0x303 0x01; outw 0x304 1024;
    outb 0x303 0x09; outw 0x304 0xFFF0;
    outb 0x303 0x00; outb 0x305 wave_ctrl;
    Mixer_CallBack 4 ].

(** A reset through register 0x4C, then 64 frames. *)
Definition silence_prog : list Input :=
  [ outb 0x303 0x0E; outb 0x305 0x0D;
    outb 0x303 0x4C; outb 0x305 0x01;
    Mixer_CallBack 64 ].

(** A stopped voice (wave control 1) whose ramp still runs, at full volume
    and panned hard left, over a memory holding 0x7F at address 0. *)
Definition stopped_voice : GUSChannels :=
  set_PanPot 0
    (set_CurrentVolIndex 4095 (set_RampCtrl 0 (set_WaveCtrl 1 (GUSChannels_new 0)))).

Definition example_globals : Globals :=
  {| myGUS := GFGus_new; adlib_commandreg := 0;
     GUSRam := fun a => if a =? 0 then 0x7f else 0; effects := [] |}.

(** A voice in a bidirectional loop one step before its end. *)
Definition bidi_voice : GUSChannels :=
  set_WaveAdd 1 (set_WaveCtrl 0x18 (GUSChannels_new 0)).


(** ** Register accesses by the guest

    The guest reaches a register of the GF1 by writing its index to the
    register-select port 0x303 and then accessing the data port 0x304 as a
    word. *)
Definition write_register (s : State) (reg data : Z) : option State :=
  let p := portbase (myGUS (globals s)) in
  s ← write_gus s (p + 0x303) reg 1;
  write_gus s (p + 0x304) data 2.

Definition read_register (s : State) (reg : Z) : option (Z * State) :=
  let p := portbase (myGUS (globals s)) in
  s ← write_gus s (p + 0x303) reg 1;
  read_gus s (p + 0x304) 2.

(** A write that runs [GUSReset] with bit 0 of the data latch set, and so
    [PrintStats]: a data write that executes register 0x4C, as a word at
    port 0x304, whose bit 0 is that of the value written, or at port
    0x305, which keeps the low byte the latch has. *)
Definition reset_write (s : State) (port val iolen : Z) : bool :=
  let g := myGUS (globals s) in
  let off := port - portbase g in
  (gRegSelect g =? 0x4c) &&
  (((off =? 0x304) && (iolen =? 2) && Z.testbit (u16 val) 0) ||
   ((off =? 0x305) && Z.testbit (gRegData g) 0)).

(** The state in which the register executes after the two writes, and
    the state a register read starts from. *)
Definition latched (s : State) (reg data : Z) : State :=
  set_globals
    (upd (set_gRegData (u16 data))
       (upd (set_gRegData 0) (upd (set_gRegSelect (u8 reg)) (globals s)))) s.

Definition selected (s : State) (reg : Z) : State :=
  set_globals (upd (set_gRegData 0) (upd (set_gRegSelect (u8 reg)) (globals s))) s.

(** ** Further invariants of the card *)

(** The sampler and the counter [WriteWaveCtrl] selects for a control
    byte. *)
Definition sampler_of (ctrl : Z) : get_sample_f :=
  if nz (Z.land ctrl WCTRL_16BIT) then GetSample16_f else GetSample8_f.

Definition counter_of (ctrl : Z) : generated_ms_p :=
  if nz (Z.land ctrl WCTRL_16BIT) then generated_16bit_ms_p else generated_8bit_ms_p.

(** A voice whose pan position indexes [pan_scalars] and whose sampler is
    the one of its wave control. *)
Definition voice_typed (v : GUSChannels) : Prop :=
  0 <= PanPot v <= 15 /\
  getSample v = sampler_of (WaveCtrl v) /\
  generated_ms v = counter_of (WaveCtrl v).

Definition vkeeps (v v' : GUSChannels) : Prop := voice_typed v -> voice_typed v'.

(** An IRQ status byte with no bit other than the timer bits (2, 3), the
    voice bits (5, 6) and the DMA bit (7). *)
Definition status_ok (x : Z) : Prop := 0 <= x < 256 /\ Z.land x 0x13 = 0.

Definition status_okb (x : Z) : bool :=
  (0 <=? x) && (x <? 256) && (Z.land x 0x13 =? 0).

(** The registers of the card hold values of their C++ types. *)
Definition globals_typed (G : Globals) : Prop :=
  0 <= gDramAddr (myGUS G) < 2 ^ 24 /\
  0 <= gRegData (myGUS G) < 2 ^ 16 /\
  0 <= gRegSelect (myGUS G) < 2 ^ 8 /\
  0 <= dmaAddr (myGUS G) < 2 ^ 16 /\
  status_ok (IRQStatus (myGUS G)) /\
  0 <= gCurChannel (myGUS G) < 32 /\
  0 <= adlib_commandreg G < 2 ^ 8.

(** [G'] is a later state of the globals [G], with the same voice selected. *)
Definition Gkeeps (G G' : Globals) : Prop :=
  gCurChannel (myGUS G') = gCurChannel (myGUS G) /\
  (globals_typed G -> globals_typed G').

(** [curchan] is the voice [gCurChannel] names. *)
Definition selected_ok (s : State) : Prop :=
  forall i, curchan s = Some i -> Z.of_nat i = gCurChannel (myGUS (globals s)).

Definition card_typed (s : State) : Prop :=
  Forall voice_typed (guschan s) /\ globals_typed (globals s) /\ selected_ok s.

Definition Skeeps (s s' : State) : Prop :=
  Forall2 vkeeps (guschan s) (guschan s') /\
  (globals_typed (globals s) -> globals_typed (globals s')) /\
  (selected_ok s -> selected_ok s').

(** ** What a reset leaves *)

(** A voice as the loop of [GUSReset] leaves it: stopped, at volume index
    0, in the centre, its statistics cleared. *)
Definition reset_voice (v : GUSChannels) : GUSChannels :=
  set_generated_16bit_ms 0
    (set_generated_8bit_ms 0
       (set_PanPot 7
          (set_RampCtrl 1
             (set_generated_ms generated_8bit_ms_p
                (set_getSample GetSample8_f
                   (set_WaveCtrl 1 (set_CurrentVolIndex 0 v))))))).

(** [G'] differs from [G] at most in the interrupt state (the two voice
    bitmaps, the status byte, the voice the status points at) and in the
    calls made. *)
Definition irq_frame (G G' : Globals) : Prop :=
  adlib_commandreg G' = adlib_commandreg G /\
  GUSRam G' = GUSRam G /\
  exists c st w r,
    myGUS G' = set_IRQChan c (set_IRQStatus st (set_WaveIRQ w (set_RampIRQ r (myGUS G)))).


(** ** Voices that stay within their bounds *)

(** The position of the voice is between its two addresses, no rollover
    is requested (bit 2 of the ramp control), and a looping voice (bit 3
    of the wave control) steps by no more than the length of its loop. *)
Definition wave_in_range (v : GUSChannels) : Prop :=
  0 <= WaveStart v /\ WaveStart v <= WaveAddr v <= WaveEnd v /\ WaveEnd v < 2 ^ 31 /\
  0 <= WaveAdd v < 2 ^ 31 /\
  Z.testbit (RampCtrl v) 2 = false /\
  (Z.testbit (WaveCtrl v) 3 = true -> WaveAdd v <= WaveEnd v - WaveStart v).

(** The volume index is between the two bounds of the ramp, in the volume
    table, and a looping ramp (bit 3 of the ramp control) steps by no more
    than the length of its loop. *)
Definition ramp_in_range (v : GUSChannels) : Prop :=
  0 <= StartVolIndex v /\ StartVolIndex v <= CurrentVolIndex v <= EndVolIndex v /\
  EndVolIndex v < GUS_VOLUME_POSITIONS /\
  0 <= IncrVolIndex v < 2 ^ 31 /\
  (Z.testbit (RampCtrl v) 3 = true -> IncrVolIndex v <= EndVolIndex v - StartVolIndex v).

(** The end address of the voice is in the card's memory, for the 16-bit
    sampler below the last word of the last bank. *)
Definition end_in_memory (v : GUSChannels) : Prop :=
  WaveEnd v < Z.shiftl (match getSample v with
                        | GetSample8_f => GUS_RAM_SIZE
                        | GetSample16_f => 0xdffff
                        end) WAVE_FRACT.

(** The bounds of a voice, which only register writes change. *)
Definition same_bounds (v v' : GUSChannels) : Prop :=
  WaveStart v' = WaveStart v /\ WaveEnd v' = WaveEnd v /\ WaveAdd v' = WaveAdd v /\
  StartVolIndex v' = StartVolIndex v /\ EndVolIndex v' = EndVolIndex v /\
  IncrVolIndex v' = IncrVolIndex v /\ getSample v' = getSample v /\
  PanPot v' = PanPot v.

(** [n] phase updates of a voice, one per frame. *)
Definition wave_steps (n : nat) (v : GUSChannels) (G : Globals)
  : GUSChannels * Globals :=
  Nat.iter n (fun p => WaveUpdate (fst p) (snd p)) (v, G).

(** * Properties *)

(** Reduction of record projections applied to field updates. *)
Ltac fields :=
  cbn [value reached raiseirq masked running delay set_value set_reached
       set_raiseirq set_masked set_running set_delay gRegSelect gRegData
       gDramAddr gCurChannel DMAControl dmaAddr TimerControl SampControl
       mixControl ActiveChannels basefreq timers rate peak_amplitude portbase
       dma1 dma2 irq1 irq2 irqenabled ChangeIRQDMA IRQStatus ActiveMask IRQChan
       RampIRQ WaveIRQ set_gRegSelect set_gRegData set_gDramAddr
       set_gCurChannel set_DMAControl set_dmaAddr set_TimerControl
       set_SampControl set_mixControl set_ActiveChannels set_basefreq
       set_timers set_peak_amplitude set_dma1 set_irq1 set_irqenabled
       set_ChangeIRQDMA set_IRQStatus set_ActiveMask set_IRQChan set_RampIRQ
       set_WaveIRQ set_portbase_new getSample WaveStart WaveEnd WaveAddr
       WaveAdd WaveCtrl WaveFreq StartVolIndex EndVolIndex CurrentVolIndex
       IncrVolIndex RampRate RampCtrl PanPot channum irqmask generated_8bit_ms
       generated_16bit_ms generated_ms set_getSample set_WaveStart set_WaveEnd
       set_WaveAddr set_WaveAdd set_WaveCtrl set_WaveFreq set_StartVolIndex
       set_EndVolIndex set_CurrentVolIndex set_IncrVolIndex set_RampRate
       set_RampCtrl set_PanPot set_generated_8bit_ms set_generated_16bit_ms
       set_generated_ms myGUS adlib_commandreg GUSRam effects set_myGUS
       set_adlib_commandreg set_GUSRam emit upd globals guschan curchan
       set_globals set_guschan set_curchan fst snd] in *.


(** ** Arithmetic helpers *)

Lemma forallb_seqZ (P : Z -> bool) (lo len : Z) :
  forallb P (seqZ lo len) = true ->
  forall n, lo <= n < lo + len -> P n = true.
Proof.
  intros H n Hn. rewrite forallb_forall in H. apply H.
  apply list_elem_of_In, elem_of_seqZ. lia.
Qed.

Lemma nz_true (z : Z) : nz z = true <-> z <> 0.
Proof. unfold nz. destruct (Z.eqb_spec z 0); simpl; split; congruence. Qed.

Lemma nz_false (z : Z) : nz z = false <-> z = 0.
Proof. unfold nz. destruct (Z.eqb_spec z 0); simpl; split; congruence. Qed.

Lemma ceil_udivide_spec (x y : Z) :
  0 < y -> y * (ceil_udivide x y - 1) < x <= y * ceil_udivide x y.
Proof.
  intros Hy. unfold ceil_udivide.
  pose proof (Z.div_mod (x + y - 1) y ltac:(lia)) as E.
  pose proof (Z.mod_pos_bound (x + y - 1) y Hy) as B.
  nia.
Qed.

Lemma land_63_bound (z : Z) : 0 <= Z.land z 63 < 64.
Proof.
  change 63 with (Z.ones 6). rewrite Z.land_ones by lia.
  apply Z.mod_pos_bound. lia.
Qed.


(** ** Preservation of the invariants *)

Lemma keeps_refl (v : GUSChannels) : keeps v v.
Proof. unfold keeps. auto. Qed.

Lemma keeps_trans (a b c : GUSChannels) : keeps a b -> keeps b c -> keeps a c.
Proof. unfold keeps. intros (-> & -> & ?) (-> & -> & ?). auto. Qed.

Lemma Forall2_keeps_refl (vs : list GUSChannels) : Forall2 keeps vs vs.
Proof. induction vs; constructor; auto using keeps_refl. Qed.

Lemma Forall2_keeps_trans (a b c : list GUSChannels) :
  Forall2 keeps a b -> Forall2 keeps b c -> Forall2 keeps a c.
Proof.
  intros H. revert c. induction H; intros c Hc; inversion Hc; subst;
    constructor; eauto using keeps_trans.
Qed.

Lemma G_step_refl (G : Globals) : G_step G G.
Proof. unfold G_step. auto. Qed.

Lemma G_step_trans (a b c : Globals) : G_step a b -> G_step b c -> G_step a c.
Proof. unfold G_step. auto. Qed.

Lemma S_step_refl (s : State) : S_step s s.
Proof. unfold S_step. auto using Forall2_keeps_refl, G_step_refl. Qed.

Lemma S_step_trans (a b c : State) : S_step a b -> S_step b c -> S_step a c.
Proof.
  unfold S_step. intros (H1 & H2 & H3) (H4 & H5 & H6). split; [|split].
  - eapply Forall2_keeps_trans; eassumption.
  - eapply G_step_trans; eassumption.
  - auto.
Qed.

Lemma S_step_card_ok (s s' : State) : S_step s s' -> card_ok s -> card_ok s'.
Proof.
  intros (Hv & Hg & Hc) ((Hlen & Hvs) & Hgo & Hco).
  split; [split | split; auto].
  - rewrite <- (Forall2_length _ _ _ Hv). exact Hlen.
  - intros i v' H.
    destruct (Forall2_lookup_r _ _ _ _ _ Hv H) as (v0 & Hv0 & Hk1 & Hk2 & Hk3).
    destruct (Hvs i v0 Hv0) as (A & B & C).
    split; [auto | split; congruence].
Qed.

(** Bounds of the control bytes under the three operations applied to them. *)

Lemma land_7f_bound (z : Z) : 0 <= Z.land z 0x7f < 128.
Proof.
  change 0x7f with (Z.ones 7). rewrite Z.land_ones by lia.
  apply Z.mod_pos_bound. lia.
Qed.

Lemma lxor_40_bound (c : Z) : 0 <= c < 128 -> 0 <= Z.lxor c 0x40 < 128.
Proof.
  intros Hc.
  pose proof (forallb_seqZ (fun c => (0 <=? Z.lxor c 0x40) && (Z.lxor c 0x40 <? 128))
                0 128 eq_refl c ltac:(lia)) as H.
  cbv beta in H. lia.
Qed.

Lemma lor_1_bound (c : Z) : 0 <= c < 128 -> 0 <= Z.lor c 1 < 128.
Proof.
  intros Hc.
  pose proof (forallb_seqZ (fun c => (0 <=? Z.lor c 1) && (Z.lor c 1 <? 128))
                0 128 eq_refl c ltac:(lia)) as H.
  cbv beta in H. lia.
Qed.

Create HintDb gus.
#[local] Hint Resolve keeps_refl G_step_refl S_step_refl Forall2_keeps_refl : gus.

Ltac ctrl_range :=
  first [ lia | apply lxor_40_bound; lia | apply lor_1_bound; lia
        | apply land_7f_bound ].

(** A voice after updates of its fields is a later state of the voice. *)
Ltac keeps_fields :=
  unfold keeps, ctrl_ok; fields;
  split; [reflexivity | split; [reflexivity |]];
  intros [[? ?] [? ?]]; split; ctrl_range.

Ltac G_step_fields :=
  unfold G_step, g_ok, active_ok; fields; tauto.

Ltac split_ifs :=
  repeat match goal with
         | |- context [if ?b then _ else _] => destruct b
         end.

Lemma WaveUpdate_keeps (v : GUSChannels) (G : Globals) :
  keeps v (fst (WaveUpdate v G)) /\ G_step G (snd (WaveUpdate v G)).
Proof.
  unfold WaveUpdate. split_ifs; fields; (split; [keeps_fields | G_step_fields]).
Qed.

Lemma RampUpdate_keeps (v : GUSChannels) (G : Globals) :
  keeps v (fst (RampUpdate v G)) /\ G_step G (snd (RampUpdate v G)).
Proof.
  unfold RampUpdate. split_ifs; fields; (split; [keeps_fields | G_step_fields]).
Qed.

(** Taking apart [x ← m; k x = Some r]. *)
Ltac bind_inv H :=
  let x := fresh "x" in
  let Hx := fresh "Hx" in
  apply bind_Some in H as (x & Hx & H);
  repeat match type of H with
         | context [let '(_, _) := ?p in _] => is_var p; destruct p
         end.

Lemma shiftl_1_u32 (c : Z) : 0 <= c < 32 -> u32 (Z.shiftl 1 c) = 2 ^ c.
Proof.
  intros Hc. rewrite Z.shiftl_1_l. apply Z.mod_small.
  split; [apply Z.pow_nonneg; lia | apply Z.pow_lt_mono_r; lia].
Qed.

Lemma land_pow2 (t c : Z) :
  0 <= c -> Z.land t (2 ^ c) = if Z.testbit t c then 2 ^ c else 0.
Proof.
  intros Hc. apply Z.bits_inj'. intros n Hn.
  rewrite Z.land_spec, Z.pow2_bits_eqb by lia.
  destruct (Z.eqb_spec c n) as [-> | Hne].
  - destruct (Z.testbit t n) eqn:E; rewrite ?Z.bits_0, ?Z.pow2_bits_eqb, ?Z.eqb_refl by lia;
      reflexivity.
  - rewrite andb_false_r.
    destruct (Z.testbit t c); rewrite ?Z.bits_0, ?Z.pow2_bits_eqb by lia;
      [symmetry; apply Z.eqb_neq; exact Hne | reflexivity].
Qed.

Lemma irq_check (t c : Z) :
  0 <= c < 32 -> nz (Z.land t (u32 (Z.shiftl 1 c))) = Z.testbit t c.
Proof.
  intros Hc. rewrite shiftl_1_u32, land_pow2 by lia.
  destruct (Z.testbit t c).
  - apply nz_true. pose proof (Z.pow_pos_nonneg 2 c). lia.
  - reflexivity.
Qed.

(** What the scan returns is a channel whose bit is set in the mask. *)
Lemma irq_scan_found (fuel : nat) (t active c c' : Z) :
  0 <= c -> irq_scan fuel t active c = Some c' ->
  0 <= c' < 32 /\ Z.testbit t c' = true.
Proof.
  revert c. induction fuel as [| n IH]; intros c Hc H; [discriminate |].
  cbn [irq_scan] in H.
  destruct (Z.leb_spec 32 c); [discriminate |].
  rewrite irq_check in H by lia.
  destruct (Z.testbit t c) eqn:E.
  - inversion H; subst. split; [lia | exact E].
  - apply IH in H; [exact H |].
    destruct (active <=? u8 (c + 1)); [lia |].
    apply Z.mod_pos_bound. lia.
Qed.

(** Once the scan has returned, more rounds do not change its result. *)
Lemma irq_scan_more_fuel (n m : nat) (t active c c' : Z) :
  irq_scan n t active c = Some c' -> (n <= m)%nat ->
  irq_scan m t active c = Some c'.
Proof.
  revert m c. induction n as [| n IH]; intros m c H Hm; [discriminate |].
  destruct m as [| m]; [lia |]. cbn [irq_scan] in H |- *.
  destruct (32 <=? c); [discriminate |].
  destruct (nz _); [exact H |]. apply IH; [exact H | lia].
Qed.

Lemma CheckVoiceIrq_fields (G G' : Globals) :
  CheckVoiceIrq G = Some G' ->
  ActiveChannels (myGUS G') = ActiveChannels (myGUS G) /\
  ActiveMask (myGUS G') = ActiveMask (myGUS G) /\
  RampIRQ (myGUS G') = RampIRQ (myGUS G) /\
  WaveIRQ (myGUS G') = WaveIRQ (myGUS G) /\
  (0 <= IRQChan (myGUS G) < 32 -> 0 <= IRQChan (myGUS G') < 32).
Proof.
  unfold CheckVoiceIrq, GUS_CheckIRQ. fields.
  destruct (negb _).
  - intros H. inversion H; subst. fields. auto.
  - intros H. bind_inv H. inversion H; subst. clear H.
    revert Hx. split_ifs; fields; intros Hx; repeat split; try reflexivity;
      apply irq_scan_found in Hx; lia.
Qed.

Lemma CheckVoiceIrq_step (G G' : Globals) : CheckVoiceIrq G = Some G' -> G_step G G'.
Proof.
  intros H. apply CheckVoiceIrq_fields in H as (H1 & H2 & _ & _ & H3).
  unfold G_step, g_ok, active_ok. rewrite H1, H2. tauto.
Qed.

Lemma WriteWaveCtrl_keeps (v v' : GUSChannels) (val : Z) (G G' : Globals) :
  WriteWaveCtrl v val G = Some (v', G') -> keeps v v' /\ G_step G G'.
Proof.
  unfold WriteWaveCtrl. intros H. bind_inv H. inversion H; subst. clear H.
  split.
  - split_ifs; keeps_fields.
  - revert Hx. split_ifs; intros Hx;
      first [ apply CheckVoiceIrq_step in Hx; revert Hx
            | inversion Hx; subst ]; G_step_fields.
Qed.

Lemma WriteRampCtrl_keeps (v v' : GUSChannels) (val : Z) (G G' : Globals) :
  WriteRampCtrl v val G = Some (v', G') -> keeps v v' /\ G_step G G'.
Proof.
  unfold WriteRampCtrl. intros H. bind_inv H. inversion H; subst. clear H.
  split.
  - split_ifs; keeps_fields.
  - revert Hx. split_ifs; intros Hx;
      first [ apply CheckVoiceIrq_step in Hx; revert Hx
            | inversion Hx; subst ]; G_step_fields.
Qed.

Lemma WriteWaveFreq_keeps (v : GUSChannels) (val : Z) : keeps v (WriteWaveFreq v val).
Proof. unfold WriteWaveFreq. keeps_fields. Qed.

Lemma WriteRampRate_keeps (v : GUSChannels) (val : Z) : keeps v (WriteRampRate v val).
Proof. unfold WriteRampRate. keeps_fields. Qed.

Lemma UpdateWaveRamp_keeps (v : GUSChannels) : keeps v (UpdateWaveRamp v).
Proof.
  unfold UpdateWaveRamp.
  eapply keeps_trans; [apply WriteWaveFreq_keeps | apply WriteRampRate_keeps].
Qed.

Lemma WritePanPot_keeps (v : GUSChannels) (pos : Z) : keeps v (WritePanPot v pos).
Proof. unfold WritePanPot. keeps_fields. Qed.

Lemma ClearStats_keeps (v : GUSChannels) : keeps v (ClearStats v).
Proof. unfold ClearStats. keeps_fields. Qed.

Lemma incr_generated_ms_keeps (v : GUSChannels) : keeps v (incr_generated_ms v).
Proof. unfold incr_generated_ms. destruct (generated_ms v); keeps_fields. Qed.

Lemma reset_channels_keeps (vs vs' : list GUSChannels) (G G' : Globals) :
  reset_channels vs G = Some (vs', G') -> Forall2 keeps vs vs' /\ G_step G G'.
Proof.
  revert vs' G G'. induction vs as [| v vs IH]; intros vs' G G' H.
  - inversion H; subst. auto with gus.
  - cbn [reset_channels] in H.
    bind_inv H. apply WriteWaveCtrl_keeps in Hx as [K1 S1].
    bind_inv H. apply WriteRampCtrl_keeps in Hx as [K2 S2].
    bind_inv H. apply IH in Hx as [K3 S3].
    inversion H; subst. split.
    + constructor; [| exact K3].
      eapply keeps_trans; [| eapply keeps_trans; [exact K1 |]].
      * keeps_fields.
      * eapply keeps_trans; [exact K2 |].
        eapply keeps_trans; [apply WritePanPot_keeps | apply ClearStats_keeps].
    + eauto using G_step_trans.
Qed.

(** A state that differs in its globals only. *)
Lemma S_step_globals (s : State) (G : Globals) :
  G_step (globals s) G -> S_step s (set_globals G s).
Proof. intros H. unfold S_step, curchan_ok. fields. auto with gus. Qed.

Lemma GUSReset_step (s s' : State) : GUSReset s = Some s' -> S_step s s'.
Proof.
  unfold GUSReset. intros H. bind_inv H. inversion H; subst. clear H.
  eapply S_step_trans; [| apply S_step_globals; G_step_fields].
  destruct (_ =? _).
  - bind_inv Hx. apply reset_channels_keeps in Hx0 as [K S].
    inversion Hx; subst. clear Hx.
    unfold S_step, curchan_ok. fields. split; [exact K | split].
    + revert S. unfold G_step, g_ok, active_ok. fields. intros S Hg.
      destruct (S Hg) as [A B]. split; [exact A | lia].
    + rewrite <- (Forall2_length _ _ _ K). auto.
  - inversion Hx; subst. auto with gus.
Qed.

Lemma switch_cases {A : Type} (P : A -> Prop) (x : Z) (cases : list (Z * A)) (d : A) :
  Forall (fun c => P (snd c)) cases -> P d -> P (switch x cases d).
Proof.
  intros H Hd. induction H as [| [k a] rest Ha _ IH]; cbn [switch]; [exact Hd |].
  destruct (x =? k); [exact Ha | exact IH].
Qed.

Ltac each_case := repeat (apply List.Forall_cons); [.. | apply List.Forall_nil].

Lemma read_curchan_inv (s : State) (f : GUSChannels -> Z) (d r : Z) :
  read_curchan s f d = Some r ->
  (curchan s = None /\ r = d) \/
  (exists i v, curchan s = Some i /\ guschan s !! i = Some v /\ r = f v).
Proof.
  unfold read_curchan. destruct (curchan s) as [i |]; intros H.
  - bind_inv H. inversion H; subst. right. eauto.
  - inversion H; subst. left. auto.
Qed.

Lemma ExecuteReadRegister_step (s s' : State) (r : Z) :
  ExecuteReadRegister s = Some (r, s') -> S_step s s'.
Proof.
  unfold ExecuteReadRegister. revert r s'.
  apply (switch_cases (fun o => forall r s', o = Some (r, s') -> S_step s s')).
  - each_case; cbn [snd]; intros r s' H;
      try (bind_inv H); inversion H; subst; auto with gus.
    + apply S_step_globals. G_step_fields.
    + apply S_step_globals. apply CheckVoiceIrq_step in Hx. revert Hx. G_step_fields.
  - intros r s' H. inversion H; subst. auto with gus.
Qed.

Lemma update_active_prefix (n : nat) (vs : list GUSChannels) :
  Forall2 keeps vs ((UpdateWaveRamp <$> take n vs) ++ drop n vs).
Proof.
  revert n. induction vs as [| v vs IH]; intros [| n]; cbn; auto with gus.
  constructor; [apply UpdateWaveRamp_keeps | apply IH].
Qed.

Lemma update_active_keeps (n : Z) (vs vs' : list GUSChannels) :
  update_active n vs = Some vs' -> Forall2 keeps vs vs'.
Proof.
  unfold update_active. destruct (_ <? _); [discriminate |].
  intros H. inversion H; subst. apply update_active_prefix.
Qed.

Lemma clamp_range (x lo hi : Z) : lo <= hi -> lo <= clamp x lo hi <= hi.
Proof.
  intros H. unfold clamp.
  destruct (Z.ltb_spec x lo); [lia |]. destruct (Z.ltb_spec hi x); lia.
Qed.

Lemma active_mask_ones (n : Z) :
  14 <= n <= 32 -> Z.shiftr 0xffffffff (32 - n) = 2 ^ n - 1.
Proof.
  intros Hn.
  pose proof (forallb_seqZ (fun n => Z.shiftr 0xffffffff (32 - n) =? 2 ^ n - 1)
                14 19 eq_refl n ltac:(lia)) as H.
  cbv beta in H. lia.
Qed.

Lemma set_active_channels_step (s s' : State) :
  set_active_channels s = Some s' -> S_step s s'.
Proof.
  unfold set_active_channels. intros H. bind_inv H. bind_inv H.
  apply update_active_keeps in Hx0. inversion H; subst. clear H.
  unfold S_step, curchan_ok. fields. split; [exact Hx0 | split].
  - revert Hx. fields.
    pose proof (clamp_range (1 + Z.land (Z.shiftr (gRegData (myGUS (globals s))) 8) 63)
                  GUS_MIN_CHANNELS GUS_MAX_CHANNELS ltac:(unfold GUS_MIN_CHANNELS, GUS_MAX_CHANNELS; lia)) as Hr.
    unfold GUS_MIN_CHANNELS, GUS_MAX_CHANNELS in Hr |- *.
    set (requested := clamp _ 14 32) in *.
    destruct (negb _) eqn:E; intros Hx.
    + bind_inv Hx. inversion Hx; subst. clear Hx.
      unfold G_step, g_ok, active_ok. fields.
      assert (Hu : u8 requested = requested) by (apply Z.mod_small; lia).
      rewrite Hu, active_mask_ones by lia. intros [_ Hc]. split; [right | exact Hc].
      split; [lia | reflexivity].
    + inversion Hx; subst. G_step_fields.
  - rewrite <- (Forall2_length _ _ _ Hx0). auto.
Qed.

Lemma with_curchan_step (s s' : State)
    (f : GUSChannels -> Globals -> option (GUSChannels * Globals)) :
  (forall v G v' G', f v G = Some (v', G') -> keeps v v' /\ G_step G G') ->
  with_curchan s f = Some s' -> S_step s s'.
Proof.
  intros Hf. unfold with_curchan. destruct (curchan s) as [i |] eqn:Ec; intros H.
  - bind_inv H. bind_inv H. inversion H; subst. clear H.
    apply Hf in Hx0 as [K S].
    unfold S_step, curchan_ok. fields. split; [| split].
    + apply Forall2_same_length_lookup. split; [rewrite length_insert; reflexivity |].
      intros j a b Ha Hb. destruct (decide (i = j)) as [-> | Hne].
      * rewrite list_lookup_insert_eq in Hb by (eapply lookup_lt_Some; eassumption).
        congruence.
      * rewrite list_lookup_insert_ne in Hb by exact Hne.
        assert (a = b) by congruence. subst. apply keeps_refl.
    + exact S.
    + rewrite length_insert. auto.
  - inversion H; subst. auto with gus.
Qed.

Lemma curchan_set_step (s s' : State) (f : GUSChannels -> GUSChannels) :
  (forall v, keeps v (f v)) -> curchan_set s f = Some s' -> S_step s s'.
Proof.
  intros Hf. unfold curchan_set. apply with_curchan_step.
  intros v G v' G' H. inversion H; subst. auto with gus.
Qed.

Lemma ExecuteGlobRegister_step (s s' : State) :
  ExecuteGlobRegister s = Some s' -> S_step s s'.
Proof.
  unfold ExecuteGlobRegister. revert s'.
  apply (switch_cases (fun o => forall s', o = Some s' -> S_step s s')).
  - each_case; cbn [snd]; intros s' H;
      try (apply curchan_set_step in H; [exact H | intros v; keeps_fields]);
      try (inversion H; subst; first [ solve [auto with gus]
                                      | apply S_step_globals; split_ifs; G_step_fields ]).
    + revert H. apply with_curchan_step. intros v G v' G'. apply WriteWaveCtrl_keeps.
    + revert H. apply curchan_set_step. intros v. apply WriteWaveFreq_keeps.
    + revert H. apply curchan_set_step. intros v. apply WriteRampRate_keeps.
    + revert H. apply curchan_set_step. intros v. apply WritePanPot_keeps.
    + revert H. apply with_curchan_step. intros v G v' G'. apply WriteRampCtrl_keeps.
    + apply set_active_channels_step. exact H.
    + apply GUSReset_step. exact H.
  - intros s' H. inversion H; subst. auto with gus.
Qed.

Lemma read_gus_step (s s' : State) (port iolen r : Z) :
  read_gus s port iolen = Some (r, s') -> S_step s s'.
Proof.
  unfold read_gus. revert r s'.
  apply (switch_cases (fun o => forall r s', o = Some (r, s') -> S_step s s')).
  - each_case; cbn [snd]; intros r s' H;
      try (inversion H; subst; solve [auto with gus]).
    + bind_inv H. apply ExecuteReadRegister_step in Hx.
      destruct (iolen =? 2); inversion H; subst; exact Hx.
    + bind_inv H. apply ExecuteReadRegister_step in Hx.
      inversion H; subst; exact Hx.
    + destruct (_ <? _); [bind_inv H |]; inversion H; subst; auto with gus.
  - intros r s' H. inversion H; subst. auto with gus.
Qed.

Lemma set_timer_at_step (val : Z) (t : GusTimer) (G : Globals) :
  G_step G (upd (set_timer_at val t) G).
Proof. unfold set_timer_at. destruct (val =? 0); G_step_fields. Qed.

Lemma timer_command_step (val : Z) (start : bool) (G G' : Globals) :
  timer_command val start G = Some G' -> G_step G G'.
Proof.
  unfold timer_command. intros H. bind_inv H.
  destruct start; [destruct (negb _) |]; inversion H; subst;
    auto using set_timer_at_step with gus.
  eapply G_step_trans; [| apply set_timer_at_step]. G_step_fields.
Qed.

Lemma write_gus_step (s s' : State) (port val iolen : Z) :
  write_gus s port val iolen = Some s' -> S_step s s'.
Proof.
  unfold write_gus. revert s'.
  apply (switch_cases (fun o => forall s', o = Some s' -> S_step s s')).
  - each_case; cbn [snd]; intros s' H.
    + inversion H; subst. apply S_step_globals. G_step_fields.
    + inversion H; subst. apply S_step_globals. G_step_fields.
    + destruct (nz _).
      * inversion H; subst. apply S_step_globals. G_step_fields.
      * bind_inv H. bind_inv H. inversion H; subst. apply S_step_globals.
        apply timer_command_step in Hx, Hx0.
        eapply G_step_trans; [| exact Hx0]. eapply G_step_trans; [| exact Hx].
        G_step_fields.
    + destruct (negb _); [inversion H; subst; auto with gus |].
      destruct (nz _); bind_inv H; inversion H; subst; apply S_step_globals;
        destruct (nz _); G_step_fields.
    + bind_inv H. inversion H; subst. clear H.
      unfold S_step, curchan_ok. fields.
      split; [auto with gus | split; [G_step_fields |]].
      intros _ i Hi. inversion Hi; subst. eapply lookup_lt_Some. eassumption.
    + inversion H; subst. apply S_step_globals. G_step_fields.
    + destruct (iolen =? 2).
      * apply ExecuteGlobRegister_step in H.
        eapply S_step_trans; [| exact H]. apply S_step_globals. G_step_fields.
      * inversion H; subst. apply S_step_globals. G_step_fields.
    + apply ExecuteGlobRegister_step in H.
      eapply S_step_trans; [| exact H]. apply S_step_globals. G_step_fields.
    + destruct (_ <? _); inversion H; subst; auto with gus.
      apply S_step_globals. G_step_fields.
  - intros s' H. inversion H; subst. auto with gus.
Qed.

Lemma GUS_CheckIRQ_step (G : Globals) : G_step G (GUS_CheckIRQ G).
Proof. unfold GUS_CheckIRQ. destruct (_ && _); G_step_fields. Qed.

Lemma GUS_TimerEvent_step (G G' : Globals) (val : Z) :
  GUS_TimerEvent G val = Some G' -> G_step G G'.
Proof.
  unfold GUS_TimerEvent. intros H. bind_inv H. inversion H; subst. clear H.
  assert (S1 : G_step G (if negb (masked x)
                         then upd (set_timer_at val (set_reached true x)) G else G))
    by (destruct (negb _); auto using set_timer_at_step with gus).
  eapply G_step_trans; [exact S1 |].
  destruct (raiseirq x), (running x);
    repeat first [ apply G_step_refl
                 | eapply G_step_trans; [| apply GUS_CheckIRQ_step]
                 | G_step_fields ].
Qed.

Lemma GUS_DMA_Callback_step (G G' : Globals) (chan : DmaChannel) (unmasked : bool) :
  GUS_DMA_Callback G chan unmasked = Some G' -> G_step G G'.
Proof.
  unfold GUS_DMA_Callback. destruct (negb unmasked); intros H;
    [inversion H; subst; auto with gus |].
  destruct (_ <? _); [discriminate |]. inversion H; subst. clear H.
  split_ifs;
    repeat first [ apply G_step_refl
                 | eapply G_step_trans; [| apply GUS_CheckIRQ_step]
                 | G_step_fields ].
Qed.

Section Preservation.

Variable cos sin : spec_float -> spec_float.

Lemma generate_frame_keeps (v v' : GUSChannels) (G G' : Globals) (fr fr' : Frame.t) :
  generate_frame cos sin v G fr = Some (v', G', fr') -> keeps v v' /\ G_step G G'.
Proof.
  unfold generate_frame. intros H. bind_inv H. bind_inv H. bind_inv H.
  match type of H with
  | context [WaveUpdate ?a ?b] =>
      pose proof (WaveUpdate_keeps a b) as [K1 S1];
      destruct (WaveUpdate a b) as [v1 G1]
  end.
  pose proof (RampUpdate_keeps v1 G1) as [K2 S2].
  destruct (RampUpdate v1 G1) as [v2 G2].
  inversion H; subst. fields. split; [eauto using keeps_trans |].
  eapply G_step_trans; [| eapply G_step_trans; [exact S1 | exact S2]].
  G_step_fields.
Qed.

Lemma generate_loop_keeps (len : nat) (v v' : GUSChannels) (G G' : Globals)
    (stream stream' : list Frame.t) :
  generate_loop cos sin len v G stream = Some (v', G', stream') ->
  keeps v v' /\ G_step G G'.
Proof.
  revert v G stream v' G' stream'.
  induction len as [| n IH]; intros v G stream v' G' stream' H; cbn [generate_loop] in H.
  - inversion H; subst. auto with gus.
  - destruct stream as [| fr rest]; [discriminate |].
    bind_inv H. apply generate_frame_keeps in Hx as [K1 S1].
    bind_inv H. apply IH in Hx as [K2 S2].
    inversion H; subst. eauto using keeps_trans, G_step_trans.
Qed.

Lemma generateSamples_keeps (v v' : GUSChannels) (G G' : Globals)
    (stream stream' : list Frame.t) (len : Z) :
  generateSamples cos sin v G stream len = Some (v', G', stream') ->
  keeps v v' /\ G_step G G'.
Proof.
  unfold generateSamples. destruct (nz _); intros H.
  - inversion H; subst. auto with gus.
  - bind_inv H. apply generate_loop_keeps in Hx as [K S].
    inversion H; subst. split; [| exact S].
    eapply keeps_trans; [exact K | apply incr_generated_ms_keeps].
Qed.

Lemma generate_voices_keeps (vs vs' : list GUSChannels) (G G' : Globals)
    (acc acc' : list Frame.t) (len : Z) :
  generate_voices cos sin vs G acc len = Some (vs', G', acc') ->
  Forall2 keeps vs vs' /\ G_step G G'.
Proof.
  revert G acc vs' G' acc'.
  induction vs as [| v vs IH]; intros G acc vs' G' acc' H; cbn [generate_voices] in H.
  - inversion H; subst. auto with gus.
  - bind_inv H. apply generateSamples_keeps in Hx as [K1 S1].
    bind_inv H. apply IH in Hx as [K2 S2].
    inversion H; subst. split; [constructor; assumption | eauto using G_step_trans].
Qed.

Lemma accumulate_step (s s' : State) (len : Z) (acc : list Frame.t) :
  accumulate cos sin s len = Some (s', acc) -> S_step s s'.
Proof.
  unfold accumulate. destruct (_ <? _); [discriminate |]. intros H.
  apply bind_Some in H as ([[vs G] acc'] & Hx & H).
  apply generate_voices_keeps in Hx as [K S].
  inversion H; subst. clear H.
  assert (K' : Forall2 keeps (guschan s)
                 (vs ++ drop (Z.to_nat (ActiveChannels (myGUS (globals s)))) (guschan s))).
  { rewrite <- (take_drop (Z.to_nat (ActiveChannels (myGUS (globals s)))) (guschan s)) at 1.
    apply Forall2_app; [exact K | apply Forall2_keeps_refl]. }
  unfold S_step, curchan_ok. fields. split; [exact K' | split; [exact S |]].
  rewrite <- (Forall2_length _ _ _ K'). auto.
Qed.

Lemma SoftLimit_step (G G' : Globals) (inp : list Frame.t) (len : Z) (r : SoftLimit_result) :
  SoftLimit G inp len = Some (r, G') -> G_step G G'.
Proof.
  unfold SoftLimit. destruct (_ && _); intros H.
  - inversion H; subst. auto with gus.
  - bind_inv H. inversion H; subst. clear H. split_ifs; G_step_fields.
Qed.

Lemma scale_accumulator_step (G G' : Globals) (acc : list Frame.t) (len : Z)
    (scaled : list (Z * Z)) :
  scale_accumulator G acc len = Some (scaled, G') -> G_step G G'.
Proof.
  unfold scale_accumulator. intros H. bind_inv H. apply SoftLimit_step in Hx.
  destruct s; [bind_inv H |]; inversion H; subst; exact Hx.
Qed.

Lemma GUS_CallBack_step (s s' : State) (len : Z) :
  GUS_CallBack cos sin s len = Some s' -> S_step s s'.
Proof.
  unfold GUS_CallBack. destruct (_ <? _); [discriminate |]. intros H.
  bind_inv H. apply accumulate_step in Hx.
  bind_inv H. apply scale_accumulator_step in Hx0.
  bind_inv H. apply CheckVoiceIrq_step in Hx1. inversion H; subst. clear H.
  eapply S_step_trans; [exact Hx |]. apply S_step_globals.
  eapply G_step_trans; [exact Hx0 |]. eapply G_step_trans; [| exact Hx1].
  G_step_fields.
Qed.

Lemma step_S_step (s s' : State) (i : Input) :
  step cos sin s i = Some s' -> S_step s s'.
Proof.
  destruct i; cbn [step]; intros H.
  - eapply write_gus_step; eassumption.
  - destruct (read_gus s port iolen) as [[r s1] |] eqn:E; [| discriminate].
    inversion H; subst. eapply read_gus_step; eassumption.
  - eapply GUS_CallBack_step; eassumption.
  - bind_inv H. inversion H; subst. apply S_step_globals.
    eapply GUS_TimerEvent_step; eassumption.
  - bind_inv H. inversion H; subst. apply S_step_globals.
    eapply GUS_DMA_Callback_step; eassumption.
Qed.

Lemma fresh_voices_ok : voices_ok (GUSChannels_new <$> seqZ 0 GUS_MAX_CHANNELS).
Proof.
  split; [reflexivity |]. intros i v H.
  apply list_lookup_fmap_Some in H as (n & -> & Hn).
  apply lookup_seqZ in Hn as [-> Hi]. unfold GUS_MAX_CHANNELS in Hi.
  unfold ctrl_ok, GUSChannels_new. fields.
  rewrite Z.add_0_l, shiftl_1_u32 by lia. repeat split; lia.
Qed.

Lemma GUS_new_card_ok (gusbase gusdma gusirq : Z) (s : State) :
  GUS_new gusbase gusdma gusirq = Some s -> card_ok s.
Proof.
  unfold GUS_new, GUS_members. intros H. bind_inv H. inversion H; subst. clear H.
  apply GUSReset_step in Hx.
  eapply S_step_card_ok; [apply S_step_globals; G_step_fields |].
  eapply S_step_card_ok; [exact Hx |].
  split; [| split].
  - fields. apply fresh_voices_ok.
  - unfold g_ok, active_ok, GFGus_new. fields. split; [left; auto | lia].
  - unfold curchan_ok. fields. discriminate.
Qed.

Lemma reachable_card_ok (s : State) : reachable cos sin s -> card_ok s.
Proof.
  induction 1 as [? ? ? s H | s i s' _ IH H].
  - eapply GUS_new_card_ok; eassumption.
  - eapply S_step_card_ok; [eapply step_S_step; eassumption | exact IH].
Qed.

End Preservation.

(** ** The scan of [CheckVoiceIrq] returns *)

Lemma irq_scan_upward (t active : Z) (k : nat) :
  forall (fuel : nat) (c j : Z),
    j - c = Z.of_nat k -> 0 <= c -> j < active <= 32 -> Z.testbit t j = true ->
    (k < fuel)%nat ->
    exists c', irq_scan fuel t active c = Some c'.
Proof.
  induction k as [| k IH]; intros fuel c j Hk Hc Hj Hb Hf;
    (destruct fuel as [| fuel]; [exfalso; lia |]); cbn [irq_scan];
    (destruct (Z.leb_spec 32 c); [exfalso; lia |]); rewrite irq_check by lia.
  - replace c with j by lia. rewrite Hb. eauto.
  - destruct (Z.testbit t c); [eauto |].
    assert (Hu : u8 (c + 1) = c + 1) by (apply Z.mod_small; lia).
    rewrite Hu. destruct (Z.leb_spec active (c + 1)); [exfalso; lia |].
    apply (IH fuel (c + 1) j); auto; lia.
Qed.

Lemma irq_scan_wraps (t active : Z) (m : nat) :
  forall (fuel : nat) (c j : Z),
    32 - c = Z.of_nat m -> 0 <= c < 32 -> 0 <= j < active -> active <= 32 ->
    Z.testbit t j = true -> (m + 32 < fuel)%nat ->
    exists c', irq_scan fuel t active c = Some c'.
Proof.
  induction m as [| m IH]; intros fuel c j Hm Hc Hj Ha Hb Hf; [exfalso; lia |].
  destruct fuel as [| fuel]; [exfalso; lia |]. cbn [irq_scan].
  destruct (Z.leb_spec 32 c); [exfalso; lia |]. rewrite irq_check by lia.
  destruct (Z.testbit t c); [eauto |].
  assert (Hu : u8 (c + 1) = c + 1) by (apply Z.mod_small; lia).
  rewrite Hu. destruct (Z.leb_spec active (c + 1)).
  - apply (irq_scan_upward t active (Z.to_nat j) fuel 0 j); auto; lia.
  - apply (IH fuel (c + 1) j); auto; lia.
Qed.

Lemma irq_scan_returns (t active c j : Z) :
  0 <= c < 32 -> 0 <= j < active -> active <= 32 -> Z.testbit t j = true ->
  exists c', irq_scan irq_scan_fuel t active c = Some c'.
Proof.
  intros Hc Hj Ha Hb.
  apply (irq_scan_wraps t active (Z.to_nat (32 - c)) irq_scan_fuel c j);
    unfold irq_scan_fuel; auto; lia.
Qed.

(** ** Bits of the pending mask *)

Lemma testbit_clear (x c i : Z) :
  0 <= c < 32 -> 0 <= i < 32 ->
  Z.testbit (Z.land x (u32 (Z.lnot (u32 (Z.shiftl 1 c))))) i =
  Z.testbit x i && negb (i =? c).
Proof.
  intros Hc Hi. rewrite shiftl_1_u32 by lia. unfold u32.
  rewrite Z.land_spec, Z.mod_pow2_bits_low, Z.lnot_spec, Z.pow2_bits_eqb by lia.
  rewrite (Z.eqb_sym c i). reflexivity.
Qed.

Lemma active_mask_bits (g : GFGus) (i : Z) :
  active_ok g -> 0 <= i ->
  Z.testbit (ActiveMask g) i = (i <? ActiveChannels g).
Proof.
  intros [[-> ->] | [Ha ->]] Hi.
  - rewrite Z.bits_0. destruct (Z.ltb_spec i 0); [lia | reflexivity].
  - change (2 ^ ActiveChannels g - 1) with (Z.pred (2 ^ ActiveChannels g)).
    rewrite <- Z.ones_equiv. apply Z.testbit_ones_nonneg; lia.
Qed.

Lemma pending_bits_high (g : GFGus) (i : Z) :
  active_ok g -> 32 <= i -> Z.testbit (pending g) i = false.
Proof.
  intros Ha Hi. unfold pending. rewrite Z.land_spec, active_mask_bits by (auto; lia).
  destruct Ha as [[-> _] | [? _]];
    (destruct (Z.ltb_spec i (ActiveChannels g)) as [Hlt | _]; [lia | apply andb_false_r]) ||
    (destruct (Z.ltb_spec i 0); [lia | apply andb_false_r]).
Qed.

Lemma popcount_zero (t : Z) (n : nat) :
  popcount n t = O <-> forall i, 0 <= i < Z.of_nat n -> Z.testbit t i = false.
Proof.
  induction n as [| n IH]; cbn [popcount].
  - split; [intros _ i Hi; lia | reflexivity].
  - split.
    + intros H i Hi. destruct (Z.testbit t (Z.of_nat n)) eqn:E; [discriminate |].
      destruct (Z.eq_dec i (Z.of_nat n)) as [-> | Hne]; [exact E |].
      apply IH; [exact H | lia].
    + intros H. rewrite (H (Z.of_nat n)) by lia. apply IH. intros i Hi. apply H. lia.
Qed.

Lemma pending_zero (g : GFGus) :
  active_ok g -> (pending g = 0 <-> popcount 32 (pending g) = O).
Proof.
  intros Ha. rewrite popcount_zero. split.
  - intros -> i _. apply Z.bits_0.
  - intros H. apply Z.bits_inj'. intros i Hi. rewrite Z.bits_0.
    destruct (Z.lt_ge_cases i 32); [apply H; lia | apply pending_bits_high; auto].
Qed.

Lemma popcount_cleared_above (c t t' : Z) (n : nat) :
  cleared c t t' -> (n <= 32)%nat -> Z.of_nat n <= c -> popcount n t' = popcount n t.
Proof.
  intros Hcl. induction n as [| n IH]; intros Hn Hc; cbn [popcount]; [reflexivity |].
  rewrite Hcl by lia. destruct (Z.eqb_spec (Z.of_nat n) c); [lia |].
  rewrite andb_true_r, IH by lia. reflexivity.
Qed.

Lemma popcount_cleared_le (c t t' : Z) (n : nat) :
  cleared c t t' -> (n <= 32)%nat -> (popcount n t' <= popcount n t)%nat.
Proof.
  intros Hcl. induction n as [| n IH]; intros Hn; cbn [popcount]; [lia |].
  rewrite Hcl by lia. specialize (IH ltac:(lia)).
  destruct (Z.testbit t (Z.of_nat n)), (Z.of_nat n =? c); cbn; lia.
Qed.

Lemma popcount_cleared_set (c t t' : Z) (n : nat) :
  cleared c t t' -> (n <= 32)%nat -> 0 <= c < Z.of_nat n -> Z.testbit t c = true ->
  S (popcount n t') = popcount n t.
Proof.
  intros Hcl. induction n as [| n IH]; intros Hn Hc Hb; cbn [popcount]; [lia |].
  rewrite Hcl by lia. destruct (Z.eqb_spec (Z.of_nat n) c) as [E | E].
  - rewrite E, Hb. cbn. rewrite (popcount_cleared_above c t t') by (auto; lia). reflexivity.
  - specialize (IH ltac:(lia) ltac:(lia) Hb). rewrite andb_true_r.
    destruct (Z.testbit t (Z.of_nat n)); cbn; lia.
Qed.

Lemma popcount_cleared_bound (c t t' : Z) (n : nat) :
  cleared c t t' -> (n <= 32)%nat -> 0 <= c < Z.of_nat n -> (S (popcount n t') <= n)%nat.
Proof.
  intros Hcl. induction n as [| n IH]; intros Hn Hc; cbn [popcount]; [lia |].
  rewrite Hcl by lia. destruct (Z.eqb_spec (Z.of_nat n) c) as [E | E].
  - rewrite andb_false_r. cbn.
    assert (forall m u, (popcount m u <= m)%nat) as Hle.
    { clear. intros m u. induction m; cbn [popcount]; [lia |].
      destruct (Z.testbit u (Z.of_nat m)); lia. }
    specialize (Hle n t'). lia.
  - specialize (IH ltac:(lia) ltac:(lia)).
    destruct (Z.testbit t (Z.of_nat n)); cbn; lia.
Qed.

Lemma popcount_exists (t : Z) (n : nat) :
  popcount n t <> O -> exists i, 0 <= i < Z.of_nat n /\ Z.testbit t i = true.
Proof.
  induction n as [| n IH]; cbn [popcount]; [congruence |].
  destruct (Z.testbit t (Z.of_nat n)) eqn:E.
  - intros _. exists (Z.of_nat n). split; [lia | exact E].
  - intros H. destruct (IH H) as (i & Hi & Hb). exists i. split; [lia | exact Hb].
Qed.

Lemma pending_bit_active (g : GFGus) (j : Z) :
  active_ok g -> 0 <= j -> Z.testbit (pending g) j = true ->
  j < ActiveChannels g /\ ActiveChannels g <= 32.
Proof.
  intros Ha Hj Hb. unfold pending in Hb.
  rewrite Z.land_spec, active_mask_bits in Hb by auto.
  apply andb_true_iff in Hb as [_ Hb]. apply Z.ltb_lt in Hb.
  destruct Ha as [[? _] | [? _]]; lia.
Qed.

Lemma CheckVoiceIrq_returns (G : Globals) :
  g_ok (myGUS G) -> exists G', CheckVoiceIrq G = Some G'.
Proof.
  intros [Ha Hc]. unfold CheckVoiceIrq, GUS_CheckIRQ. fields.
  fold (pending (myGUS G)).
  destruct (nz (pending (myGUS G))) eqn:E; cbn [negb]; [| eauto].
  apply nz_true in E. rewrite (pending_zero _ Ha) in E.
  destruct (popcount_exists _ _ E) as (j & Hj & Hb).
  destruct (pending_bit_active (myGUS G) j Ha ltac:(lia) Hb) as [Hj' Hac].
  destruct (irq_scan_returns (pending (myGUS G)) (ActiveChannels (myGUS G))
              (IRQChan (myGUS G)) j) as [c' Hs]; auto; try lia.
  split_ifs; fields; rewrite Hs; cbn; eauto.
Qed.

Lemma land_9f_60 (x : Z) : Z.land (Z.land x 0x9f) 0x60 = 0.
Proof. rewrite <- Z.land_assoc. change (Z.land 0x9f 0x60) with 0. apply Z.land_0_r. Qed.

Lemma CheckVoiceIrq_status (G G' : Globals) :
  CheckVoiceIrq G = Some G' ->
  gRegSelect (myGUS G') = gRegSelect (myGUS G) /\
  portbase (myGUS G') = portbase (myGUS G) /\
  (pending (myGUS G) = 0 -> Z.land (IRQStatus (myGUS G')) 0x60 = 0) /\
  (pending (myGUS G) <> 0 ->
   0 <= IRQChan (myGUS G) -> Z.testbit (pending (myGUS G)) (IRQChan (myGUS G')) = true).
Proof.
  unfold CheckVoiceIrq, GUS_CheckIRQ. fields. fold (pending (myGUS G)).
  destruct (nz (pending (myGUS G))) eqn:E; cbn [negb]; intros H.
  - apply nz_true in E. bind_inv H. inversion H; subst. clear H.
    revert Hx. split_ifs; fields; intros Hx; (split; [reflexivity | split; [reflexivity |]]);
      (split; [congruence |]); intros _ Hc; apply irq_scan_found in Hx; tauto.
  - apply nz_false in E. inversion H; subst. fields.
    split; [reflexivity | split; [reflexivity | split]]; [intros _; apply land_9f_60 | congruence].
Qed.

(** One read of register 0x8F through the high data port. *)
Lemma read_voice_irq (s : State) :
  g_ok (myGUS (globals s)) -> gRegSelect (myGUS (globals s)) = 0x8f ->
  let g := myGUS (globals s) in
  let mask := u32 (Z.shiftl 1 (IRQChan g)) in
  exists r G',
    read_gus s (portbase g + 0x305) 1 = Some (r, set_globals G' s) /\
    CheckVoiceIrq
      (upd (fun g => set_WaveIRQ (Z.land (WaveIRQ g) (u32 (Z.lnot mask))) g)
         (upd (fun g => set_RampIRQ (Z.land (RampIRQ g) (u32 (Z.lnot mask))) g)
            (globals s))) = Some G'.
Proof.
  intros Hg Hsel g mask.
  destruct (CheckVoiceIrq_returns
              (upd (fun g => set_WaveIRQ (Z.land (WaveIRQ g) (u32 (Z.lnot mask))) g)
                 (upd (fun g => set_RampIRQ (Z.land (RampIRQ g) (u32 (Z.lnot mask))) g)
                    (globals s)))) as [G' HG'].
  { revert Hg. unfold g_ok, active_ok. fields. tauto. }
  eexists _, G'. split; [| exact HG'].
  unfold read_gus. fold g. rewrite Z.add_simpl_l. cbn [switch Z.eqb Pos.eqb].
  unfold ExecuteReadRegister. rewrite Hsel. cbn [switch Z.eqb Pos.eqb].
  fold g. fold mask. rewrite HG'. reflexivity.
Qed.

Lemma read_voice_irq_effect (s : State) (G' : Globals) :
  g_ok (myGUS (globals s)) -> gRegSelect (myGUS (globals s)) = 0x8f ->
  let g := myGUS (globals s) in
  let mask := u32 (Z.shiftl 1 (IRQChan g)) in
  CheckVoiceIrq
    (upd (fun g => set_WaveIRQ (Z.land (WaveIRQ g) (u32 (Z.lnot mask))) g)
       (upd (fun g => set_RampIRQ (Z.land (RampIRQ g) (u32 (Z.lnot mask))) g)
          (globals s))) = Some G' ->
  g_ok (myGUS G') /\ gRegSelect (myGUS G') = 0x8f /\
  portbase (myGUS G') = portbase g /\
  cleared (IRQChan g) (pending g) (pending (myGUS G')) /\
  (pending (myGUS G') = 0 -> Z.land (IRQStatus (myGUS G')) 0x60 = 0) /\
  (pending (myGUS G') <> 0 ->
   Z.testbit (pending (myGUS G')) (IRQChan (myGUS G')) = true).
Proof.
  intros Hg Hsel g mask H.
  pose proof (CheckVoiceIrq_fields _ _ H) as (F1 & F2 & F3 & F4 & F5).
  pose proof (CheckVoiceIrq_status _ _ H) as (S1 & S2 & S3 & S4).
  pose proof (CheckVoiceIrq_step _ _ H) as St.
  fields. fold g in F1, F2, F3, F4, F5, S1, S2.
  assert (Hp : pending (myGUS G') =
               Z.land (Z.lor (Z.land (RampIRQ g) (u32 (Z.lnot mask)))
                             (Z.land (WaveIRQ g) (u32 (Z.lnot mask)))) (ActiveMask g)).
  { unfold pending. rewrite F2, F3, F4. reflexivity. }
  unfold pending in S3, S4. fields. fold g in S3, S4. rewrite <- Hp in S3, S4.
  destruct Hg as [Ha Hc].
  split; [| split; [rewrite S1; exact Hsel | split; [exact S2 | split; [| split]]]].
  - apply St. unfold g_ok, active_ok. fields. fold g. tauto.
  - intros i Hi. rewrite Hp. unfold pending, mask.
    rewrite !Z.land_spec, !Z.lor_spec, !Z.land_spec.
    rewrite <- !Z.land_spec, !testbit_clear by (auto; lia).
    destruct (Z.testbit (RampIRQ g) i), (Z.testbit (WaveIRQ g) i),
      (Z.testbit (ActiveMask g) i), (i =? IRQChan g); reflexivity.
  - exact S3.
  - intros Hn. apply S4; [exact Hn | apply Hc].
Qed.

(** ** Repeated reads of register 0x8F *)

Lemma drain_step (s : State) :
  g_ok (myGUS (globals s)) -> gRegSelect (myGUS (globals s)) = 0x8f ->
  exists s',
    drain 1 s = Some s' /\
    g_ok (myGUS (globals s')) /\ gRegSelect (myGUS (globals s')) = 0x8f /\
    cleared (IRQChan (myGUS (globals s))) (pending (myGUS (globals s)))
            (pending (myGUS (globals s'))) /\
    (pending (myGUS (globals s')) = 0 ->
     Z.land (IRQStatus (myGUS (globals s'))) 0x60 = 0) /\
    (pending (myGUS (globals s')) <> 0 ->
     Z.testbit (pending (myGUS (globals s'))) (IRQChan (myGUS (globals s'))) = true).
Proof.
  intros Hg Hsel.
  destruct (read_voice_irq s Hg Hsel) as (r & G' & Hr & Hc).
  destruct (read_voice_irq_effect s G' Hg Hsel Hc) as (A & B & _ & C & D & E).
  exists (set_globals G' s). cbn [drain]. rewrite Hr. cbn. fields. auto 10.
Qed.

Lemma drain_app (a b : nat) (s : State) :
  drain (a + b) s = s1 ← drain a s; drain b s1.
Proof.
  revert s. induction a as [| a IH]; intros s; cbn [drain Nat.add]; [reflexivity |].
  destruct (read_gus s _ 1) as [[r s1] |]; cbn; [apply IH | reflexivity].
Qed.

Lemma popcount_cleared_zero (c t t' : Z) :
  cleared c t t' -> popcount 32 t = O -> popcount 32 t' = O.
Proof.
  intros Hcl H. pose proof (popcount_cleared_le c t t' 32 Hcl ltac:(lia)). lia.
Qed.

Lemma drain_settled (n : nat) :
  forall s,
    g_ok (myGUS (globals s)) -> gRegSelect (myGUS (globals s)) = 0x8f ->
    pending (myGUS (globals s)) = 0 ->
    Z.land (IRQStatus (myGUS (globals s))) 0x60 = 0 ->
    exists s', drain n s = Some s' /\ Z.land (IRQStatus (myGUS (globals s'))) 0x60 = 0.
Proof.
  induction n as [| n IH]; intros s Hg Hsel Hp Hq; [cbn; eauto |].
  destruct (drain_step s Hg Hsel) as (s1 & H1 & Hg1 & Hsel1 & Hcl & Hq1 & _).
  assert (Hp1 : pending (myGUS (globals s1)) = 0).
  { apply (pending_zero _ (proj1 Hg1)). eapply popcount_cleared_zero; [exact Hcl |].
    apply (pending_zero _ (proj1 Hg)). exact Hp. }
  destruct (IH s1 Hg1 Hsel1 Hp1 (Hq1 Hp1)) as (s' & H' & Hq').
  exists s'. split; [| exact Hq'].
  change (S n) with (1 + n)%nat. rewrite drain_app, H1. exact H'.
Qed.

Lemma drain_pointing (k : nat) :
  forall s,
    g_ok (myGUS (globals s)) -> gRegSelect (myGUS (globals s)) = 0x8f ->
    Z.testbit (pending (myGUS (globals s))) (IRQChan (myGUS (globals s))) = true ->
    popcount 32 (pending (myGUS (globals s))) = S k ->
    exists s',
      drain (S k) s = Some s' /\
      g_ok (myGUS (globals s')) /\ gRegSelect (myGUS (globals s')) = 0x8f /\
      pending (myGUS (globals s')) = 0 /\
      Z.land (IRQStatus (myGUS (globals s'))) 0x60 = 0.
Proof.
  induction k as [| k IH]; intros s Hg Hsel Hb Hk;
    destruct (drain_step s Hg Hsel) as (s1 & H1 & Hg1 & Hsel1 & Hcl & Hq1 & Hpt1);
    pose proof (popcount_cleared_set _ _ _ 32 Hcl ltac:(lia)
                  ltac:(destruct Hg as [_ ?]; lia) Hb) as Hpc.
  - assert (Hp1 : pending (myGUS (globals s1)) = 0)
      by (apply (pending_zero _ (proj1 Hg1)); lia).
    exists s1. split; [exact H1 | split; [exact Hg1 | split; [exact Hsel1 |]]].
    split; [exact Hp1 | exact (Hq1 Hp1)].
  - assert (Hn : pending (myGUS (globals s1)) <> 0).
    { rewrite (pending_zero _ (proj1 Hg1)). lia. }
    destruct (IH s1 Hg1 Hsel1 (Hpt1 Hn) ltac:(lia)) as (s' & H' & R).
    exists s'. split; [| exact R].
    change (S (S k)) with (1 + S k)%nat. rewrite drain_app, H1. exact H'.
Qed.

Lemma drain_within_32 (s : State) :
  g_ok (myGUS (globals s)) -> gRegSelect (myGUS (globals s)) = 0x8f ->
  exists n, (n <= 32)%nat /\
    forall m, (n <= m)%nat ->
      exists s', drain m s = Some s' /\ Z.land (IRQStatus (myGUS (globals s'))) 0x60 = 0.
Proof.
  intros Hg Hsel.
  destruct (drain_step s Hg Hsel) as (s1 & H1 & Hg1 & Hsel1 & Hcl & Hq1 & Hpt1).
  pose proof (popcount_cleared_bound _ _ _ 32 Hcl ltac:(lia)
                ltac:(destruct Hg as [_ ?]; lia)) as Hb.
  destruct (popcount 32 (pending (myGUS (globals s1)))) as [| k] eqn:Ek.
  - assert (Hp1 : pending (myGUS (globals s1)) = 0)
      by (apply (pending_zero _ (proj1 Hg1)); exact Ek).
    exists 1%nat. split; [lia |]. intros m Hm.
    destruct (drain_settled (m - 1) s1 Hg1 Hsel1 Hp1 (Hq1 Hp1)) as (s' & H' & Hq').
    exists s'. split; [| exact Hq'].
    replace m with (1 + (m - 1))%nat by lia. rewrite drain_app, H1. exact H'.
  - assert (Hn : pending (myGUS (globals s1)) <> 0).
    { rewrite (pending_zero _ (proj1 Hg1)). lia. }
    destruct (drain_pointing k s1 Hg1 Hsel1 (Hpt1 Hn) Ek)
      as (s2 & H2 & Hg2 & Hsel2 & Hp2 & Hq2).
    exists (1 + S k)%nat. split; [lia |]. intros m Hm.
    destruct (drain_settled (m - (1 + S k)) s2 Hg2 Hsel2 Hp2 Hq2) as (s' & H' & Hq').
    exists s'. split; [| exact Hq'].
    replace m with (1 + (S k + (m - (1 + S k))))%nat by lia.
    rewrite drain_app, H1. cbn [mbind option_bind]. rewrite drain_app, H2. exact H'.
Qed.

(** ** Port accesses *)

Lemma write_gus_select_voice (s : State) (val iolen : Z) (v : GUSChannels) :
  guschan s !! Z.to_nat (u16 (Z.land val 31)) = Some v ->
  write_gus s (portbase (myGUS (globals s)) + 0x302) val iolen =
  Some (set_curchan (Some (Z.to_nat (u16 (Z.land val 31))))
          (set_globals (upd (set_gCurChannel (u16 (Z.land val 31))) (globals s)) s)).
Proof.
  intros H. unfold write_gus. rewrite Z.add_simpl_l. cbn [switch Z.eqb Pos.eqb].
  fields. rewrite H. reflexivity.
Qed.

Lemma write_gus_select_register (s : State) (val iolen : Z) :
  write_gus s (portbase (myGUS (globals s)) + 0x303) val iolen =
  Some (set_globals (upd (set_gRegData 0) (upd (set_gRegSelect (u8 val)) (globals s))) s).
Proof. unfold write_gus. rewrite Z.add_simpl_l. reflexivity. Qed.

Lemma write_gus_data_word (s : State) (val : Z) :
  write_gus s (portbase (myGUS (globals s)) + 0x304) val 2 =
  ExecuteGlobRegister (set_globals (upd (set_gRegData (u16 val)) (globals s)) s).
Proof. unfold write_gus. rewrite Z.add_simpl_l. reflexivity. Qed.

Lemma write_gus_data_low (s : State) (val : Z) :
  write_gus s (portbase (myGUS (globals s)) + 0x304) val 1 =
  Some (set_globals (upd (set_gRegData (u16 val)) (globals s)) s).
Proof. unfold write_gus. rewrite Z.add_simpl_l. reflexivity. Qed.

Lemma write_gus_data_high (s : State) (val iolen : Z) :
  write_gus s (portbase (myGUS (globals s)) + 0x305) val iolen =
  ExecuteGlobRegister
    (set_globals
       (upd (set_gRegData
               (u16 (Z.lor (Z.land 0x00ff (gRegData (myGUS (globals s))))
                           (Z.shiftl val 8)))) (globals s)) s).
Proof. unfold write_gus. rewrite Z.add_simpl_l. reflexivity. Qed.

Lemma read_gus_data (s : State) (iolen : Z) :
  read_gus s (portbase (myGUS (globals s)) + 0x304) iolen =
  '(r, s) ← ExecuteReadRegister s;
  if iolen =? 2 then Some (Z.land r 0xffff, s) else Some (Z.land r 0xff, s).
Proof. unfold read_gus. rewrite Z.add_simpl_l. reflexivity. Qed.

Lemma read_gus_data_high (s : State) (iolen : Z) :
  read_gus s (portbase (myGUS (globals s)) + 0x305) iolen =
  '(r, s) ← ExecuteReadRegister s; Some (Z.shiftr r 8, s).
Proof. unfold read_gus. rewrite Z.add_simpl_l. reflexivity. Qed.

Lemma ExecuteGlobRegister_frequency (s : State) :
  gRegSelect (myGUS (globals s)) = 0x1 ->
  ExecuteGlobRegister s =
  curchan_set s (fun v => WriteWaveFreq v (gRegData (myGUS (globals s)))).
Proof. intros H. unfold ExecuteGlobRegister. rewrite H. reflexivity. Qed.

Lemma ExecuteGlobRegister_active (s : State) :
  gRegSelect (myGUS (globals s)) = 0xE ->
  ExecuteGlobRegister s = set_active_channels s.
Proof. intros H. unfold ExecuteGlobRegister. rewrite H. reflexivity. Qed.

Lemma ExecuteReadRegister_latch (s : State) :
  gRegSelect (myGUS (globals s)) = 0x1 ->
  ExecuteReadRegister s = Some (gRegData (myGUS (globals s)), s).
Proof. intros H. unfold ExecuteReadRegister. rewrite H. reflexivity. Qed.

(** The read-back index 0x81 of the hardware has no case in
    [ExecuteReadRegister]: selecting it clears the latch, and the data port
    then reads 0 whatever the frequency of the voice. *)
Lemma frequency_read_after_reselect (s : State) :
  let p := portbase (myGUS (globals s)) in
  exists s1,
    write_gus s (p + 0x303) 0x81 1 = Some s1 /\
    read_gus s1 (p + 0x304) 2 = Some (0, s1).
Proof.
  intros p. eexists. split; [apply write_gus_select_register |].
  match goal with
  | |- read_gus ?s1 _ _ = _ =>
      change p with (portbase (myGUS (globals s1))); rewrite (read_gus_data s1)
  end.
  reflexivity.
Qed.

Lemma land_ones_small (z n : Z) : 0 <= n -> 0 <= z < 2 ^ n -> Z.land z (Z.ones n) = z.
Proof. intros Hn Hz. rewrite Z.land_ones by lia. apply Z.mod_small. lia. Qed.

(** The two bytes of a 16-bit value written low byte first meet again in
    [gRegData]. *)
Lemma bytes_join (f : Z) :
  0 <= f < 2 ^ 16 ->
  u16 (Z.lor (Z.land 0x00ff (u16 (Z.land f 0xff))) (Z.shiftl (Z.shiftr f 8) 8)) = f.
Proof.
  intros Hf.
  assert (Hlo : Z.land f 0xff = f mod 2 ^ 8)
    by (change 0xff with (Z.ones 8); apply Z.land_ones; lia).
  pose proof (Z.mod_pos_bound f (2 ^ 8) ltac:(lia)) as Hb.
  rewrite Hlo. unfold u16 at 2. rewrite (Z.mod_small (f mod 2 ^ 8)) by lia.
  rewrite Z.land_comm. change 0xff with (Z.ones 8).
  rewrite land_ones_small by lia.
  rewrite Z.shiftr_div_pow2, Z.shiftl_mul_pow2 by lia.
  rewrite Z.lor_comm, <- Z.add_nocarry_lor.
  - unfold u16. rewrite Z.mul_comm, <- Z.div_mod by lia. apply Z.mod_small. lia.
  - apply Z.bits_inj'. intros n Hn. rewrite Z.land_spec, Z.bits_0.
    destruct (Z.ltb_spec n 8).
    + rewrite Z.mul_pow2_bits_low by lia. reflexivity.
    + rewrite Z.mod_pow2_bits_high by lia. apply andb_false_r.
Qed.

(** ** The claims *)

(** C2, as the code has it.  For every voice [i] and every 16-bit
    frequency [f]: the guest selects the voice (port 0x302) and register
    0x01 (port 0x303) and writes [f] to the data ports, as one word or as
    low byte then high byte.  Either way the card is then in the same
    state, in which the voice has [WaveFreq = f] and [WaveAdd] the ceiling
    of [f / 2].  The card has no register that reads the frequency back: a
    read of the data ports returns the data latch, which still holds [f]
    as long as no register is selected again (as a word at 0x304, or as
    its low byte at 0x304 and its high byte at 0x305); selecting a
    register clears the latch, so that the data port reads 0 once register
    0x01, or the read-back index 0x81 of the hardware, is selected, with
    the frequency of the voice still [f]. *)
Theorem wave_freq_round_trip (s : State) (i : nat) (f : Z) :
  (i < length (guschan s))%nat -> (i < 32)%nat -> 0 <= f < 2 ^ 16 ->
  let p := portbase (myGUS (globals s)) in
  exists s1 s2 s2' s3 v s4 s4',
    write_gus s (p + 0x302) (Z.of_nat i) 1 = Some s1 /\
    write_gus s1 (p + 0x303) 0x01 1 = Some s2 /\
    write_gus s2 (p + 0x304) f 2 = Some s3 /\
    write_gus s2 (p + 0x304) (Z.land f 0xff) 1 = Some s2' /\
    write_gus s2' (p + 0x305) (Z.shiftr f 8) 1 = Some s3 /\
    guschan s3 !! i = Some v /\
    WaveFreq v = f /\
    2 * (WaveAdd v - 1) < f <= 2 * WaveAdd v /\
    read_gus s3 (p + 0x304) 2 = Some (f, s3) /\
    read_gus s3 (p + 0x304) 1 = Some (Z.land f 0xff, s3) /\
    read_gus s3 (p + 0x305) 1 = Some (Z.shiftr f 8, s3) /\
    read_register s3 0x01 = Some (0, s4) /\
    read_register s3 0x81 = Some (0, s4') /\
    guschan s4 !! i = Some v /\ guschan s4' !! i = Some v.
Proof.
  intros Hi Hi32 Hf p.
  destruct (lookup_lt_is_Some_2 (guschan s) i Hi) as [v0 Hv0].
  assert (Hsel : Z.to_nat (u16 (Z.land (Z.of_nat i) 31)) = i).
  { change 31 with (Z.ones 5). rewrite land_ones_small by lia.
    unfold u16. rewrite Z.mod_small by lia. lia. }
  assert (Hu : u16 f = f) by (apply Z.mod_small; lia).
  set (s1 := set_curchan (Some i)
               (set_globals
                  (upd (set_gCurChannel (u16 (Z.land (Z.of_nat i) 31))) (globals s)) s)).
  set (s2 := set_globals
               (upd (set_gRegData 0) (upd (set_gRegSelect (u8 1)) (globals s1))) s1).
  set (s2' := set_globals (upd (set_gRegData (u16 (Z.land f 0xff))) (globals s2)) s2).
  set (s3 := set_guschan (<[i := WriteWaveFreq v0 f]> (guschan s))
               (set_globals (upd (set_gRegData f) (globals s2)) s2)).
  assert (Hexec : ExecuteGlobRegister
                    (set_globals (upd (set_gRegData f) (globals s2)) s2) = Some s3).
  { rewrite ExecuteGlobRegister_frequency by reflexivity.
    unfold curchan_set, with_curchan. cbn [curchan s2 s1 set_curchan set_globals guschan].
    rewrite Hv0. reflexivity. }
  assert (Hread : ExecuteReadRegister s3 = Some (f, s3))
    by (rewrite ExecuteReadRegister_latch; reflexivity).
  assert (Hsel0 : forall reg,
             reg = 0x01 \/ reg = 0x81 ->
             read_register s3 reg =
             Some (0, set_globals
                        (upd (set_gRegData 0) (upd (set_gRegSelect reg) (globals s3))) s3)).
  { intros reg Hreg. unfold read_register.
    rewrite write_gus_select_register. cbn [mbind option_bind].
    etransitivity; [exact (read_gus_data _ 2) |].
    destruct Hreg as [-> | ->]; reflexivity. }
  exists s1, s2, s2', s3, (WriteWaveFreq v0 f).
  eexists _, _.
  split.
  { unfold p. rewrite (write_gus_select_voice s _ _ v0) by (rewrite Hsel; exact Hv0).
    rewrite Hsel. reflexivity. }
  split; [apply (write_gus_select_register s1) |].
  split; [unfold p; rewrite (write_gus_data_word s2), Hu; exact Hexec |].
  split; [apply (write_gus_data_low s2) |].
  split.
  { unfold p. rewrite (write_gus_data_high s2').
    cbn [s2' gRegData myGUS globals set_globals upd set_myGUS set_gRegData].
    rewrite bytes_join by lia. exact Hexec. }
  split; [cbn [s3 guschan set_guschan]; apply list_lookup_insert_eq; exact Hi |].
  split; [reflexivity |].
  split; [cbn [WaveAdd WriteWaveFreq set_WaveAdd]; apply ceil_udivide_spec; lia |].
  split.
  { unfold p. rewrite (read_gus_data s3), Hread. cbn.
    change 0xffff with (Z.ones 16). rewrite land_ones_small by lia. reflexivity. }
  split.
  { unfold p. rewrite (read_gus_data s3), Hread. reflexivity. }
  split.
  { unfold p. rewrite (read_gus_data_high s3), Hread. reflexivity. }
  split; [apply Hsel0; left; reflexivity |].
  split; [apply Hsel0; right; reflexivity |].
  split; cbn [s3 guschan set_guschan set_globals]; apply list_lookup_insert_eq; exact Hi.
Qed.

Lemma wave_freq_round_trip_witness :
  let s := GUS_members 0x240 3 5 in
  exists s3 v s4 s4',
    (s1 ← write_gus s (0x40 + 0x302) 5 1;
     s2 ← write_gus s1 (0x40 + 0x303) 0x01 1;
     write_gus s2 (0x40 + 0x304) 0x1235 2) = Some s3 /\
    guschan s3 !! 5%nat = Some v /\ WaveFreq v = 0x1235 /\ WaveAdd v = 0x91B /\
    read_gus s3 (0x40 + 0x304) 2 = Some (0x1235, s3) /\
    read_register s3 0x01 = Some (0, s4) /\
    read_register s3 0x81 = Some (0, s4').
Proof.
  intros s.
  destruct (wave_freq_round_trip s 5 0x1235)
    as (s1 & s2 & s2' & s3 & v & s4 & s4' &
        H1 & H2 & H3 & _ & _ & Hv & Hf & Ha & Hr & _ & _ & R1 & R2 & _).
  - apply Nat.ltb_lt. vm_compute. reflexivity.
  - lia.
  - lia.
  - exists s3, v, s4, s4'. change (portbase (myGUS (globals s))) with 0x40 in *.
    change (Z.of_nat 5) with 5 in H1.
    rewrite H1. cbn [mbind option_bind]. rewrite H2. cbn [mbind option_bind].
    repeat split; auto; lia.
Defined.

(** C2 as stated fails: with the frequency 0x1235 written to voice 5, the
    guest that selects the frequency register and reads the data port gets
    0, not the frequency. *)
Lemma frequency_register_reads_zero :
  let read :=
    s1 ← write_gus (GUS_members 0x240 3 5) (0x40 + 0x302) 5 1;
    s2 ← write_register s1 0x01 0x1235;
    v ← guschan s2 !! 5%nat;
    '(r, _) ← read_register s2 0x01;
    Some (WaveFreq v, r) in
  read = Some (0x1235, 0) /\
  ~ (exists f, read = Some (f, f)).
Proof.
  assert (E : (s1 ← write_gus (GUS_members 0x240 3 5) (0x40 + 0x302) 5 1;
               s2 ← write_register s1 0x01 0x1235;
               v ← guschan s2 !! 5%nat;
               '(r, _) ← read_register s2 0x01;
               Some (WaveFreq v, r)) = Some (0x1235, 0))
    by (vm_compute; reflexivity).
  cbv zeta. rewrite E. split; [reflexivity |].
  intros [f H]. injection H as H1 H2. rewrite <- H1 in H2. discriminate H2.
Qed.

(** The increment [WriteRampRate] stores, on the byte-sized divider. *)
Lemma WriteRampRate_stores (v : GUSChannels) (rate : Z) :
  0 <= rate < 256 ->
  let scale := Z.land rate 0x3F in
  let divider := Z.shiftl 1 (3 * Z.shiftr rate 6) mod 2 ^ 8 in
  IncrVolIndex (WriteRampRate v rate) =
  if negb (nz scale) || negb (nz divider) then 0 else ceil_udivide scale divider.
Proof.
  intros Hr scale divider.
  assert (Hs : u8 (Z.land rate 63) = scale).
  { unfold u8, scale. apply Z.mod_small. pose proof (land_63_bound rate). lia. }
  unfold WriteRampRate. cbn [IncrVolIndex set_IncrVolIndex].
  rewrite Hs. reflexivity.
Qed.




(** The slowest bank of rates never moves the ramp: its divider, 512, does
    not fit the byte. *)
Lemma WriteRampRate_slowest_bank (v : GUSChannels) (rate : Z) :
  0xC0 <= rate < 0x100 -> IncrVolIndex (WriteRampRate v rate) = 0.
Proof.
  intros Hr. rewrite WriteRampRate_stores by lia.
  assert (H : Z.shiftr rate 6 = 3).
  { rewrite Z.shiftr_div_pow2 by lia. change (2 ^ 6) with 64.
    symmetry. apply Z.div_unique with (r := rate - 192); lia. }
  rewrite H. change (Z.shiftl 1 (3 * 3) mod 2 ^ 8) with 0.
  cbn [nz Z.eqb negb]. rewrite orb_true_r. reflexivity.
Qed.

(** The display frequency is defined for every admissible voice count. *)
Lemma base_frequency_defined (n : Z) :
  14 <= n <= 32 -> exists hz, base_frequency n = Some hz.
Proof.
  intros Hn.
  pose proof (forallb_seqZ
                (fun n => match base_frequency n with Some _ => true | None => false end)
                14 19 ltac:(vm_compute; reflexivity) n ltac:(lia)) as H.
  cbv beta in H. destruct (base_frequency n); [eauto | discriminate].
Qed.

Lemma set_active_channels_returns (s : State) :
  length (guschan s) = 32%nat ->
  exists s',
    set_active_channels s = Some s' /\
    gRegSelect (myGUS (globals s')) = u8 (Z.shiftr (gRegData (myGUS (globals s))) 8) /\
    portbase (myGUS (globals s')) = portbase (myGUS (globals s)).
Proof.
  intros Hlen. unfold set_active_channels. fields.
  pose proof (clamp_range (1 + Z.land (Z.shiftr (gRegData (myGUS (globals s))) 8) 63)
                GUS_MIN_CHANNELS GUS_MAX_CHANNELS
                ltac:(unfold GUS_MIN_CHANNELS, GUS_MAX_CHANNELS; lia)) as Hr.
  unfold GUS_MIN_CHANNELS, GUS_MAX_CHANNELS in Hr |- *.
  set (requested := clamp _ 14 32) in *.
  assert (Hu : u8 requested = requested) by (apply Z.mod_small; lia).
  destruct (Z.eqb_spec requested (ActiveChannels (myGUS (globals s)))) as [E | E];
    cbn [negb].
  - cbn [mbind option_bind]. fields. unfold update_active. rewrite Hlen.
    destruct (Z.ltb_spec (Z.of_nat 32) (ActiveChannels (myGUS (globals s))));
      [exfalso; lia |].
    cbn [mbind option_bind]. fields. eauto.
  - fields. rewrite Hu. destruct (base_frequency_defined requested Hr) as [hz ->].
    cbn [mbind option_bind]. fields. unfold update_active. rewrite Hlen.
    destruct (Z.ltb_spec (Z.of_nat 32) requested); [exfalso; lia |].
    cbn [mbind option_bind]. fields. eauto.
Qed.

Lemma high_byte_latched (latch h : Z) :
  0 <= h < 2 ^ 8 ->
  u8 (Z.shiftr (u16 (Z.lor (Z.land 0x00ff latch) (Z.shiftl h 8))) 8) = h.
Proof.
  intros Hh. unfold u8, u16. apply Z.bits_inj'. intros n Hn.
  destruct (Z.ltb_spec n 8).
  - rewrite Z.mod_pow2_bits_low, Z.shiftr_spec, Z.mod_pow2_bits_low by lia.
    rewrite Z.lor_spec, Z.land_spec, Z.shiftl_spec by lia.
    change 0x00ff with (Z.ones 8). rewrite Z.ones_spec_high by lia.
    replace (n + 8 - 8) with n by lia. reflexivity.
  - rewrite Z.mod_pow2_bits_high by lia.
    rewrite <- (Z.mod_small h (2 ^ 8)) by lia.
    rewrite Z.mod_pow2_bits_high by lia. reflexivity.
Qed.

(** C10.  For every 16-bit [d] written to register 0x0E through the data
    ports (as a word at 0x304, or with its high byte at 0x305): the write
    succeeds and leaves [d >> 8] as the selected register, so that the next
    data-port write executes register [d >> 8]. *)
Theorem active_voices_write_reselects (s : State) (d : Z) :
  gRegSelect (myGUS (globals s)) = 0x0E -> length (guschan s) = 32%nat ->
  0 <= d < 2 ^ 16 ->
  let p := portbase (myGUS (globals s)) in
  (exists s',
     write_gus s (p + 0x304) d 2 = Some s' /\
     gRegSelect (myGUS (globals s')) = Z.shiftr d 8 /\
     forall d',
       write_gus s' (p + 0x304) d' 2 =
       ExecuteGlobRegister
         (set_globals (upd (set_gRegData (u16 d')) (globals s')) s') /\
       gRegSelect
         (myGUS (globals (set_globals (upd (set_gRegData (u16 d')) (globals s')) s'))) =
       Z.shiftr d 8) /\
  (exists s',
     write_gus s (p + 0x305) (Z.shiftr d 8) 1 = Some s' /\
     gRegSelect (myGUS (globals s')) = Z.shiftr d 8).
Proof.
  intros Hsel Hlen Hd p.
  assert (Hu : u16 d = d) by (apply Z.mod_small; lia).
  assert (Hh : 0 <= Z.shiftr d 8 < 2 ^ 8).
  { rewrite Z.shiftr_div_pow2 by lia.
    split; [apply Z.div_pos; lia | apply Z.div_lt_upper_bound; lia]. }
  split.
  - destruct (set_active_channels_returns
                (set_globals (upd (set_gRegData d) (globals s)) s) Hlen)
      as (s' & Hs' & Hsel' & Hp').
    fields. rewrite (Z.mod_small _ _ Hh : u8 (Z.shiftr d 8) = _) in Hsel'.
    exists s'. split.
    { unfold p. rewrite write_gus_data_word, Hu.
      rewrite ExecuteGlobRegister_active by exact Hsel. exact Hs'. }
    split; [exact Hsel' |]. intros d'. unfold p. rewrite <- Hp'.
    split; [apply write_gus_data_word | exact Hsel'].
  - destruct (set_active_channels_returns
                (set_globals
                   (upd (set_gRegData
                           (u16 (Z.lor (Z.land 0x00ff (gRegData (myGUS (globals s))))
                                       (Z.shiftl (Z.shiftr d 8) 8)))) (globals s)) s)
                Hlen) as (s' & Hs' & Hsel' & _).
    fields. rewrite high_byte_latched in Hsel' by exact Hh.
    exists s'. split; [| exact Hsel'].
    unfold p. rewrite write_gus_data_high.
    rewrite ExecuteGlobRegister_active by exact Hsel. exact Hs'.
Qed.

Lemma active_voices_write_reselects_witness :
  let s := set_globals (upd (set_gRegSelect 0x0E) (globals (GUS_members 0x240 3 5)))
             (GUS_members 0x240 3 5) in
  exists s',
    write_gus s (0x40 + 0x304) 0x0D0D 2 = Some s' /\
    gRegSelect (myGUS (globals s')) = 0x0D.
Proof.
  intros s.
  destruct (active_voices_write_reselects s 0x0D0D)
    as [(s' & H1 & H2 & _) _].
  - reflexivity.
  - vm_compute. reflexivity.
  - lia.
  - exists s'. split; [exact H1 | exact H2].
Defined.

Lemma RampUpdate_WaveAddr (v : GUSChannels) (G : Globals) :
  WaveAddr (fst (RampUpdate v G)) = WaveAddr v.
Proof. unfold RampUpdate. split_ifs; reflexivity. Qed.

Lemma WaveUpdate_stopped (v : GUSChannels) (G : Globals) :
  Z.land (WaveCtrl v) 0x03 <> 0 -> WaveUpdate v G = (v, G).
Proof.
  intros H. unfold WaveUpdate.
  change (Z.lor WCTRL_STOP WCTRL_STOPPED) with 3.
  apply nz_true in H. rewrite H. reflexivity.
Qed.

Lemma land_both_stopped (r w : Z) :
  Z.land r 3 = 3 -> Z.land w 3 = 3 -> Z.land (Z.land r w) 3 = 3.
Proof.
  intros Hr Hw. rewrite <- Z.land_assoc, Hw. exact Hr.
Qed.

Section Claims.

Variable cos sin : spec_float -> spec_float.

Lemma generateSamples_disabled (v : GUSChannels) (G : Globals)
    (stream : list Frame.t) (len : Z) :
  Z.land (Z.land (RampCtrl v) (WaveCtrl v)) 3 <> 0 ->
  generateSamples cos sin v G stream len = Some (v, G, stream).
Proof.
  intros H. unfold generateSamples. apply nz_true in H. rewrite H. reflexivity.
Qed.

(** C7.  For every voice whose ramp control and wave control both have
    their two lowest bits set, [generateSamples] over any number of frames
    returns the stream, the voice and the globals it was given: nothing is
    added to the accumulator and neither [WaveAddr] nor [CurrentVolIndex]
    (nor anything else) moves. *)
Theorem disabled_voice_generates_nothing (v : GUSChannels) (G : Globals)
    (stream : list Frame.t) (len : Z) :
  Z.land (RampCtrl v) 3 = 3 -> Z.land (WaveCtrl v) 3 = 3 ->
  generateSamples cos sin v G stream len = Some (v, G, stream).
Proof.
  intros Hr Hw. apply generateSamples_disabled.
  rewrite (land_both_stopped _ _ Hr Hw). discriminate.
Qed.

(** C1, as the code has it.  For every voice and every frame, if
    [WaveCtrl AND 0x03] is not zero then the phase update does nothing and
    the frame (its phase update, then its ramp update) leaves [WaveAddr]
    unchanged; the voice adds nothing to the
    accumulator when moreover [RampCtrl AND WaveCtrl AND 3] is not zero,
    the test [generateSamples] makes before it runs its loop. *)
Theorem stopped_wave_frame (v : GUSChannels) (G : Globals) :
  Z.land (WaveCtrl v) 0x03 <> 0 ->
  WaveUpdate v G = (v, G) /\
  WaveAddr (fst (RampUpdate (fst (WaveUpdate v G)) (snd (WaveUpdate v G)))) =
  WaveAddr v /\
  (forall fr v' G' fr',
     generate_frame cos sin v G fr = Some (v', G', fr') -> WaveAddr v' = WaveAddr v) /\
  (Z.land (Z.land (RampCtrl v) (WaveCtrl v)) 3 <> 0 ->
   forall stream len, generateSamples cos sin v G stream len = Some (v, G, stream)).
Proof.
  intros H. split; [apply WaveUpdate_stopped; exact H | split; [| split]].
  - rewrite WaveUpdate_stopped by exact H. apply RampUpdate_WaveAddr.
  - intros fr v' G' fr' Hf. unfold generate_frame in Hf.
    bind_inv Hf. bind_inv Hf. bind_inv Hf.
    rewrite WaveUpdate_stopped in Hf by exact H.
    match type of Hf with
    | context [RampUpdate ?a ?b] =>
        pose proof (RampUpdate_WaveAddr a b) as Hr; destruct (RampUpdate a b) as [v2 G2]
    end.
    inversion Hf; subst. exact Hr.
  - intros Hd stream len. apply generateSamples_disabled. exact Hd.
Qed.

End Claims.

Lemma disabled_voice_generates_nothing_witness :
  generateSamples cos_ref sin_ref (GUSChannels_new 0) example_globals
    [Frame.mk F32.one F32.one] 1 =
  Some (GUSChannels_new 0, example_globals, [Frame.mk F32.one F32.one]).
Proof.
  apply disabled_voice_generates_nothing; reflexivity.
Defined.

Lemma stopped_wave_frame_witness :
  WaveUpdate stopped_voice example_globals = (stopped_voice, example_globals) /\
  (forall fr v' G' fr',
     generate_frame cos_ref sin_ref stopped_voice example_globals fr = Some (v', G', fr') ->
     WaveAddr v' = WaveAddr stopped_voice).
Proof.
  destruct (stopped_wave_frame cos_ref sin_ref stopped_voice example_globals)
    as (A & _ & B & _).
  - vm_compute. discriminate.
  - split; [exact A | exact B].
Defined.

(** C1 as stated fails: the stopped voice (wave control 1) still adds its
    sample, 0x7F00 at full volume on the left, to an empty frame. *)
Lemma stopped_wave_still_sounds :
  ~ (Z.land (WaveCtrl stopped_voice) 0x03 <> 0 ->
     forall v' G' fr',
       generate_frame cos_ref sin_ref stopped_voice example_globals
         (Frame.mk F32.zero F32.zero) = Some (v', G', fr') ->
       WaveAddr v' = WaveAddr stopped_voice /\ fr' = Frame.mk F32.zero F32.zero).
Proof.
  intros H.
  eassert (E : generate_frame cos_ref sin_ref stopped_voice example_globals
                 (Frame.mk F32.zero F32.zero) = Some (_, _, _))
    by (vm_compute; reflexivity).
  destruct (H ltac:(vm_compute; discriminate) _ _ _ E) as [_ Hfr].
  discriminate Hfr.
Qed.

(** The guard of [generateSamples] lets that voice through. *)
Lemma stopped_voice_not_disabled :
  generateSamples cos_ref sin_ref stopped_voice example_globals
    [Frame.mk F32.zero F32.zero] 1 <>
  Some (stopped_voice, example_globals, [Frame.mk F32.zero F32.zero]).
Proof. vm_compute. discriminate. Qed.

(** ** The 8-bit sampler and the memory bound *)

Lemma s8_u8 (z : Z) : s8 (u8 z) = s8 z.
Proof. unfold s8, u8. rewrite Z.mod_mod by lia. reflexivity. Qed.

Lemma GetSample8_in_range (v : GUSChannels) (G : Globals) :
  0 <= WaveAddr v < 2 ^ 29 -> GetSample8 v G = Some (GetSample8_spec v G).
Proof.
  intros Hw. unfold GetSample8, GetSample8_spec, ram_at.
  change WAVE_FRACT with 9. change (Z.shiftl 1 9) with (2 ^ 9).
  change (Z.shiftl 1 (15 - 7)) with (2 ^ 8).
  change (GUS_RAM_SIZE - 1) with (Z.ones 20). change WAVE_FRACT_MASK with (Z.ones 9).
  change GUS_RAM_SIZE with (2 ^ 20).
  assert (Hb : 0 <= Z.shiftr (WaveAddr v) 9 < 2 ^ 20).
  { rewrite Z.shiftr_div_pow2 by lia.
    split; [apply Z.div_pos; lia | apply Z.div_lt_upper_bound; lia]. }
  set (base := Z.shiftr (WaveAddr v) 9) in *.
  destruct (Z.leb_spec 0 base); [| exfalso; lia].
  destruct (Z.ltb_spec base (2 ^ 20)); [| exfalso; lia].
  cbn [andb mbind option_bind]. rewrite (Z.mod_small base) by lia.
  rewrite !Z.land_ones by lia.
  pose proof (Z.mod_pos_bound (base + 1) (2 ^ 20) ltac:(lia)) as Hn.
  destruct (WaveAdd v <? 2 ^ 9).
  - destruct (Z.leb_spec 0 ((base + 1) mod 2 ^ 20)); [| exfalso; lia].
    destruct (Z.ltb_spec ((base + 1) mod 2 ^ 20) (2 ^ 20)); [| exfalso; lia].
    cbn [andb mbind option_bind]. rewrite !s8_u8. reflexivity.
  - cbn [mbind option_bind]. rewrite s8_u8. reflexivity.
Qed.

Lemma GetSample8_past_memory (v : GUSChannels) (G : Globals) :
  2 ^ 29 <= WaveAddr v -> GetSample8 v G = None.
Proof.
  intros Hw. unfold GetSample8, ram_at.
  change WAVE_FRACT with 9. change GUS_RAM_SIZE with (2 ^ 20).
  assert (Hb : 2 ^ 20 <= Z.shiftr (WaveAddr v) 9).
  { rewrite Z.shiftr_div_pow2 by lia. apply Z.div_le_lower_bound; lia. }
  destruct (Z.ltb_spec (Z.shiftr (WaveAddr v) 9) (2 ^ 20)); [exfalso; lia |].
  rewrite andb_false_r. reflexivity.
Qed.

(** C3, where the code breaks it.  The guest sets voice 0 to step backwards
    from address 0 with the rollover bit set, and the mixer asks for one
    frame.  The voice is then at [WaveAddr = 0xFFFFFFCE], whose byte address
    [WaveAddr >> 9] is 2^23 - 1: the 8-bit sampler indexes [GUSRam] there,
    past its 2^20 bytes, where the specification reads address
    [(2^23 - 1) mod 2^20]; the next request of the mixer has no defined
    result. *)
Theorem GetSample8_address_not_wrapped :
  match after overrun_prog with
  | Some s =>
      exists v,
        guschan s !! 0%nat = Some v /\
        getSample v = GetSample8_f /\
        WaveAddr v = 0xFFFFFFCE /\
        Z.shiftr (WaveAddr v) 9 = 2 ^ 23 - 1 /\
        GetSample8 v (globals s) = None /\
        GetSample8_spec v (globals s) = F32.mul (F32.of_Z 0) (F32.of_Z 256) /\
        step cos_ref sin_ref s (Mixer_CallBack 1) = None
  | None => False
  end.
Proof.
  destruct (after overrun_prog) as [s |] eqn:E; [| vm_compute in E; discriminate].
  vm_compute in E. injection E as <-.
  eexists. split; [reflexivity |]. repeat split; vm_compute; reflexivity.
Qed.

(** ** Control bytes and the interrupt bitmaps *)

Lemma ctrl_bit7_clear (c : Z) : 0 <= c < 128 -> Z.testbit c 7 = false.
Proof.
  intros Hc. rewrite <- (Z.mod_small c (2 ^ 7)) by lia.
  apply Z.mod_pow2_bits_high. lia.
Qed.

Lemma lor_80_bit7 (c : Z) : Z.testbit (Z.lor c 0x80) 7 = true.
Proof. rewrite Z.lor_spec. change (Z.testbit 0x80 7) with true. apply orb_true_r. Qed.

Lemma irq_bit_reported (ctrl bitmap : Z) (i : nat) :
  0 <= ctrl < 128 ->
  Z.testbit (if nz (Z.land bitmap (2 ^ Z.of_nat i)) then Z.lor ctrl 0x80 else ctrl) 7
  = Z.testbit bitmap (Z.of_nat i).
Proof.
  intros Hc. rewrite land_pow2 by lia.
  destruct (Z.testbit bitmap (Z.of_nat i)).
  - assert (H : nz (2 ^ Z.of_nat i) = true).
    { apply nz_true. pose proof (Z.pow_pos_nonneg 2 (Z.of_nat i)). lia. }
    rewrite H. apply lor_80_bit7.
  - cbn [nz Z.eqb negb]. apply ctrl_bit7_clear. exact Hc.
Qed.

Lemma lxor_40_bits (c n : Z) : n <> 6 -> Z.testbit (Z.lxor c 0x40) n = Z.testbit c n.
Proof.
  intros Hn. rewrite Z.lxor_spec. change 0x40 with (2 ^ 6).
  rewrite Z.pow2_bits_eqb by lia.
  destruct (Z.eqb_spec 6 n); [lia | apply xorb_false_r].
Qed.

Lemma lor_1_bits (c n : Z) : n <> 0 -> Z.testbit (Z.lor c 1) n = Z.testbit c n.
Proof.
  intros Hn. rewrite Z.lor_spec. change 1 with (2 ^ 0).
  rewrite Z.pow2_bits_eqb by lia.
  destruct (Z.eqb_spec 0 n); [lia | apply orb_false_r].
Qed.

Lemma WaveUpdate_ctrl_bits (v : GUSChannels) (G : Globals) (n : Z) :
  n <> 0 -> n <> 6 ->
  Z.testbit (WaveCtrl (fst (WaveUpdate v G))) n = Z.testbit (WaveCtrl v) n.
Proof.
  intros H0 H6. unfold WaveUpdate. split_ifs; fields;
    rewrite ?lor_1_bits, ?lxor_40_bits by assumption; reflexivity.
Qed.

Lemma RampUpdate_ctrl_bits (v : GUSChannels) (G : Globals) (n : Z) :
  n <> 0 -> n <> 6 ->
  Z.testbit (RampCtrl (fst (RampUpdate v G))) n = Z.testbit (RampCtrl v) n.
Proof.
  intros H0 H6. unfold RampUpdate. split_ifs; fields;
    rewrite ?lor_1_bits, ?lxor_40_bits by assumption; reflexivity.
Qed.

Lemma WriteWaveCtrl_stores (v v' : GUSChannels) (val : Z) (G G' : Globals) :
  WriteWaveCtrl v val G = Some (v', G') -> WaveCtrl v' = Z.land val 0x7f.
Proof.
  unfold WriteWaveCtrl. intros H. bind_inv H. inversion H; subst.
  split_ifs; reflexivity.
Qed.

Lemma WriteRampCtrl_stores (v v' : GUSChannels) (val : Z) (G G' : Globals) :
  WriteRampCtrl v val G = Some (v', G') -> RampCtrl v' = Z.land val 0x7f.
Proof.
  unfold WriteRampCtrl. intros H. bind_inv H. inversion H; subst. reflexivity.
Qed.

Lemma shift_byte_back (x : Z) : 0 <= x < 2 ^ 8 -> Z.shiftr (u16 (Z.shiftl x 8)) 8 = x.
Proof.
  intros Hx. rewrite Z.shiftl_mul_pow2 by lia. unfold u16.
  rewrite Z.mod_small by lia. rewrite Z.shiftr_div_pow2 by lia.
  apply Z.div_mul. lia.
Qed.

Lemma Read_ctrl_byte (ctrl bitmap mask : Z) :
  0 <= ctrl < 128 ->
  0 <= (if nz (Z.land bitmap mask) then Z.lor ctrl 0x80 else ctrl) < 2 ^ 8.
Proof.
  intros Hc. destruct (nz _); [| lia].
  pose proof (forallb_seqZ (fun c => (0 <=? Z.lor c 0x80) && (Z.lor c 0x80 <? 2 ^ 8))
                0 128 eq_refl ctrl ltac:(lia)) as H.
  cbv beta in H. lia.
Qed.

Lemma bit0_stopped (c : Z) : Z.testbit c 0 = true -> Z.land c 3 <> 0.
Proof.
  intros H E. assert (B : Z.testbit (Z.land c 3) 0 = true)
    by (rewrite Z.land_spec, H; reflexivity).
  rewrite E in B. discriminate B.
Qed.

Lemma RampUpdate_stopped (v : GUSChannels) (G : Globals) :
  Z.land (RampCtrl v) 0x3 <> 0 -> RampUpdate v G = (v, G).
Proof.
  intros H. unfold RampUpdate. apply nz_true in H. rewrite H. reflexivity.
Qed.

Section Reachable.

Variable cos sin : spec_float -> spec_float.

Lemma run_reachable (prog : list Input) :
  forall s s', reachable cos sin s -> run cos sin s prog = Some s' -> reachable cos sin s'.
Proof.
  induction prog as [| i prog IH]; intros s s' Hr H; cbn [run] in H.
  - inversion H; subst. exact Hr.
  - bind_inv H. eapply IH; [| exact H]. eapply reachable_step; eassumption.
Qed.

(** C9, as the code has it.  For every voice of every reachable state, bit
    7 of the stored wave control and ramp control is clear; a host write
    stores the value masked with 0x7F; the phase and ramp updates change no
    bit of the control byte other than bit 0 (set when the voice stops,
    and never cleared: a byte with bit 0 set is left as it is) and bit 6
    (toggled when a bidirectional loop turns); and bit 7 of what the
    host reads through registers 0x80 and 0x8D is the voice's bit in
    [WaveIRQ] and [RampIRQ]. *)
Theorem ctrl_irq_pending_bit (s : State) (i : nat) (v : GUSChannels) :
  reachable cos sin s -> guschan s !! i = Some v ->
  let g := myGUS (globals s) in
  let p := portbase g in
  Z.testbit (WaveCtrl v) 7 = false /\ Z.testbit (RampCtrl v) 7 = false /\
  (forall val G v' G',
     WriteWaveCtrl v val G = Some (v', G') -> WaveCtrl v' = Z.land val 0x7f) /\
  (forall val G v' G',
     WriteRampCtrl v val G = Some (v', G') -> RampCtrl v' = Z.land val 0x7f) /\
  (forall G n, n <> 0 -> n <> 6 ->
     Z.testbit (WaveCtrl (fst (WaveUpdate v G))) n = Z.testbit (WaveCtrl v) n /\
     Z.testbit (RampCtrl (fst (RampUpdate v G))) n = Z.testbit (RampCtrl v) n) /\
  (forall G, Z.testbit (WaveCtrl v) 0 = true -> WaveUpdate v G = (v, G)) /\
  (forall G, Z.testbit (RampCtrl v) 0 = true -> RampUpdate v G = (v, G)) /\
  Z.testbit (ReadWaveCtrl v (globals s)) 7 = Z.testbit (WaveIRQ g) (Z.of_nat i) /\
  Z.testbit (ReadRampCtrl v (globals s)) 7 = Z.testbit (RampIRQ g) (Z.of_nat i) /\
  (curchan s = Some i -> gRegSelect g = 0x80 ->
   read_gus s (p + 0x305) 1 = Some (ReadWaveCtrl v (globals s), s)) /\
  (curchan s = Some i -> gRegSelect g = 0x8d ->
   read_gus s (p + 0x305) 1 = Some (ReadRampCtrl v (globals s), s)).
Proof.
  intros Hr Hv g p.
  destruct (reachable_card_ok cos sin s Hr) as ((_ & Hvs) & _ & _).
  destruct (Hvs i v Hv) as ((Hw & Hrc) & _ & Hm).
  split; [apply ctrl_bit7_clear; exact Hw |].
  split; [apply ctrl_bit7_clear; exact Hrc |].
  split; [intros val G v' G'; apply WriteWaveCtrl_stores |].
  split; [intros val G v' G'; apply WriteRampCtrl_stores |].
  split; [intros G n H0 H6; split;
          [apply WaveUpdate_ctrl_bits | apply RampUpdate_ctrl_bits]; assumption |].
  split; [intros G H0; apply WaveUpdate_stopped, bit0_stopped; exact H0 |].
  split; [intros G H0; apply RampUpdate_stopped, bit0_stopped; exact H0 |].
  split; [unfold ReadWaveCtrl; rewrite Hm; apply irq_bit_reported; exact Hw |].
  split; [unfold ReadRampCtrl; rewrite Hm; apply irq_bit_reported; exact Hrc |].
  split; intros Hc Hsel; unfold p, g; rewrite read_gus_data_high;
    unfold ExecuteReadRegister; fold g; rewrite Hsel; cbn [switch Z.eqb Pos.eqb];
    unfold read_curchan; rewrite Hc, Hv; cbn [mbind option_bind];
    rewrite shift_byte_back; try reflexivity.
  - unfold ReadWaveCtrl. apply Read_ctrl_byte. exact Hw.
  - unfold ReadRampCtrl. apply Read_ctrl_byte. exact Hrc.
Qed.

(** C5, as the code has it.  At every reachable state the active-voice
    count is 0, the value the card is constructed with, or lies in
    [14, 32]; the active mask is [2^count - 1], that is, exactly its
    [count] lowest bits are set. *)
Theorem active_voices_invariant (s : State) :
  reachable cos sin s ->
  let g := myGUS (globals s) in
  (ActiveChannels g = 0 \/ 14 <= ActiveChannels g <= 32) /\
  ActiveMask g = 2 ^ ActiveChannels g - 1 /\
  (forall i, 0 <= i -> Z.testbit (ActiveMask g) i = (i <? ActiveChannels g)).
Proof.
  intros Hr g.
  destruct (reachable_card_ok cos sin s Hr) as (_ & (Ha & _) & _). fold g in Ha.
  split; [destruct Ha as [[-> _] | [? _]]; [left; reflexivity | right; assumption] |].
  split; [destruct Ha as [[-> ->] | [_ ->]]; reflexivity |].
  intros i Hi. apply active_mask_bits; assumption.
Qed.

(** C8.  From every reachable state with register 0x8F selected: a read
    of the register (through the high byte of the data port) returns,
    clears the bit of [IRQChan] in [WaveIRQ] and in [RampIRQ] and leaves
    the globals [CheckVoiceIrq] computes from that; and there is a number
    [n] of at most 32 such that any [m >= n] reads in a row, with nothing
    in between, all return and leave bits 5 and 6 of [IRQStatus] clear. *)
Theorem voice_irq_drain (s : State) :
  reachable cos sin s -> gRegSelect (myGUS (globals s)) = 0x8f ->
  let g := myGUS (globals s) in
  let mask := u32 (Z.shiftl 1 (IRQChan g)) in
  (exists r G',
     read_gus s (portbase g + 0x305) 1 = Some (r, set_globals G' s) /\
     CheckVoiceIrq
       (upd (fun g => set_WaveIRQ (Z.land (WaveIRQ g) (u32 (Z.lnot mask))) g)
          (upd (fun g => set_RampIRQ (Z.land (RampIRQ g) (u32 (Z.lnot mask))) g)
             (globals s))) = Some G' /\
     Z.testbit (WaveIRQ (myGUS G')) (IRQChan g) = false /\
     Z.testbit (RampIRQ (myGUS G')) (IRQChan g) = false) /\
  (exists n, (n <= 32)%nat /\
     forall m, (n <= m)%nat ->
       exists s', drain m s = Some s' /\
                  Z.land (IRQStatus (myGUS (globals s'))) 0x60 = 0).
Proof.
  intros Hr Hsel g mask.
  destruct (reachable_card_ok cos sin s Hr) as (_ & Hg & _).
  split; [| apply drain_within_32; assumption].
  destruct (read_voice_irq s Hg Hsel) as (r & G' & Hread & Hc).
  exists r, G'. split; [exact Hread | split; [exact Hc |]].
  destruct (CheckVoiceIrq_fields _ _ Hc) as (_ & _ & F3 & F4 & _).
  fields. fold g in F3, F4. fold mask in F3, F4. rewrite F3, F4.
  destruct Hg as [_ Hchan]. fold g in Hchan.
  unfold mask. rewrite !testbit_clear by lia.
  rewrite Z.eqb_refl, !andb_false_r. auto.
Qed.

End Reachable.

Lemma after_reachable (prog : list Input) (s : State) :
  after prog = Some s -> reachable cos_ref sin_ref s.
Proof.
  unfold after. intros H. bind_inv H.
  eapply run_reachable; [| exact H]. eapply reachable_new. exact Hx.
Qed.

Lemma ctrl_irq_pending_bit_witness :
  exists s v,
    after irq_prog = Some s /\ guschan s !! 9%nat = Some v /\
    Z.testbit (WaveCtrl v) 7 = false /\
    Z.testbit (ReadWaveCtrl v (globals s)) 7 = true.
Proof.
  destruct (after irq_prog) as [s |] eqn:E; [| vm_compute in E; discriminate].
  destruct (guschan s !! 9%nat) as [v |] eqn:Ev;
    [| vm_compute in E; injection E as <-; vm_compute in Ev; discriminate].
  exists s, v. split; [reflexivity | split; [exact Ev |]].
  destruct (ctrl_irq_pending_bit cos_ref sin_ref s 9 v (after_reachable _ _ E) Ev)
    as (A & _ & _ & _ & _ & _ & _ & B & _).
  split; [exact A |]. rewrite B.
  vm_compute in E. injection E as <-. reflexivity.
Defined.

(** C9 as stated fails: at the end of a bidirectional loop the phase update
    sets bit 6 of the wave control, not only bit 0. *)
Lemma boundary_flips_direction_bit :
  ~ (forall n, n <> 0 ->
       Z.testbit (WaveCtrl (fst (WaveUpdate bidi_voice example_globals))) n =
       Z.testbit (WaveCtrl bidi_voice) n).
Proof.
  intros H. specialize (H 6 ltac:(lia)). vm_compute in H. discriminate H.
Qed.

Lemma active_voices_invariant_witness :
  exists s,
    after loud_prog = Some s /\
    ActiveChannels (myGUS (globals s)) = 14 /\
    ActiveMask (myGUS (globals s)) = 2 ^ 14 - 1.
Proof.
  destruct (after loud_prog) as [s |] eqn:E; [| vm_compute in E; discriminate].
  exists s. split; [reflexivity |].
  destruct (active_voices_invariant cos_ref sin_ref s (after_reachable _ _ E))
    as (_ & B & _).
  assert (A : ActiveChannels (myGUS (globals s)) = 14)
    by (vm_compute in E; injection E as <-; reflexivity).
  rewrite A in B. split; [exact A | exact B].
Defined.

(** C5 as stated fails: the card as constructed has no active voice. *)
Lemma constructed_card_has_no_active_voice :
  ~ (forall s, reachable cos_ref sin_ref s ->
       14 <= ActiveChannels (myGUS (globals s)) <= 32).
Proof.
  intros H.
  destruct (GUS_new 0x240 3 5) as [s |] eqn:E; [| vm_compute in E; discriminate].
  specialize (H s (reachable_new _ _ _ _ _ _ E)).
  assert (A : ActiveChannels (myGUS (globals s)) = 0)
    by (vm_compute in E; injection E as <-; reflexivity).
  lia.
Qed.

Lemma voice_irq_drain_witness :
  exists s s',
    after irq_prog = Some s /\
    Z.land (IRQStatus (myGUS (globals s))) 0x60 = 0x20 /\
    drain 32 s = Some s' /\
    Z.land (IRQStatus (myGUS (globals s'))) 0x60 = 0.
Proof.
  destruct (after irq_prog) as [s |] eqn:E; [| vm_compute in E; discriminate].
  destruct (voice_irq_drain cos_ref sin_ref s (after_reachable _ _ E))
    as (_ & n & Hn & H).
  - vm_compute in E. injection E as <-. reflexivity.
  - destruct (H 32%nat Hn) as (s' & Hd & Hq).
    exists s, s'. split; [reflexivity |].
    split; [vm_compute in E; injection E as <-; reflexivity |].
    split; [exact Hd | exact Hq].
Defined.

(** ** The soft limiter *)

(** C4, as the code has it.  For every mix block, if both peaks are
    strictly below [INT16_MAX - 1] when the limiter runs, that is, after
    the voices of the block have been accumulated and have raised
    [peak_amplitude], then [SoftLimit] reports no limiting and leaves the
    globals, [peak_amplitude] among them, as they are, and the frames handed
    to the mixer are the plain truncations of the accumulator. *)
Theorem SoftLimit_below_threshold (G : Globals) (accumulator : list Frame.t)
    (len : Z) :
  SFltb (Frame.left (peak_amplitude (myGUS G))) max_allowed = true ->
  SFltb (Frame.right (peak_amplitude (myGUS G))) max_allowed = true ->
  SoftLimit G accumulator len = Some (not_limited, G) /\
  scale_accumulator G accumulator len =
  (scaled ← truncate_frames accumulator len; Some (scaled, G)).
Proof.
  intros Hl Hr.
  assert (H : SoftLimit G accumulator len = Some (not_limited, G))
    by (unfold SoftLimit; rewrite Hl, Hr; reflexivity).
  split; [exact H |]. unfold scale_accumulator. rewrite H. reflexivity.
Qed.

Lemma SoftLimit_below_threshold_witness :
  scale_accumulator example_globals
    [Frame.mk (F32.of_Z 1000) (F32.of_Z (-7)); Frame.mk F32.zero F32.one] 2 =
  Some ([(1000, -7); (0, 1)], example_globals).
Proof.
  destruct (SoftLimit_below_threshold example_globals
              [Frame.mk (F32.of_Z 1000) (F32.of_Z (-7)); Frame.mk F32.zero F32.one] 2)
    as [_ H].
  - reflexivity.
  - reflexivity.
  - rewrite H. reflexivity.
Defined.


(** C4 as stated fails: after [loud_prog] both peaks are 1.0 at the start
    of the block, the single loud voice raises the left peak to 32767
    while the block is accumulated, and the limiter scales the frame
    (32767, 0) down to (32766, 0) and lowers the peak. *)
Lemma limiter_engages_within_block :
  match after loud_prog with
  | Some s =>
      ~ (SFltb (Frame.left (peak_amplitude (myGUS (globals s)))) max_allowed = true ->
         SFltb (Frame.right (peak_amplitude (myGUS (globals s)))) max_allowed = true ->
         forall s1 accumulator,
           accumulate cos_ref sin_ref s 1 = Some (s1, accumulator) ->
           scale_accumulator (globals s1) accumulator 1 =
           (scaled ← truncate_frames accumulator 1; Some (scaled, globals s1)))
  | None => False
  end.
Proof.
  destruct (after loud_prog) as [s |] eqn:E; [| vm_compute in E; discriminate].
  intros H.
  assert (Hl : SFltb (Frame.left (peak_amplitude (myGUS (globals s)))) max_allowed = true)
    by (vm_compute in E; injection E as <-; reflexivity).
  assert (Hr : SFltb (Frame.right (peak_amplitude (myGUS (globals s)))) max_allowed = true)
    by (vm_compute in E; injection E as <-; reflexivity).
  destruct (accumulate cos_ref sin_ref s 1) as [[s1 accumulator] |] eqn:Ea;
    [| vm_compute in E; injection E as <-; vm_compute in Ea; discriminate].
  specialize (H Hl Hr s1 accumulator eq_refl).
  assert (Hs : fst <$> scale_accumulator (globals s1) accumulator 1 = Some [(32766, 0)])
    by (vm_compute in E; injection E as <-; vm_compute in Ea;
        injection Ea as <- <-; vm_compute; reflexivity).
  assert (Ht : truncate_frames accumulator 1 = Some [(32767, 0)])
    by (vm_compute in E; injection E as <-; vm_compute in Ea;
        injection Ea as <- <-; vm_compute; reflexivity).
  rewrite H, Ht in Hs. discriminate Hs.
Qed.

(** What the mixer receives for that block, and the peak afterwards. *)
Lemma loud_block_is_limited :
  match s ← after loud_prog; GUS_CallBack cos_ref sin_ref s 1 with
  | Some s' =>
      head (effects (globals s')) = Some (Mixer_AddSamples_s16 [(32766, 0)]) /\
      SFltb (Frame.left (peak_amplitude (myGUS (globals s')))) (F32.of_Z 32767) = true
  | None => False
  end.
Proof. vm_compute. split; reflexivity. Qed.

(** ** The scenarios of the specification, run *)

(** Silence after reset: 64 frames of zeros reach the mixer. *)
Example silence_after_reset :
  (s ← after silence_prog; head (effects (globals s))) =
  Some (Mixer_AddSamples_s16 (replicate 64 (0, 0))).
Proof. vm_compute. reflexivity. Qed.

(** Forward play of an 8-bit sample: each frame is the sample times 2^8
    times the centre gain on both sides; the voice stops at its end, on
    [WaveEnd], without raising an interrupt. *)
Example forward_play :
  (s ← after (sample_prog 0x00);
   v ← guschan s !! 0%nat;
   Some (head (effects (globals s)), WaveCtrl v, WaveAddr v,
         WaveIRQ (myGUS (globals s)))) =
  Some (Some (Mixer_AddSamples_s16
                [(-23170, -23170); (-22989, -22989); (-22808, -22808);
                 (-22627, -22627)]),
        0x01, 0x600, 0).
Proof. vm_compute. reflexivity. Qed.

(** Looping with the interrupt enabled: the voice wraps to its start,
    keeps playing and its bit is pending in [WaveIRQ] and [IRQStatus]. *)
Example looping_with_irq :
  (s ← after (sample_prog 0x28);
   v ← guschan s !! 0%nat;
   Some (WaveCtrl v, WaveAddr v, WaveIRQ (myGUS (globals s)),
         IRQStatus (myGUS (globals s)))) =
  Some (0x28, 0x200, 1, 0x20).
Proof. vm_compute. reflexivity. Qed.

(** A bidirectional loop turns at its end: the direction bit is set and
    the voice walks back. *)
Example bidirectional_loop :
  (s ← after (sample_prog 0x18);
   v ← guschan s !! 0%nat;
   Some (WaveCtrl v, WaveAddr v)) =
  Some (0x58, 0x400).
Proof. vm_compute. reflexivity. Qed.

(** * Further properties of the card *)

(** ** Bit-level helpers *)

Lemma switch_default {A : Type} (x : Z) (cases : list (Z * A)) (d : A) :
  ~ In x (map fst cases) -> switch x cases d = d.
Proof.
  induction cases as [| [k a] rest IH]; cbn [switch map fst In]; intros H; [reflexivity |].
  destruct (Z.eqb_spec x k) as [-> | Hne]; [exfalso; apply H; left; reflexivity |].
  apply IH. intros Hin. apply H. right. exact Hin.
Qed.

Lemma land_ones_bound (z n : Z) : 0 <= n -> 0 <= Z.land z (Z.ones n) < 2 ^ n.
Proof.
  intros Hn. rewrite Z.land_ones by lia. apply Z.mod_pos_bound.
  apply Z.pow_pos_nonneg; lia.
Qed.

(** A value below [2^k] and a value shifted left by [k] share no bit. *)
Lemma lor_shiftl_add (lo x k : Z) :
  0 <= k -> 0 <= lo < 2 ^ k -> Z.lor lo (Z.shiftl x k) = lo + x * 2 ^ k.
Proof.
  intros Hk Hlo. rewrite Z.shiftl_mul_pow2 by lia.
  symmetry. apply Z.add_nocarry_lor.
  apply Z.bits_inj'. intros n Hn. rewrite Z.land_spec, Z.bits_0.
  destruct (Z.ltb_spec n k).
  - rewrite Z.mul_pow2_bits_low by lia. apply andb_false_r.
  - rewrite <- (Z.mod_small lo (2 ^ k)) by lia.
    rewrite Z.mod_pow2_bits_high by lia. reflexivity.
Qed.

Lemma shiftr_bound (d a b : Z) :
  0 <= a -> 0 <= b -> 0 <= d < 2 ^ (a + b) -> 0 <= Z.shiftr d a < 2 ^ b.
Proof.
  intros Ha Hb Hd. rewrite Z.shiftr_div_pow2 by lia.
  rewrite Z.pow_add_r in Hd by lia.
  pose proof (Z.pow_pos_nonneg 2 a ltac:(lia) Ha).
  split; [apply Z.div_pos; lia | apply Z.div_lt_upper_bound; lia].
Qed.

Lemma testbit_land_pow2 (t c : Z) :
  0 <= c -> nz (Z.land t (2 ^ c)) = Z.testbit t c.
Proof.
  intros Hc. rewrite land_pow2 by lia. destruct (Z.testbit t c); [| reflexivity].
  apply nz_true. pose proof (Z.pow_pos_nonneg 2 c). lia.
Qed.

Lemma pos_land_pow2 (t c : Z) :
  0 <= c -> (0 <? Z.land t (2 ^ c)) = Z.testbit t c.
Proof.
  intros Hc. rewrite land_pow2 by lia. destruct (Z.testbit t c); [| reflexivity].
  apply Z.ltb_lt. pose proof (Z.pow_pos_nonneg 2 c). lia.
Qed.

(** ** Ports outside the map *)

(** X1.  A read from a port offset that [read_gus] has no case for
    returns 0xFF and a write to an offset [write_gus] has no case for is
    ignored; either way the card is left as it was.  In particular the
    write-only ports read as 0xFF and the read-only ports ignore writes. *)
Theorem unmapped_ports_ignored (s : State) (port val iolen : Z) :
  let off := port - portbase (myGUS (globals s)) in
  (~ In off [0x206; 0x208; 0x20a; 0x302; 0x303; 0x304; 0x305; 0x307] ->
   read_gus s port iolen = Some (0xff, s)) /\
  (~ In off [0x200; 0x208; 0x209; 0x20b; 0x302; 0x303; 0x304; 0x305; 0x307] ->
   write_gus s port val iolen = Some s).
Proof.
  intros off. split; intros H.
  - unfold read_gus. apply switch_default. exact H.
  - unfold write_gus. apply switch_default. exact H.
Qed.

Lemma unmapped_ports_ignored_witness :
  read_gus (GUS_members 0x240 3 5) (0x40 + 0x200) 1 =
    Some (0xff, GUS_members 0x240 3 5) /\
  write_gus (GUS_members 0x240 3 5) (0x40 + 0x206) 0x55 1 =
    Some (GUS_members 0x240 3 5).
Proof.
  destruct (unmapped_ports_ignored (GUS_members 0x240 3 5) (0x40 + 0x200) 0 1)
    as [A _].
  destruct (unmapped_ports_ignored (GUS_members 0x240 3 5) (0x40 + 0x206) 0x55 1)
    as [_ B].
  split.
  - apply A. cbn. lia.
  - apply B. cbn. lia.
Defined.

(** ** Selecting a voice *)

(** X2.  A write of [val] to the voice-select port 0x302 always succeeds
    on a card with its 32 voices: it selects voice [val AND 31], leaves the
    voices as they are, and a read of the port returns that number. *)
Theorem voice_select_round_trip (s : State) (val iolen : Z) :
  length (guschan s) = 32%nat ->
  let p := portbase (myGUS (globals s)) in
  let n := Z.land val 31 in
  exists s1,
    write_gus s (p + 0x302) val iolen = Some s1 /\
    0 <= n < 32 /\
    curchan s1 = Some (Z.to_nat n) /\
    guschan s1 = guschan s /\
    read_gus s1 (p + 0x302) 1 = Some (n, s1).
Proof.
  intros Hlen p n.
  assert (Hn : 0 <= n < 32) by (apply (land_ones_bound val 5); lia).
  assert (Hu : u16 n = n) by (apply Z.mod_small; lia).
  destruct (lookup_lt_is_Some_2 (guschan s) (Z.to_nat n)) as [v Hv]; [lia |].
  eexists. split.
  { unfold p. apply (write_gus_select_voice s val iolen v). fold n. rewrite Hu. exact Hv. }
  fold n. rewrite Hu. split; [exact Hn |]. split; [reflexivity |]. split; [reflexivity |].
  unfold read_gus. fields. fold p. rewrite Z.add_simpl_l. cbn [switch Z.eqb Pos.eqb].
  unfold u8. rewrite Z.mod_small by lia. reflexivity.
Qed.

Lemma voice_select_round_trip_witness :
  exists s1,
    write_gus (GUS_members 0x240 3 5) (0x40 + 0x302) 0x2A 1 = Some s1 /\
    curchan s1 = Some 10%nat /\
    read_gus s1 (0x40 + 0x302) 1 = Some (10, s1).
Proof.
  destruct (voice_select_round_trip (GUS_members 0x240 3 5) 0x2A 1)
    as (s1 & H1 & _ & H2 & _ & H3).
  - vm_compute. reflexivity.
  - exists s1. split; [exact H1 | split; [exact H2 | exact H3]].
Defined.

(** ** Register accesses *)

Lemma write_register_exec (s : State) (reg data : Z) :
  write_register s reg data =
  ExecuteGlobRegister (latched s reg data).
Proof.
  unfold write_register. rewrite write_gus_select_register. cbn [mbind option_bind].
  exact (write_gus_data_word
           (set_globals (upd (set_gRegData 0) (upd (set_gRegSelect (u8 reg)) (globals s))) s)
           data).
Qed.

Lemma read_register_exec (s : State) (reg : Z) :
  read_register s reg =
  '(r, s') ← ExecuteReadRegister (selected s reg);
  Some (Z.land r 0xffff, s').
Proof.
  unfold read_register. rewrite write_gus_select_register. cbn [mbind option_bind].
  exact (read_gus_data
           (set_globals (upd (set_gRegData 0) (upd (set_gRegSelect (u8 reg)) (globals s))) s)
           2).
Qed.

(** Running the register that was selected by a constant index. *)
Ltac exec_register reg :=
  let r := eval vm_compute in (u8 reg) in
  unfold ExecuteGlobRegister, ExecuteReadRegister, latched, selected; fields;
  change (u8 reg) with r; cbn [switch Z.eqb Pos.eqb].

(** ** Peek and poke of the card's memory *)

(** X3.  The peek/poke address is assembled from two registers: a word
    written to register 0x43 becomes bits 0-15 and the high byte of a word
    written to register 0x44 becomes bits 16-23, in either order of the two
    writes; nothing else of the card changes but the register latch. *)
Theorem dram_address_registers (s : State) (lo hi : Z) :
  0 <= lo < 2 ^ 16 -> 0 <= hi < 2 ^ 16 ->
  exists s1 s2 s1' s2',
    write_register s 0x43 lo = Some s1 /\
    write_register s1 0x44 hi = Some s2 /\
    write_register s 0x44 hi = Some s1' /\
    write_register s1' 0x43 lo = Some s2' /\
    gDramAddr (myGUS (globals s2)) = Z.shiftr hi 8 * 2 ^ 16 + lo /\
    gDramAddr (myGUS (globals s2')) = Z.shiftr hi 8 * 2 ^ 16 + lo /\
    guschan s2 = guschan s /\ curchan s2 = curchan s /\
    GUSRam (globals s2) = GUSRam (globals s) /\
    effects (globals s2) = effects (globals s) /\
    adlib_commandreg (globals s2) = adlib_commandreg (globals s) /\
    myGUS (globals s2) =
      set_gDramAddr (Z.shiftr hi 8 * 2 ^ 16 + lo)
        (set_gRegData hi (set_gRegSelect 0x44 (myGUS (globals s)))).
Proof.
  intros Hlo Hhi.
  assert (Hh : 0 <= Z.shiftr hi 8 < 2 ^ 8) by (apply shiftr_bound; lia).
  assert (Hul : u16 lo = lo) by (apply Z.mod_small; lia).
  assert (Huh : u16 hi = hi) by (apply Z.mod_small; lia).
  assert (Hsh : u32 (Z.shiftl (u32 (Z.shiftr hi 8)) 16) = Z.shiftl (Z.shiftr hi 8) 16).
  { unfold u32. rewrite (Z.mod_small (Z.shiftr hi 8)) by lia.
    rewrite Z.shiftl_mul_pow2 by lia. apply Z.mod_small. lia. }
  assert (Hlow : forall x, Z.land 0xffff (Z.lor (Z.land 0xff0000 x) lo) = lo).
  { intros x. rewrite Z.land_lor_distr_r, Z.land_assoc.
    change (Z.land 0xffff 0xff0000) with 0. rewrite Z.land_0_l, Z.lor_0_l.
    rewrite Z.land_comm. change 0xffff with (Z.ones 16). apply land_ones_small; lia. }
  assert (Hhigh : forall x,
             Z.lor (Z.land 0xff0000 (Z.lor (Z.land 0xffff x) (Z.shiftl (Z.shiftr hi 8) 16))) lo
             = Z.shiftr hi 8 * 2 ^ 16 + lo).
  { intros x. rewrite Z.land_lor_distr_r, Z.land_assoc.
    change (Z.land 0xff0000 0xffff) with 0. rewrite Z.land_0_l, Z.lor_0_l.
    assert (E : Z.land 0xff0000 (Z.shiftl (Z.shiftr hi 8) 16) = Z.shiftl (Z.shiftr hi 8) 16).
    { change 0xff0000 with (Z.shiftl (Z.ones 8) 16).
      rewrite <- Z.shiftl_land, Z.land_comm, land_ones_small by lia. reflexivity. }
    rewrite E, Z.lor_comm, lor_shiftl_add by lia. lia. }
  eexists _, _, _, _.
  split; [rewrite write_register_exec; exec_register 0x43; reflexivity |].
  split; [rewrite write_register_exec; exec_register 0x44; reflexivity |].
  split; [rewrite write_register_exec; exec_register 0x44; reflexivity |].
  split; [rewrite write_register_exec; exec_register 0x43; reflexivity |].
  fields. rewrite Hul, Huh, Hsh.
  unfold u32 at 1 2. rewrite !(Z.mod_small lo) by lia.
  split; [rewrite Hlow, lor_shiftl_add by lia; lia |].
  split; [apply Hhigh |].
  do 5 (split; [reflexivity |]).
  assert (Hu3 : u32 lo = lo) by (apply Z.mod_small; lia).
  rewrite !Hu3, Hlow, lor_shiftl_add by lia.
  replace (lo + Z.shiftr hi 8 * 2 ^ 16) with (Z.shiftr hi 8 * 2 ^ 16 + lo) by lia.
  reflexivity.
Qed.

Lemma dram_address_registers_witness :
  exists s1 s2,
    write_register (GUS_members 0x240 3 5) 0x43 0x2345 = Some s1 /\
    write_register s1 0x44 0x0100 = Some s2 /\
    gDramAddr (myGUS (globals s2)) = 0x12345.
Proof.
  destruct (dram_address_registers (GUS_members 0x240 3 5) 0x2345 0x0100)
    as (s1 & s2 & _ & _ & H1 & H2 & _ & _ & H3 & _); [lia | lia |].
  exists s1, s2. split; [exact H1 | split; [exact H2 | exact H3]].
Defined.

(** X4.  With the peek/poke address inside the card's memory, a byte
    written to port 0x307 is what a read of the port returns afterwards
    (as a byte: the value modulo 256); the write changes that one byte of
    the memory and nothing else of the card. *)
Theorem dram_poke_peek (s : State) (val : Z) :
  0 <= gDramAddr (myGUS (globals s)) < GUS_RAM_SIZE ->
  let p := portbase (myGUS (globals s)) in
  let a := gDramAddr (myGUS (globals s)) in
  exists s1,
    write_gus s (p + 0x307) val 1 = Some s1 /\
    read_gus s1 (p + 0x307) 1 = Some (val mod 256, s1) /\
    (forall b, b <> a -> GUSRam (globals s1) b = GUSRam (globals s) b) /\
    myGUS (globals s1) = myGUS (globals s) /\
    effects (globals s1) = effects (globals s) /\
    guschan s1 = guschan s /\ curchan s1 = curchan s /\
    adlib_commandreg (globals s1) = adlib_commandreg (globals s).
Proof.
  intros Ha p a. eexists. split.
  { unfold write_gus. fold p. rewrite Z.add_simpl_l. cbn [switch Z.eqb Pos.eqb].
    destruct (Z.ltb_spec (gDramAddr (myGUS (globals s))) GUS_RAM_SIZE); [| exfalso; lia].
    reflexivity. }
  split.
  { unfold read_gus. fields. fold p. rewrite Z.add_simpl_l. cbn [switch Z.eqb Pos.eqb].
    fold a. destruct (Z.ltb_spec a GUS_RAM_SIZE); [| exfalso; unfold a in *; lia].
    unfold ram_at. fields.
    destruct (Z.leb_spec 0 a); [| exfalso; unfold a in *; lia].
    destruct (Z.ltb_spec a GUS_RAM_SIZE); [| exfalso; lia].
    cbn [andb mbind option_bind]. rewrite Z.eqb_refl.
    unfold u8. rewrite Z.mod_mod by lia. reflexivity. }
  fields. split; [| auto 10].
  intros b Hb. fold a. destruct (Z.eqb_spec b a); [contradiction | reflexivity].
Qed.

Lemma dram_poke_peek_witness :
  exists s1,
    write_gus (GUS_members 0x240 3 5) (0x40 + 0x307) 0x1C3 1 = Some s1 /\
    read_gus s1 (0x40 + 0x307) 1 = Some (0xC3, s1).
Proof.
  destruct (dram_poke_peek (GUS_members 0x240 3 5) 0x1C3) as (s1 & H1 & H2 & _).
  - vm_compute. split; [discriminate | reflexivity].
  - exists s1. split; [exact H1 | exact H2].
Defined.

(** X5.  With the peek/poke address at or past the end of the card's
    memory (the address has 24 bits, the memory 2^20 bytes), a write to
    port 0x307 is ignored and a read returns 0. *)
Theorem dram_beyond_memory (s : State) (val iolen : Z) :
  GUS_RAM_SIZE <= gDramAddr (myGUS (globals s)) ->
  let p := portbase (myGUS (globals s)) in
  write_gus s (p + 0x307) val iolen = Some s /\
  read_gus s (p + 0x307) iolen = Some (0, s).
Proof.
  intros Ha p. unfold write_gus, read_gus. fold p. rewrite Z.add_simpl_l.
  cbn [switch Z.eqb Pos.eqb].
  destruct (Z.ltb_spec (gDramAddr (myGUS (globals s))) GUS_RAM_SIZE); [exfalso; lia |].
  split; reflexivity.
Qed.

Lemma dram_beyond_memory_witness :
  let s := set_globals (upd (set_gDramAddr 0x100000) (globals (GUS_members 0x240 3 5)))
             (GUS_members 0x240 3 5) in
  write_gus s (0x40 + 0x307) 0x55 1 = Some s /\
  read_gus s (0x40 + 0x307) 1 = Some (0, s).
Proof.
  intros s. apply (dram_beyond_memory s 0x55 1). vm_compute. discriminate.
Defined.

(** ** The registers of the selected voice *)

Lemma curchan_set_selected (s : State) (i : nat) (v : GUSChannels)
    (f : GUSChannels -> GUSChannels) :
  curchan s = Some i -> guschan s !! i = Some v ->
  exists s1,
    curchan_set s f = Some s1 /\
    curchan s1 = Some i /\ guschan s1 !! i = Some (f v) /\
    (forall j, j <> i -> guschan s1 !! j = guschan s !! j) /\
    globals s1 = globals s.
Proof.
  intros Hc Hv. unfold curchan_set, with_curchan. rewrite Hc, Hv.
  cbn [mbind option_bind]. eexists. split; [reflexivity |]. fields.
  split; [exact Hc |].
  split; [apply list_lookup_insert_eq; eapply lookup_lt_Some; exact Hv |].
  split; [| reflexivity].
  intros j Hj. apply list_lookup_insert_ne. congruence.
Qed.

Lemma read_curchan_selected (s : State) (i : nat) (v : GUSChannels)
    (f : GUSChannels -> Z) (d : Z) :
  curchan s = Some i -> guschan s !! i = Some v -> read_curchan s f d = Some (f v).
Proof. intros Hc Hv. unfold read_curchan. rewrite Hc, Hv. reflexivity. Qed.

Lemma WAVE_MSWMASK_ones : WAVE_MSWMASK = Z.ones 16.
Proof. reflexivity. Qed.

Lemma WAVE_LSWMASK_shifted : WAVE_LSWMASK = Z.shiftl (Z.ones 16) 16.
Proof. reflexivity. Qed.

(** The 29-bit address the two halves make, whatever was there before. *)
Lemma address_halves (W m l : Z) :
  0 <= m < 2 ^ 16 -> 0 <= l < 2 ^ 16 ->
  let M := Z.land m 0x1fff in
  Z.lor (Z.land (Z.lor (Z.land W WAVE_MSWMASK) (u32 (Z.shiftl M 16))) WAVE_LSWMASK)
        (u32 l) = M * 2 ^ 16 + l /\
  u32 (Z.shiftl (u32 M) 16) = u32 (Z.shiftl M 16) /\
  0 <= M < 2 ^ 13.
Proof.
  intros Hm Hl M.
  assert (HM : 0 <= M < 2 ^ 13) by (apply (land_ones_bound m 13); lia).
  assert (Hs : u32 (Z.shiftl M 16) = Z.shiftl M 16).
  { rewrite Z.shiftl_mul_pow2 by lia. apply Z.mod_small. lia. }
  split; [| split; [| exact HM]].
  - rewrite Hs, WAVE_MSWMASK_ones, WAVE_LSWMASK_shifted.
    rewrite Z.land_lor_distr_l, <- Z.land_assoc.
    change (Z.land (Z.ones 16) (Z.shiftl (Z.ones 16) 16)) with 0.
    rewrite Z.land_0_r, Z.lor_0_l, <- Z.shiftl_land, land_ones_small by lia.
    unfold u32. rewrite (Z.mod_small l) by lia.
    rewrite Z.lor_comm, lor_shiftl_add by lia. lia.
  - unfold u32 at 2. rewrite (Z.mod_small M) by lia. reflexivity.
Qed.

Lemma address_read_back (M l : Z) :
  0 <= M < 2 ^ 13 -> 0 <= l < 2 ^ 16 ->
  Z.land (u16 (Z.shiftr (M * 2 ^ 16 + l) 16)) 0xffff = M /\
  Z.land (u16 (M * 2 ^ 16 + l)) 0xffff = l.
Proof.
  intros HM Hl.
  assert (E1 : Z.shiftr (M * 2 ^ 16 + l) 16 = M).
  { rewrite Z.shiftr_div_pow2, Z.div_add_l, Z.div_small by lia. lia. }
  assert (E2 : u16 (M * 2 ^ 16 + l) = l).
  { unfold u16. rewrite Z.add_comm, Z.mod_add by lia. apply Z.mod_small. lia. }
  rewrite E1, E2. unfold u16. rewrite (Z.mod_small M) by lia.
  change 0xffff with (Z.ones 16). rewrite !land_ones_small by lia. auto.
Qed.

(** The loop start of the selected voice is assembled from two
    registers: the low 13 bits of the word written to register 0x02 are its
    bits 16-28 and the word written to register 0x03 its bits 0-15,
    whatever the address was before; registers 0x82 and 0x83 read the two
    halves back.  The loop end is assembled in the same way from registers
    0x04 and 0x05. *)
Lemma wave_bounds_written (s : State) (i : nat) (v : GUSChannels) (msw lsw : Z) :
  curchan s = Some i -> guschan s !! i = Some v ->
  0 <= msw < 2 ^ 16 -> 0 <= lsw < 2 ^ 16 ->
  (exists s1 s2 v2,
     write_register s 0x02 msw = Some s1 /\
     write_register s1 0x03 lsw = Some s2 /\
     guschan s2 !! i = Some v2 /\
     WaveStart v2 = Z.land msw 0x1fff * 2 ^ 16 + lsw /\
     WaveEnd v2 = WaveEnd v /\ WaveAddr v2 = WaveAddr v /\
     fst <$> read_register s2 0x82 = Some (Z.land msw 0x1fff) /\
     fst <$> read_register s2 0x83 = Some lsw) /\
  (exists s1 s2 v2,
     write_register s 0x04 msw = Some s1 /\
     write_register s1 0x05 lsw = Some s2 /\
     guschan s2 !! i = Some v2 /\
     WaveEnd v2 = Z.land msw 0x1fff * 2 ^ 16 + lsw /\
     WaveStart v2 = WaveStart v /\ WaveAddr v2 = WaveAddr v).
Proof.
  intros Hc Hv Hm Hl.
  assert (Hum : u16 msw = msw) by (apply Z.mod_small; lia).
  assert (Hul : u16 lsw = lsw) by (apply Z.mod_small; lia).
  split.
  - destruct (curchan_set_selected (latched s 0x02 msw) i v
                (fun v => set_WaveStart
                            (Z.lor (Z.land (WaveStart v) WAVE_MSWMASK)
                                   (u32 (Z.shiftl (Z.land (u16 msw) 0x1fff) 16))) v)
                Hc Hv) as (s1 & E1 & Hc1 & Hv1 & _ & _).
    destruct (curchan_set_selected (latched s1 0x03 lsw) i _
                (fun v => set_WaveStart
                            (Z.lor (Z.land (WaveStart v) WAVE_LSWMASK) (u32 (u16 lsw))) v)
                Hc1 Hv1) as (s2 & E2 & Hc2 & Hv2 & _ & _).
    exists s1, s2. eexists.
    split; [rewrite write_register_exec; exec_register 0x02; exact E1 |].
    split; [rewrite write_register_exec; exec_register 0x03; exact E2 |].
    rewrite ?Hum, ?Hul in Hv2.
    split; [exact Hv2 |]. fields.
    destruct (address_halves (WaveStart v) msw lsw Hm Hl) as (A & _ & HM).
    cbv zeta in A, HM. rewrite A.
    destruct (address_read_back _ _ HM Hl) as [R1 R2].
    split; [reflexivity | split; [reflexivity | split; [reflexivity |]]].
    rewrite !read_register_exec. split.
    + exec_register 0x82.
      rewrite (read_curchan_selected (set_globals _ s2) i _ _ _ Hc2 Hv2). cbn. fields.
      rewrite A, R1. reflexivity.
    + exec_register 0x83.
      rewrite (read_curchan_selected (set_globals _ s2) i _ _ _ Hc2 Hv2). cbn. fields.
      rewrite A, R2. reflexivity.
  - destruct (curchan_set_selected (latched s 0x04 msw) i v
                (fun v => set_WaveEnd
                            (Z.lor (Z.land (WaveEnd v) WAVE_MSWMASK)
                                   (u32 (Z.shiftl (u32 (Z.land (u16 msw) 0x1fff)) 16))) v)
                Hc Hv) as (s1 & E1 & Hc1 & Hv1 & _ & _).
    destruct (curchan_set_selected (latched s1 0x05 lsw) i _
                (fun v => set_WaveEnd
                            (Z.lor (Z.land (WaveEnd v) WAVE_LSWMASK) (u32 (u16 lsw))) v)
                Hc1 Hv1) as (s2 & E2 & Hc2 & Hv2 & _ & _).
    exists s1, s2. eexists.
    split; [rewrite write_register_exec; exec_register 0x04; exact E1 |].
    split; [rewrite write_register_exec; exec_register 0x05; exact E2 |].
    rewrite ?Hum, ?Hul in Hv2.
    split; [exact Hv2 |]. fields.
    destruct (address_halves (WaveEnd v) msw lsw Hm Hl) as (A & B & _).
    cbv zeta in A, B. rewrite B, A. auto.
Qed.


(** The playback position of the selected voice is set through
    registers 0x0A (bits 16-28) and 0x0B (bits 0-15) and read back through
    registers 0x8A and 0x8B. *)
Lemma wave_position_written (s : State) (i : nat) (v : GUSChannels) (msw lsw : Z) :
  curchan s = Some i -> guschan s !! i = Some v ->
  0 <= msw < 2 ^ 16 -> 0 <= lsw < 2 ^ 16 ->
  exists s1 s2 v2,
    write_register s 0x0A msw = Some s1 /\
    write_register s1 0x0B lsw = Some s2 /\
    guschan s2 !! i = Some v2 /\
    WaveAddr v2 = Z.land msw 0x1fff * 2 ^ 16 + lsw /\
    WaveStart v2 = WaveStart v /\ WaveEnd v2 = WaveEnd v /\
    WaveCtrl v2 = WaveCtrl v /\
    fst <$> read_register s2 0x8a = Some (Z.land msw 0x1fff) /\
    fst <$> read_register s2 0x8b = Some lsw.
Proof.
  intros Hc Hv Hm Hl.
  assert (Hum : u16 msw = msw) by (apply Z.mod_small; lia).
  assert (Hul : u16 lsw = lsw) by (apply Z.mod_small; lia).
  destruct (curchan_set_selected (latched s 0x0A msw) i v
              (fun v => set_WaveAddr
                          (Z.lor (Z.land (WaveAddr v) WAVE_MSWMASK)
                                 (u32 (Z.shiftl (u32 (Z.land (u16 msw) 0x1fff)) 16))) v)
              Hc Hv) as (s1 & E1 & Hc1 & Hv1 & _ & _).
  destruct (curchan_set_selected (latched s1 0x0B lsw) i _
              (fun v => set_WaveAddr
                          (Z.lor (Z.land (WaveAddr v) WAVE_LSWMASK) (u32 (u16 lsw))) v)
              Hc1 Hv1) as (s2 & E2 & Hc2 & Hv2 & _ & _).
  exists s1, s2. eexists.
  split; [rewrite write_register_exec; exec_register 0x0A; exact E1 |].
  split; [rewrite write_register_exec; exec_register 0x0B; exact E2 |].
  rewrite ?Hum, ?Hul in Hv2.
  split; [exact Hv2 |]. fields.
  destruct (address_halves (WaveAddr v) msw lsw Hm Hl) as (A & B & HM).
  cbv zeta in A, B, HM. rewrite B, A.
  destruct (address_read_back _ _ HM Hl) as [R1 R2].
  do 4 (split; [reflexivity |]).
  rewrite !read_register_exec. split.
  - exec_register 0x8a.
    rewrite (read_curchan_selected (set_globals _ s2) i _ _ _ Hc2 Hv2). cbn. fields.
    rewrite B, A, R1. reflexivity.
  - exec_register 0x8b.
    rewrite (read_curchan_selected (set_globals _ s2) i _ _ _ Hc2 Hv2). cbn. fields.
    rewrite B, A, R2. reflexivity.
Qed.

(** X6.  The three addresses of the selected voice, its loop start, its
    loop end and its playback position, are each assembled from two
    registers (0x02/0x03, 0x04/0x05 and 0x0A/0x0B): the low 13 bits of the
    first word are bits 16-28 and the second word is bits 0-15, whatever
    the address was before and without touching the other two addresses;
    registers 0x82/0x83 and 0x8A/0x8B read the halves of the start and of
    the position back. *)
Theorem voice_address_registers (s : State) (i : nat) (v : GUSChannels) (msw lsw : Z) :
  curchan s = Some i -> guschan s !! i = Some v ->
  0 <= msw < 2 ^ 16 -> 0 <= lsw < 2 ^ 16 ->
  let a := Z.land msw 0x1fff * 2 ^ 16 + lsw in
  (exists s1 s2 v2,
     write_register s 0x02 msw = Some s1 /\ write_register s1 0x03 lsw = Some s2 /\
     guschan s2 !! i = Some v2 /\
     WaveStart v2 = a /\ WaveEnd v2 = WaveEnd v /\ WaveAddr v2 = WaveAddr v /\
     fst <$> read_register s2 0x82 = Some (Z.land msw 0x1fff) /\
     fst <$> read_register s2 0x83 = Some lsw) /\
  (exists s1 s2 v2,
     write_register s 0x04 msw = Some s1 /\ write_register s1 0x05 lsw = Some s2 /\
     guschan s2 !! i = Some v2 /\
     WaveEnd v2 = a /\ WaveStart v2 = WaveStart v /\ WaveAddr v2 = WaveAddr v) /\
  (exists s1 s2 v2,
     write_register s 0x0A msw = Some s1 /\ write_register s1 0x0B lsw = Some s2 /\
     guschan s2 !! i = Some v2 /\
     WaveAddr v2 = a /\ WaveStart v2 = WaveStart v /\ WaveEnd v2 = WaveEnd v /\
     WaveCtrl v2 = WaveCtrl v /\
     fst <$> read_register s2 0x8a = Some (Z.land msw 0x1fff) /\
     fst <$> read_register s2 0x8b = Some lsw).
Proof.
  intros Hc Hv Hm Hl a.
  destruct (wave_bounds_written s i v msw lsw Hc Hv Hm Hl) as [B1 B2].
  split; [exact B1 |]. split; [exact B2 |].
  exact (wave_position_written s i v msw lsw Hc Hv Hm Hl).
Qed.

Lemma voice_address_registers_witness :
  let s := set_curchan (Some 3%nat) (GUS_members 0x240 3 5) in
  (exists s1 s2 v2,
     write_register s 0x02 0xE012 = Some s1 /\
     write_register s1 0x03 0x3456 = Some s2 /\
     guschan s2 !! 3%nat = Some v2 /\
     WaveStart v2 = 0x123456 /\
     fst <$> read_register s2 0x82 = Some 0x12 /\
     fst <$> read_register s2 0x83 = Some 0x3456) /\
  (exists s1 s2 v2,
     write_register s 0x0A 0xE012 = Some s1 /\
     write_register s1 0x0B 0x3456 = Some s2 /\
     guschan s2 !! 3%nat = Some v2 /\
     WaveAddr v2 = 0x123456 /\
     fst <$> read_register s2 0x8a = Some 0x12 /\
     fst <$> read_register s2 0x8b = Some 0x3456).
Proof.
  intros s.
  destruct (voice_address_registers s 3 (GUSChannels_new 3) 0xE012 0x3456)
    as ((s1 & s2 & v2 & H1 & H2 & H3 & H4 & _ & _ & H5 & H6) & _ &
        (t1 & t2 & u2 & K1 & K2 & K3 & K4 & _ & _ & _ & K5 & K6));
    [reflexivity | reflexivity | lia | lia |].
  split.
  - exists s1, s2, v2. repeat (split; [assumption |]). exact H6.
  - exists t1, t2, u2. repeat (split; [assumption |]). exact K6.
Defined.

(** X7.  A word [d] written to register 0x09 sets the volume index of the
    selected voice to [d >> 4], an index of the 4096-entry volume table;
    register 0x89 reads it back shifted into place, that is, [d] with its
    low four bits cleared. *)
Theorem current_volume_round_trip (s : State) (i : nat) (v : GUSChannels) (d : Z) :
  curchan s = Some i -> guschan s !! i = Some v -> 0 <= d < 2 ^ 16 ->
  exists s1 v1,
    write_register s 0x09 d = Some s1 /\
    guschan s1 !! i = Some v1 /\
    CurrentVolIndex v1 = d / 16 /\
    0 <= CurrentVolIndex v1 < GUS_VOLUME_POSITIONS /\
    fst <$> read_register s1 0x89 = Some (d - d mod 16).
Proof.
  intros Hc Hv Hd.
  assert (Hu : u16 d = d) by (apply Z.mod_small; lia).
  assert (Hs : 0 <= Z.shiftr d 4 < 2 ^ 12) by (apply shiftr_bound; lia).
  destruct (curchan_set_selected (latched s 0x09 d) i v
              (fun v => set_CurrentVolIndex (u16 (Z.shiftr (u16 d) 4)) v) Hc Hv)
    as (s1 & E1 & Hc1 & Hv1 & _ & _).
  exists s1. eexists.
  split; [rewrite write_register_exec; exec_register 0x09; exact E1 |].
  rewrite ?Hu in Hv1.
  split; [exact Hv1 |]. fields.
  assert (E : u16 (Z.shiftr d 4) = d / 16).
  { unfold u16. rewrite Z.mod_small by lia. apply Z.shiftr_div_pow2. lia. }
  rewrite E. rewrite Z.shiftr_div_pow2 in Hs by lia. change (2 ^ 4) with 16 in Hs.
  split; [reflexivity |]. split; [unfold GUS_VOLUME_POSITIONS; lia |].
  rewrite read_register_exec. exec_register 0x89.
  rewrite (read_curchan_selected (set_globals _ s1) i _ _ _ Hc1 Hv1). cbn. fields. rewrite E.
  rewrite Z.shiftl_mul_pow2 by lia. change (2 ^ 4) with 16.
  pose proof (Z.div_mod d 16 ltac:(lia)) as Hdm.
  pose proof (Z.mod_pos_bound d 16 ltac:(lia)) as Hmb.
  unfold u16. rewrite Z.mod_small by lia.
  change 0xffff with (Z.ones 16). rewrite land_ones_small by lia.
  f_equal. lia.
Qed.

Lemma current_volume_round_trip_witness :
  let s := set_curchan (Some 3%nat) (GUS_members 0x240 3 5) in
  exists s1 v1,
    write_register s 0x09 0xABCD = Some s1 /\
    guschan s1 !! 3%nat = Some v1 /\
    CurrentVolIndex v1 = 0xABC /\
    fst <$> read_register s1 0x89 = Some 0xABC0.
Proof.
  intros s.
  destruct (current_volume_round_trip s 3 (GUSChannels_new 3) 0xABCD)
    as (s1 & v1 & H1 & H2 & H3 & _ & H4); [reflexivity | reflexivity | lia |].
  exists s1, v1. repeat (split; [assumption |]). exact H4.
Defined.

(** ** The reset register written as a byte *)

Lemma high_byte_low_bits (val : Z) (n : Z) :
  0 <= n < 8 -> Z.testbit (u16 (Z.lor (Z.land 0x00ff 0) (Z.shiftl val 8))) n = false.
Proof.
  intros Hn. unfold u16. rewrite Z.mod_pow2_bits_low by lia.
  rewrite Z.lor_spec, Z.shiftl_spec_low by lia.
  change (Z.land 0x00ff 0) with 0. rewrite Z.bits_0. reflexivity.
Qed.

(** X8.  [GUSReset] tests bits 0 and 2 of the 16-bit data latch, and a
    byte written to the high data port 0x305 only fills bits 8-15 of the
    latch, which selecting the register has cleared.  So the guest's usual
    sequence, register 0x4C selected and a byte written to port 0x305,
    resets nothing whatever the byte: the voices, the timers, the interrupt
    state and the AdLib command register stay as they are, and the
    interrupt enable flag is cleared. *)
Theorem reset_register_byte_write (s : State) (val : Z) :
  let p := portbase (myGUS (globals s)) in
  exists s1 s2,
    write_gus s (p + 0x303) 0x4C 1 = Some s1 /\
    write_gus s1 (p + 0x305) val 1 = Some s2 /\
    guschan s2 = guschan s /\ curchan s2 = curchan s /\
    myGUS (globals s2) =
      set_irqenabled false
        (set_gRegData (u16 (Z.shiftl val 8)) (set_gRegSelect 0x4C (myGUS (globals s)))) /\
    adlib_commandreg (globals s2) = adlib_commandreg (globals s) /\
    GUSRam (globals s2) = GUSRam (globals s) /\
    effects (globals s2) = effects (globals s).
Proof.
  intros p.
  set (d := u16 (Z.lor (Z.land 0x00ff 0) (Z.shiftl val 8))).
  assert (H0 : Z.land d 0x1 = 0).
  { change 0x1 with (2 ^ 0). rewrite land_pow2 by lia.
    unfold d. rewrite high_byte_low_bits by lia. reflexivity. }
  assert (H2 : Z.land d 0x4 = 0).
  { change 0x4 with (2 ^ 2). rewrite land_pow2 by lia.
    unfold d. rewrite high_byte_low_bits by lia. reflexivity. }
  assert (Hd : d = u16 (Z.shiftl val 8)) by reflexivity.
  assert (E : ExecuteGlobRegister
                (set_globals
                   (upd (set_gRegData d)
                      (upd (set_gRegData 0) (upd (set_gRegSelect (u8 0x4C)) (globals s)))) s)
              = Some (set_globals
                        (upd (set_irqenabled false)
                           (upd (set_gRegData d)
                              (upd (set_gRegData 0)
                                 (upd (set_gRegSelect (u8 0x4C)) (globals s))))) s)).
  { unfold ExecuteGlobRegister. fields. change (u8 0x4C) with 0x4C.
    cbn [switch Z.eqb Pos.eqb]. unfold GUSReset. fields. rewrite H0.
    cbn [Z.eqb Pos.eqb mbind option_bind]. fields. rewrite H2. reflexivity. }
  eexists _, _. split; [apply write_gus_select_register |].
  split.
  { match goal with
    | |- write_gus ?s1 _ _ _ = _ =>
        change p with (portbase (myGUS (globals s1))); rewrite (write_gus_data_high s1)
    end.
    exact E. }
  fields. rewrite Hd. auto 10.
Qed.

Lemma reset_register_byte_write_example :
  (s1 ← write_gus (GUS_members 0x240 3 5) (0x40 + 0x303) 0x4C 1;
   s2 ← write_gus s1 (0x40 + 0x305) 0x07 1;
   Some (guschan s2, irqenabled (myGUS (globals s2)), adlib_commandreg (globals s2))) =
  Some (guschan (GUS_members 0x240 3 5), false, 0).
Proof. vm_compute. reflexivity. Qed.

(** ** The timers *)

(** X9.  A write to the timer port 0x209 with bit 7 clear sets the mask
    flags from bits 6 and 5 and the running flags from bits 0 and 1, and
    schedules a timer event exactly for a timer that goes from stopped to
    running, with the delay the timer has: starting a timer that already
    runs schedules nothing, so that writing the same value again leaves
    the list of scheduled events as it is. *)
Theorem timer_start_schedules_once (s : State) (val iolen : Z) :
  Z.land val 0x80 = 0 ->
  let p := portbase (myGUS (globals s)) in
  let t0 := fst (timers (myGUS (globals s))) in
  let t1 := snd (timers (myGUS (globals s))) in
  exists s1 s2,
    write_gus s (p + 0x209) val iolen = Some s1 /\
    running (fst (timers (myGUS (globals s1)))) = Z.testbit val 0 /\
    running (snd (timers (myGUS (globals s1)))) = Z.testbit val 1 /\
    masked (fst (timers (myGUS (globals s1)))) = Z.testbit val 6 /\
    masked (snd (timers (myGUS (globals s1)))) = Z.testbit val 5 /\
    effects (globals s1) =
      (if Z.testbit val 1 && negb (running t1) then [PIC_AddEvent 1 (delay t1)] else []) ++
      (if Z.testbit val 0 && negb (running t0) then [PIC_AddEvent 0 (delay t0)] else []) ++
      effects (globals s) /\
    write_gus s1 (p + 0x209) val iolen = Some s2 /\
    effects (globals s2) = effects (globals s1).
Proof.
  intros Hv p t0 t1.
  assert (B0 : nz (Z.land val 0x1) = Z.testbit val 0) by (apply (testbit_land_pow2 val 0); lia).
  assert (B1 : nz (Z.land val 0x2) = Z.testbit val 1) by (apply (testbit_land_pow2 val 1); lia).
  assert (B6 : (0 <? Z.land val 0x40) = Z.testbit val 6) by (apply (pos_land_pow2 val 6); lia).
  assert (B5 : (0 <? Z.land val 0x20) = Z.testbit val 5) by (apply (pos_land_pow2 val 5); lia).
  assert (Hw : forall s0 : State,
             portbase (myGUS (globals s0)) = p ->
             write_gus s0 (p + 0x209) val iolen =
             (let G :=
                upd (fun g =>
                       set_timers
                         (set_masked (Z.testbit val 6) (fst (timers g)),
                          set_masked (Z.testbit val 5) (snd (timers g))) g) (globals s0) in
              G ← timer_command 0 (Z.testbit val 0) G;
              G ← timer_command 1 (Z.testbit val 1) G;
              Some (set_globals G s0))).
  { intros s0 Hp. unfold write_gus. rewrite Hp, Z.add_simpl_l.
    cbn [switch Z.eqb Pos.eqb]. rewrite Hv, B0, B1, B5, B6. reflexivity. }
  assert (Ht0 : forall (start : bool) (G : Globals),
             let t := fst (timers (myGUS G)) in
             exists G',
               timer_command 0 start G = Some G' /\
               effects G' =
                 (if start && negb (running t) then [PIC_AddEvent 0 (delay t)] else []) ++
                 effects G /\
               running (fst (timers (myGUS G'))) = start /\
               masked (fst (timers (myGUS G'))) = masked t /\
               snd (timers (myGUS G')) = snd (timers (myGUS G)) /\
               portbase (myGUS G') = portbase (myGUS G)).
  { intros start G t; subst t; unfold timer_command, timer_at, set_timer_at;
      cbn [Z.eqb Pos.eqb mbind option_bind];
      destruct start; cbn [andb];
      try match goal with
          | |- context [negb (running ?t)] => destruct (running t) eqn:R
          end;
      cbn [negb app]; eexists; (split; [reflexivity |]); fields; rewrite ?R; auto 10. }
  assert (Ht1 : forall (start : bool) (G : Globals),
             let t := snd (timers (myGUS G)) in
             exists G',
               timer_command 1 start G = Some G' /\
               effects G' =
                 (if start && negb (running t) then [PIC_AddEvent 1 (delay t)] else []) ++
                 effects G /\
               running (snd (timers (myGUS G'))) = start /\
               masked (snd (timers (myGUS G'))) = masked t /\
               fst (timers (myGUS G')) = fst (timers (myGUS G)) /\
               portbase (myGUS G') = portbase (myGUS G)).
  { intros start G t; subst t; unfold timer_command, timer_at, set_timer_at;
      cbn [Z.eqb Pos.eqb mbind option_bind];
      destruct start; cbn [andb];
      try match goal with
          | |- context [negb (running ?t)] => destruct (running t) eqn:R
          end;
      cbn [negb app]; eexists; (split; [reflexivity |]); fields; rewrite ?R; auto 10. }
  assert (Hstep : forall s0 : State,
             portbase (myGUS (globals s0)) = p ->
             exists s1,
               write_gus s0 (p + 0x209) val iolen = Some s1 /\
               portbase (myGUS (globals s1)) = p /\
               running (fst (timers (myGUS (globals s1)))) = Z.testbit val 0 /\
               running (snd (timers (myGUS (globals s1)))) = Z.testbit val 1 /\
               masked (fst (timers (myGUS (globals s1)))) = Z.testbit val 6 /\
               masked (snd (timers (myGUS (globals s1)))) = Z.testbit val 5 /\
               effects (globals s1) =
                 (if Z.testbit val 1 && negb (running (snd (timers (myGUS (globals s0)))))
                  then [PIC_AddEvent 1 (delay (snd (timers (myGUS (globals s0)))))] else []) ++
                 (if Z.testbit val 0 && negb (running (fst (timers (myGUS (globals s0)))))
                  then [PIC_AddEvent 0 (delay (fst (timers (myGUS (globals s0)))))] else []) ++
                 effects (globals s0)).
  { intros s0 Hp. rewrite (Hw s0 Hp). cbv zeta.
    match goal with
    | |- context [timer_command 0 ?b ?G] =>
        destruct (Ht0 b G) as (G1 & C1 & F1 & R1 & M1 & O1 & P1)
    end.
    rewrite C1. cbn [mbind option_bind].
    destruct (Ht1 (Z.testbit val 1) G1) as (G2 & C2 & F2 & R2 & M2 & O2 & P2).
    rewrite C2. cbn [mbind option_bind]. eexists. split; [reflexivity |].
    fields. rewrite O1 in F2, M2. fields.
    split; [rewrite P2, P1; exact Hp |].
    split; [rewrite O2; exact R1 |]. split; [exact R2 |].
    split; [rewrite O2; exact M1 |]. split; [exact M2 |].
    rewrite F2, F1. reflexivity. }
  destruct (Hstep s eq_refl) as (s1 & W1 & P1 & R0 & R1 & M0 & M1 & F1).
  destruct (Hstep s1 P1) as (s2 & W2 & _ & _ & _ & _ & _ & F2).
  exists s1, s2. split; [exact W1 |].
  do 4 (split; [assumption |]). split; [exact F1 |]. split; [exact W2 |].
  rewrite F2, R0, R1.
  destruct (Z.testbit val 0), (Z.testbit val 1); reflexivity.
Qed.

Lemma timer_start_schedules_once_witness :
  exists s1 s2,
    write_gus (GUS_members 0x240 3 5) (0x40 + 0x209) 0x01 1 = Some s1 /\
    effects (globals s1) = [PIC_AddEvent 0 F32.zero] /\
    write_gus s1 (0x40 + 0x209) 0x01 1 = Some s2 /\
    effects (globals s2) = effects (globals s1).
Proof.
  destruct (timer_start_schedules_once (GUS_members 0x240 3 5) 0x01 1)
    as (s1 & s2 & H1 & _ & _ & _ & _ & H2 & H3 & H4); [reflexivity |].
  exists s1, s2. split; [exact H1 | split; [exact H2 | split; [exact H3 | exact H4]]].
Defined.

(** X10.  When the event of timer [k] (0 or 1) fires and the timer is not
    masked, the timer status port 0x208 reads with bit 7 and the timer's own
    bit (6 for timer 0, 5 for timer 1) set; a write to port 0x209 with bit
    7 set then clears both timers' flags, and the port reads with bits
    5-7 clear, without touching the running flags or scheduling
    anything. *)
Theorem timer_status_acknowledge (s : State) (k val : Z) :
  k = 0 \/ k = 1 ->
  masked (if k =? 0 then fst (timers (myGUS (globals s)))
          else snd (timers (myGUS (globals s)))) = false ->
  Z.land val 0x80 <> 0 ->
  let p := portbase (myGUS (globals s)) in
  exists G1 r1 s2 r2,
    GUS_TimerEvent (globals s) k = Some G1 /\
    read_gus (set_globals G1 s) (p + 0x208) 1 = Some (r1, set_globals G1 s) /\
    Z.testbit r1 7 = true /\ Z.testbit r1 (6 - k) = true /\
    write_gus (set_globals G1 s) (p + 0x209) val 1 = Some s2 /\
    read_gus s2 (p + 0x208) 1 = Some (r2, s2) /\
    Z.land r2 0xe0 = 0 /\
    running (fst (timers (myGUS (globals s2)))) = running (fst (timers (myGUS G1))) /\
    running (snd (timers (myGUS (globals s2)))) = running (snd (timers (myGUS G1))) /\
    effects (globals s2) = effects G1.
Proof.
  intros Hk Hm Hv p. apply nz_true in Hv.
  assert (Hp : forall s0 : State, portbase (myGUS (globals s0)) = p ->
                 forall iolen, read_gus s0 (p + 0x208) iolen =
                 Some (let g := myGUS (globals s0) in
                       let tmptime := 0 in
                       let tmptime :=
                         if reached (fst (timers g)) then Z.lor tmptime (Z.shiftl 1 6)
                         else tmptime in
                       let tmptime :=
                         if reached (snd (timers g)) then Z.lor tmptime (Z.shiftl 1 5)
                         else tmptime in
                       let tmptime :=
                         if nz (Z.land tmptime 0x60) then Z.lor tmptime (Z.shiftl 1 7)
                         else tmptime in
                       let tmptime :=
                         if nz (Z.land (IRQStatus g) 0x04) then Z.lor tmptime (Z.shiftl 1 2)
                         else tmptime in
                       let tmptime :=
                         if nz (Z.land (IRQStatus g) 0x08) then Z.lor tmptime (Z.shiftl 1 1)
                         else tmptime in
                       tmptime, s0)).
  { intros s0 HG iolen. unfold read_gus. rewrite HG, Z.add_simpl_l. reflexivity. }
  assert (He : exists G1,
             GUS_TimerEvent (globals s) k = Some G1 /\ portbase (myGUS G1) = p /\
             reached (if k =? 0 then fst (timers (myGUS G1)) else snd (timers (myGUS G1)))
             = true).
  { unfold GUS_TimerEvent, timer_at, set_timer_at, GUS_CheckIRQ.
    destruct Hk as [-> | ->]; cbn [Z.eqb Pos.eqb mbind option_bind] in Hm |- *;
      rewrite Hm; cbn [negb]; eexists; (split; [reflexivity |]);
      split_ifs; fields; auto. }
  destruct He as (G1 & E1 & P1 & R1).
  exists G1. eexists. eexists. eexists.
  split; [exact E1 |]. split; [apply (Hp (set_globals G1 s) P1) |].
  split.
  { cbv zeta. fields. destruct Hk as [-> | ->]; cbn [Z.eqb Pos.eqb] in R1; rewrite R1; clear R1;
      [destruct (reached (snd (timers (myGUS G1))))
      | destruct (reached (fst (timers (myGUS G1))))];
      destruct (nz (Z.land (IRQStatus _) 0x04)), (nz (Z.land (IRQStatus _) 0x08));
      reflexivity. }
  split.
  { cbv zeta. fields. destruct Hk as [-> | ->]; cbn [Z.eqb Pos.eqb] in R1; rewrite R1; clear R1;
      [destruct (reached (snd (timers (myGUS G1))))
      | destruct (reached (fst (timers (myGUS G1))))];
      destruct (nz (Z.land (IRQStatus _) 0x04)), (nz (Z.land (IRQStatus _) 0x08));
      reflexivity. }
  split.
  { unfold write_gus. fields. rewrite P1, Z.add_simpl_l. cbn [switch Z.eqb Pos.eqb].
    rewrite Hv. reflexivity. }
  split.
  { apply Hp. fields. exact P1. }
  cbv zeta. fields.
  split; [destruct (nz (Z.land (IRQStatus _) 0x04)), (nz (Z.land (IRQStatus _) 0x08));
          reflexivity | auto].
Qed.

Lemma timer_status_acknowledge_witness :
  let s := GUS_members 0x240 3 5 in
  exists G1 r1 s2 r2,
    GUS_TimerEvent (globals s) 1 = Some G1 /\
    read_gus (set_globals G1 s) (0x40 + 0x208) 1 = Some (r1, set_globals G1 s) /\
    Z.testbit r1 7 = true /\ Z.testbit r1 5 = true /\
    write_gus (set_globals G1 s) (0x40 + 0x209) 0x80 1 = Some s2 /\
    read_gus s2 (0x40 + 0x208) 1 = Some (r2, s2) /\
    Z.land r2 0xe0 = 0.
Proof.
  intros s.
  destruct (timer_status_acknowledge s 1 0x80)
    as (G1 & r1 & s2 & r2 & H1 & H2 & H3 & H4 & H5 & H6 & H7 & _);
    [right; reflexivity | reflexivity | vm_compute; discriminate |].
  exists G1, r1, s2, r2. repeat (split; [assumption |]). exact H7.
Defined.

Lemma clear_bit_byte (x c n : Z) :
  0 <= c < 8 -> 0 <= n < 8 ->
  Z.testbit (Z.land x (u8 (Z.lnot (2 ^ c)))) n = Z.testbit x n && negb (n =? c).
Proof.
  intros Hc Hn. unfold u8.
  rewrite Z.land_spec, Z.mod_pow2_bits_low, Z.lnot_spec, Z.pow2_bits_eqb by lia.
  rewrite (Z.eqb_sym c n). reflexivity.
Qed.

(** X11.  A word [d] written to the timer control register 0x45 stores
    its high byte [c]; bits 2 and 3 of [c] become the interrupt enables of
    timers 0 and 1; a timer whose enable is clear has its bit (2 or 3) of
    the IRQ status cleared, which acknowledges its interrupt, while the
    other bits of the status byte stay; the register reads back as [c] in
    the high byte; and the event of a timer whose enable is clear leaves
    the IRQ status as it is. *)
Theorem timer_control_register (s : State) (d : Z) :
  0 <= d < 2 ^ 16 ->
  let c := Z.shiftr d 8 in
  let st := IRQStatus (myGUS (globals s)) in
  exists s1,
    write_register s 0x45 d = Some s1 /\
    TimerControl (myGUS (globals s1)) = c /\
    raiseirq (fst (timers (myGUS (globals s1)))) = Z.testbit c 2 /\
    raiseirq (snd (timers (myGUS (globals s1)))) = Z.testbit c 3 /\
    (forall n, 0 <= n < 8 ->
       Z.testbit (IRQStatus (myGUS (globals s1))) n =
       Z.testbit st n && (if n =? 2 then Z.testbit c 2
                          else if n =? 3 then Z.testbit c 3 else true)) /\
    fst <$> read_register s1 0x45 = Some (c * 2 ^ 8) /\
    (forall k G',
       (k = 0 /\ Z.testbit c 2 = false) \/ (k = 1 /\ Z.testbit c 3 = false) ->
       GUS_TimerEvent (globals s1) k = Some G' ->
       IRQStatus (myGUS G') = IRQStatus (myGUS (globals s1))).
Proof.
  intros Hd c st.
  assert (Hu : u16 d = d) by (apply Z.mod_small; lia).
  assert (Hc : 0 <= c < 2 ^ 8) by (apply shiftr_bound; lia).
  assert (Hc8 : u8 c = c) by (apply Z.mod_small; lia).
  assert (B2 : (0 <? Z.land c 0x04) = Z.testbit c 2) by (apply (pos_land_pow2 c 2); lia).
  assert (B3 : (0 <? Z.land c 0x08) = Z.testbit c 3) by (apply (pos_land_pow2 c 3); lia).
  assert (Hbits : forall x n, 0 <= n < 8 ->
             Z.testbit (Z.land x (u8 (Z.lnot 0x04))) n = Z.testbit x n && negb (n =? 2) /\
             Z.testbit (Z.land x (u8 (Z.lnot 0x08))) n = Z.testbit x n && negb (n =? 3)).
  { intros x n Hn. split; [apply (clear_bit_byte x 2 n) | apply (clear_bit_byte x 3 n)]; lia. }
  destruct (Z.testbit c 2) eqn:E2, (Z.testbit c 3) eqn:E3;
    (eexists; split;
     [rewrite write_register_exec; exec_register 0x45; rewrite Hu; fold c;
      rewrite Hc8, B2; cbn [negb]; fields; rewrite B3; cbn [negb]; fields; reflexivity |]);
    fields; rewrite ?Hu; fold c; rewrite ?Hc8, ?B2, ?B3; cbn [negb]; fields;
    (split; [reflexivity |]); (split; [reflexivity |]); (split; [reflexivity |]);
    (split;
     [intros n Hn; fold st; destruct (Hbits st n Hn) as [A1 A2];
      destruct (Hbits (Z.land st (u8 (Z.lnot 0x04))) n Hn) as [_ A3];
      rewrite ?A3, ?A1, ?A2;
      destruct (Z.eqb_spec n 2) as [-> | ?]; cbn [negb Z.eqb Pos.eqb];
      try destruct (Z.eqb_spec n 3) as [-> | ?]; cbn [negb];
      rewrite ?andb_true_r, ?andb_false_r; reflexivity |]);
    (split;
     [rewrite read_register_exec; exec_register 0x45; cbn;
      rewrite Z.shiftl_mul_pow2 by lia;
      unfold u16; rewrite Z.mod_small by lia;
      change 65535 with (Z.ones 16); rewrite land_ones_small by lia; reflexivity |]);
    intros k G' Hk; unfold GUS_TimerEvent, timer_at, set_timer_at, GUS_CheckIRQ;
    destruct Hk as [[-> Hb] | [-> Hb]]; try discriminate Hb;
    cbn [Z.eqb Pos.eqb mbind option_bind]; fields; rewrite ?Hc8, ?B2, ?B3; cbn [negb]; fields;
    intros H; injection H as <-; split_ifs; reflexivity.
Qed.

Lemma timer_control_register_witness :
  let s := set_globals (upd (set_IRQStatus 0x0C) (globals (GUS_members 0x240 3 5)))
             (GUS_members 0x240 3 5) in
  exists s1,
    write_register s 0x45 0x0400 = Some s1 /\
    raiseirq (fst (timers (myGUS (globals s1)))) = true /\
    raiseirq (snd (timers (myGUS (globals s1)))) = false /\
    Z.testbit (IRQStatus (myGUS (globals s1))) 2 = true /\
    Z.testbit (IRQStatus (myGUS (globals s1))) 3 = false.
Proof.
  intros s.
  destruct (timer_control_register s 0x0400) as (s1 & H1 & _ & H2 & H3 & H4 & _); [lia |].
  exists s1. split; [exact H1 | split; [exact H2 | split; [exact H3 |]]].
  split; [exact (H4 2 ltac:(lia)) | exact (H4 3 ltac:(lia))].
Defined.

(** ** The IRQ and DMA selection latch *)

Lemma table_entry (table : list Z) (v : Z) :
  length table = 8%nat ->
  exists e, table !! Z.to_nat (Z.land v 0x7) = Some e.
Proof.
  intros Hlen. apply lookup_lt_is_Some_2.
  pose proof (land_ones_bound v 3 ltac:(lia)) as Hb. change (Z.ones 3) with 7 in Hb. lia.
Qed.

(** X12.  A write to the mix control port 0x200 arms the selection latch.
    The next write to port 0x20B consumes it: with bit 6 of the mix control
    set it picks the IRQ from [irqtable] by the low three bits of the value
    written, otherwise the DMA channel from [dmatable], and an entry of 0
    leaves the setting as it was.  A further write to port 0x20B, with the
    latch consumed, changes nothing, and the second IRQ and DMA settings
    are never touched. *)
Theorem irq_dma_select_latch (s : State) (m v v' : Z) :
  let p := portbase (myGUS (globals s)) in
  let g := myGUS (globals s) in
  let irq := default 0 (irqtable !! Z.to_nat (Z.land v 0x7)) in
  let dma := default 0 (dmatable !! Z.to_nat (Z.land v 0x7)) in
  exists s1 s2,
    write_gus s (p + 0x200) m 1 = Some s1 /\
    write_gus s1 (p + 0x20b) v 1 = Some s2 /\
    write_gus s2 (p + 0x20b) v' 1 = Some s2 /\
    mixControl (myGUS (globals s2)) = m mod 2 ^ 8 /\
    irq1 (myGUS (globals s2)) =
      (if Z.testbit m 6 && negb (irq =? 0) then irq else irq1 g) /\
    dma1 (myGUS (globals s2)) =
      (if negb (Z.testbit m 6) && negb (dma =? 0) then dma else dma1 g) /\
    irq2 (myGUS (globals s2)) = irq2 g /\ dma2 (myGUS (globals s2)) = dma2 g /\
    guschan s2 = guschan s.
Proof.
  intros p g irq dma.
  assert (B6 : nz (Z.land (u8 m) 0x40) = Z.testbit m 6).
  { change 0x40 with (2 ^ 6). rewrite (testbit_land_pow2 (u8 m) 6) by lia. unfold u8.
    apply Z.mod_pow2_bits_low. lia. }
  destruct (table_entry irqtable v eq_refl) as [ei Hei].
  destruct (table_entry dmatable v eq_refl) as [ed Hed].
  assert (Hi : irq = ei) by (unfold irq; rewrite Hei; reflexivity).
  assert (Hdm : dma = ed) by (unfold dma; rewrite Hed; reflexivity).
  rewrite Hi, Hdm.
  assert (W1 : write_gus s (p + 0x200) m 1 =
               Some (set_globals
                       (upd (set_ChangeIRQDMA true)
                          (upd (set_mixControl (u8 m)) (globals s))) s)).
  { unfold write_gus. fold p. rewrite Z.add_simpl_l. reflexivity. }
  assert (W3 : forall s0 : State,
             portbase (myGUS (globals s0)) = p ->
             ChangeIRQDMA (myGUS (globals s0)) = false ->
             write_gus s0 (p + 0x20b) v' 1 = Some s0).
  { intros s0 Hp Hc. unfold write_gus. rewrite Hp, Z.add_simpl_l.
    cbn [switch Z.eqb Pos.eqb]. rewrite Hc. reflexivity. }
  unfold nz in B6 |- *.
  destruct (Z.testbit m 6); cbn [andb negb];
    [destruct (ei =? 0) eqn:Ez | destruct (ed =? 0) eqn:Ez]; cbn [negb];
    (eexists _, _; split; [exact W1 |]; split;
     [unfold write_gus; fields; fold p; rewrite Z.add_simpl_l; cbn [switch Z.eqb Pos.eqb];
      fields; cbn [negb]; unfold nz; rewrite B6; cbn [negb];
      rewrite ?Hei, ?Hed; cbn [mbind option_bind]; rewrite Ez; cbn [negb]; reflexivity |]);
    (split; [apply W3; reflexivity |]); fields; auto 10.
Qed.

Lemma irq_dma_select_latch_example :
  (s1 ← write_gus (GUS_members 0x240 3 5) (0x40 + 0x200) 0x4B 1;
   s2 ← write_gus s1 (0x40 + 0x20b) 0x05 1;
   s3 ← write_gus s2 (0x40 + 0x20b) 0x02 1;
   Some (irq1 (myGUS (globals s3)), dma1 (myGUS (globals s3)))) = Some (11, 3).
Proof. vm_compute. reflexivity. Qed.

(** ** The number of active voices and the output rate *)

(** The rate computed in binary64 is the nearest integer to
    [10^6 / (1.619695497 * n)], for every admissible voice count. *)
Lemma base_frequency_rounds (n : Z) :
  14 <= n <= 32 ->
  let hz := (2 * 10 ^ 15 + 1619695497 * n) / (2 * 1619695497 * n) in
  base_frequency n = Some hz /\ 19294 <= hz <= 44100.
Proof.
  intros Hn hz.
  pose proof (forallb_seqZ
                (fun n =>
                   let hz := (2 * 10 ^ 15 + 1619695497 * n) / (2 * 1619695497 * n) in
                   match base_frequency n with
                   | Some f => (f =? hz) && (19294 <=? hz) && (hz <=? 44100)
                   | None => false
                   end)
                14 19 ltac:(vm_compute; reflexivity) n ltac:(lia)) as H.
  cbv beta zeta in H. fold hz in H.
  destruct (base_frequency n) as [f |]; [| discriminate].
  apply andb_true_iff in H as [H H3]. apply andb_true_iff in H as [H1 H2].
  apply Z.eqb_eq in H1. subst f. split; [reflexivity | lia].
Qed.

(** X13.  A word [d] written to register 0x0E on a card with its 32
    voices always succeeds and sets the number of active voices to
    [1 + (d >> 8 AND 63)] clamped to [14, 32].  When that changes the
    number, the output rate becomes the integer nearest to
    [10^6 / (1.619695497 * n)] (44100 Hz for 14 voices down to 19294 Hz
    for 32) and is passed to the mixer channel before the channel is
    enabled; when the number stays the same the rate is neither recomputed
    nor passed on, and the channel is only enabled. *)
Theorem active_voices_frequency (s : State) (d : Z) :
  length (guschan s) = 32%nat -> 0 <= d < 2 ^ 16 ->
  let n := clamp (1 + Z.land (Z.shiftr d 8) 63) GUS_MIN_CHANNELS GUS_MAX_CHANNELS in
  let hz := (2 * 10 ^ 15 + 1619695497 * n) / (2 * 1619695497 * n) in
  exists s1,
    write_register s 0x0E d = Some s1 /\
    ActiveChannels (myGUS (globals s1)) = n /\
    14 <= n <= 32 /\ 19294 <= hz <= 44100 /\
    (ActiveChannels (myGUS (globals s)) <> n ->
     basefreq (myGUS (globals s1)) = hz /\
     effects (globals s1) = Mixer_Enable true :: Mixer_SetFreq hz :: effects (globals s)) /\
    (ActiveChannels (myGUS (globals s)) = n ->
     basefreq (myGUS (globals s1)) = basefreq (myGUS (globals s)) /\
     effects (globals s1) = Mixer_Enable true :: effects (globals s)).
Proof.
  intros Hlen Hd n hz.
  assert (Hu : u16 d = d) by (apply Z.mod_small; lia).
  pose proof (clamp_range (1 + Z.land (Z.shiftr d 8) 63)
                GUS_MIN_CHANNELS GUS_MAX_CHANNELS
                ltac:(unfold GUS_MIN_CHANNELS, GUS_MAX_CHANNELS; lia)) as Hr.
  fold n in Hr. unfold GUS_MIN_CHANNELS, GUS_MAX_CHANNELS in Hr.
  assert (Hu8 : u8 n = n) by (apply Z.mod_small; lia).
  destruct (base_frequency_rounds n Hr) as [Hb Hz]. fold hz in Hb, Hz.
  assert (Hup : forall m, 0 <= m <= 32 ->
                  exists vs, update_active m (guschan s) = Some vs).
  { intros m Hm. unfold update_active. rewrite Hlen.
    destruct (Z.ltb_spec (Z.of_nat 32) m); [exfalso; lia | eauto]. }
  rewrite write_register_exec. exec_register 0x0E.
  unfold set_active_channels. fields. rewrite Hu. fold n.
  destruct (Z.eqb_spec n (ActiveChannels (myGUS (globals s)))) as [E | E]; cbn [negb].
  - cbn [mbind option_bind]. fields. rewrite <- E.
    destruct (Hup n ltac:(lia)) as [vs ->]. cbn [mbind option_bind].
    eexists. split; [reflexivity |]. fields.
    split; [first [reflexivity | symmetry; exact E] | split; [exact Hr | split; [exact Hz |]]].
    split; [intros Hne; exfalso; apply Hne; first [reflexivity | symmetry; exact E] | auto].
  - fields. rewrite Hu8, Hb. cbn [mbind option_bind]. fields.
    destruct (Hup n ltac:(lia)) as [vs ->]. cbn [mbind option_bind].
    eexists. split; [reflexivity |]. fields.
    split; [reflexivity | split; [exact Hr | split; [exact Hz |]]].
    split; [auto | intros Heq; exfalso; apply E; symmetry; exact Heq].
Qed.

Lemma active_voices_frequency_witness :
  exists s1 s2,
    write_register (GUS_members 0x240 3 5) 0x0E 0x0D00 = Some s1 /\
    ActiveChannels (myGUS (globals s1)) = 14 /\
    basefreq (myGUS (globals s1)) = 44100 /\
    effects (globals s1) = [Mixer_Enable true; Mixer_SetFreq 44100] /\
    write_register s1 0x0E 0x0D00 = Some s2 /\
    effects (globals s2) = Mixer_Enable true :: effects (globals s1).
Proof.
  destruct (active_voices_frequency (GUS_members 0x240 3 5) 0x0D00)
    as (s1 & H1 & H2 & _ & _ & H3 & _); [vm_compute; reflexivity | lia |].
  destruct (H3 ltac:(vm_compute; discriminate)) as [H4 H5].
  destruct (active_voices_frequency s1 0x0D00) as (s2 & H6 & _ & _ & _ & _ & H7).
  - pose proof H1 as H1'. vm_compute in H1'. injection H1' as <-. reflexivity.
  - lia.
  - destruct (H7 H2) as [_ H8].
    exists s1, s2. split; [exact H1 |]. split; [exact H2 |]. split; [exact H4 |].
    split; [exact H5 |]. split; [exact H6 | exact H8].
Defined.

(** ** The registers hold values of their types *)

(** A number with no bit from [n] on lies in [0, 2^n). *)
Lemma bits_bound (x n : Z) :
  0 <= n -> (forall i, n <= i -> Z.testbit x i = false) -> 0 <= x < 2 ^ n.
Proof.
  intros Hn H.
  assert (E : x = x mod 2 ^ n).
  { apply Z.bits_inj'. intros i Hi. destruct (Z.ltb_spec i n).
    - rewrite Z.mod_pow2_bits_low by lia. reflexivity.
    - rewrite Z.mod_pow2_bits_high by lia. apply H. lia. }
  rewrite E. apply Z.mod_pos_bound. apply Z.pow_pos_nonneg; lia.
Qed.

Lemma bound_bits (x n i : Z) : 0 <= x < 2 ^ n -> n <= i -> Z.testbit x i = false.
Proof.
  intros Hx Hi. destruct (Z.ltb_spec n 0).
  - rewrite Z.pow_neg_r in Hx by lia. lia.
  - rewrite <- (Z.mod_small x (2 ^ n)) by lia. apply Z.mod_pow2_bits_high. lia.
Qed.

Lemma lor_bound (a b n : Z) :
  0 <= n -> 0 <= a < 2 ^ n -> 0 <= b < 2 ^ n -> 0 <= Z.lor a b < 2 ^ n.
Proof.
  intros Hn Ha Hb. apply bits_bound; [exact Hn |]. intros i Hi.
  rewrite Z.lor_spec, (bound_bits a n i), (bound_bits b n i) by assumption. reflexivity.
Qed.

Lemma land_bound_l (c x n : Z) :
  0 <= n -> 0 <= c < 2 ^ n -> 0 <= Z.land c x < 2 ^ n.
Proof.
  intros Hn Hc. apply bits_bound; [exact Hn |]. intros i Hi.
  rewrite Z.land_spec, (bound_bits c n i) by assumption. reflexivity.
Qed.

Lemma status_okb_spec (x : Z) : status_okb x = true <-> status_ok x.
Proof.
  unfold status_okb, status_ok. rewrite !andb_true_iff, Z.leb_le, Z.ltb_lt, Z.eqb_eq.
  tauto.
Qed.

(** Every operation the code applies to the IRQ status keeps it within
    the five source bits. *)
Lemma status_ops (x : Z) :
  status_ok x ->
  status_ok (Z.land x 0x9f) /\ status_ok (Z.lor x 0x40) /\ status_ok (Z.lor x 0x20) /\
  status_ok (Z.land x 0x7f) /\ status_ok (Z.land x (u8 (Z.lnot 0x04))) /\
  status_ok (Z.land x (u8 (Z.lnot 0x08))) /\
  status_ok (u8 (Z.lor x (Z.shiftl 0x4 0))) /\ status_ok (u8 (Z.lor x (Z.shiftl 0x4 1))) /\
  status_ok (Z.lor x 0x80).
Proof.
  intros H. pose proof H as [Hx _]. apply status_okb_spec in H.
  pose proof (forallb_seqZ
                (fun x =>
                   implb (status_okb x)
                     (status_okb (Z.land x 0x9f) && status_okb (Z.lor x 0x40) &&
                      status_okb (Z.lor x 0x20) && status_okb (Z.land x 0x7f) &&
                      status_okb (Z.land x (u8 (Z.lnot 0x04))) &&
                      status_okb (Z.land x (u8 (Z.lnot 0x08))) &&
                      status_okb (u8 (Z.lor x (Z.shiftl 0x4 0))) &&
                      status_okb (u8 (Z.lor x (Z.shiftl 0x4 1))) &&
                      status_okb (Z.lor x 0x80)))
                0 256 ltac:(vm_compute; reflexivity) x ltac:(lia)) as B.
  cbv beta in B. rewrite H in B. cbn [implb] in B.
  rewrite !andb_true_iff, !status_okb_spec in B. tauto.
Qed.

Lemma status_ok_0 : status_ok 0.
Proof. split; [lia | reflexivity]. Qed.

Ltac status_tac :=
  repeat match goal with
         | |- status_ok 0 => exact status_ok_0
         | H : status_ok ?x |- status_ok ?x => exact H
         | |- status_ok (Z.land ?x 0x9f) => apply (status_ops x)
         | |- status_ok (Z.lor ?x 0x40) => apply (status_ops x)
         | |- status_ok (Z.lor ?x 0x20) => apply (status_ops x)
         | |- status_ok (Z.land ?x 0x7f) => apply (status_ops x)
         | |- status_ok (Z.land ?x (u8 (Z.lnot 0x04))) => apply (status_ops x)
         | |- status_ok (Z.land ?x (u8 (Z.lnot 0x08))) => apply (status_ops x)
         | |- status_ok (u8 (Z.lor ?x (Z.shiftl 0x4 0))) => apply (status_ops x)
         | |- status_ok (u8 (Z.lor ?x (Z.shiftl 0x4 1))) => apply (status_ops x)
         | |- status_ok (Z.lor ?x 0x80) => apply (status_ops x)
         end.

(** The sampler selected by a control byte does not depend on the bits the
    phase update touches. *)
Lemma sampler_lxor_40 (c : Z) :
  Z.land (Z.lxor c 0x40) WCTRL_16BIT = Z.land c WCTRL_16BIT.
Proof.
  apply Z.bits_inj'. intros n Hn. rewrite !Z.land_spec, Z.lxor_spec.
  change WCTRL_16BIT with (2 ^ 2). change 0x40 with (2 ^ 6).
  rewrite !Z.pow2_bits_eqb by lia.
  destruct (Z.eqb_spec 2 n) as [<- | ?]; [| rewrite !andb_false_r; reflexivity].
  cbn [Z.eqb Pos.eqb]. rewrite xorb_false_r. reflexivity.
Qed.

Lemma sampler_lor_1 (c : Z) :
  Z.land (Z.lor c 1) WCTRL_16BIT = Z.land c WCTRL_16BIT.
Proof.
  rewrite Z.land_lor_distr_l. change (Z.land 1 WCTRL_16BIT) with 0. apply Z.lor_0_r.
Qed.

Lemma vkeeps_refl (v : GUSChannels) : vkeeps v v.
Proof. unfold vkeeps. auto. Qed.

Lemma vkeeps_trans (a b c : GUSChannels) : vkeeps a b -> vkeeps b c -> vkeeps a c.
Proof. unfold vkeeps. auto. Qed.

Lemma Forall2_vkeeps_refl (vs : list GUSChannels) : Forall2 vkeeps vs vs.
Proof. induction vs; constructor; auto using vkeeps_refl. Qed.

Lemma Forall2_vkeeps_trans (a b c : list GUSChannels) :
  Forall2 vkeeps a b -> Forall2 vkeeps b c -> Forall2 vkeeps a c.
Proof.
  intros H. revert c. induction H; intros c Hc; inversion Hc; subst;
    constructor; eauto using vkeeps_trans.
Qed.

Lemma Gkeeps_refl (G : Globals) : Gkeeps G G.
Proof. unfold Gkeeps. auto. Qed.

Lemma Gkeeps_trans (a b c : Globals) : Gkeeps a b -> Gkeeps b c -> Gkeeps a c.
Proof. unfold Gkeeps. intros [E1 H1] [E2 H2]. split; [congruence | auto]. Qed.

Lemma Skeeps_refl (s : State) : Skeeps s s.
Proof. unfold Skeeps. auto using Forall2_vkeeps_refl. Qed.

Lemma Skeeps_trans (a b c : State) : Skeeps a b -> Skeeps b c -> Skeeps a c.
Proof.
  unfold Skeeps. intros (H1 & H2 & H3) (H4 & H5 & H6). split; [| split].
  - eapply Forall2_vkeeps_trans; eassumption.
  - auto.
  - auto.
Qed.

Lemma Skeeps_card_typed (s s' : State) : Skeeps s s' -> card_typed s -> card_typed s'.
Proof.
  intros (Hv & Hg & Hc) (Hvs & Hgo & Hco). split; [| split; auto].
  apply Forall_lookup. intros i v' H.
  destruct (Forall2_lookup_r _ _ _ _ _ Hv H) as (v0 & Hv0 & Hk).
  apply Hk. eapply Forall_lookup_1; eassumption.
Qed.

Create HintDb gus2.
#[local] Hint Resolve vkeeps_refl Gkeeps_refl Skeeps_refl Forall2_vkeeps_refl : gus2.

(** A voice after updates of fields other than the pan position and the
    sampler is a later state of the voice. *)
Ltac vk_fields :=
  unfold vkeeps, voice_typed, sampler_of, counter_of; fields;
  rewrite ?sampler_lxor_40, ?sampler_lor_1; tauto.

Ltac Gk_fields :=
  unfold Gkeeps, globals_typed; fields;
  (split; [reflexivity |]);
  let H1 := fresh in let H2 := fresh in let H3 := fresh in let H4 := fresh in
  let H5 := fresh in let H6 := fresh in let H7 := fresh in
  intros (H1 & H2 & H3 & H4 & H5 & H6 & H7);
  refine (conj _ (conj _ (conj _ (conj _ (conj _ (conj _ _))))));
  first [assumption | status_tac; fail | lia].

Lemma WaveUpdate_vkeeps (v : GUSChannels) (G : Globals) :
  vkeeps v (fst (WaveUpdate v G)) /\ Gkeeps G (snd (WaveUpdate v G)).
Proof.
  unfold WaveUpdate. split_ifs; fields; (split; [vk_fields | Gk_fields]).
Qed.

Lemma RampUpdate_vkeeps (v : GUSChannels) (G : Globals) :
  vkeeps v (fst (RampUpdate v G)) /\ Gkeeps G (snd (RampUpdate v G)).
Proof.
  unfold RampUpdate. split_ifs; fields; (split; [vk_fields | Gk_fields]).
Qed.

Lemma GUS_CheckIRQ_Gkeeps (G : Globals) : Gkeeps G (GUS_CheckIRQ G).
Proof. unfold GUS_CheckIRQ. destruct (_ && _); Gk_fields. Qed.

Lemma CheckVoiceIrq_Gkeeps (G G' : Globals) : CheckVoiceIrq G = Some G' -> Gkeeps G G'.
Proof.
  unfold CheckVoiceIrq, GUS_CheckIRQ. fields.
  destruct (negb _).
  - intros H. inversion H; subst. Gk_fields.
  - intros H. bind_inv H. inversion H; subst. clear H Hx.
    split_ifs; Gk_fields.
Qed.

Lemma WriteWaveCtrl_vkeeps (v v' : GUSChannels) (val : Z) (G G' : Globals) :
  WriteWaveCtrl v val G = Some (v', G') -> vkeeps v v' /\ Gkeeps G G'.
Proof.
  unfold WriteWaveCtrl. intros H. bind_inv H. inversion H; subst. clear H.
  split.
  - unfold vkeeps, voice_typed, sampler_of, counter_of. fields.
    destruct (nz (Z.land (Z.land val 127) WCTRL_16BIT)) eqn:E; fields; rewrite E; tauto.
  - revert Hx. split_ifs; intros Hx;
      first [ apply CheckVoiceIrq_Gkeeps in Hx; eapply Gkeeps_trans; [| exact Hx]
            | inversion Hx; subst ]; Gk_fields.
Qed.

Lemma WriteRampCtrl_vkeeps (v v' : GUSChannels) (val : Z) (G G' : Globals) :
  WriteRampCtrl v val G = Some (v', G') -> vkeeps v v' /\ Gkeeps G G'.
Proof.
  unfold WriteRampCtrl. intros H. bind_inv H. inversion H; subst. clear H.
  split.
  - vk_fields.
  - revert Hx. split_ifs; intros Hx;
      first [ apply CheckVoiceIrq_Gkeeps in Hx; eapply Gkeeps_trans; [| exact Hx]
            | inversion Hx; subst ]; Gk_fields.
Qed.

Lemma WriteWaveFreq_vkeeps (v : GUSChannels) (val : Z) : vkeeps v (WriteWaveFreq v val).
Proof. unfold WriteWaveFreq. vk_fields. Qed.

Lemma WriteRampRate_vkeeps (v : GUSChannels) (val : Z) : vkeeps v (WriteRampRate v val).
Proof. unfold WriteRampRate. vk_fields. Qed.

Lemma UpdateWaveRamp_vkeeps (v : GUSChannels) : vkeeps v (UpdateWaveRamp v).
Proof.
  unfold UpdateWaveRamp.
  eapply vkeeps_trans; [apply WriteWaveFreq_vkeeps | apply WriteRampRate_vkeeps].
Qed.

(** [WritePanPot] stores a position of the pan table whatever it is given. *)
Lemma WritePanPot_range (v : GUSChannels) (pos : Z) :
  0 <= pos -> 0 <= PanPot (WritePanPot v pos) <= 15.
Proof.
  intros Hp. unfold WritePanPot. fields.
  change (u8 (GUS_PAN_POSITIONS - 1)) with 15. destruct (Z.ltb_spec 15 pos); lia.
Qed.

Lemma WritePanPot_vkeeps (v : GUSChannels) (pos : Z) :
  0 <= pos -> vkeeps v (WritePanPot v pos).
Proof.
  intros Hp. pose proof (WritePanPot_range v pos Hp) as Hr. revert Hr.
  unfold WritePanPot, vkeeps, voice_typed, sampler_of, counter_of. fields. tauto.
Qed.

Lemma ClearStats_vkeeps (v : GUSChannels) : vkeeps v (ClearStats v).
Proof. unfold ClearStats. vk_fields. Qed.

Lemma incr_generated_ms_vkeeps (v : GUSChannels) : vkeeps v (incr_generated_ms v).
Proof.
  unfold incr_generated_ms, vkeeps, voice_typed, sampler_of, counter_of.
  destruct (generated_ms v) eqn:E; fields; rewrite E; tauto.
Qed.

Lemma reset_channels_vkeeps (vs vs' : list GUSChannels) (G G' : Globals) :
  reset_channels vs G = Some (vs', G') -> Forall2 vkeeps vs vs' /\ Gkeeps G G'.
Proof.
  revert vs' G G'. induction vs as [| v vs IH]; intros vs' G G' H.
  - inversion H; subst. auto with gus2.
  - cbn [reset_channels] in H.
    bind_inv H. apply WriteWaveCtrl_vkeeps in Hx as [K1 S1].
    bind_inv H. apply WriteRampCtrl_vkeeps in Hx as [K2 S2].
    bind_inv H. apply IH in Hx as [K3 S3].
    inversion H; subst. split.
    + constructor; [| exact K3].
      eapply vkeeps_trans; [| eapply vkeeps_trans; [exact K1 |]].
      * vk_fields.
      * eapply vkeeps_trans; [exact K2 |].
        eapply vkeeps_trans; [| apply ClearStats_vkeeps].
        apply WritePanPot_vkeeps. lia.
    + eauto using Gkeeps_trans.
Qed.

(** A state that differs in its globals only. *)
Lemma Skeeps_globals (s : State) (G : Globals) :
  Gkeeps (globals s) G -> Skeeps s (set_globals G s).
Proof.
  intros [E H]. unfold Skeeps, selected_ok. fields.
  split; [auto with gus2 | split; [exact H |]]. rewrite E. auto.
Qed.

Lemma mod_bound (x n : Z) : 0 <= n -> 0 <= x mod 2 ^ n < 2 ^ n.
Proof. intros Hn. apply Z.mod_pos_bound. apply Z.pow_pos_nonneg; lia. Qed.

Lemma u16_bound (x : Z) : 0 <= u16 x < 2 ^ 16.
Proof. apply mod_bound. lia. Qed.

Lemma u8_bound (x : Z) : 0 <= u8 x < 2 ^ 8.
Proof. apply mod_bound. lia. Qed.

Lemma GUSReset_Skeeps (s s' : State) : GUSReset s = Some s' -> Skeeps s s'.
Proof.
  unfold GUSReset. intros H. bind_inv H. inversion H; subst. clear H.
  eapply Skeeps_trans; [| apply Skeeps_globals; Gk_fields].
  destruct (_ =? _).
  - bind_inv Hx. apply reset_channels_vkeeps in Hx0 as [K [E S]].
    inversion Hx; subst. clear Hx.
    unfold Skeeps, selected_ok. fields. split; [exact K | split].
    + revert S. unfold globals_typed. fields.
      intros S (H1 & H2 & H3 & H4 & H5 & H6 & H7).
      destruct S as (S1 & S2 & S3 & S4 & S5 & S6 & S7).
      { refine (conj _ (conj _ (conj _ (conj _ (conj _ (conj _ _))))));
          first [assumption | exact status_ok_0 | lia]. }
      refine (conj _ (conj _ (conj _ (conj _ (conj _ (conj _ _)))))); assumption.
    + revert E. fields. intros ->. auto.
  - inversion Hx; subst. auto with gus2.
Qed.

Lemma ExecuteReadRegister_Skeeps (s s' : State) (r : Z) :
  ExecuteReadRegister s = Some (r, s') -> Skeeps s s'.
Proof.
  unfold ExecuteReadRegister. revert r s'.
  apply (switch_cases (fun o => forall r s', o = Some (r, s') -> Skeeps s s')).
  - each_case; cbn [snd]; intros r s' H;
      try (bind_inv H); inversion H; subst; auto with gus2.
    + apply Skeeps_globals. Gk_fields.
    + apply Skeeps_globals. apply CheckVoiceIrq_Gkeeps in Hx.
      eapply Gkeeps_trans; [| exact Hx]. Gk_fields.
  - intros r s' H. inversion H; subst. auto with gus2.
Qed.

Lemma update_active_prefix2 (n : nat) (vs : list GUSChannels) :
  Forall2 vkeeps vs ((UpdateWaveRamp <$> take n vs) ++ drop n vs).
Proof.
  revert n. induction vs as [| v vs IH]; intros [| n]; cbn; auto with gus2.
  constructor; [apply UpdateWaveRamp_vkeeps | apply IH].
Qed.

Lemma update_active_vkeeps (n : Z) (vs vs' : list GUSChannels) :
  update_active n vs = Some vs' -> Forall2 vkeeps vs vs'.
Proof.
  unfold update_active. destruct (_ <? _); [discriminate |].
  intros H. inversion H; subst. apply update_active_prefix2.
Qed.

Lemma set_active_channels_Skeeps (s s' : State) :
  set_active_channels s = Some s' -> Skeeps s s'.
Proof.
  unfold set_active_channels. intros H. bind_inv H. bind_inv H.
  apply update_active_vkeeps in Hx0. inversion H; subst. clear H.
  assert (G : Gkeeps (globals s) x).
  { revert Hx. fields. destruct (negb _); intros Hx.
    - bind_inv Hx. inversion Hx; subst. clear Hx.
      unfold Gkeeps, globals_typed. fields. split; [reflexivity |].
      intros (H1 & H2 & H3 & H4 & H5 & H6 & H7).
      refine (conj _ (conj _ (conj _ (conj _ (conj _ (conj _ _))))));
        first [assumption | apply u8_bound].
    - inversion Hx; subst. clear Hx.
      unfold Gkeeps, globals_typed. fields. split; [reflexivity |].
      intros (H1 & H2 & H3 & H4 & H5 & H6 & H7).
      refine (conj _ (conj _ (conj _ (conj _ (conj _ (conj _ _))))));
        first [assumption | apply u8_bound]. }
  destruct G as [E G].
  unfold Skeeps, selected_ok. fields. split; [exact Hx0 | split].
  - revert G. unfold globals_typed. fields. auto.
  - rewrite E. auto.
Qed.

Lemma with_curchan_Skeeps (s s' : State)
    (f : GUSChannels -> Globals -> option (GUSChannels * Globals)) :
  (forall v G v' G', f v G = Some (v', G') -> vkeeps v v' /\ Gkeeps G G') ->
  with_curchan s f = Some s' -> Skeeps s s'.
Proof.
  intros Hf. unfold with_curchan. destruct (curchan s) as [i |] eqn:Ec; intros H.
  - bind_inv H. bind_inv H. inversion H; subst. clear H.
    apply Hf in Hx0 as [K [E S]].
    unfold Skeeps, selected_ok. fields. split; [| split].
    + apply Forall2_same_length_lookup. split; [rewrite length_insert; reflexivity |].
      intros j a b Ha Hb. destruct (decide (i = j)) as [-> | Hne].
      * rewrite list_lookup_insert_eq in Hb by (eapply lookup_lt_Some; eassumption).
        injection Hb as <-. rewrite Hx in Ha. injection Ha as <-. exact K.
      * rewrite list_lookup_insert_ne in Hb by exact Hne.
        assert (a = b) by congruence. subst. apply vkeeps_refl.
    + exact S.
    + rewrite E. auto.
  - inversion H; subst. auto with gus2.
Qed.

Lemma curchan_set_Skeeps (s s' : State) (f : GUSChannels -> GUSChannels) :
  (forall v, vkeeps v (f v)) -> curchan_set s f = Some s' -> Skeeps s s'.
Proof.
  intros Hf. unfold curchan_set. apply with_curchan_Skeeps.
  intros v G v' G' H. inversion H; subst. auto with gus2.
Qed.

Lemma dram_low_bound (old data : Z) :
  0 <= data < 2 ^ 16 -> 0 <= Z.lor (Z.land 0xff0000 old) (u32 data) < 2 ^ 24.
Proof.
  intros Hd. apply lor_bound; [lia | apply land_bound_l; lia |].
  unfold u32. rewrite Z.mod_small by lia. lia.
Qed.

Lemma dram_high_bound (old data : Z) :
  0 <= data < 2 ^ 16 ->
  0 <= Z.lor (Z.land 0xffff old) (u32 (Z.shiftl (u32 (Z.shiftr data 8)) 16)) < 2 ^ 24.
Proof.
  intros Hd.
  assert (Hs : 0 <= Z.shiftr data 8 < 2 ^ 8) by (apply shiftr_bound; lia).
  apply lor_bound; [lia | apply land_bound_l; lia |].
  unfold u32. rewrite (Z.mod_small (Z.shiftr data 8)) by lia.
  rewrite Z.shiftl_mul_pow2 by lia. rewrite Z.mod_small by lia. lia.
Qed.

Lemma ExecuteGlobRegister_Skeeps (s s' : State) :
  ExecuteGlobRegister s = Some s' -> Skeeps s s'.
Proof.
  unfold ExecuteGlobRegister. revert s'.
  apply (switch_cases (fun o => forall s', o = Some s' -> Skeeps s s')).
  - each_case; cbn [snd]; intros s' H;
      first
        [ apply curchan_set_Skeeps in H;
          [exact H
          | intros v;
            first [ vk_fields | apply WriteWaveFreq_vkeeps | apply WriteRampRate_vkeeps
                  | apply WritePanPot_vkeeps; apply u8_bound ]]
        | revert H; apply with_curchan_Skeeps; intros v G v' G';
          first [apply WriteWaveCtrl_vkeeps | apply WriteRampCtrl_vkeeps]
        | apply set_active_channels_Skeeps; exact H
        | apply GUSReset_Skeeps; exact H
        | inversion H; subst;
          first
            [ solve [auto with gus2]
            | apply Skeeps_globals; solve [split_ifs; Gk_fields]
            | apply Skeeps_globals; unfold Gkeeps, globals_typed; fields;
              (split; [reflexivity |]); intros (H1 & H2 & H3 & H4 & H5 & H6 & H7);
              refine (conj _ (conj _ (conj _ (conj _ (conj _ (conj _ _))))));
              first [ assumption | apply dram_low_bound; exact H2
                    | apply dram_high_bound; exact H2 | apply u16_bound | apply u8_bound ] ] ].
  - intros s' H. inversion H; subst. auto with gus2.
Qed.

Lemma read_gus_Skeeps (s s' : State) (port iolen r : Z) :
  read_gus s port iolen = Some (r, s') -> Skeeps s s'.
Proof.
  unfold read_gus. revert r s'.
  apply (switch_cases (fun o => forall r s', o = Some (r, s') -> Skeeps s s')).
  - each_case; cbn [snd]; intros r s' H;
      try (inversion H; subst; solve [auto with gus2]).
    + bind_inv H. apply ExecuteReadRegister_Skeeps in Hx.
      destruct (iolen =? 2); inversion H; subst; exact Hx.
    + bind_inv H. apply ExecuteReadRegister_Skeeps in Hx.
      inversion H; subst; exact Hx.
    + destruct (_ <? _); [bind_inv H |]; inversion H; subst; auto with gus2.
  - intros r s' H. inversion H; subst. auto with gus2.
Qed.

Lemma set_timer_at_Gkeeps (val : Z) (t : GusTimer) (G : Globals) :
  Gkeeps G (upd (set_timer_at val t) G).
Proof. unfold set_timer_at. destruct (val =? 0); Gk_fields. Qed.

Lemma timer_command_Gkeeps (val : Z) (start : bool) (G G' : Globals) :
  timer_command val start G = Some G' -> Gkeeps G G'.
Proof.
  unfold timer_command. intros H. bind_inv H.
  destruct start; [destruct (negb _) |]; inversion H; subst;
    auto using set_timer_at_Gkeeps with gus2.
  eapply Gkeeps_trans; [| apply set_timer_at_Gkeeps]. Gk_fields.
Qed.

Lemma select_voice_bound (val : Z) : 0 <= u16 (Z.land val 31) < 32.
Proof.
  pose proof (land_ones_bound val 5 ltac:(lia)) as H. change (Z.ones 5) with 31 in H.
  unfold u16. rewrite Z.mod_small by lia. lia.
Qed.

Lemma write_gus_Skeeps (s s' : State) (port val iolen : Z) :
  write_gus s port val iolen = Some s' -> Skeeps s s'.
Proof.
  unfold write_gus. revert s'.
  apply (switch_cases (fun o => forall s', o = Some s' -> Skeeps s s')).
  - each_case; cbn [snd]; intros s' H.
    + inversion H; subst. apply Skeeps_globals. Gk_fields.
    + inversion H; subst. apply Skeeps_globals.
      unfold Gkeeps, globals_typed. fields. split; [reflexivity |].
      intros (H1 & H2 & H3 & H4 & H5 & H6 & H7).
      refine (conj _ (conj _ (conj _ (conj _ (conj _ (conj _ _))))));
        first [assumption | apply u8_bound].
    + destruct (nz _).
      * inversion H; subst. apply Skeeps_globals. Gk_fields.
      * bind_inv H. bind_inv H. inversion H; subst. apply Skeeps_globals.
        apply timer_command_Gkeeps in Hx, Hx0.
        eapply Gkeeps_trans; [| exact Hx0]. eapply Gkeeps_trans; [| exact Hx].
        Gk_fields.
    + destruct (negb _); [inversion H; subst; auto with gus2 |].
      destruct (nz _); bind_inv H; inversion H; subst; apply Skeeps_globals;
        destruct (nz _); Gk_fields.
    + bind_inv H. inversion H; subst. clear H.
      unfold Skeeps, selected_ok, globals_typed. fields.
      pose proof (select_voice_bound val) as Hb.
      split; [auto with gus2 | split].
      * intros (H1 & H2 & H3 & H4 & H5 & H6 & H7).
        refine (conj _ (conj _ (conj _ (conj _ (conj _ (conj _ _))))));
          first [assumption | exact Hb].
      * intros _ i Hi. inversion Hi; subst. apply Z2Nat.id. lia.
    + inversion H; subst. apply Skeeps_globals.
      unfold Gkeeps, globals_typed. fields. split; [reflexivity |].
      intros (H1 & H2 & H3 & H4 & H5 & H6 & H7).
      refine (conj _ (conj _ (conj _ (conj _ (conj _ (conj _ _))))));
        first [assumption | apply u8_bound | lia].
    + assert (Hg : Gkeeps (globals s) (upd (set_gRegData (u16 val)) (globals s))).
      { unfold Gkeeps, globals_typed. fields. split; [reflexivity |].
        intros (H1 & H2 & H3 & H4 & H5 & H6 & H7).
        refine (conj _ (conj _ (conj _ (conj _ (conj _ (conj _ _))))));
          first [assumption | apply u16_bound]. }
      destruct (iolen =? 2).
      * apply ExecuteGlobRegister_Skeeps in H.
        eapply Skeeps_trans; [| exact H]. apply Skeeps_globals. exact Hg.
      * inversion H; subst. apply Skeeps_globals. exact Hg.
    + apply ExecuteGlobRegister_Skeeps in H.
      eapply Skeeps_trans; [| exact H]. apply Skeeps_globals.
      unfold Gkeeps, globals_typed. fields. split; [reflexivity |].
      intros (H1 & H2 & H3 & H4 & H5 & H6 & H7).
      refine (conj _ (conj _ (conj _ (conj _ (conj _ (conj _ _))))));
        first [assumption | apply u16_bound].
    + destruct (_ <? _); inversion H; subst; auto with gus2.
      apply Skeeps_globals. Gk_fields.
  - intros s' H. inversion H; subst. auto with gus2.
Qed.

Lemma GUS_TimerEvent_Gkeeps (G G' : Globals) (val : Z) :
  GUS_TimerEvent G val = Some G' -> Gkeeps G G'.
Proof.
  unfold GUS_TimerEvent, timer_at. intros H.
  assert (Hv : val = 0 \/ val = 1).
  { destruct (Z.eqb_spec val 0); [auto |]. destruct (Z.eqb_spec val 1); [auto |].
    discriminate H. }
  bind_inv H. inversion H; subst. clear H Hx.
  assert (S1 : Gkeeps G (if negb (masked x)
                         then upd (set_timer_at val (set_reached true x)) G else G))
    by (destruct (negb _); auto using set_timer_at_Gkeeps with gus2).
  eapply Gkeeps_trans; [exact S1 |].
  destruct Hv as [-> | ->]; destruct (raiseirq x), (running x);
    repeat first [ apply Gkeeps_refl
                 | eapply Gkeeps_trans; [| apply GUS_CheckIRQ_Gkeeps]
                 | Gk_fields ].
Qed.

Lemma GUS_DMA_Callback_Gkeeps (G G' : Globals) (chan : DmaChannel) (unmasked : bool) :
  GUS_DMA_Callback G chan unmasked = Some G' -> Gkeeps G G'.
Proof.
  unfold GUS_DMA_Callback. destruct (negb unmasked); intros H;
    [inversion H; subst; auto with gus2 |].
  destruct (_ <? _); [discriminate |]. inversion H; subst. clear H.
  split_ifs;
    repeat first [ apply Gkeeps_refl
                 | eapply Gkeeps_trans; [| apply GUS_CheckIRQ_Gkeeps]
                 | Gk_fields ].
Qed.

Section Typed.

Variable cos sin : spec_float -> spec_float.

Lemma generate_frame_vkeeps (v v' : GUSChannels) (G G' : Globals) (fr fr' : Frame.t) :
  generate_frame cos sin v G fr = Some (v', G', fr') -> vkeeps v v' /\ Gkeeps G G'.
Proof.
  unfold generate_frame. intros H. bind_inv H. bind_inv H. bind_inv H.
  match type of H with
  | context [WaveUpdate ?a ?b] =>
      pose proof (WaveUpdate_vkeeps a b) as [K1 S1];
      destruct (WaveUpdate a b) as [v1 G1]
  end.
  pose proof (RampUpdate_vkeeps v1 G1) as [K2 S2].
  destruct (RampUpdate v1 G1) as [v2 G2].
  inversion H; subst. fields. split; [eauto using vkeeps_trans |].
  eapply Gkeeps_trans; [| eapply Gkeeps_trans; [exact S1 | exact S2]].
  Gk_fields.
Qed.

Lemma generate_loop_vkeeps (len : nat) (v v' : GUSChannels) (G G' : Globals)
    (stream stream' : list Frame.t) :
  generate_loop cos sin len v G stream = Some (v', G', stream') ->
  vkeeps v v' /\ Gkeeps G G'.
Proof.
  revert v G stream v' G' stream'.
  induction len as [| n IH]; intros v G stream v' G' stream' H; cbn [generate_loop] in H.
  - inversion H; subst. auto with gus2.
  - destruct stream as [| fr rest]; [discriminate |].
    bind_inv H. apply generate_frame_vkeeps in Hx as [K1 S1].
    bind_inv H. apply IH in Hx as [K2 S2].
    inversion H; subst. eauto using vkeeps_trans, Gkeeps_trans.
Qed.

Lemma generateSamples_vkeeps (v v' : GUSChannels) (G G' : Globals)
    (stream stream' : list Frame.t) (len : Z) :
  generateSamples cos sin v G stream len = Some (v', G', stream') ->
  vkeeps v v' /\ Gkeeps G G'.
Proof.
  unfold generateSamples. destruct (nz _); intros H.
  - inversion H; subst. auto with gus2.
  - bind_inv H. apply generate_loop_vkeeps in Hx as [K S].
    inversion H; subst. split; [| exact S].
    eapply vkeeps_trans; [exact K | apply incr_generated_ms_vkeeps].
Qed.

Lemma generate_voices_vkeeps (vs vs' : list GUSChannels) (G G' : Globals)
    (acc acc' : list Frame.t) (len : Z) :
  generate_voices cos sin vs G acc len = Some (vs', G', acc') ->
  Forall2 vkeeps vs vs' /\ Gkeeps G G'.
Proof.
  revert G acc vs' G' acc'.
  induction vs as [| v vs IH]; intros G acc vs' G' acc' H; cbn [generate_voices] in H.
  - inversion H; subst. auto with gus2.
  - bind_inv H. apply generateSamples_vkeeps in Hx as [K1 S1].
    bind_inv H. apply IH in Hx as [K2 S2].
    inversion H; subst. split; [constructor; assumption | eauto using Gkeeps_trans].
Qed.

Lemma accumulate_Skeeps (s s' : State) (len : Z) (acc : list Frame.t) :
  accumulate cos sin s len = Some (s', acc) -> Skeeps s s'.
Proof.
  unfold accumulate. destruct (_ <? _); [discriminate |]. intros H.
  apply bind_Some in H as ([[vs G] acc'] & Hx & H).
  apply generate_voices_vkeeps in Hx as [K [E S]].
  inversion H; subst. clear H.
  assert (K' : Forall2 vkeeps (guschan s)
                 (vs ++ drop (Z.to_nat (ActiveChannels (myGUS (globals s)))) (guschan s))).
  { rewrite <- (take_drop (Z.to_nat (ActiveChannels (myGUS (globals s)))) (guschan s)) at 1.
    apply Forall2_app; [exact K | apply Forall2_vkeeps_refl]. }
  unfold Skeeps, selected_ok. fields. split; [exact K' | split; [exact S |]].
  rewrite E. auto.
Qed.

Lemma SoftLimit_Gkeeps (G G' : Globals) (inp : list Frame.t) (len : Z)
    (r : SoftLimit_result) :
  SoftLimit G inp len = Some (r, G') -> Gkeeps G G'.
Proof.
  unfold SoftLimit. destruct (_ && _); intros H.
  - inversion H; subst. auto with gus2.
  - bind_inv H. inversion H; subst. clear H. split_ifs; Gk_fields.
Qed.

Lemma scale_accumulator_Gkeeps (G G' : Globals) (acc : list Frame.t) (len : Z)
    (scaled : list (Z * Z)) :
  scale_accumulator G acc len = Some (scaled, G') -> Gkeeps G G'.
Proof.
  unfold scale_accumulator. intros H. bind_inv H. apply SoftLimit_Gkeeps in Hx.
  destruct s; [bind_inv H |]; inversion H; subst; exact Hx.
Qed.

Lemma GUS_CallBack_Skeeps (s s' : State) (len : Z) :
  GUS_CallBack cos sin s len = Some s' -> Skeeps s s'.
Proof.
  unfold GUS_CallBack. destruct (_ <? _); [discriminate |]. intros H.
  bind_inv H. apply accumulate_Skeeps in Hx.
  bind_inv H. apply scale_accumulator_Gkeeps in Hx0.
  bind_inv H. apply CheckVoiceIrq_Gkeeps in Hx1. inversion H; subst. clear H.
  eapply Skeeps_trans; [exact Hx |]. apply Skeeps_globals.
  eapply Gkeeps_trans; [exact Hx0 |]. eapply Gkeeps_trans; [| exact Hx1].
  Gk_fields.
Qed.

Lemma step_Skeeps (s s' : State) (i : Input) :
  step cos sin s i = Some s' -> Skeeps s s'.
Proof.
  destruct i; cbn [step]; intros H.
  - eapply write_gus_Skeeps; eassumption.
  - destruct (read_gus s port iolen) as [[r s1] |] eqn:E; [| discriminate].
    inversion H; subst. eapply read_gus_Skeeps; eassumption.
  - eapply GUS_CallBack_Skeeps; eassumption.
  - bind_inv H. inversion H; subst. apply Skeeps_globals.
    eapply GUS_TimerEvent_Gkeeps; eassumption.
  - bind_inv H. inversion H; subst. apply Skeeps_globals.
    eapply GUS_DMA_Callback_Gkeeps; eassumption.
Qed.

Lemma fresh_voices_typed : Forall voice_typed (GUSChannels_new <$> seqZ 0 GUS_MAX_CHANNELS).
Proof.
  apply Forall_fmap, Forall_forall. intros n _.
  unfold voice_typed, GUSChannels_new, sampler_of, counter_of. cbn. repeat split; lia.
Qed.

Lemma GUS_new_card_typed (gusbase gusdma gusirq : Z) (s : State) :
  GUS_new gusbase gusdma gusirq = Some s -> card_typed s.
Proof.
  unfold GUS_new, GUS_members. intros H. bind_inv H. inversion H; subst. clear H.
  apply GUSReset_Skeeps in Hx.
  eapply Skeeps_card_typed; [apply Skeeps_globals; Gk_fields |].
  eapply Skeeps_card_typed; [exact Hx |].
  split; [| split].
  - fields. apply fresh_voices_typed.
  - unfold globals_typed, GFGus_new. fields.
    refine (conj _ (conj _ (conj _ (conj _ (conj _ (conj _ _))))));
      first [exact status_ok_0 | lia].
  - unfold selected_ok. fields. discriminate.
Qed.

Lemma reachable_card_typed (s : State) : reachable cos sin s -> card_typed s.
Proof.
  induction 1 as [? ? ? s H | s i s' _ IH H].
  - eapply GUS_new_card_typed; eassumption.
  - eapply Skeeps_card_typed; [eapply step_Skeeps; eassumption | exact IH].
Qed.

End Typed.

(** ** Guest accesses are always defined *)

Lemma WriteWaveCtrl_returns (v : GUSChannels) (val : Z) (G : Globals) :
  g_ok (myGUS G) -> exists r, WriteWaveCtrl v val G = Some r.
Proof.
  intros Hg. unfold WriteWaveCtrl.
  match goal with
  | |- context [if negb ?c then CheckVoiceIrq ?G1 else _] =>
      destruct (CheckVoiceIrq_returns G1) as [G' HG'];
      [revert Hg; destruct (Z.land val 160 =? 160); unfold g_ok, active_ok; fields; tauto |];
      destruct (negb c); [rewrite HG' |]
  end; cbn [mbind option_bind]; eauto.
Qed.

Lemma WriteRampCtrl_returns (v : GUSChannels) (val : Z) (G : Globals) :
  g_ok (myGUS G) -> exists r, WriteRampCtrl v val G = Some r.
Proof.
  intros Hg. unfold WriteRampCtrl.
  match goal with
  | |- context [if negb ?c then CheckVoiceIrq ?G1 else _] =>
      destruct (CheckVoiceIrq_returns G1) as [G' HG'];
      [revert Hg; destruct (Z.land val 160 =? 160); unfold g_ok, active_ok; fields; tauto |];
      destruct (negb c); [rewrite HG' |]
  end; cbn [mbind option_bind]; eauto.
Qed.

Lemma reset_channels_returns (vs : list GUSChannels) (G : Globals) :
  g_ok (myGUS G) -> exists r, reset_channels vs G = Some r.
Proof.
  revert G. induction vs as [| v vs IH]; intros G Hg; cbn [reset_channels]; [eauto |].
  destruct (WriteWaveCtrl_returns (set_CurrentVolIndex 0 v) 0x1 G Hg) as [[v1 G1] E1].
  rewrite E1. cbn [mbind option_bind].
  apply WriteWaveCtrl_keeps in E1 as [_ S1].
  destruct (WriteRampCtrl_returns v1 0x1 G1 (S1 Hg)) as [[v2 G2] E2].
  rewrite E2. cbn [mbind option_bind].
  apply WriteRampCtrl_keeps in E2 as [_ S2].
  destruct (IH G2 (S2 (S1 Hg))) as [[vs' G3] E3].
  rewrite E3. cbn [mbind option_bind]. eauto.
Qed.

Lemma GUSReset_returns (s : State) :
  g_ok (myGUS (globals s)) -> exists s', GUSReset s = Some s'.
Proof.
  intros Hg. unfold GUSReset. destruct (_ =? _); cbn [mbind option_bind]; [| eauto].
  match goal with
  | |- context [reset_channels ?vs ?G] =>
      destruct (reset_channels_returns vs G) as [[vs' G'] E];
      [revert Hg; unfold g_ok, active_ok; fields; tauto |]; rewrite E
  end.
  cbn [mbind option_bind]. eauto.
Qed.

Lemma with_curchan_returns (s : State)
    (f : GUSChannels -> Globals -> option (GUSChannels * Globals)) :
  curchan_ok s -> (forall v, exists r, f v (globals s) = Some r) ->
  exists s', with_curchan s f = Some s'.
Proof.
  intros Hc Hf. unfold with_curchan. destruct (curchan s) as [i |] eqn:E; [| eauto].
  destruct (lookup_lt_is_Some_2 (guschan s) i (Hc i E)) as [v Hv].
  rewrite Hv. cbn [mbind option_bind]. destruct (Hf v) as [[v' G'] ->].
  cbn [mbind option_bind]. eauto.
Qed.

Lemma ExecuteGlobRegister_returns (s : State) :
  card_ok s -> exists s', ExecuteGlobRegister s = Some s'.
Proof.
  intros ((Hlen & _) & Hg & Hc). unfold ExecuteGlobRegister.
  apply (switch_cases (fun o => exists s', o = Some s')); [| eauto].
  each_case; cbn [snd]; unfold curchan_set;
    first [ solve [eauto]
          | apply with_curchan_returns;
            [exact Hc
            | intros v; first [ apply WriteWaveCtrl_returns; exact Hg
                              | apply WriteRampCtrl_returns; exact Hg
                              | solve [cbv beta; eauto] ] ]
          | solve [destruct (set_active_channels_returns s Hlen) as (s' & E & _); eauto]
          | apply GUSReset_returns; exact Hg ].
Qed.

Lemma read_curchan_returns (s : State) (f : GUSChannels -> Z) (d : Z) :
  curchan_ok s -> exists r, read_curchan s f d = Some r.
Proof.
  intros Hc. unfold read_curchan. destruct (curchan s) as [i |] eqn:E; [| eauto].
  destruct (lookup_lt_is_Some_2 (guschan s) i (Hc i E)) as [v Hv].
  rewrite Hv. cbn [mbind option_bind]. eauto.
Qed.

Lemma ExecuteReadRegister_returns (s : State) :
  card_ok s -> exists r, ExecuteReadRegister s = Some r.
Proof.
  intros (_ & Hg & Hc). unfold ExecuteReadRegister.
  apply (switch_cases (fun o => exists r, o = Some r)); [| eauto].
  each_case; cbn [snd];
    first [ solve [eauto]
          | match goal with
            | |- context [read_curchan s ?f ?d] =>
                destruct (read_curchan_returns s f d Hc) as [r ->];
                cbn [mbind option_bind]; eauto
            end
          | match goal with
            | |- context [CheckVoiceIrq ?G1] =>
                destruct (CheckVoiceIrq_returns G1) as [G' ->];
                [revert Hg; unfold g_ok, active_ok; fields; tauto |];
                cbn [mbind option_bind]; eauto
            end ].
Qed.

Lemma card_ok_globals (s : State) (G : Globals) :
  card_ok s -> G_step (globals s) G -> card_ok (set_globals G s).
Proof. intros H S. eapply S_step_card_ok; [apply S_step_globals; exact S | exact H]. Qed.

Lemma timer_command_returns (k : Z) (start : bool) (G : Globals) :
  k = 0 \/ k = 1 -> exists G', timer_command k start G = Some G'.
Proof.
  intros [-> | ->]; unfold timer_command, timer_at; cbn [Z.eqb Pos.eqb mbind option_bind];
    split_ifs; eauto.
Qed.

Lemma write_gus_returns (s : State) (port val iolen : Z) :
  card_ok s -> exists s', write_gus s port val iolen = Some s'.
Proof.
  intros Hok. pose proof Hok as ((Hlen & _) & Hg & Hc). unfold write_gus.
  apply (switch_cases (fun o => exists s', o = Some s')); [| eauto].
  each_case; cbn [snd]; try solve [eauto].
  - destruct (nz _); [eauto |].
    match goal with
    | |- context [timer_command 0 ?b ?G] =>
        destruct (timer_command_returns 0 b G (or_introl eq_refl)) as [G1 ->]
    end.
    cbn [mbind option_bind].
    match goal with
    | |- context [timer_command 1 ?b ?G] =>
        destruct (timer_command_returns 1 b G (or_intror eq_refl)) as [G2 ->]
    end.
    cbn [mbind option_bind]. eauto.
  - destruct (negb _); [eauto |].
    destruct (table_entry irqtable val eq_refl) as [ei Hei].
    destruct (table_entry dmatable val eq_refl) as [ed Hed].
    destruct (nz _); rewrite ?Hei, ?Hed; cbn [mbind option_bind]; eauto.
  - fields. pose proof (select_voice_bound val) as Hb.
    destruct (lookup_lt_is_Some_2 (guschan s) (Z.to_nat (u16 (Z.land val 31))))
      as [v Hv]; [lia |].
    rewrite Hv. cbn [mbind option_bind]. eauto.
  - destruct (iolen =? 2); [| eauto].
    apply ExecuteGlobRegister_returns. apply card_ok_globals; [exact Hok |].
    unfold G_step, g_ok, active_ok. fields. tauto.
  - apply ExecuteGlobRegister_returns. apply card_ok_globals; [exact Hok |].
    unfold G_step, g_ok, active_ok. fields. tauto.
  - destruct (_ <? _); eauto.
Qed.

Lemma read_gus_returns (s : State) (port iolen : Z) :
  card_ok s -> 0 <= gDramAddr (myGUS (globals s)) ->
  exists r, read_gus s port iolen = Some r.
Proof.
  intros Hok Hd. unfold read_gus.
  apply (switch_cases (fun o => exists r, o = Some r)); [| eauto].
  each_case; cbn [snd]; try solve [eauto].
  - destruct (ExecuteReadRegister_returns s Hok) as [[r s'] ->].
    cbn [mbind option_bind]. destruct (iolen =? 2); eauto.
  - destruct (ExecuteReadRegister_returns s Hok) as [[r s'] ->].
    cbn [mbind option_bind]. eauto.
  - destruct (Z.ltb_spec (gDramAddr (myGUS (globals s))) GUS_RAM_SIZE); [| eauto].
    unfold ram_at.
    destruct (Z.leb_spec 0 (gDramAddr (myGUS (globals s)))); [| exfalso; lia].
    destruct (Z.ltb_spec (gDramAddr (myGUS (globals s))) GUS_RAM_SIZE); [| exfalso; lia].
    cbn [andb mbind option_bind]. eauto.
Qed.

(** What [ExecuteReadRegister] returns fits the 16-bit data port. *)
Lemma ExecuteReadRegister_range (s s' : State) (r : Z) :
  globals_typed (globals s) -> ExecuteReadRegister s = Some (r, s') -> 0 <= r < 2 ^ 16.
Proof.
  intros (_ & H2 & _ & H4 & _). unfold ExecuteReadRegister. revert r s'.
  apply (switch_cases (fun o => forall r s', o = Some (r, s') -> 0 <= r < 2 ^ 16)).
  - each_case; cbn [snd]; intros r s' H;
      try (bind_inv H); inversion H; subst;
      first [ apply u16_bound | assumption
            | match goal with
              | Hr : read_curchan _ _ _ = Some _ |- _ =>
                  apply read_curchan_inv in Hr as [[_ ->] | (i & v & _ & _ & ->)];
                  first [apply u16_bound | lia]
              end ].
  - intros r s' H. inversion H; subst. assumption.
Qed.

Lemma timer_status_range (a b c d : bool) :
  let tmptime := 0 in
  let tmptime := if a then Z.lor tmptime (Z.shiftl 1 6) else tmptime in
  let tmptime := if b then Z.lor tmptime (Z.shiftl 1 5) else tmptime in
  let tmptime := if nz (Z.land tmptime 0x60) then Z.lor tmptime (Z.shiftl 1 7) else tmptime in
  let tmptime := if c then Z.lor tmptime (Z.shiftl 1 2) else tmptime in
  let tmptime := if d then Z.lor tmptime (Z.shiftl 1 1) else tmptime in
  0 <= tmptime < 2 ^ 8.
Proof. destruct a, b, c, d; cbv; split; congruence. Qed.

(** The case a [switch] takes is the case of its key. *)
Lemma switch_cases_key {A : Type} (P : A -> Prop) (x : Z) (cases : list (Z * A)) (d : A) :
  Forall (fun c => x = fst c -> P (snd c)) cases -> P d -> P (switch x cases d).
Proof.
  intros H Hd. induction H as [| [k a] rest Ha _ IH]; cbn [switch]; [exact Hd |].
  destruct (Z.eqb_spec x k) as [E | _]; [exact (Ha E) | exact IH].
Qed.

Section TypedClaims.

Variable cos sin : spec_float -> spec_float.

(** X14.  At every reachable state the sampler of every voice is the one
    bit 2 of its wave control selects, the 16-bit sampler when the bit is
    set and the 8-bit sampler when it is clear, and the statistics counter
    the voice increments is the one of that width: the phase update, which
    rewrites the control byte at the end of a sample, never separates the
    two. *)
Theorem sampler_follows_wave_ctrl (s : State) (i : nat) (v : GUSChannels) :
  reachable cos sin s -> guschan s !! i = Some v ->
  (getSample v = GetSample16_f <-> Z.testbit (WaveCtrl v) 2 = true) /\
  (getSample v = GetSample8_f <-> Z.testbit (WaveCtrl v) 2 = false) /\
  (generated_ms v = generated_16bit_ms_p <-> Z.testbit (WaveCtrl v) 2 = true) /\
  (forall G, call_getSample v G =
             if Z.testbit (WaveCtrl v) 2 then GetSample16 v G else GetSample8 v G).
Proof.
  intros Hr Hv.
  destruct (reachable_card_typed cos sin s Hr) as (Hvs & _ & _).
  pose proof (Forall_lookup_1 _ _ _ _ Hvs Hv) as (_ & Hs & Hc).
  unfold sampler_of, counter_of in Hs, Hc. change WCTRL_16BIT with (2 ^ 2) in Hs, Hc.
  rewrite testbit_land_pow2 in Hs, Hc by lia.
  unfold call_getSample. rewrite Hs, Hc.
  destruct (Z.testbit (WaveCtrl v) 2); repeat split; intros; congruence.
Qed.

(** X15.  At every reachable state the pan position of every voice lies
    in [0, 15], so that the lookup of [pan_scalars] in the sample loop is
    always inside the 16-entry table. *)
Theorem pan_position_in_table (s : State) (i : nat) (v : GUSChannels) :
  reachable cos sin s -> guschan s !! i = Some v ->
  0 <= PanPot v <= 15 /\
  pan_scalars cos sin (PanPot v) = Some (pan_entry cos sin (PanPot v)).
Proof.
  intros Hr Hv.
  destruct (reachable_card_typed cos sin s Hr) as (Hvs & _ & _).
  pose proof (Forall_lookup_1 _ _ _ _ Hvs Hv) as (Hp & _ & _).
  split; [exact Hp |]. unfold pan_scalars, GUS_PAN_POSITIONS.
  destruct (Z.leb_spec 0 (PanPot v)); [| exfalso; lia].
  destruct (Z.ltb_spec (PanPot v) 16); [| exfalso; lia]. reflexivity.
Qed.

(** X16.  At every reachable state the card has its 32 voices, voice [i]
    carries the number [i] and the interrupt mask [1 << i], and the
    selected voice, if any, is the voice whose number the voice-select port
    0x302 reads back. *)
Theorem card_shape_invariant (s : State) :
  reachable cos sin s ->
  length (guschan s) = 32%nat /\
  (forall i v, guschan s !! i = Some v ->
     channum v = Z.of_nat i /\ irqmask v = 2 ^ Z.of_nat i) /\
  (forall i, curchan s = Some i ->
     (i < 32)%nat /\
     read_gus s (portbase (myGUS (globals s)) + 0x302) 1 = Some (Z.of_nat i, s)).
Proof.
  intros Hr.
  destruct (reachable_card_ok cos sin s Hr) as ((Hlen & Hvs) & _ & Hc).
  destruct (reachable_card_typed cos sin s Hr) as (_ & Hg & Hsel).
  split; [exact Hlen |]. split.
  - intros i v Hv. destruct (Hvs i v Hv) as (_ & A & B). auto.
  - intros i Hi. split; [rewrite <- Hlen; apply Hc; exact Hi |].
    unfold read_gus. rewrite Z.add_simpl_l. cbn [switch Z.eqb Pos.eqb].
    rewrite <- (Hsel i Hi). unfold u8. rewrite Z.mod_small; [reflexivity |].
    pose proof (Hc i Hi). lia.
Qed.

(** X17.  At every reachable state the IRQ status byte, which port 0x206
    returns, has no bit other than its five sources: the two timers (bits
    2 and 3), the voices' wave and ramp interrupts (bits 5 and 6) and the
    DMA terminal count (bit 7); bits 0, 1 and 4 always read 0. *)
Theorem irq_status_sources (s : State) :
  reachable cos sin s ->
  exists r,
    read_gus s (portbase (myGUS (globals s)) + 0x206) 1 = Some (r, s) /\
    0 <= r < 256 /\ Z.land r 0x13 = 0 /\
    Z.testbit r 0 = false /\ Z.testbit r 1 = false /\ Z.testbit r 4 = false.
Proof.
  intros Hr.
  destruct (reachable_card_typed cos sin s Hr) as (_ & (_ & _ & _ & _ & Hst & _) & _).
  exists (IRQStatus (myGUS (globals s))). split.
  { unfold read_gus. rewrite Z.add_simpl_l. reflexivity. }
  destruct Hst as [Hb Hz]. split; [exact Hb | split; [exact Hz |]].
  assert (Hbit : forall n, Z.testbit 0x13 n = true ->
                           Z.testbit (IRQStatus (myGUS (globals s))) n = false).
  { intros n Hn.
    assert (E : Z.testbit (Z.land (IRQStatus (myGUS (globals s))) 0x13) n = false)
      by (rewrite Hz; apply Z.bits_0).
    rewrite Z.land_spec, Hn, andb_true_r in E. exact E. }
  repeat split; apply Hbit; reflexivity.
Qed.

(** X18.  At every reachable state every port read returns a value of
    the width of the port: a 16-bit value for a word read of the data port
    0x304 and a byte otherwise. *)
Theorem port_read_width (s s' : State) (port iolen r : Z) :
  reachable cos sin s -> read_gus s port iolen = Some (r, s') ->
  0 <= r < 2 ^ 16 /\
  (r < 2 ^ 8 \/ (port - portbase (myGUS (globals s)) = 0x304 /\ iolen = 2)).
Proof.
  intros Hr.
  destruct (reachable_card_typed cos sin s Hr) as (_ & Hg & _).
  pose proof Hg as (_ & _ & H3 & _ & [Hst _] & _ & H7).
  unfold read_gus. revert r s'.
  apply (switch_cases_key
           (fun o => forall r s', o = Some (r, s') ->
                       0 <= r < 2 ^ 16 /\
                       (r < 2 ^ 8 \/
                        (port - portbase (myGUS (globals s)) = 0x304 /\ iolen = 2)))).
  - each_case; cbn [fst snd]; intros Hk r s' H.
    + injection H as <- <-. lia.
    + injection H as <- <-.
      pose proof (timer_status_range
                    (reached (fst (timers (myGUS (globals s)))))
                    (reached (snd (timers (myGUS (globals s)))))
                    (nz (Z.land (IRQStatus (myGUS (globals s))) 0x04))
                    (nz (Z.land (IRQStatus (myGUS (globals s))) 0x08))) as Hb.
      cbv zeta in Hb. lia.
    + injection H as <- <-. lia.
    + injection H as <- <-. pose proof (u8_bound (gCurChannel (myGUS (globals s)))). lia.
    + injection H as <- <-. lia.
    + bind_inv H.
      match goal with
      | Hx : ExecuteReadRegister _ = Some (?x, _) |- _ =>
          apply ExecuteReadRegister_range in Hx; [| exact Hg];
          pose proof (land_ones_bound x 8 ltac:(lia)) as Hb;
          change (Z.ones 8) with 0xff in Hb
      end.
      destruct (Z.eqb_spec iolen 2); injection H as <- <-.
      * change 0xffff with (Z.ones 16). rewrite land_ones_small by lia.
        split; [lia | right; auto].
      * lia.
    + bind_inv H.
      match goal with
      | Hx : ExecuteReadRegister _ = Some (?x, _) |- _ =>
          apply ExecuteReadRegister_range in Hx; [| exact Hg];
          pose proof (shiftr_bound x 8 8 ltac:(lia) ltac:(lia) Hx) as Hb
      end.
      injection H as <- <-. lia.
    + destruct (_ <? _); [| injection H as <- <-; lia].
      bind_inv H. injection H as <- <-. unfold ram_at in Hx.
      destruct (_ && _); [| discriminate]. injection Hx as <-.
      pose proof (u8_bound (GUSRam (globals s) (gDramAddr (myGUS (globals s))))). lia.
  - intros r s' H. injection H as <- <-. lia.
Qed.

(** X19.  At every reachable state every port write and every port read
    by the guest is defined, whatever the port, the value and the width,
    and leaves a reachable state, but for the one write this says nothing
    about: the write that resets the card (register 0x4C executed with bit
    0 of the data latch set), which runs [PrintStats].  No other guest
    access indexes a table or dereferences the selected voice out of
    bounds, and the scan for the interrupting voice always ends. *)
Theorem guest_access_defined (s : State) :
  reachable cos sin s ->
  (forall port val iolen,
     reset_write s port val iolen = false ->
     exists s', write_gus s port val iolen = Some s' /\ reachable cos sin s') /\
  (forall port iolen,
     exists r s', read_gus s port iolen = Some (r, s') /\ reachable cos sin s').
Proof.
  intros Hr.
  pose proof (reachable_card_ok cos sin s Hr) as Hok.
  destruct (reachable_card_typed cos sin s Hr) as (_ & (Hd & _) & _).
  split.
  - intros port val iolen _.
    destruct (write_gus_returns s port val iolen Hok) as [s' E].
    exists s'. split; [exact E |].
    apply (reachable_step cos sin s (IO_Write port val iolen) s' Hr). exact E.
  - intros port iolen.
    destruct (read_gus_returns s port iolen Hok ltac:(lia)) as [[r s'] E].
    exists r, s'. split; [exact E |].
    apply (reachable_step cos sin s (IO_Read port iolen) s' Hr). cbn [step].
    rewrite E. reflexivity.
Qed.

End TypedClaims.

Lemma sampler_follows_wave_ctrl_witness :
  exists s v,
    after loud_prog = Some s /\ guschan s !! 0%nat = Some v /\
    Z.testbit (WaveCtrl v) 2 = true /\ getSample v = GetSample16_f.
Proof.
  destruct (after loud_prog) as [s |] eqn:E; [| vm_compute in E; discriminate].
  destruct (guschan s !! 0%nat) as [v |] eqn:Ev;
    [| vm_compute in E; injection E as <-; vm_compute in Ev; discriminate].
  exists s, v. split; [reflexivity | split; [exact Ev |]].
  destruct (sampler_follows_wave_ctrl cos_ref sin_ref s 0 v (after_reachable _ _ E) Ev)
    as (A & _).
  assert (B : Z.testbit (WaveCtrl v) 2 = true)
    by (vm_compute in E; injection E as <-; vm_compute in Ev; injection Ev as <-;
        reflexivity).
  split; [exact B | apply A; exact B].
Defined.

Lemma pan_position_in_table_witness :
  exists s v,
    after loud_prog = Some s /\ guschan s !! 0%nat = Some v /\
    pan_scalars cos_ref sin_ref (PanPot v) = Some (pan_entry cos_ref sin_ref (PanPot v)).
Proof.
  destruct (after loud_prog) as [s |] eqn:E; [| vm_compute in E; discriminate].
  destruct (guschan s !! 0%nat) as [v |] eqn:Ev;
    [| vm_compute in E; injection E as <-; vm_compute in Ev; discriminate].
  exists s, v. split; [reflexivity | split; [exact Ev |]].
  apply (pan_position_in_table cos_ref sin_ref s 0 v (after_reachable _ _ E) Ev).
Defined.

Lemma card_shape_invariant_witness :
  exists s,
    after irq_prog = Some s /\ length (guschan s) = 32%nat /\
    read_gus s (portbase (myGUS (globals s)) + 0x302) 1 = Some (9, s).
Proof.
  destruct (after irq_prog) as [s |] eqn:E; [| vm_compute in E; discriminate].
  exists s. split; [reflexivity |].
  destruct (card_shape_invariant cos_ref sin_ref s (after_reachable _ _ E)) as (A & _ & B).
  split; [exact A |].
  apply (B 9%nat). vm_compute in E. injection E as <-. reflexivity.
Defined.

Lemma irq_status_sources_witness :
  exists s r,
    after irq_prog = Some s /\
    read_gus s (portbase (myGUS (globals s)) + 0x206) 1 = Some (r, s) /\
    Z.land r 0x13 = 0.
Proof.
  destruct (after irq_prog) as [s |] eqn:E; [| vm_compute in E; discriminate].
  destruct (irq_status_sources cos_ref sin_ref s (after_reachable _ _ E))
    as (r & A & _ & B & _).
  exists s, r. split; [reflexivity | split; [exact A | exact B]].
Defined.

Lemma port_read_width_witness :
  exists s r s',
    after irq_prog = Some s /\
    read_gus s (0x40 + 0x305) 1 = Some (r, s') /\ 0 <= r < 2 ^ 8.
Proof.
  destruct (after irq_prog) as [s |] eqn:E; [| vm_compute in E; discriminate].
  destruct (read_gus s (0x40 + 0x305) 1) as [[r s'] |] eqn:Er;
    [| vm_compute in E; injection E as <-; vm_compute in Er; discriminate].
  exists s, r, s'. split; [reflexivity | split; [exact Er |]].
  destruct (port_read_width cos_ref sin_ref s s' (0x40 + 0x305) 1 r
              (after_reachable _ _ E) Er) as [A [B | [_ B]]]; [lia | discriminate B].
Defined.

Lemma guest_access_defined_witness :
  exists s s1 r s2,
    after irq_prog = Some s /\
    write_gus s (0x40 + 0x305) 0xFF 1 = Some s1 /\
    read_gus s (0x40 + 0x305) 1 = Some (r, s2).
Proof.
  destruct (after irq_prog) as [s |] eqn:E; [| vm_compute in E; discriminate].
  destruct (guest_access_defined cos_ref sin_ref s (after_reachable _ _ E)) as [W R].
  destruct (W (0x40 + 0x305) 0xFF 1) as (s1 & H1 & _).
  { vm_compute in E. injection E as <-. reflexivity. }
  destruct (R (0x40 + 0x305) 1) as (r & s2 & H2 & _).
  exists s, s1, r, s2. split; [reflexivity | split; [exact H1 | exact H2]].
Defined.

(** ** What a reset leaves *)

Ltac irq_frame_tac :=
  unfold irq_frame; fields;
  (split; [reflexivity | split; [reflexivity |]]);
  match goal with
  | |- exists c st w r, ?g' = _ =>
      exists (IRQChan g'), (IRQStatus g'), (WaveIRQ g'), (RampIRQ g'); reflexivity
  end.

Lemma irq_frame_refl (G : Globals) : irq_frame G G.
Proof.
  unfold irq_frame. split; [reflexivity | split; [reflexivity |]].
  exists (IRQChan (myGUS G)), (IRQStatus (myGUS G)), (WaveIRQ (myGUS G)), (RampIRQ (myGUS G)).
  destruct (myGUS G). reflexivity.
Qed.

Lemma irq_frame_trans (a b c : Globals) : irq_frame a b -> irq_frame b c -> irq_frame a c.
Proof.
  intros (A1 & A2 & c1 & st1 & w1 & r1 & A3) (B1 & B2 & c2 & st2 & w2 & r2 & B3).
  split; [congruence | split; [congruence |]].
  exists c2, st2, w2, r2. rewrite B3, A3. reflexivity.
Qed.

Lemma GUS_CheckIRQ_frame (G : Globals) : irq_frame G (GUS_CheckIRQ G).
Proof.
  unfold GUS_CheckIRQ. destruct (_ && _); [| apply irq_frame_refl].
  unfold irq_frame. fields. split; [reflexivity | split; [reflexivity |]].
  exists (IRQChan (myGUS G)), (IRQStatus (myGUS G)), (WaveIRQ (myGUS G)), (RampIRQ (myGUS G)).
  destruct (myGUS G). reflexivity.
Qed.

Lemma CheckVoiceIrq_frame (G G' : Globals) : CheckVoiceIrq G = Some G' -> irq_frame G G'.
Proof.
  unfold CheckVoiceIrq. fields.
  destruct (negb _).
  - intros H. injection H as <-. irq_frame_tac.
  - intros H. bind_inv H. injection H as <-. clear Hx.
    eapply irq_frame_trans; [| irq_frame_tac].
    eapply irq_frame_trans; [| apply GUS_CheckIRQ_frame].
    split_ifs; irq_frame_tac.
Qed.


Lemma clear_mask_bit (x k b : Z) :
  0 <= k < 32 -> 0 <= b < 32 ->
  Z.testbit (Z.land x (u32 (Z.lnot (2 ^ k)))) b = Z.testbit x b && negb (b =? k).
Proof.
  intros Hk Hb. rewrite <- (shiftl_1_u32 k) by lia. apply testbit_clear; lia.
Qed.





Lemma latched_card_ok (s : State) (reg data : Z) : card_ok s -> card_ok (latched s reg data).
Proof. unfold card_ok, g_ok, active_ok, curchan_ok, latched. fields. auto. Qed.


Section ResetRegister.

Variable cos sin : spec_float -> spec_float.



End ResetRegister.



(** ** Writing a control byte and reading it back *)

Lemma with_curchan_selected (s : State) (i : nat) (v v' : GUSChannels) (G' : Globals)
    (f : GUSChannels -> Globals -> option (GUSChannels * Globals)) :
  curchan s = Some i -> guschan s !! i = Some v -> f v (globals s) = Some (v', G') ->
  exists s1,
    with_curchan s f = Some s1 /\
    curchan s1 = Some i /\ guschan s1 !! i = Some v' /\
    (forall j, j <> i -> guschan s1 !! j = guschan s !! j) /\
    globals s1 = G'.
Proof.
  intros Hc Hv Hf. unfold with_curchan. rewrite Hc, Hv.
  cbn [mbind option_bind]. rewrite Hf. cbn [mbind option_bind].
  eexists. split; [reflexivity |]. fields.
  split; [exact Hc |].
  split; [apply list_lookup_insert_eq; eapply lookup_lt_Some; exact Hv |].
  split; [| reflexivity].
  intros j Hj. apply list_lookup_insert_ne. congruence.
Qed.

Lemma ctrl_byte_back (val : Z) :
  0 <= val < 256 -> Z.land val 0xa0 = 0xa0 -> Z.lor (Z.land val 0x7f) 0x80 = val.
Proof.
  intros Hv H.
  pose proof (forallb_seqZ
                (fun c => negb (Z.land c 0xa0 =? 0xa0) || (Z.lor (Z.land c 0x7f) 0x80 =? c))
                0 256 ltac:(vm_compute; reflexivity) val ltac:(lia)) as K.
  cbn beta in K. rewrite H in K. cbn [Z.eqb Pos.eqb negb orb] in K.
  apply Z.eqb_eq. exact K.
Qed.

Lemma set_mask_bit (x k : Z) : 0 <= k -> nz (Z.land (Z.lor x (2 ^ k)) (2 ^ k)) = true.
Proof.
  intros Hk. rewrite testbit_land_pow2, Z.lor_spec, Z.pow2_bits_true by lia.
  apply orb_true_r.
Qed.

Lemma cleared_mask_bit (x k : Z) :
  0 <= k < 32 -> nz (Z.land (Z.land x (u32 (Z.lnot (2 ^ k)))) (2 ^ k)) = false.
Proof.
  intros Hk. rewrite testbit_land_pow2, clear_mask_bit, Z.eqb_refl by lia.
  apply andb_false_r.
Qed.

Lemma WriteWaveCtrl_read_back (v v' : GUSChannels) (val k : Z) (G G' : Globals) :
  irqmask v = 2 ^ k -> 0 <= k < 32 -> 0 <= val < 256 ->
  WriteWaveCtrl v val G = Some (v', G') ->
  ReadWaveCtrl v' G' = if Z.land val 0xa0 =? 0xa0 then val else Z.land val 0x7f.
Proof.
  intros Hm Hk Hv H. unfold WriteWaveCtrl in H. bind_inv H. injection H as <- <-.
  assert (Hw : WaveIRQ (myGUS x) =
               if Z.land val 0xa0 =? 0xa0 then Z.lor (WaveIRQ (myGUS G)) (2 ^ k)
               else Z.land (WaveIRQ (myGUS G)) (u32 (Z.lnot (2 ^ k)))).
  { revert Hx. destruct (negb _); intros Hx.
    - apply CheckVoiceIrq_fields in Hx as (_ & _ & _ & -> & _).
      destruct (Z.land val 160 =? 160), (nz _); fields; rewrite Hm; reflexivity.
    - injection Hx as <-.
      destruct (Z.land val 160 =? 160), (nz _); fields; rewrite Hm; reflexivity. }
  clear Hx. unfold ReadWaveCtrl. rewrite Hw.
  assert (K : forall c : bool,
             irqmask (if c
                      then set_generated_ms generated_16bit_ms_p
                             (set_getSample GetSample16_f (set_WaveCtrl (Z.land val 127) v))
                      else set_generated_ms generated_8bit_ms_p
                             (set_getSample GetSample8_f (set_WaveCtrl (Z.land val 127) v)))
             = 2 ^ k /\
             WaveCtrl (if c
                       then set_generated_ms generated_16bit_ms_p
                              (set_getSample GetSample16_f (set_WaveCtrl (Z.land val 127) v))
                       else set_generated_ms generated_8bit_ms_p
                              (set_getSample GetSample8_f (set_WaveCtrl (Z.land val 127) v)))
             = Z.land val 127)
    by (intros []; split; first [exact Hm | reflexivity]).
  match goal with
  | |- context [irqmask (if ?c then _ else _)] => destruct (K c) as [-> ->]
  end.
  destruct (Z.eqb_spec (Z.land val 0xa0) 0xa0) as [E | E].
  - rewrite set_mask_bit by lia. apply ctrl_byte_back; assumption.
  - rewrite cleared_mask_bit by lia. reflexivity.
Qed.

Lemma WriteRampCtrl_read_back (v v' : GUSChannels) (val k : Z) (G G' : Globals) :
  irqmask v = 2 ^ k -> 0 <= k < 32 -> 0 <= val < 256 ->
  WriteRampCtrl v val G = Some (v', G') ->
  ReadRampCtrl v' G' = if Z.land val 0xa0 =? 0xa0 then val else Z.land val 0x7f.
Proof.
  intros Hm Hk Hv H. unfold WriteRampCtrl in H. bind_inv H. injection H as <- <-.
  assert (Hw : RampIRQ (myGUS x) =
               if Z.land val 0xa0 =? 0xa0 then Z.lor (RampIRQ (myGUS G)) (2 ^ k)
               else Z.land (RampIRQ (myGUS G)) (u32 (Z.lnot (2 ^ k)))).
  { revert Hx. destruct (negb _); intros Hx.
    - apply CheckVoiceIrq_fields in Hx as (_ & _ & -> & _ & _).
      destruct (Z.land val 160 =? 160); fields; rewrite Hm; reflexivity.
    - injection Hx as <-.
      destruct (Z.land val 160 =? 160); fields; rewrite Hm; reflexivity. }
  clear Hx. unfold ReadRampCtrl. rewrite Hw. fields. rewrite Hm.
  destruct (Z.eqb_spec (Z.land val 0xa0) 0xa0) as [E | E].
  - rewrite set_mask_bit by lia. apply ctrl_byte_back; assumption.
  - rewrite cleared_mask_bit by lia. reflexivity.
Qed.

Lemma high_byte (d : Z) : 0 <= d < 2 ^ 16 -> u8 (Z.shiftr d 8) = d / 256 /\ 0 <= d / 256 < 256.
Proof.
  intros Hd. rewrite Z.shiftr_div_pow2 by lia. change (2 ^ 8) with 256.
  assert (0 <= d / 256 < 256).
  { split; [apply Z.div_pos; lia | apply Z.div_lt_upper_bound; lia]. }
  split; [apply Z.mod_small; assumption | assumption].
Qed.

Section Control.

Variable cos sin : spec_float -> spec_float.

(** X22.  On a reachable card with a voice selected, the high byte [val]
    of a word written to the wave control register 0x00 reads back
    through register 0x80 as [val] when bits 5 and 7 of [val] are both
    set, and as [val] without bit 7 otherwise: bit 7 is not stored, it
    raises the wave interrupt of the voice when the interrupt enable bit
    5 comes with it and acknowledges it when not.  The ramp control
    register 0x0D and its read-back 0x8D behave the same way. *)
Theorem control_write_then_read (s : State) (i : nat) (d : Z) :
  reachable cos sin s -> curchan s = Some i -> 0 <= d < 2 ^ 16 ->
  let val := d / 256 in
  let back := if Z.land val 0xa0 =? 0xa0 then val else Z.land val 0x7f in
  exists s1 s2 s1' s2',
    write_register s 0x00 d = Some s1 /\
    read_register s1 0x80 = Some (back * 256, s2) /\
    write_register s 0x0D d = Some s1' /\
    read_register s1' 0x8D = Some (back * 256, s2').
Proof.
  intros Hr Hc Hd val back.
  pose proof (reachable_card_ok cos sin s Hr) as Hok.
  pose proof Hok as ([Hlen Hvs] & Hg & Hco).
  pose proof (Hco i Hc) as Hi. rewrite Hlen in Hi.
  destruct (lookup_lt_is_Some_2 (guschan s) i ltac:(rewrite Hlen; exact Hi)) as [v Hv].
  destruct (Hvs i v Hv) as (_ & _ & Hm).
  assert (Hu : u16 d = d) by (apply Z.mod_small; lia).
  destruct (high_byte d Hd) as [Hb Hval]. fold val in Hb, Hval.
  assert (Hback : 0 <= back < 256).
  { unfold back. destruct (_ =? _); [exact Hval |].
    change 0x7f with (Z.ones 7). rewrite Z.land_ones by lia.
    pose proof (Z.mod_pos_bound val (2 ^ 7) ltac:(lia)). lia. }
  assert (Hout : forall r, 0 <= r < 256 -> Z.land (u16 (Z.shiftl r 8)) 0xffff = r * 256).
  { intros r Hr0. rewrite Z.shiftl_mul_pow2 by lia. change (2 ^ 8) with 256.
    unfold u16. rewrite Z.mod_small by lia.
    change 0xffff with (Z.ones 16). apply land_ones_small; lia. }
  (* the wave control *)
  destruct (WriteWaveCtrl_returns v val (globals (latched s 0x00 d))) as [[v1 G1] E1].
  { destruct (latched_card_ok s 0x00 d Hok) as (_ & HgL & _). exact HgL. }
  pose proof (WriteWaveCtrl_read_back v v1 val (Z.of_nat i) _ G1 Hm ltac:(lia) Hval E1) as R1.
  destruct (with_curchan_selected (latched s 0x00 d) i v v1 G1
              (fun v G => WriteWaveCtrl v val G) Hc Hv E1)
    as (s1 & W1 & Hc1 & Hv1 & _ & HG1).
  (* the ramp control *)
  destruct (WriteRampCtrl_returns v val (globals (latched s 0x0D d))) as [[v2 G2] E2].
  { destruct (latched_card_ok s 0x0D d Hok) as (_ & HgL & _). exact HgL. }
  pose proof (WriteRampCtrl_read_back v v2 val (Z.of_nat i) _ G2 Hm ltac:(lia) Hval E2) as R2.
  destruct (with_curchan_selected (latched s 0x0D d) i v v2 G2
              (fun v G => WriteRampCtrl v val G) Hc Hv E2)
    as (s2 & W2 & Hc2 & Hv2 & _ & HG2).
  exists s1. eexists. exists s2. eexists.
  split.
  { rewrite write_register_exec. exec_register 0x00. rewrite Hu, Hb.
    unfold latched in W1. rewrite ?Hu in W1. exact W1. }
  split.
  { rewrite read_register_exec. exec_register 0x80.
    rewrite (read_curchan_selected (set_globals _ s1) i _ _ _ Hc1 Hv1).
    cbn [mbind option_bind]. rewrite HG1.
    assert (Er : ReadWaveCtrl v1
                   (upd (set_gRegData 0) (upd (set_gRegSelect 0x80) G1)) = back)
      by (unfold back; rewrite <- R1; reflexivity).
    rewrite Er, Hout by exact Hback. reflexivity. }
  split.
  { rewrite write_register_exec. exec_register 0x0D. rewrite Hu, Hb.
    unfold latched in W2. rewrite ?Hu in W2. exact W2. }
  rewrite read_register_exec. exec_register 0x8D.
  rewrite (read_curchan_selected (set_globals _ s2) i _ _ _ Hc2 Hv2).
  cbn [mbind option_bind]. rewrite HG2.
  assert (Er : ReadRampCtrl v2
                 (upd (set_gRegData 0) (upd (set_gRegSelect 0x8D) G2)) = back)
    by (unfold back; rewrite <- R2; reflexivity).
  rewrite Er, Hout by exact Hback. reflexivity.
Qed.

End Control.

Lemma control_write_then_read_witness :
  exists s s1 s2 s1' s2',
    after irq_prog = Some s /\
    write_register s 0x00 0xA300 = Some s1 /\
    read_register s1 0x80 = Some (0xA300, s2) /\
    write_register s 0x0D 0xA300 = Some s1' /\
    read_register s1' 0x8D = Some (0xA300, s2').
Proof.
  destruct (after irq_prog) as [s |] eqn:E; [| vm_compute in E; discriminate].
  destruct (control_write_then_read cos_ref sin_ref s 9 0xA300 (after_reachable _ _ E))
    as (s1 & s2 & s1' & s2' & H1 & H2 & H3 & H4);
    [vm_compute in E; injection E as <-; reflexivity | lia |].
  exists s, s1, s2, s1', s2'. split; [reflexivity |].
  repeat (split; [assumption |]). exact H4.
Defined.

(** ** Voices that stay within their bounds *)

Lemma u32_small (x : Z) : 0 <= x < 2 ^ 32 -> u32 x = x.
Proof. apply Z.mod_small. Qed.

Lemma s32_small (x : Z) : - 2 ^ 31 <= x < 2 ^ 31 -> s32 x = x.
Proof.
  intros Hx. unfold s32.
  destruct (Z.lt_ge_cases x 0) as [Hn | Hp].
  - replace (x mod 2 ^ 32) with (x + 2 ^ 32).
    + destruct (Z.ltb_spec (x + 2 ^ 32) (2 ^ 31)); lia.
    + apply (Z.mod_unique x (2 ^ 32) (-1)); lia.
  - rewrite Z.mod_small by lia. destruct (Z.ltb_spec x (2 ^ 31)); lia.
Qed.

Lemma s32_sub_u32 (a b : Z) : s32 (a - u32 b) = s32 (a - b).
Proof.
  unfold s32, u32. rewrite Zminus_mod_idemp_r. reflexivity.
Qed.

(** One step towards the upper bound, and one towards the lower. *)
Lemma step_up (lo x hi d : Z) :
  0 <= lo -> lo <= x <= hi -> hi < 2 ^ 31 -> 0 <= d < 2 ^ 31 ->
  u32 (x + d) = x + d /\ s32 (u32 (x + d) - hi) = x + d - hi.
Proof.
  intros H0 Hx Hh Hd.
  assert (E : u32 (x + d) = x + d) by (apply u32_small; lia).
  rewrite E. split; [reflexivity | apply s32_small; lia].
Qed.

Lemma step_down (lo x hi d : Z) :
  0 <= lo -> lo <= x <= hi -> hi < 2 ^ 31 -> 0 <= d < 2 ^ 31 ->
  s32 (lo - u32 (x - d)) = lo - (x - d) /\
  (lo - (x - d) < 0 -> u32 (x - d) = x - d).
Proof.
  intros H0 Hx Hh Hd. rewrite s32_sub_u32.
  split; [apply s32_small; lia | intros Hl; apply u32_small; lia].
Qed.

Lemma bit_of_mask (c k : Z) (m : Z) :
  0 <= k -> m = 2 ^ k -> nz (Z.land c m) = Z.testbit c k.
Proof. intros Hk ->. apply testbit_land_pow2. exact Hk. Qed.

Ltac ctrl_bits :=
  rewrite ?Z.lxor_spec, ?Z.lor_spec;
  change (Z.testbit 64 3) with false; change (Z.testbit 64 2) with false;
  change (Z.testbit 1 3) with false; change (Z.testbit 1 2) with false;
  rewrite ?xorb_false_r, ?orb_false_r.

Lemma WaveUpdate_in_range (v : GUSChannels) (G : Globals) :
  wave_in_range v ->
  wave_in_range (fst (WaveUpdate v G)) /\ same_bounds v (fst (WaveUpdate v G)) /\
  RampCtrl (fst (WaveUpdate v G)) = RampCtrl v /\
  CurrentVolIndex (fst (WaveUpdate v G)) = CurrentVolIndex v.
Proof.
  intros (H0 & Hx & Hh & Hd & Hr & Hl).
  assert (Hr' : nz (Z.land (RampCtrl v) 0x04) = false)
    by (rewrite (bit_of_mask _ 2) by (reflexivity || lia); exact Hr).
  assert (Hl' : nz (Z.land (WaveCtrl v) WCTRL_LOOP) = true ->
                WaveAdd v <= WaveEnd v - WaveStart v).
  { rewrite (bit_of_mask _ 3) by (reflexivity || lia). exact Hl. }
  destruct (step_up _ _ _ _ H0 Hx Hh Hd) as [U1 U2].
  destruct (step_down _ _ _ _ H0 Hx Hh Hd) as [D1 D2].
  unfold WaveUpdate.
  destruct (nz (Z.land (WaveCtrl v) (Z.lor WCTRL_STOP WCTRL_STOPPED))).
  { cbn [fst]. unfold wave_in_range, same_bounds. auto 20. }
  destruct (nz (Z.land (WaveCtrl v) WCTRL_DECREASING)) eqn:Dec; fields; rewrite ?Dec.
  - rewrite D1.
    destruct (Z.ltb_spec (WaveStart v - (WaveAddr v - WaveAdd v)) 0) as [Hlt | Hge].
    + cbn [fst]. unfold wave_in_range, same_bounds. fields. rewrite (D2 Hlt).
      repeat split; try assumption; try reflexivity; lia.
    + rewrite Hr'.
      destruct (nz (Z.land (WaveCtrl v) WCTRL_LOOP)) eqn:Loop.
      * specialize (Hl' eq_refl).
        assert (Ea : u32 (WaveEnd v - (WaveStart v - (WaveAddr v - WaveAdd v))) =
                     WaveEnd v - (WaveStart v - (WaveAddr v - WaveAdd v)))
          by (apply u32_small; lia).
        assert (Eb : u32 (WaveStart v + (WaveStart v - (WaveAddr v - WaveAdd v))) =
                     WaveStart v + (WaveStart v - (WaveAddr v - WaveAdd v)))
          by (apply u32_small; lia).
        split_ifs; cbn [fst]; unfold wave_in_range, same_bounds; fields;
          rewrite ?Ea, ?Eb; ctrl_bits;
          repeat split; try assumption; try reflexivity; try lia;
          intros _; lia.
      * split_ifs; cbn [fst]; unfold wave_in_range, same_bounds; fields; ctrl_bits;
          repeat split; try assumption; try reflexivity; try lia.
  - rewrite U2, ?U1.
    destruct (Z.ltb_spec (WaveAddr v + WaveAdd v - WaveEnd v) 0) as [Hlt | Hge].
    + cbn [fst]. unfold wave_in_range, same_bounds. fields.
      repeat split; try assumption; try reflexivity; lia.
    + rewrite Hr'.
      destruct (nz (Z.land (WaveCtrl v) WCTRL_LOOP)) eqn:Loop.
      * specialize (Hl' eq_refl).
        assert (Ea : u32 (WaveEnd v - (WaveAddr v + WaveAdd v - WaveEnd v)) =
                     WaveEnd v - (WaveAddr v + WaveAdd v - WaveEnd v))
          by (apply u32_small; lia).
        assert (Eb : u32 (WaveStart v + (WaveAddr v + WaveAdd v - WaveEnd v)) =
                     WaveStart v + (WaveAddr v + WaveAdd v - WaveEnd v))
          by (apply u32_small; lia).
        split_ifs; cbn [fst]; unfold wave_in_range, same_bounds; fields;
          rewrite ?Ea, ?Eb; ctrl_bits;
          repeat split; try assumption; try reflexivity; try lia;
          intros _; lia.
      * split_ifs; cbn [fst]; unfold wave_in_range, same_bounds; fields; ctrl_bits;
          repeat split; try assumption; try reflexivity; try lia.
Qed.

Lemma RampUpdate_in_range (v : GUSChannels) (G : Globals) :
  ramp_in_range v ->
  ramp_in_range (fst (RampUpdate v G)) /\ same_bounds v (fst (RampUpdate v G)) /\
  WaveCtrl (fst (RampUpdate v G)) = WaveCtrl v /\
  WaveAddr (fst (RampUpdate v G)) = WaveAddr v /\
  Z.testbit (RampCtrl (fst (RampUpdate v G))) 2 = Z.testbit (RampCtrl v) 2.
Proof.
  intros (H0 & Hx & Hh & Hd & Hl).
  assert (Hl' : nz (Z.land (RampCtrl v) 0x08) = true ->
                IncrVolIndex v <= EndVolIndex v - StartVolIndex v).
  { rewrite (bit_of_mask _ 3) by (reflexivity || lia). exact Hl. }
  assert (Hh' : EndVolIndex v < 2 ^ 31) by (unfold GUS_VOLUME_POSITIONS in Hh; lia).
  destruct (step_up _ _ _ _ H0 Hx Hh' Hd) as [U1 U2].
  destruct (step_down _ _ _ _ H0 Hx Hh' Hd) as [D1 D2].
  unfold RampUpdate.
  destruct (nz (Z.land (RampCtrl v) 0x3)).
  { cbn [fst]. unfold ramp_in_range, same_bounds. auto 20. }
  destruct (nz (Z.land (RampCtrl v) 0x40)) eqn:Dec; fields; rewrite ?Dec.
  - rewrite D1.
    destruct (Z.ltb_spec (StartVolIndex v - (CurrentVolIndex v - IncrVolIndex v)) 0)
      as [Hlt | Hge].
    + cbn [fst]. unfold ramp_in_range, same_bounds. fields. rewrite (D2 Hlt).
      repeat split; try assumption; try reflexivity; lia.
    + destruct (nz (Z.land (RampCtrl v) 0x08)) eqn:Loop.
      * specialize (Hl' eq_refl).
        assert (Ea : u32 (EndVolIndex v -
                          (StartVolIndex v - (CurrentVolIndex v - IncrVolIndex v))) =
                     EndVolIndex v -
                     (StartVolIndex v - (CurrentVolIndex v - IncrVolIndex v)))
          by (apply u32_small; lia).
        assert (Eb : u32 (StartVolIndex v +
                          (StartVolIndex v - (CurrentVolIndex v - IncrVolIndex v))) =
                     StartVolIndex v +
                     (StartVolIndex v - (CurrentVolIndex v - IncrVolIndex v)))
          by (apply u32_small; lia).
        split_ifs; cbn [fst]; unfold ramp_in_range, same_bounds; fields;
          rewrite ?Ea, ?Eb; ctrl_bits;
          repeat split; try assumption; try reflexivity; try lia;
          intros _; lia.
      * split_ifs; cbn [fst]; unfold ramp_in_range, same_bounds; fields; ctrl_bits;
          repeat split; try assumption; try reflexivity; try lia.
  - rewrite U2, ?U1.
    destruct (Z.ltb_spec (CurrentVolIndex v + IncrVolIndex v - EndVolIndex v) 0)
      as [Hlt | Hge].
    + cbn [fst]. unfold ramp_in_range, same_bounds. fields.
      repeat split; try assumption; try reflexivity; lia.
    + destruct (nz (Z.land (RampCtrl v) 0x08)) eqn:Loop.
      * specialize (Hl' eq_refl).
        assert (Ea : u32 (EndVolIndex v -
                          (CurrentVolIndex v + IncrVolIndex v - EndVolIndex v)) =
                     EndVolIndex v -
                     (CurrentVolIndex v + IncrVolIndex v - EndVolIndex v))
          by (apply u32_small; lia).
        assert (Eb : u32 (StartVolIndex v +
                          (CurrentVolIndex v + IncrVolIndex v - EndVolIndex v)) =
                     StartVolIndex v +
                     (CurrentVolIndex v + IncrVolIndex v - EndVolIndex v))
          by (apply u32_small; lia).
        split_ifs; cbn [fst]; unfold ramp_in_range, same_bounds; fields;
          rewrite ?Ea, ?Eb; ctrl_bits;
          repeat split; try assumption; try reflexivity; try lia;
          intros _; lia.
      * split_ifs; cbn [fst]; unfold ramp_in_range, same_bounds; fields; ctrl_bits;
          repeat split; try assumption; try reflexivity; try lia.
Qed.

Lemma wave_transfer (v v' : GUSChannels) :
  same_bounds v v' -> WaveCtrl v' = WaveCtrl v -> WaveAddr v' = WaveAddr v ->
  Z.testbit (RampCtrl v') 2 = Z.testbit (RampCtrl v) 2 ->
  wave_in_range v -> wave_in_range v'.
Proof.
  intros (B1 & B2 & B3 & _) Hc Ha Hr. unfold wave_in_range.
  rewrite B1, B2, B3, Hc, Ha, Hr. auto.
Qed.

Lemma ramp_transfer (v v' : GUSChannels) :
  same_bounds v v' -> RampCtrl v' = RampCtrl v -> CurrentVolIndex v' = CurrentVolIndex v ->
  ramp_in_range v -> ramp_in_range v'.
Proof.
  intros (_ & _ & _ & B4 & B5 & B6 & _) Hc Ha. unfold ramp_in_range.
  rewrite B4, B5, B6, Hc, Ha. auto.
Qed.

Lemma same_bounds_refl (v : GUSChannels) : same_bounds v v.
Proof. unfold same_bounds. auto 10. Qed.

Lemma same_bounds_trans (a b c : GUSChannels) :
  same_bounds a b -> same_bounds b c -> same_bounds a c.
Proof.
  unfold same_bounds. intros (A1 & A2 & A3 & A4 & A5 & A6 & A7 & A8)
    (B1 & B2 & B3 & B4 & B5 & B6 & B7 & B8).
  repeat split; congruence.
Qed.

Lemma end_in_memory_transfer (v v' : GUSChannels) :
  same_bounds v v' -> end_in_memory v -> end_in_memory v'.
Proof.
  intros (_ & B2 & _ & _ & _ & _ & B7 & _). unfold end_in_memory. rewrite B2, B7. auto.
Qed.

(** The two updates that close a round of the loop of [generateSamples]. *)
Lemma updates_in_range (v : GUSChannels) (G : Globals) :
  wave_in_range v -> ramp_in_range v ->
  let v1 := fst (WaveUpdate v G) in
  let G1 := snd (WaveUpdate v G) in
  let v2 := fst (RampUpdate v1 G1) in
  wave_in_range v2 /\ ramp_in_range v2 /\ same_bounds v v2.
Proof.
  intros Hw Hr v1 G1 v2.
  destruct (WaveUpdate_in_range v G Hw) as (W1 & B1 & C1 & I1). fold v1 in W1, B1, C1, I1.
  pose proof (ramp_transfer v v1 B1 C1 I1 Hr) as R1.
  destruct (RampUpdate_in_range v1 G1 R1) as (R2 & B2 & C2 & A2 & T2).
  fold v2 in R2, B2, C2, A2, T2.
  split; [exact (wave_transfer v1 v2 B2 C2 A2 T2 W1) |].
  split; [exact R2 | exact (same_bounds_trans _ _ _ B1 B2)].
Qed.

Lemma GetSample8_defined (v : GUSChannels) (G : Globals) :
  0 <= WaveAddr v < Z.shiftl GUS_RAM_SIZE WAVE_FRACT ->
  exists w, GetSample8 v G = Some w.
Proof.
  intros Ha. unfold GetSample8, ram_at.
  assert (Hb : 0 <= Z.shiftr (WaveAddr v) WAVE_FRACT < GUS_RAM_SIZE).
  { apply (shiftr_bound _ 9 20); [lia | lia | exact Ha]. }
  destruct (Z.leb_spec 0 (Z.shiftr (WaveAddr v) WAVE_FRACT)); [| lia].
  destruct (Z.ltb_spec (Z.shiftr (WaveAddr v) WAVE_FRACT) GUS_RAM_SIZE); [| lia].
  cbn [andb mbind option_bind].
  pose proof (land_ones_bound (Z.shiftr (WaveAddr v) WAVE_FRACT + 1) 20 ltac:(lia)) as Hn.
  change (Z.ones 20) with (GUS_RAM_SIZE - 1) in Hn. change (2 ^ 20) with GUS_RAM_SIZE in Hn.
  destruct (WaveAdd v <? Z.shiftl 1 WAVE_FRACT); cbn [mbind option_bind]; [| eauto].
  destruct (Z.leb_spec 0 (Z.land (Z.shiftr (WaveAddr v) WAVE_FRACT + 1) (GUS_RAM_SIZE - 1)));
    [| lia].
  destruct (Z.ltb_spec (Z.land (Z.shiftr (WaveAddr v) WAVE_FRACT + 1) (GUS_RAM_SIZE - 1))
              GUS_RAM_SIZE); [| lia].
  cbn [andb mbind option_bind]. eauto.
Qed.

Lemma land_le (a b : Z) : 0 <= a -> Z.land a b <= a.
Proof.
  intros Ha.
  assert (E : Z.ldiff a b + Z.land a b = a).
  { rewrite Z.add_nocarry_lor; [apply Z.lor_ldiff_and |].
    apply Z.bits_inj'. intros n Hn.
    rewrite !Z.land_spec, Z.ldiff_spec, Z.bits_0.
    destruct (Z.testbit a n), (Z.testbit b n); reflexivity. }
  assert (0 <= Z.ldiff a b) by (apply Z.ldiff_nonneg; lia).
  lia.
Qed.

(** The byte address the 16-bit sampler makes of a word address. *)
Lemma word_address (base : Z) :
  0 <= base ->
  let useAddr := Z.lor (Z.land base 0xc0000) (Z.shiftl (Z.land base 0x1ffff) 1) in
  0 <= useAddr <= 0xffffe /\ (base < 0xdffff -> useAddr <= 0xffffc) /\
  exists k, useAddr = 2 * k.
Proof.
  intros Hb useAddr.
  assert (Hlo : 0 <= Z.land base 0x1ffff < 2 ^ 17)
    by (change 0x1ffff with (Z.ones 17); apply land_ones_bound; lia).
  assert (Hhi : exists h, 0 <= h < 4 /\ Z.land base 0xc0000 = h * 2 ^ 18).
  { exists (Z.land (Z.shiftr base 18) 3). split.
    - change 3 with (Z.ones 2). apply (land_ones_bound _ 2). lia.
    - rewrite <- Z.shiftl_mul_pow2 by lia. apply Z.bits_inj'. intros n Hn.
      rewrite Z.land_spec. destruct (Z.ltb_spec n 18).
      + rewrite Z.shiftl_spec_low by lia.
        replace (Z.testbit 0xc0000 n) with false; [apply andb_false_r |].
        symmetry. change 0xc0000 with (Z.shiftl 3 18). apply Z.shiftl_spec_low. lia.
      + rewrite Z.shiftl_spec, Z.land_spec, Z.shiftr_spec by lia.
        change 0xc0000 with (Z.shiftl 3 18). rewrite (Z.shiftl_spec 3) by lia.
        replace (n - 18 + 18) with n by lia. reflexivity. }
  destruct Hhi as (h & Hh & Eh).
  assert (Eu : useAddr = 2 * Z.land base 0x1ffff + h * 2 ^ 18).
  { unfold useAddr. rewrite Eh, Z.lor_comm.
    assert (El : Z.shiftl (Z.land base 0x1ffff) 1 = 2 * Z.land base 0x1ffff)
      by (rewrite Z.shiftl_mul_pow2 by lia; lia).
    rewrite El, <- (Z.shiftl_mul_pow2 h 18) by lia.
    rewrite lor_shiftl_add by lia. rewrite Z.shiftl_mul_pow2 by lia. reflexivity. }
  split; [lia |].
  split; [| exists (Z.land base 0x1ffff + h * 2 ^ 17); lia].
  intros Hlt.
  destruct (Z.eq_dec (Z.land base 0x1ffff) (2 ^ 17 - 1)) as [El | Nl]; [| lia].
  destruct (Z.eq_dec h 3) as [E3 | N3]; [| lia].
  exfalso.
  (* both parts at their maximum: bits 0-16 and 18-19 of base are set *)
  assert (Hbits : forall n, 0 <= n < 20 -> n <> 17 -> Z.testbit base n = true).
  { intros n Hn Hn17. destruct (Z.ltb_spec n 17).
    - assert (T : Z.testbit (Z.land base 0x1ffff) n = true).
      { rewrite El. change (2 ^ 17 - 1) with (Z.ones 17). apply Z.ones_spec_low. lia. }
      rewrite Z.land_spec in T. apply andb_true_iff in T as [T _]. exact T.
    - assert (T : Z.testbit (Z.land base 0xc0000) n = true).
      { rewrite Eh, E3. change (3 * 2 ^ 18) with (Z.shiftl 3 18).
        rewrite Z.shiftl_spec by lia.
        assert (n = 18 \/ n = 19) as [-> | ->] by lia; reflexivity. }
      rewrite Z.land_spec in T. apply andb_true_iff in T as [T _]. exact T. }
  assert (Hge : 0xdffff <= base).
  { assert (E : Z.land base 0xdffff = 0xdffff).
    { apply Z.bits_inj'. intros n Hn. rewrite Z.land_spec.
      destruct (Z.ltb_spec n 20).
      - destruct (Z.eq_dec n 17) as [-> | N17]; [apply andb_false_r |].
        rewrite Hbits by lia. reflexivity.
      - replace (Z.testbit 0xdffff n) with false; [apply andb_false_r |].
        symmetry. apply (bound_bits _ 20); [lia | lia]. }
    pose proof (land_le base 0xdffff Hb) as K. lia. }
  lia.
Qed.

Lemma word_join (b0 b1 : Z) :
  0 <= b0 < 256 -> 0 <= b1 < 256 ->
  Z.lor b0 (Z.shiftl (s8 b1) 8) = s16 (b0 + 256 * b1).
Proof.
  intros H0 H1.
  pose proof (forallb_seqZ
                (fun x => forallb (fun y => Z.lor x (Z.shiftl (s8 y) 8) =? s16 (x + 256 * y))
                            (seqZ 0 256))
                0 256 ltac:(vm_compute; reflexivity) b0 ltac:(lia)) as K.
  cbn beta in K.
  apply Z.eqb_eq. exact (forallb_seqZ _ 0 256 K b1 ltac:(lia)).
Qed.

Lemma next_join (b2 b3 : Z) :
  0 <= b2 < 256 -> 0 <= b3 < 256 ->
  Z.lor (s8 b2) (Z.shiftl (s8 b3) 8) =
  if b2 <? 128 then s16 (b2 + 256 * b3) else b2 - 256.
Proof.
  intros H2 H3.
  pose proof (forallb_seqZ
                (fun x => forallb (fun y => Z.lor (s8 x) (Z.shiftl (s8 y) 8) =?
                                              if x <? 128 then s16 (x + 256 * y) else x - 256)
                            (seqZ 0 256))
                0 256 ltac:(vm_compute; reflexivity) b2 ltac:(lia)) as K.
  cbn beta in K.
  apply Z.eqb_eq. exact (forallb_seqZ _ 0 256 K b3 ltac:(lia)).
Qed.

Lemma ram_at_in (G : Globals) (a : Z) :
  0 <= a < GUS_RAM_SIZE -> ram_at G a = Some (u8 (GUSRam G a)).
Proof.
  intros Ha. unfold ram_at.
  destruct (Z.leb_spec 0 a); [| lia]. destruct (Z.ltb_spec a GUS_RAM_SIZE); [| lia].
  reflexivity.
Qed.

Lemma ram_at_out (G : Globals) (a : Z) : GUS_RAM_SIZE <= a -> ram_at G a = None.
Proof.
  intros Ha. unfold ram_at.
  destruct (Z.ltb_spec a GUS_RAM_SIZE); [lia |]. rewrite andb_false_r. reflexivity.
Qed.

Lemma u8_range (z : Z) : 0 <= u8 z < 256.
Proof. unfold u8. apply Z.mod_pos_bound. lia. Qed.

(** X23.  The 16-bit sampler reads its current sample as the signed
    little-endian word at a byte address that is always inside the card's
    memory, whatever the position of the voice; when the voice steps by a
    whole sample or more nothing else is read and the word is the result.
    With sub-sample stepping it also reads the next word, and this read
    leaves the memory exactly when the voice is on the last word of the
    last bank. *)
Theorem GetSample16_current_sample (v : GUSChannels) (G : Globals) :
  0 <= WaveAddr v ->
  let base := Z.shiftr (WaveAddr v) WAVE_FRACT in
  let useAddr := Z.lor (Z.land base 0xc0000) (Z.shiftl (Z.land base 0x1ffff) 1) in
  let lo := u8 (GUSRam G useAddr) in
  let hi := u8 (GUSRam G (useAddr + 1)) in
  0 <= useAddr /\ useAddr + 1 < GUS_RAM_SIZE /\
  (Z.shiftl 1 WAVE_FRACT <= WaveAdd v ->
   GetSample16 v G = Some (F32.of_Z (s16 (lo + 256 * hi)))) /\
  (GetSample16 v G = None <->
   WaveAdd v < Z.shiftl 1 WAVE_FRACT /\ useAddr = GUS_RAM_SIZE - 2).
Proof.
  intros Ha base useAddr lo hi.
  assert (Hb : 0 <= base) by (apply Z.shiftr_nonneg; exact Ha).
  destruct (word_address base Hb) as (Hu & _ & k & Hk). fold useAddr in Hu, Hk.
  unfold GUS_RAM_SIZE.
  split; [lia |]. split; [lia |].
  unfold GetSample16. fold base. fold useAddr.
  rewrite (ram_at_in G useAddr), (ram_at_in G (useAddr + 1)) by (unfold GUS_RAM_SIZE; lia).
  cbn [mbind option_bind]. fold lo. fold hi. rewrite (word_join lo hi (u8_range _) (u8_range _)).
  destruct (Z.ltb_spec (WaveAdd v) (Z.shiftl 1 WAVE_FRACT)) as [Hlt | Hge].
  - split; [intros Hc; lia |].
    destruct (Z.eq_dec useAddr 1048574) as [E | N].
    + rewrite (ram_at_out G (useAddr + 2)) by (unfold GUS_RAM_SIZE; lia).
      cbn [mbind option_bind].
      split; [intros _; split; [exact Hlt | exact E] | reflexivity].
    + rewrite (ram_at_in G (useAddr + 2)), (ram_at_in G (useAddr + 3))
        by (unfold GUS_RAM_SIZE; lia).
      cbn [mbind option_bind].
      split; [discriminate | intros [_ E]; contradiction].
  - split; [reflexivity |]. split; [discriminate | intros [Hc _]; lia].
Qed.

(** X24.  With sub-sample stepping the 16-bit sampler moves from the
    current word towards the next one by the fraction of the position, and
    it sign-extends the low byte of the next word before joining the two
    bytes: when that byte is 0x80 or more the high byte is lost and the next
    sample counts as the low byte minus 256. *)
Theorem GetSample16_next_sample (v : GUSChannels) (G : Globals) :
  0 <= WaveAddr v -> WaveAdd v < Z.shiftl 1 WAVE_FRACT ->
  let base := Z.shiftr (WaveAddr v) WAVE_FRACT in
  let useAddr := Z.lor (Z.land base 0xc0000) (Z.shiftl (Z.land base 0x1ffff) 1) in
  useAddr <> GUS_RAM_SIZE - 2 ->
  let byte k := u8 (GUSRam G (useAddr + k)) in
  let w1 := F32.of_Z (s16 (u8 (GUSRam G useAddr) + 256 * byte 1)) in
  let w2 := F32.of_Z (if byte 2 <? 128 then s16 (byte 2 + 256 * byte 3)
                      else byte 2 - 256) in
  let scale := F32.div (F32.of_Z (Z.land (WaveAddr v) WAVE_FRACT_MASK))
                       (F32.of_Z (Z.shiftl 1 WAVE_FRACT)) in
  GetSample16 v G = Some (F32.add w1 (F32.mul (F32.sub w2 w1) scale)).
Proof.
  intros Ha Hlt base useAddr Hn byte w1 w2 scale.
  assert (Hb : 0 <= base) by (apply Z.shiftr_nonneg; exact Ha).
  destruct (word_address base Hb) as (Hu & _ & k & Hk). fold useAddr in Hu, Hk.
  unfold GUS_RAM_SIZE in Hn.
  unfold GetSample16. fold base. fold useAddr.
  rewrite (ram_at_in G useAddr), (ram_at_in G (useAddr + 1)),
    (ram_at_in G (useAddr + 2)), (ram_at_in G (useAddr + 3)) by (unfold GUS_RAM_SIZE; lia).
  cbn [mbind option_bind].
  rewrite (word_join _ _ (u8_range _) (u8_range _)).
  destruct (Z.ltb_spec (WaveAdd v) (Z.shiftl 1 WAVE_FRACT)) as [_ | Hge]; [| lia].
  rewrite (next_join _ _ (u8_range _) (u8_range _)).
  reflexivity.
Qed.

Lemma GetSample16_current_sample_witness :
  let v := set_WaveAdd 512 (set_WaveAddr (Z.shiftl 0xdffff 9) (GUSChannels_new 0)) in
  let G := globals (GUS_members 0x240 3 5) in
  GetSample16 v G = Some (F32.of_Z 0) /\ GetSample16 (set_WaveAdd 511 v) G = None.
Proof.
  intros v G.
  destruct (GetSample16_current_sample v G ltac:(vm_compute; discriminate))
    as (_ & _ & H1 & _).
  destruct (GetSample16_current_sample (set_WaveAdd 511 v) G ltac:(vm_compute; discriminate))
    as (_ & _ & _ & [_ H2]).
  split.
  - rewrite H1 by (vm_compute; discriminate). reflexivity.
  - apply H2. split; reflexivity.
Defined.

Lemma GetSample16_next_sample_witness :
  let v := set_WaveAdd 256 (set_WaveAddr 256 (GUSChannels_new 0)) in
  let G := set_GUSRam (fun a => if a =? 2 then 0x80 else if a =? 3 then 0x7f else 0)
             (globals (GUS_members 0x240 3 5)) in
  GetSample16 v G = Some (F32.of_Z (-64)).
Proof.
  intros v G.
  rewrite (GetSample16_next_sample v G);
    [vm_compute; reflexivity | vm_compute; discriminate | reflexivity | vm_compute; discriminate].
Defined.

Lemma GetSample16_defined (v : GUSChannels) (G : Globals) :
  0 <= WaveAddr v < Z.shiftl 0xdffff WAVE_FRACT ->
  exists w, GetSample16 v G = Some w.
Proof.
  intros Ha.
  assert (Hb : 0 <= Z.shiftr (WaveAddr v) WAVE_FRACT < 0xdffff).
  { rewrite Z.shiftr_div_pow2 by (unfold WAVE_FRACT; lia).
    rewrite Z.shiftl_mul_pow2 in Ha by (unfold WAVE_FRACT; lia).
    change (2 ^ WAVE_FRACT) with 512 in *.
    split; [apply Z.div_pos; lia | apply Z.div_lt_upper_bound; lia]. }
  destruct (word_address _ (proj1 Hb)) as (Hu & Hc & _). specialize (Hc (proj2 Hb)).
  unfold GetSample16.
  set (base := Z.shiftr (WaveAddr v) WAVE_FRACT) in *.
  set (useAddr := Z.lor (Z.land base 0xc0000) (Z.shiftl (Z.land base 0x1ffff) 1)) in *.
  rewrite (ram_at_in G useAddr), (ram_at_in G (useAddr + 1)),
    (ram_at_in G (useAddr + 2)), (ram_at_in G (useAddr + 3)) by (unfold GUS_RAM_SIZE; lia).
  cbn [mbind option_bind]. destruct (_ <? _); eauto.
Qed.

Section Range.

Variable cos sin : spec_float -> spec_float.

Lemma generate_frame_in_range (v v' : GUSChannels) (G G' : Globals) (fr fr' : Frame.t) :
  generate_frame cos sin v G fr = Some (v', G', fr') ->
  wave_in_range v -> ramp_in_range v ->
  wave_in_range v' /\ ramp_in_range v' /\ same_bounds v v'.
Proof.
  unfold generate_frame. intros H Hw Hr. bind_inv H. bind_inv H. bind_inv H.
  match type of H with
  | context [WaveUpdate v ?b] =>
      pose proof (updates_in_range v b Hw Hr) as K; cbv zeta in K;
      destruct (WaveUpdate v b) as [v1 G1]
  end.
  cbn [fst snd] in K. destruct (RampUpdate v1 G1) as [v2 G2]. cbn [fst] in K.
  injection H as <- _ _. exact K.
Qed.

Lemma generate_frame_defined (v : GUSChannels) (G : Globals) (fr : Frame.t) :
  wave_in_range v -> ramp_in_range v -> end_in_memory v -> voice_typed v ->
  exists r, generate_frame cos sin v G fr = Some r.
Proof.
  intros (H0 & Hx & _) (R0 & Rx & Rh & _) Hm (Hp & _).
  unfold generate_frame.
  assert (Hs : exists w, call_getSample v G = Some w).
  { unfold call_getSample. unfold end_in_memory in Hm.
    destruct (getSample v).
    - apply GetSample8_defined. lia.
    - apply GetSample16_defined. lia. }
  destruct Hs as [w ->]. cbn [mbind option_bind].
  assert (Hv : exists vol, vol_scalars (CurrentVolIndex v) = Some vol).
  { unfold vol_scalars. destruct (Z.eqb_spec (CurrentVolIndex v) 0); [eauto |].
    destruct (Z.ltb_spec 0 (CurrentVolIndex v)), 
      (Z.ltb_spec (CurrentVolIndex v) GUS_VOLUME_POSITIONS); cbn [andb]; eauto; lia. }
  destruct Hv as [vol ->]. cbn [mbind option_bind].
  assert (Hpan : exists pan, pan_scalars cos sin (PanPot v) = Some pan).
  { unfold pan_scalars, GUS_PAN_POSITIONS.
    destruct (Z.leb_spec 0 (PanPot v)), (Z.ltb_spec (PanPot v) 16); cbn [andb]; eauto; lia. }
  destruct Hpan as [pan ->]. cbn [mbind option_bind].
  destruct (WaveUpdate _ _) as [v1 G1]. destruct (RampUpdate _ _) as [v2 G2]. eauto.
Qed.

Lemma generate_loop_in_range (len : nat) :
  forall (v v' : GUSChannels) (G G' : Globals) (stream stream' : list Frame.t),
    generate_loop cos sin len v G stream = Some (v', G', stream') ->
    wave_in_range v -> ramp_in_range v ->
    wave_in_range v' /\ ramp_in_range v' /\ same_bounds v v'.
Proof.
  induction len as [| n IH]; intros v v' G G' stream stream' H Hw Hr;
    cbn [generate_loop] in H.
  - injection H as <- _ _. auto using same_bounds_refl.
  - destruct stream as [| fr rest]; [discriminate |].
    bind_inv H. destruct (generate_frame_in_range _ _ _ _ _ _ Hx Hw Hr) as (W1 & R1 & B1).
    bind_inv H. destruct (IH _ _ _ _ _ _ Hx0 W1 R1) as (W2 & R2 & B2).
    injection H as <- _ _. eauto using same_bounds_trans.
Qed.

Lemma generate_loop_defined (len : nat) :
  forall (v : GUSChannels) (G : Globals) (stream : list Frame.t),
    wave_in_range v -> ramp_in_range v -> end_in_memory v -> voice_typed v ->
    (len <= length stream)%nat ->
    exists v' G' stream',
      generate_loop cos sin len v G stream = Some (v', G', stream') /\
      length stream' = length stream.
Proof.
  induction len as [| n IH]; intros v G stream Hw Hr Hm Ht Hl; cbn [generate_loop].
  - eauto.
  - destruct stream as [| fr rest]; [cbn in Hl; lia |].
    destruct (generate_frame_defined v G fr Hw Hr Hm Ht) as [[[v1 G1] fr1] E1].
    rewrite E1. cbn [mbind option_bind].
    destruct (generate_frame_in_range _ _ _ _ _ _ E1 Hw Hr) as (W1 & R1 & B1).
    destruct (generate_frame_vkeeps cos sin _ _ _ _ _ _ E1) as [K1 _].
    destruct (IH v1 G1 rest W1 R1 (end_in_memory_transfer _ _ B1 Hm) (K1 Ht)
                ltac:(cbn in Hl; lia)) as (v2 & G2 & rest2 & E2 & L2).
    rewrite E2. cbn [mbind option_bind].
    eexists _, _, _. split; [reflexivity |]. cbn [length]. rewrite L2. reflexivity.
Qed.

Lemma incr_generated_ms_in_range (v : GUSChannels) :
  (wave_in_range v -> wave_in_range (incr_generated_ms v)) /\
  (ramp_in_range v -> ramp_in_range (incr_generated_ms v)) /\
  same_bounds v (incr_generated_ms v).
Proof.
  unfold incr_generated_ms, wave_in_range, ramp_in_range, same_bounds.
  destruct (generated_ms v); fields; auto 20.
Qed.

(** X25.  A voice whose position is between its start and end address,
    whose volume index is between the start and end index of its ramp,
    that does not ask for rollover and whose loops are at least as long as
    one step, stays so while it is mixed: [generateSamples] leaves the
    position and the volume index within the same bounds, whatever the
    directions, the loop modes and the number of frames, and the bounds,
    the rates, the sampler and the pan position unchanged. *)
Theorem voice_stays_in_range (v v' : GUSChannels) (G G' : Globals)
    (stream stream' : list Frame.t) (len : Z) :
  wave_in_range v -> ramp_in_range v ->
  generateSamples cos sin v G stream len = Some (v', G', stream') ->
  wave_in_range v' /\ ramp_in_range v' /\ same_bounds v v' /\
  WaveStart v <= WaveAddr v' <= WaveEnd v /\
  StartVolIndex v <= CurrentVolIndex v' <= EndVolIndex v.
Proof.
  intros Hw Hr. unfold generateSamples.
  assert (Fin : forall u, wave_in_range u -> ramp_in_range u -> same_bounds v u ->
                wave_in_range u /\ ramp_in_range u /\ same_bounds v u /\
                WaveStart v <= WaveAddr u <= WaveEnd v /\
                StartVolIndex v <= CurrentVolIndex u <= EndVolIndex v).
  { intros u Hu Hru B.
    pose proof Hu as (_ & Ux & _). pose proof Hru as (_ & Rx & _).
    pose proof B as (B1 & B2 & _ & B4 & B5 & _).
    rewrite <- B1, <- B2, <- B4, <- B5.
    split; [exact Hu |]. split; [exact Hru |]. split; [exact B |].
    split; [exact Ux | exact Rx]. }
  destruct (nz _); intros H.
  - injection H as <- _ _. apply Fin; auto using same_bounds_refl.
  - bind_inv H. injection H as <- _ _.
    destruct (generate_loop_in_range _ _ _ _ _ _ _ Hx Hw Hr) as (W1 & R1 & B1).
    destruct (incr_generated_ms_in_range g) as (I1 & I2 & I3).
    apply Fin; eauto using same_bounds_trans.
Qed.

(** X26.  A voice within its bounds (position between start and end
    address, volume index between the bounds of its ramp, no rollover,
    loops at least one step long), with its end address in the card's
    memory (for the 16-bit sampler: below the last word of the last bank,
    where its read of the next word would leave the memory) and its pan
    position in the table, is mixed without a fault:
    for every number of frames the stream has room for, [generateSamples]
    returns, reading no sample outside the memory and no entry outside the
    volume and pan tables, and the stream keeps its length. *)
Theorem voice_in_range_is_mixed (v : GUSChannels) (G : Globals)
    (stream : list Frame.t) (len : Z) :
  wave_in_range v -> ramp_in_range v -> end_in_memory v -> voice_typed v ->
  len <= Z.of_nat (length stream) ->
  exists v' G' stream',
    generateSamples cos sin v G stream len = Some (v', G', stream') /\
    length stream' = length stream.
Proof.
  intros Hw Hr Hm Ht Hl. unfold generateSamples.
  destruct (nz _); [eauto 10 |].
  destruct (generate_loop_defined (Z.to_nat len) v G stream Hw Hr Hm Ht ltac:(lia))
    as (v1 & G1 & stream1 & E & L).
  rewrite E. cbn [mbind option_bind]. eauto 10.
Qed.

End Range.

Lemma voice_stays_in_range_witness :
  let v := set_WaveAdd 1536 (set_WaveEnd 2048 (set_WaveCtrl 0x18 (GUSChannels_new 0))) in
  let G := globals (GUS_members 0x240 3 5) in
  let stream := replicate 4 (Frame.mk F32.zero F32.zero) in
  exists v' G' stream',
    generateSamples cos_ref sin_ref v G stream 4 = Some (v', G', stream') /\
    WaveStart v <= WaveAddr v' <= WaveEnd v.
Proof.
  intros v G stream.
  destruct (generateSamples cos_ref sin_ref v G stream 4) as [[[v' G'] stream'] |] eqn:E;
    [| vm_compute in E; discriminate].
  destruct (voice_stays_in_range cos_ref sin_ref v v' G G' stream stream' 4)
    as (_ & _ & _ & H & _).
  - unfold wave_in_range. cbn. repeat split; try lia; try reflexivity; try discriminate.
  - unfold ramp_in_range. cbn. repeat split; try lia; try reflexivity; try discriminate.
  - exact E.
  - exists v', G', stream'. split; [reflexivity | exact H].
Defined.

Lemma voice_in_range_is_mixed_witness :
  let v := set_WaveAdd 1536 (set_WaveEnd 2048 (set_WaveCtrl 0x18 (GUSChannels_new 0))) in
  let G := globals (GUS_members 0x240 3 5) in
  let stream := replicate 4 (Frame.mk F32.zero F32.zero) in
  exists v' G' stream',
    generateSamples cos_ref sin_ref v G stream 4 = Some (v', G', stream') /\
    length stream' = length stream.
Proof.
  intros v G stream.
  apply (voice_in_range_is_mixed cos_ref sin_ref v G stream 4).
  - unfold wave_in_range. cbn. repeat split; try lia; try reflexivity; try discriminate.
  - unfold ramp_in_range. cbn. repeat split; try lia; try reflexivity; try discriminate.
  - unfold end_in_memory. vm_compute. reflexivity.
  - unfold voice_typed. cbn. repeat split; try lia; try reflexivity.
  - cbn. lia.
Defined.

(** ** A card whose voices are all disabled *)

Lemma mapM_replicate {A B : Type} (f : A -> option B) (x : A) (y : B) (n : nat) :
  f x = Some y -> mapM f (replicate n x) = Some (replicate n y).
Proof.
  intros H. induction n as [| n IH]; [reflexivity |].
  cbn [replicate mapM]. rewrite H. cbn [mbind option_bind]. rewrite IH. reflexivity.
Qed.

Lemma truncate_silence (n : nat) (len : Z) :
  0 <= len <= Z.of_nat n ->
  truncate_frames (replicate n (Frame.mk F32.zero F32.zero)) len =
  Some (replicate (Z.to_nat len) (0, 0)).
Proof.
  intros Hl. unfold truncate_frames. rewrite take_replicate.
  replace (Z.to_nat len `min` n)%nat with (Z.to_nat len) by lia.
  apply mapM_replicate. reflexivity.
Qed.

(** The effects of [CheckVoiceIrq]: at most one request for the IRQ line. *)
Lemma CheckVoiceIrq_effects (G G' : Globals) :
  CheckVoiceIrq G = Some G' ->
  effects G' = effects G \/
  effects G' = PIC_ActivateIRQ (irq1 (myGUS G)) :: effects G.
Proof.
  unfold CheckVoiceIrq, GUS_CheckIRQ. fields.
  destruct (negb _).
  - intros H. injection H as <-. left. reflexivity.
  - intros H. bind_inv H. injection H as <-. clear Hx.
    split_ifs; fields; auto.
Qed.

Section Silence.

Variable cos sin : spec_float -> spec_float.

Lemma generate_voices_disabled (vs : list GUSChannels) (G : Globals)
    (acc : list Frame.t) (len : Z) :
  Forall (fun v => Z.land (Z.land (RampCtrl v) (WaveCtrl v)) 3 <> 0) vs ->
  generate_voices cos sin vs G acc len = Some (vs, G, acc).
Proof.
  induction 1 as [| v vs Hv _ IH]; cbn [generate_voices]; [reflexivity |].
  rewrite (generateSamples_disabled cos sin v G acc len Hv). cbn [mbind option_bind].
  rewrite IH. reflexivity.
Qed.

(** X27.  When every active voice of a reachable card is disabled (both
    stop bits set in its wave and ramp control, as after a reset) and the
    peaks are below the limiter's threshold, the mix callback hands the
    mixer exactly [len] frames of silence; it leaves the voices, the
    selected voice, the memory and the peaks as they are, and besides the
    frames the only call it may make is a request of the IRQ line, which
    [CheckVoiceIrq] makes for an interrupt that is still pending. *)
Theorem disabled_card_mixes_silence (s : State) (len : Z) :
  reachable cos sin s ->
  (forall i v, guschan s !! i = Some v ->
     Z.of_nat i < ActiveChannels (myGUS (globals s)) ->
     Z.land (Z.land (RampCtrl v) (WaveCtrl v)) 3 <> 0) ->
  SFltb (Frame.left (peak_amplitude (myGUS (globals s)))) max_allowed = true ->
  SFltb (Frame.right (peak_amplitude (myGUS (globals s)))) max_allowed = true ->
  0 <= len <= GUS_BUFFER_FRAMES ->
  exists s',
    GUS_CallBack cos sin s len = Some s' /\
    guschan s' = guschan s /\ curchan s' = curchan s /\
    peak_amplitude (myGUS (globals s')) = peak_amplitude (myGUS (globals s)) /\
    GUSRam (globals s') = GUSRam (globals s) /\
    let silence := Mixer_AddSamples_s16 (replicate (Z.to_nat len) (0, 0)) in
    (effects (globals s') = silence :: effects (globals s) \/
     effects (globals s') =
       PIC_ActivateIRQ (irq1 (myGUS (globals s))) :: silence :: effects (globals s)).
Proof.
  intros Hr Hdis Hpl Hpr Hlen.
  destruct (reachable_card_ok cos sin s Hr) as ([Hl32 Hvs] & Hg & Hc).
  pose proof Hg as [Hact _].
  assert (Hn : 0 <= ActiveChannels (myGUS (globals s)) <= 32)
    by (destruct Hact as [[-> _] | [? _]]; lia).
  unfold GUS_CallBack.
  destruct (Z.ltb_spec GUS_BUFFER_FRAMES len) as [Hgt | _]; [lia |].
  unfold accumulate.
  destruct (Z.ltb_spec (Z.of_nat (length (guschan s))) (ActiveChannels (myGUS (globals s))))
    as [Hlt | _]; [lia |].
  rewrite generate_voices_disabled.
  2:{ apply Forall_lookup. intros i v Hi.
      apply lookup_take_Some in Hi as [Hi Hlt]. apply (Hdis i v Hi). lia. }
  cbn [mbind option_bind]. rewrite take_drop. fields.
  unfold scale_accumulator, SoftLimit. rewrite Hpl, Hpr. cbn [andb mbind option_bind].
  rewrite truncate_silence by (unfold GUS_BUFFER_FRAMES in *; lia).
  cbn [mbind option_bind].
  set (silence := Mixer_AddSamples_s16 (replicate (Z.to_nat len) (0, 0))).
  destruct (CheckVoiceIrq_returns (emit silence (globals s))) as [G' E].
  { exact Hg. }
  rewrite E. cbn [mbind option_bind].
  exists (set_globals G' (set_guschan (guschan s) (set_globals (globals s) s))).
  split; [reflexivity |]. fields.
  split; [reflexivity |]. split; [reflexivity |].
  destruct (CheckVoiceIrq_frame _ _ E) as (_ & F2 & c & st & w & r & F3).
  split; [rewrite F3; reflexivity |]. split; [exact F2 |].
  apply CheckVoiceIrq_effects in E. exact E.
Qed.

End Silence.

Lemma disabled_card_mixes_silence_witness :
  exists s s',
    after [outb 0x303 0x0E; outb 0x305 0x0D] = Some s /\
    ActiveChannels (myGUS (globals s)) = 14 /\
    GUS_CallBack cos_ref sin_ref s 64 = Some s' /\
    guschan s' = guschan s.
Proof.
  destruct (after [outb 0x303 0x0E; outb 0x305 0x0D]) as [s |] eqn:E;
    [| vm_compute in E; discriminate].
  pose proof (after_reachable _ _ E) as Hr.
  assert (Hv : Forall (fun v => Z.land (Z.land (RampCtrl v) (WaveCtrl v)) 3 <> 0) (guschan s)).
  { vm_compute in E. injection E as <-. cbn [guschan].
    repeat (constructor; [vm_compute; discriminate |]). constructor. }
  assert (Ha : ActiveChannels (myGUS (globals s)) = 14)
    by (vm_compute in E; injection E as <-; reflexivity).
  assert (Hp : peak_amplitude (myGUS (globals s)) = Frame.mk F32.one F32.one)
    by (vm_compute in E; injection E as <-; reflexivity).
  destruct (disabled_card_mixes_silence cos_ref sin_ref s 64 Hr)
    as (s' & H1 & H2 & _).
  - intros i v Hi _. exact (proj1 (Forall_lookup _ _) Hv i v Hi).
  - rewrite Hp. reflexivity.
  - rewrite Hp. reflexivity.
  - unfold GUS_BUFFER_FRAMES. lia.
  - exists s, s'. split; [reflexivity |]. auto.
Defined.

(** ** The constructor *)

(** X28.  Whatever the configured base port, DMA channel and IRQ, the
    constructor yields a card: 32 voices, voice [n] numbered [n] and as a
    reset leaves a fresh voice (stopped, volume index 0, centre pan); no
    voice selected and no voice active; the ports at the configured base;
    both DMA channels and both IRQ lines set to the configured value, or
    to 3 and 5 when that is not in [0, 255]; the mix control 0x0b, the
    AdLib command register 85; no interrupt pending or requested and
    nothing scheduled. *)
Theorem constructed_card (gusbase gusdma gusirq : Z) :
  exists s,
    GUS_new gusbase gusdma gusirq = Some s /\
    guschan s = (fun n => reset_voice (GUSChannels_new n)) <$> seqZ 0 32 /\
    curchan s = None /\
    (let g := myGUS (globals s) in
     portbase g = gusbase - 0x200 /\
     dma1 g = (if (gusdma <? 0) || (255 <? gusdma) then 3 else gusdma) /\
     dma2 g = dma1 g /\
     irq1 g = (if (gusirq <? 0) || (255 <? gusirq) then 5 else gusirq) /\
     irq2 g = irq1 g /\
     ActiveChannels g = 0 /\ ActiveMask g = 0 /\
     IRQStatus g = 0 /\ WaveIRQ g = 0 /\ RampIRQ g = 0 /\ IRQChan g = 0 /\
     mixControl g = 0x0b /\ irqenabled g = false /\
     gRegSelect g = 0 /\ gRegData g = 0 /\ gDramAddr g = 0 /\
     running (fst (timers g)) = false /\ running (snd (timers g)) = false /\
     peak_amplitude g = Frame.mk F32.one F32.one) /\
    adlib_commandreg (globals s) = 85 /\
    effects (globals s) = [].
Proof.
  unfold GUS_new, GUS_members, set_portbase_new. cbv zeta.
  set (dv := if (gusdma <? 0) || (255 <? gusdma) then 3 else gusdma).
  set (iv := if (gusirq <? 0) || (255 <? gusirq) then 5 else gusirq).
  assert (Hd : u8 dv = dv).
  { unfold dv. destruct (Z.ltb_spec gusdma 0), (Z.ltb_spec 255 gusdma); cbn [orb];
      try reflexivity. apply Z.mod_small. lia. }
  assert (Hi : u8 iv = iv).
  { unfold iv. destruct (Z.ltb_spec gusirq 0), (Z.ltb_spec 255 gusirq); cbn [orb];
      try reflexivity. apply Z.mod_small. lia. }
  rewrite Hd, Hi. clear Hd Hi. clearbody dv iv.
  generalize (gusbase - 0x200) as pb. intros pb.
  match goal with
  | |- exists s, ?X = Some s /\ _ =>
      let v := eval vm_compute in X in
      match v with
      | Some ?s0 => exists s0; split; [vm_compute; reflexivity |]
      end
  end.
  split; [vm_compute; reflexivity |].
  split; [reflexivity |].
  cbv zeta. cbn [globals myGUS portbase dma1 dma2 irq1 irq2 ActiveChannels ActiveMask
                 IRQStatus WaveIRQ RampIRQ IRQChan mixControl irqenabled gRegSelect
                 gRegData gDramAddr timers fst snd running peak_amplitude
                 adlib_commandreg effects].
  repeat split; reflexivity.
Qed.

(** ** The DMA control register read *)

Lemma dma_status_bits (D st n : Z) :
  0 <= n < 8 ->
  Z.testbit (Z.land (u16 (Z.shiftl (u8 (Z.lor (u8 (Z.land D 0xbf))
                                          (Z.shiftr (Z.land st 0x80) 1))) 8)) 0xffff)
            (n + 8) =
  if n =? 6 then Z.testbit st 7 else Z.testbit D n.
Proof.
  intros Hn. unfold u16, u8.
  rewrite Z.land_spec, Z.mod_pow2_bits_low, Z.shiftl_spec by lia.
  replace (n + 8 - 8) with n by lia.
  rewrite Z.mod_pow2_bits_low, Z.lor_spec, Z.mod_pow2_bits_low by lia.
  rewrite !Z.land_spec, Z.shiftr_spec, Z.land_spec by lia.
  assert (n = 0 \/ n = 1 \/ n = 2 \/ n = 3 \/ n = 4 \/ n = 5 \/ n = 6 \/ n = 7)
    as [-> | [-> | [-> | [-> | [-> | [-> | [-> | ->]]]]]]] by lia;
    repeat match goal with
           | |- context [Z.testbit _ (?a + 1)] =>
               let e := eval vm_compute in (a + 1) in change (a + 1) with e
           end;
    repeat match goal with
           | |- context [Z.testbit D ?k] => generalize (Z.testbit D k); intro
           | |- context [Z.testbit st ?k] => generalize (Z.testbit st k); intro
           end;
    vm_compute;
    repeat match goal with
           | b : bool |- _ => destruct b
           end; reflexivity.
Qed.

(** X29.  Register 0x41 reads back, in the high byte, the DMA control
    byte with bit 6 replaced by the terminal-count interrupt flag (bit 7
    of the IRQ status), and the read acknowledges that interrupt: it clears
    the flag, so that a second read finds bit 6 clear, and it changes
    nothing else.  Register 0x49 returns the same value without
    acknowledging. *)
Theorem dma_control_read_acknowledges (s : State) :
  let st := IRQStatus (myGUS (globals s)) in
  let D := DMAControl (myGUS (globals s)) in
  exists r s1 r1 s2 s3,
    read_register s 0x41 = Some (r, s1) /\
    (forall n, 0 <= n < 8 ->
       Z.testbit r (n + 8) = if n =? 6 then Z.testbit st 7 else Z.testbit D n) /\
    IRQStatus (myGUS (globals s1)) = Z.land st 0x7f /\
    DMAControl (myGUS (globals s1)) = D /\
    guschan s1 = guschan s /\ curchan s1 = curchan s /\
    effects (globals s1) = effects (globals s) /\
    read_register s1 0x41 = Some (r1, s2) /\
    Z.testbit r1 14 = false /\
    read_register s 0x49 = Some (r, s3) /\
    IRQStatus (myGUS (globals s3)) = st.
Proof.
  intros st D.
  eexists _, _, _, _, _.
  split; [rewrite read_register_exec; exec_register 0x41; reflexivity |].
  split; [intros n Hn; apply dma_status_bits; exact Hn |].
  fields. do 5 (split; [reflexivity |]).
  split; [rewrite read_register_exec; exec_register 0x41; reflexivity |].
  split.
  { rewrite (dma_status_bits _ _ 6 ltac:(lia)). cbn [Z.eqb Pos.eqb].
    rewrite Z.land_spec. apply andb_false_r. }
  split; [rewrite read_register_exec; exec_register 0x49; reflexivity |].
  reflexivity.
Qed.

Lemma dma_control_read_acknowledges_example :
  let s := set_globals
             (upd (set_DMAControl 0x21)
                (upd (set_IRQStatus 0x80) (globals (GUS_members 0x240 3 5))))
             (GUS_members 0x240 3 5) in
  (r ← read_register s 0x41; r' ← read_register r.2 0x41; Some (r.1, r'.1)) =
  Some (0x6100, 0x2100).
Proof. vm_compute. reflexivity. Qed.

(** ** A sample played once *)

Lemma land_sub_mask (c m k : Z) : Z.land c m = 0 -> Z.land m k = k -> Z.land c k = 0.
Proof. intros Hc Hk. rewrite <- Hk, Z.land_assoc, Hc. reflexivity. Qed.

(** A forward step of a running voice without loop that stays below the
    end address. *)
Lemma WaveUpdate_forward (u : GUSChannels) (G : Globals) :
  Z.land (WaveCtrl u) 0x4b = 0 ->
  0 <= WaveAddr u -> WaveAddr u + WaveAdd u < WaveEnd u -> WaveEnd u < 2 ^ 31 ->
  0 <= WaveAdd u ->
  WaveUpdate u G = (set_WaveAddr (WaveAddr u + WaveAdd u) u, G).
Proof.
  intros Hc Ha Hlt He Hd. unfold WaveUpdate.
  change (Z.lor WCTRL_STOP WCTRL_STOPPED) with 3. unfold WCTRL_DECREASING.
  rewrite (land_sub_mask _ _ 3 Hc eq_refl), (land_sub_mask _ _ 0x40 Hc eq_refl).
  cbn [nz Z.eqb negb]. fields.
  rewrite (land_sub_mask _ _ 0x40 Hc eq_refl). cbn [nz Z.eqb negb].
  rewrite u32_small by lia. rewrite s32_small by lia.
  destruct (Z.ltb_spec (WaveAddr u + WaveAdd u - WaveEnd u) 0); [reflexivity | lia].
Qed.

(** The step that reaches the end address. *)
Lemma WaveUpdate_reaches_end (u : GUSChannels) (G : Globals) :
  Z.land (WaveCtrl u) 0x4b = 0 -> Z.land (RampCtrl u) 0x04 = 0 ->
  0 <= WaveAddr u -> WaveAddr u < WaveEnd u -> WaveEnd u <= WaveAddr u + WaveAdd u ->
  WaveEnd u < 2 ^ 31 -> 0 <= WaveAdd u < 2 ^ 31 ->
  WaveUpdate u G =
  (set_WaveAddr (WaveEnd u) (set_WaveCtrl (Z.lor (WaveCtrl u) 1) u),
   if Z.testbit (WaveCtrl u) 5
   then upd (fun g => set_WaveIRQ (Z.lor (WaveIRQ g) (irqmask u)) g) G else G).
Proof.
  intros Hc Hr Ha Hlt Hge He Hd. unfold WaveUpdate.
  change (Z.lor WCTRL_STOP WCTRL_STOPPED) with 3. unfold WCTRL_DECREASING, WCTRL_LOOP.
  rewrite (land_sub_mask _ _ 3 Hc eq_refl), (land_sub_mask _ _ 0x40 Hc eq_refl).
  cbn [nz Z.eqb negb]. fields.
  rewrite (land_sub_mask _ _ 0x40 Hc eq_refl), (land_sub_mask _ _ 0x08 Hc eq_refl), Hr.
  cbn [nz Z.eqb negb].
  rewrite u32_small by lia. rewrite s32_small by lia.
  destruct (Z.ltb_spec (WaveAddr u + WaveAdd u - WaveEnd u) 0); [lia |].
  rewrite (bit_of_mask (WaveCtrl u) 5 0x20) by (reflexivity || lia).
  assert (E : nz (Z.land (Z.lor (WaveCtrl u) 1) 64) = false).
  { apply nz_false. rewrite Z.land_lor_distr_l, (land_sub_mask _ _ 0x40 Hc eq_refl).
    reflexivity. }
  rewrite E. reflexivity.
Qed.

(** A stopped voice stays as it is. *)
Lemma WaveUpdate_stopped_bit (u : GUSChannels) (G : Globals) :
  Z.testbit (WaveCtrl u) 0 = true -> WaveUpdate u G = (u, G).
Proof.
  intros H. unfold WaveUpdate.
  assert (E : nz (Z.land (WaveCtrl u) (Z.lor WCTRL_STOP WCTRL_STOPPED)) = true).
  { apply nz_true. intros Hz.
    assert (T : Z.testbit (Z.land (WaveCtrl u) (Z.lor WCTRL_STOP WCTRL_STOPPED)) 0 = true)
      by (rewrite Z.land_spec, H; reflexivity).
    rewrite Hz, Z.bits_0 in T. discriminate. }
  rewrite E. reflexivity.
Qed.

Lemma wave_steps_S (n : nat) (v : GUSChannels) (G : Globals) :
  wave_steps (S n) v G =
  WaveUpdate (fst (wave_steps n v G)) (snd (wave_steps n v G)).
Proof. reflexivity. Qed.

(** The voice after [k] steps that all stay below the end address. *)
Lemma wave_steps_forward (v : GUSChannels) (G : Globals) (k : nat) :
  Z.land (WaveCtrl v) 0x4b = 0 ->
  0 <= WaveAddr v -> WaveEnd v < 2 ^ 31 -> 0 <= WaveAdd v ->
  WaveAddr v + Z.of_nat k * WaveAdd v < WaveEnd v ->
  snd (wave_steps k v G) = G /\
  set_WaveAddr 0 (fst (wave_steps k v G)) = set_WaveAddr 0 v /\
  WaveAddr (fst (wave_steps k v G)) = WaveAddr v + Z.of_nat k * WaveAdd v.
Proof.
  intros Hc Ha He Hd. induction k as [| k IH]; intros Hk.
  - cbn. split; [reflexivity |]. split; [reflexivity | lia].
  - destruct IH as (IG & IQ & IA); [nia |].
    rewrite wave_steps_S.
    set (u := fst (wave_steps k v G)) in *.
    assert (Ec : WaveCtrl u = WaveCtrl v) by exact (f_equal WaveCtrl IQ).
    assert (Ee : WaveEnd u = WaveEnd v) by exact (f_equal WaveEnd IQ).
    assert (Ed : WaveAdd u = WaveAdd v) by exact (f_equal WaveAdd IQ).
    rewrite IG, WaveUpdate_forward by (rewrite ?Ec, ?Ee, ?Ed, ?IA; first [assumption | nia]).
    cbn [fst snd]. split; [reflexivity |].
    split; [exact IQ |]. fields. rewrite IA, Ed. lia.
Qed.

(** X30.  A running voice that plays forward without loop and without
    rollover, from a position below its end address with a positive step,
    advances by its step per frame until a step reaches or passes the end
    address: that step, the [n]-th with [n] the distance to the end
    divided by the step and rounded up, puts the voice on its end address
    and stops it (bit 0 of the wave control), and raises the wave
    interrupt of the voice exactly when bit 5 of the wave control is set.
    From then on the voice stays as it is. *)
Theorem one_shot_voice_ends (v : GUSChannels) (G : Globals) :
  Z.land (WaveCtrl v) 0x4b = 0 -> Z.land (RampCtrl v) 0x04 = 0 ->
  0 <= WaveAddr v < WaveEnd v -> WaveEnd v < 2 ^ 31 -> 0 < WaveAdd v < 2 ^ 31 ->
  let n := Z.to_nat ((WaveEnd v - WaveAddr v + WaveAdd v - 1) / WaveAdd v) in
  (forall k, (k < n)%nat ->
     WaveAddr (fst (wave_steps k v G)) = WaveAddr v + Z.of_nat k * WaveAdd v /\
     WaveAddr (fst (wave_steps k v G)) < WaveEnd v /\
     WaveCtrl (fst (wave_steps k v G)) = WaveCtrl v /\
     snd (wave_steps k v G) = G) /\
  (forall m, (n <= m)%nat ->
     WaveAddr (fst (wave_steps m v G)) = WaveEnd v /\
     WaveCtrl (fst (wave_steps m v G)) = Z.lor (WaveCtrl v) 1 /\
     snd (wave_steps m v G) =
       if Z.testbit (WaveCtrl v) 5
       then upd (fun g => set_WaveIRQ (Z.lor (WaveIRQ g) (irqmask v)) g) G else G).
Proof.
  intros Hc Hr Ha He Hd n.
  set (q := (WaveEnd v - WaveAddr v + WaveAdd v - 1) / WaveAdd v) in *.
  assert (Hq : (q - 1) * WaveAdd v < WaveEnd v - WaveAddr v <= q * WaveAdd v).
  { pose proof (Z.div_mod (WaveEnd v - WaveAddr v + WaveAdd v - 1) (WaveAdd v) ltac:(lia)) as E.
    pose proof (Z.mod_pos_bound (WaveEnd v - WaveAddr v + WaveAdd v - 1) (WaveAdd v)
                  ltac:(lia)) as B.
    fold q in E. nia. }
  assert (Hq1 : 1 <= q) by nia.
  assert (Hn : Z.of_nat n = q) by (unfold n; lia).
  assert (Before : forall k, (k < n)%nat ->
            WaveAddr v + Z.of_nat k * WaveAdd v < WaveEnd v) by (intros k Hk; nia).
  split.
  - intros k Hk.
    destruct (wave_steps_forward v G k Hc ltac:(lia) He ltac:(lia) (Before k Hk))
      as (IG & IQ & IA).
    split; [exact IA |]. split; [rewrite IA; exact (Before k Hk) |].
    split; [exact (f_equal WaveCtrl IQ) | exact IG].
  - assert (At : WaveAddr (fst (wave_steps n v G)) = WaveEnd v /\
                 WaveCtrl (fst (wave_steps n v G)) = Z.lor (WaveCtrl v) 1 /\
                 snd (wave_steps n v G) =
                   if Z.testbit (WaveCtrl v) 5
                   then upd (fun g => set_WaveIRQ (Z.lor (WaveIRQ g) (irqmask v)) g) G
                   else G).
    { destruct n as [| k]; [lia |].
      destruct (wave_steps_forward v G k Hc ltac:(lia) He ltac:(lia) (Before k ltac:(lia)))
        as (IG & IQ & IA).
      rewrite wave_steps_S.
      set (u := fst (wave_steps k v G)) in *.
      assert (Ec : WaveCtrl u = WaveCtrl v) by exact (f_equal WaveCtrl IQ).
      assert (Er : RampCtrl u = RampCtrl v) by exact (f_equal RampCtrl IQ).
      assert (Ee : WaveEnd u = WaveEnd v) by exact (f_equal WaveEnd IQ).
      assert (Ed : WaveAdd u = WaveAdd v) by exact (f_equal WaveAdd IQ).
      assert (Em : irqmask u = irqmask v) by exact (f_equal irqmask IQ).
      rewrite IG, WaveUpdate_reaches_end
        by (rewrite ?Ec, ?Er, ?Ee, ?Ed, ?IA; first [assumption | nia]).
      cbn [fst snd]. fields. rewrite Ee, Ec, Em. auto. }
    intros m Hm. induction m as [| m IH].
    + assert (n = O) by lia. lia.
    + destruct (Nat.eq_dec n (S m)) as [<- | Hne]; [exact At |].
      destruct IH as (I1 & I2 & I3); [lia |].
      rewrite wave_steps_S, WaveUpdate_stopped_bit.
      * auto.
      * rewrite I2, Z.lor_spec. apply orb_true_r.
Qed.

Lemma one_shot_voice_ends_witness :
  let v := set_WaveAdd 512 (set_WaveEnd 1536 (set_WaveCtrl 0x20 (GUSChannels_new 0))) in
  let G := globals (GUS_members 0x240 3 5) in
  WaveAddr (fst (wave_steps 2 v G)) = 1024 /\
  WaveAddr (fst (wave_steps 3 v G)) = 1536 /\
  WaveCtrl (fst (wave_steps 3 v G)) = 0x21 /\
  WaveIRQ (myGUS (snd (wave_steps 3 v G))) = 1.
Proof.
  intros v G.
  destruct (one_shot_voice_ends v G) as [B A];
    [reflexivity | reflexivity | cbn; lia | cbn; lia | cbn; lia |].
  destruct (B 2%nat ltac:(vm_compute; lia)) as (B1 & _).
  destruct (A 3%nat ltac:(vm_compute; lia)) as (A1 & A2 & A3).
  split; [rewrite B1; reflexivity |].
  split; [rewrite A1; reflexivity |].
  split; [rewrite A2; reflexivity |].
  rewrite A3. reflexivity.
Defined.
